(** * A shallow embedding of the DEFLATE decoder [inflator.c]

    The development follows the C source function by function.  The
    configuration embedded is the 64-bit one ([CTB_ENV64]: [uintxx] and the
    bit buffer [BBTYPE] are 64 bits wide, [FASTSRCLEFT] is 14 and
    [FASTTGTLEFT] is 274), with the portable branches of the conditional
    code ([clzero24] by table, [FILLBBUFFER] and the match copy byte by
    byte).

    Unsigned C integers are values of [Z] with the wrap-around written out
    ([u8], [u16], [u32], [uxx]).  Arrays are lists, pointers are offsets
    into them; an access outside an array, a shift by the width of the type
    or more, and a dereference of a null or never assigned pointer are
    undefined in C and make the embedded function return [None] or
    [Undefined]. *)

From Stdlib Require Import ZArith List Lia Bool.
Import ListNotations.
Open Scope Z_scope.

(** ** Machine integers *)

Definition u8  (x : Z) : Z := x mod 2 ^ 8.
Definition u16 (x : Z) : Z := x mod 2 ^ 16.
Definition u32 (x : Z) : Z := x mod 2 ^ 32.
Definition uxx (x : Z) : Z := x mod 2 ^ 64.

(** [x << n] and [x >> n] on a 64-bit unsigned operand. *)
Definition shl64 (x n : Z) : option Z :=
  if (0 <=? n) && (n <? 64) then Some (uxx (Z.shiftl x n)) else None.

Definition shr64 (x n : Z) : option Z :=
  if (0 <=? n) && (n <? 64) then Some (Z.shiftr x n) else None.

(** ** Arrays *)

Definition nthZ {A : Type} (l : list A) (i : Z) : option A :=
  if i <? 0 then None else nth_error l (Z.to_nat i).

Definition updZ {A : Type} (l : list A) (i : Z) (x : A) : option (list A) :=
  if (0 <=? i) && (i <? Z.of_nat (length l))
  then Some (firstn (Z.to_nat i) l ++ x :: skipn (S (Z.to_nat i)) l)
  else None.

Definition obind {A B : Type} (m : option A) (k : A -> option B) : option B :=
  match m with
  | Some a => k a
  | None => None
  end.

Declare Scope opt_scope.
Delimit Scope opt_scope with opt.
Notation "x <-? m ;; k" := (obind m (fun x => k))
  (at level 61, m at next level, right associativity) : opt_scope.
Notation "' p <-? m ;; k" := (obind m (fun x => match x with p => k end))
  (at level 61, p pattern, m at next level, right associativity) : opt_scope.

(** ** Format constants *)

Definition DEFLT_MAXBITS  : Z := 15.
Definition DEFLT_WINDOWSZ : Z := 32768.
Definition WNDWSIZE       : Z := DEFLT_WINDOWSZ.

Definition LROOTBITS : Z := 9.
Definition DROOTBITS : Z := 7.
Definition CROOTBITS : Z := 7.

Definition DEFLT_LMAXSYMBOL : Z := 288.
Definition DEFLT_DMAXSYMBOL : Z := 32.
Definition DEFLT_CMAXSYMBOL : Z := 19.

Definition ENOUGHL : Z := 854.
Definition ENOUGHD : Z := 402.

(** Modelled from the spec: the header [inflator.h] is not among the
    sources; it declares the result enumeration of [inflator_inflate]
    (OK, SOURCE_EXHAUSTED, TARGET_EXHAUSTED, ERROR), the error kinds stored
    on the decoder and the bad-state marker.  The code fixes [INFLT_OK] to
    zero (it tests results against 0) and needs the other results to be
    distinct and nonzero, the error kinds to be nonzero, and the bad-state
    marker to be none of the block states 0 to 5; the numbers chosen here
    are otherwise immaterial. *)
Definition INFLT_OK        : Z := 0.
Definition INFLT_SRCEXHSTD : Z := 1.
Definition INFLT_TGTEXHSTD : Z := 2.
Definition INFLT_ERROR     : Z := 3.

Definition INFLT_EBADSTATE     : Z := 1.
Definition INFLT_EBADCODE      : Z := 2.
Definition INFLT_EBADTREE      : Z := 3.
Definition INFLT_EFAROFFSET    : Z := 4.
Definition INFLT_EBADBLOCK     : Z := 5.
Definition INFLT_EINPUTEND     : Z := 6.
Definition INFLT_EINCORRECTUSE : Z := 7.
Definition INFLT_EOOM          : Z := 8.

Definition INFLT_BADSTATE : Z := 0xDEADBEEF.

(** ** Table entries *)

Module TEntry.
(** [struct TINFLTTEntry]. *)
Record t : Type := mk { info : Z; etag : Z; length : Z }.
End TEntry.

Abbreviation TINFLTTEntry := TEntry.t.
Abbreviation E := TEntry.mk.

(** Tags of the table entries; 0 to 13 is the number of extra bits. *)
Definition LITERALSYMBOL : Z := 0x10.
Definition ENDOFBLOCK    : Z := 0x11.
Definition SUBTABLEENTRY : Z := 0x12.
Definition INVALIDCODE   : Z := 0x13.

(** Symbol information: base value and extra bits. *)
Record TSInfo : Type := SI { base : Z; extrabits : Z }.

(** The nibble reversal table of [reversecode]. *)
Definition rtable : list Z := [
  0; 8; 4; 12;
  2; 10; 6; 14;
  1; 9; 5; 13;
  3; 11; 7; 15].

(** The leading-zero table of [clzero24]. *)
Definition clztable : list Z := [
  8; 7; 6; 6; 5; 5; 5; 5; 4; 4; 4; 4; 4; 4; 4; 4;
  3; 3; 3; 3; 3; 3; 3; 3; 3; 3; 3; 3; 3; 3; 3; 3;
  2; 2; 2; 2; 2; 2; 2; 2; 2; 2; 2; 2; 2; 2; 2; 2;
  2; 2; 2; 2; 2; 2; 2; 2; 2; 2; 2; 2; 2; 2; 2; 2;
  1; 1; 1; 1; 1; 1; 1; 1; 1; 1; 1; 1; 1; 1; 1; 1;
  1; 1; 1; 1; 1; 1; 1; 1; 1; 1; 1; 1; 1; 1; 1; 1;
  1; 1; 1; 1; 1; 1; 1; 1; 1; 1; 1; 1; 1; 1; 1; 1;
  1; 1; 1; 1; 1; 1; 1; 1; 1; 1; 1; 1; 1; 1; 1; 1;
  0; 0; 0; 0; 0; 0; 0; 0; 0; 0; 0; 0; 0; 0; 0; 0;
  0; 0; 0; 0; 0; 0; 0; 0; 0; 0; 0; 0; 0; 0; 0; 0;
  0; 0; 0; 0; 0; 0; 0; 0; 0; 0; 0; 0; 0; 0; 0; 0;
  0; 0; 0; 0; 0; 0; 0; 0; 0; 0; 0; 0; 0; 0; 0; 0;
  0; 0; 0; 0; 0; 0; 0; 0; 0; 0; 0; 0; 0; 0; 0; 0;
  0; 0; 0; 0; 0; 0; 0; 0; 0; 0; 0; 0; 0; 0; 0; 0;
  0; 0; 0; 0; 0; 0; 0; 0; 0; 0; 0; 0; 0; 0; 0; 0;
  0; 0; 0; 0; 0; 0; 0; 0; 0; 0; 0; 0; 0; 0; 0; 0].

(** Length base value and extra bits (the first entry is the end of block). *)
Definition lnsinfo : list TSInfo := [
  SI 0x0100 0x11; SI 0x0003 0x00; SI 0x0004 0x00; SI 0x0005 0x00;
  SI 0x0006 0x00; SI 0x0007 0x00; SI 0x0008 0x00; SI 0x0009 0x00;
  SI 0x000a 0x00; SI 0x000b 0x01; SI 0x000d 0x01; SI 0x000f 0x01;
  SI 0x0011 0x01; SI 0x0013 0x02; SI 0x0017 0x02; SI 0x001b 0x02;
  SI 0x001f 0x02; SI 0x0023 0x03; SI 0x002b 0x03; SI 0x0033 0x03;
  SI 0x003b 0x03; SI 0x0043 0x04; SI 0x0053 0x04; SI 0x0063 0x04;
  SI 0x0073 0x04; SI 0x0083 0x05; SI 0x00a3 0x05; SI 0x00c3 0x05;
  SI 0x00e3 0x05; SI 0x0102 0x00].

(** Distance base value and extra bits. *)
Definition dstinfo : list TSInfo := [
  SI 0x0001 0x00; SI 0x0002 0x00; SI 0x0003 0x00; SI 0x0004 0x00;
  SI 0x0005 0x01; SI 0x0007 0x01; SI 0x0009 0x02; SI 0x000d 0x02;
  SI 0x0011 0x03; SI 0x0019 0x03; SI 0x0021 0x04; SI 0x0031 0x04;
  SI 0x0041 0x05; SI 0x0061 0x05; SI 0x0081 0x06; SI 0x00c1 0x06;
  SI 0x0101 0x07; SI 0x0181 0x07; SI 0x0201 0x08; SI 0x0301 0x08;
  SI 0x0401 0x09; SI 0x0601 0x09; SI 0x0801 0x0a; SI 0x0c01 0x0a;
  SI 0x1001 0x0b; SI 0x1801 0x0b; SI 0x2001 0x0c; SI 0x3001 0x0c;
  SI 0x4001 0x0d; SI 0x6001 0x0d].

(** The static tables of the fixed-Huffman blocks. *)
Definition lsttctable : list TINFLTTEntry := [
  E 0x0100 0x11 0x07; E 0x0050 0x10 0x08; E 0x0010 0x10 0x08; E 0x0073 0x04 0x08;
  E 0x001f 0x02 0x07; E 0x0070 0x10 0x08; E 0x0030 0x10 0x08; E 0x00c0 0x10 0x09;
  E 0x000a 0x00 0x07; E 0x0060 0x10 0x08; E 0x0020 0x10 0x08; E 0x00a0 0x10 0x09;
  E 0x0000 0x10 0x08; E 0x0080 0x10 0x08; E 0x0040 0x10 0x08; E 0x00e0 0x10 0x09;
  E 0x0006 0x00 0x07; E 0x0058 0x10 0x08; E 0x0018 0x10 0x08; E 0x0090 0x10 0x09;
  E 0x003b 0x03 0x07; E 0x0078 0x10 0x08; E 0x0038 0x10 0x08; E 0x00d0 0x10 0x09;
  E 0x0011 0x01 0x07; E 0x0068 0x10 0x08; E 0x0028 0x10 0x08; E 0x00b0 0x10 0x09;
  E 0x0008 0x10 0x08; E 0x0088 0x10 0x08; E 0x0048 0x10 0x08; E 0x00f0 0x10 0x09;
  E 0x0004 0x00 0x07; E 0x0054 0x10 0x08; E 0x0014 0x10 0x08; E 0x00e3 0x05 0x08;
  E 0x002b 0x03 0x07; E 0x0074 0x10 0x08; E 0x0034 0x10 0x08; E 0x00c8 0x10 0x09;
  E 0x000d 0x01 0x07; E 0x0064 0x10 0x08; E 0x0024 0x10 0x08; E 0x00a8 0x10 0x09;
  E 0x0004 0x10 0x08; E 0x0084 0x10 0x08; E 0x0044 0x10 0x08; E 0x00e8 0x10 0x09;
  E 0x0008 0x00 0x07; E 0x005c 0x10 0x08; E 0x001c 0x10 0x08; E 0x0098 0x10 0x09;
  E 0x0053 0x04 0x07; E 0x007c 0x10 0x08; E 0x003c 0x10 0x08; E 0x00d8 0x10 0x09;
  E 0x0017 0x02 0x07; E 0x006c 0x10 0x08; E 0x002c 0x10 0x08; E 0x00b8 0x10 0x09;
  E 0x000c 0x10 0x08; E 0x008c 0x10 0x08; E 0x004c 0x10 0x08; E 0x00f8 0x10 0x09;
  E 0x0003 0x00 0x07; E 0x0052 0x10 0x08; E 0x0012 0x10 0x08; E 0x00a3 0x05 0x08;
  E 0x0023 0x03 0x07; E 0x0072 0x10 0x08; E 0x0032 0x10 0x08; E 0x00c4 0x10 0x09;
  E 0x000b 0x01 0x07; E 0x0062 0x10 0x08; E 0x0022 0x10 0x08; E 0x00a4 0x10 0x09;
  E 0x0002 0x10 0x08; E 0x0082 0x10 0x08; E 0x0042 0x10 0x08; E 0x00e4 0x10 0x09;
  E 0x0007 0x00 0x07; E 0x005a 0x10 0x08; E 0x001a 0x10 0x08; E 0x0094 0x10 0x09;
  E 0x0043 0x04 0x07; E 0x007a 0x10 0x08; E 0x003a 0x10 0x08; E 0x00d4 0x10 0x09;
  E 0x0013 0x02 0x07; E 0x006a 0x10 0x08; E 0x002a 0x10 0x08; E 0x00b4 0x10 0x09;
  E 0x000a 0x10 0x08; E 0x008a 0x10 0x08; E 0x004a 0x10 0x08; E 0x00f4 0x10 0x09;
  E 0x0005 0x00 0x07; E 0x0056 0x10 0x08; E 0x0016 0x10 0x08; E 0x0000 0x00 0x08;
  E 0x0033 0x03 0x07; E 0x0076 0x10 0x08; E 0x0036 0x10 0x08; E 0x00cc 0x10 0x09;
  E 0x000f 0x01 0x07; E 0x0066 0x10 0x08; E 0x0026 0x10 0x08; E 0x00ac 0x10 0x09;
  E 0x0006 0x10 0x08; E 0x0086 0x10 0x08; E 0x0046 0x10 0x08; E 0x00ec 0x10 0x09;
  E 0x0009 0x00 0x07; E 0x005e 0x10 0x08; E 0x001e 0x10 0x08; E 0x009c 0x10 0x09;
  E 0x0063 0x04 0x07; E 0x007e 0x10 0x08; E 0x003e 0x10 0x08; E 0x00dc 0x10 0x09;
  E 0x001b 0x02 0x07; E 0x006e 0x10 0x08; E 0x002e 0x10 0x08; E 0x00bc 0x10 0x09;
  E 0x000e 0x10 0x08; E 0x008e 0x10 0x08; E 0x004e 0x10 0x08; E 0x00fc 0x10 0x09;
  E 0x0100 0x11 0x07; E 0x0051 0x10 0x08; E 0x0011 0x10 0x08; E 0x0083 0x05 0x08;
  E 0x001f 0x02 0x07; E 0x0071 0x10 0x08; E 0x0031 0x10 0x08; E 0x00c2 0x10 0x09;
  E 0x000a 0x00 0x07; E 0x0061 0x10 0x08; E 0x0021 0x10 0x08; E 0x00a2 0x10 0x09;
  E 0x0001 0x10 0x08; E 0x0081 0x10 0x08; E 0x0041 0x10 0x08; E 0x00e2 0x10 0x09;
  E 0x0006 0x00 0x07; E 0x0059 0x10 0x08; E 0x0019 0x10 0x08; E 0x0092 0x10 0x09;
  E 0x003b 0x03 0x07; E 0x0079 0x10 0x08; E 0x0039 0x10 0x08; E 0x00d2 0x10 0x09;
  E 0x0011 0x01 0x07; E 0x0069 0x10 0x08; E 0x0029 0x10 0x08; E 0x00b2 0x10 0x09;
  E 0x0009 0x10 0x08; E 0x0089 0x10 0x08; E 0x0049 0x10 0x08; E 0x00f2 0x10 0x09;
  E 0x0004 0x00 0x07; E 0x0055 0x10 0x08; E 0x0015 0x10 0x08; E 0x0102 0x00 0x08;
  E 0x002b 0x03 0x07; E 0x0075 0x10 0x08; E 0x0035 0x10 0x08; E 0x00ca 0x10 0x09;
  E 0x000d 0x01 0x07; E 0x0065 0x10 0x08; E 0x0025 0x10 0x08; E 0x00aa 0x10 0x09;
  E 0x0005 0x10 0x08; E 0x0085 0x10 0x08; E 0x0045 0x10 0x08; E 0x00ea 0x10 0x09;
  E 0x0008 0x00 0x07; E 0x005d 0x10 0x08; E 0x001d 0x10 0x08; E 0x009a 0x10 0x09;
  E 0x0053 0x04 0x07; E 0x007d 0x10 0x08; E 0x003d 0x10 0x08; E 0x00da 0x10 0x09;
  E 0x0017 0x02 0x07; E 0x006d 0x10 0x08; E 0x002d 0x10 0x08; E 0x00ba 0x10 0x09;
  E 0x000d 0x10 0x08; E 0x008d 0x10 0x08; E 0x004d 0x10 0x08; E 0x00fa 0x10 0x09;
  E 0x0003 0x00 0x07; E 0x0053 0x10 0x08; E 0x0013 0x10 0x08; E 0x00c3 0x05 0x08;
  E 0x0023 0x03 0x07; E 0x0073 0x10 0x08; E 0x0033 0x10 0x08; E 0x00c6 0x10 0x09;
  E 0x000b 0x01 0x07; E 0x0063 0x10 0x08; E 0x0023 0x10 0x08; E 0x00a6 0x10 0x09;
  E 0x0003 0x10 0x08; E 0x0083 0x10 0x08; E 0x0043 0x10 0x08; E 0x00e6 0x10 0x09;
  E 0x0007 0x00 0x07; E 0x005b 0x10 0x08; E 0x001b 0x10 0x08; E 0x0096 0x10 0x09;
  E 0x0043 0x04 0x07; E 0x007b 0x10 0x08; E 0x003b 0x10 0x08; E 0x00d6 0x10 0x09;
  E 0x0013 0x02 0x07; E 0x006b 0x10 0x08; E 0x002b 0x10 0x08; E 0x00b6 0x10 0x09;
  E 0x000b 0x10 0x08; E 0x008b 0x10 0x08; E 0x004b 0x10 0x08; E 0x00f6 0x10 0x09;
  E 0x0005 0x00 0x07; E 0x0057 0x10 0x08; E 0x0017 0x10 0x08; E 0x0000 0x00 0x08;
  E 0x0033 0x03 0x07; E 0x0077 0x10 0x08; E 0x0037 0x10 0x08; E 0x00ce 0x10 0x09;
  E 0x000f 0x01 0x07; E 0x0067 0x10 0x08; E 0x0027 0x10 0x08; E 0x00ae 0x10 0x09;
  E 0x0007 0x10 0x08; E 0x0087 0x10 0x08; E 0x0047 0x10 0x08; E 0x00ee 0x10 0x09;
  E 0x0009 0x00 0x07; E 0x005f 0x10 0x08; E 0x001f 0x10 0x08; E 0x009e 0x10 0x09;
  E 0x0063 0x04 0x07; E 0x007f 0x10 0x08; E 0x003f 0x10 0x08; E 0x00de 0x10 0x09;
  E 0x001b 0x02 0x07; E 0x006f 0x10 0x08; E 0x002f 0x10 0x08; E 0x00be 0x10 0x09;
  E 0x000f 0x10 0x08; E 0x008f 0x10 0x08; E 0x004f 0x10 0x08; E 0x00fe 0x10 0x09;
  E 0x0100 0x11 0x07; E 0x0050 0x10 0x08; E 0x0010 0x10 0x08; E 0x0073 0x04 0x08;
  E 0x001f 0x02 0x07; E 0x0070 0x10 0x08; E 0x0030 0x10 0x08; E 0x00c1 0x10 0x09;
  E 0x000a 0x00 0x07; E 0x0060 0x10 0x08; E 0x0020 0x10 0x08; E 0x00a1 0x10 0x09;
  E 0x0000 0x10 0x08; E 0x0080 0x10 0x08; E 0x0040 0x10 0x08; E 0x00e1 0x10 0x09;
  E 0x0006 0x00 0x07; E 0x0058 0x10 0x08; E 0x0018 0x10 0x08; E 0x0091 0x10 0x09;
  E 0x003b 0x03 0x07; E 0x0078 0x10 0x08; E 0x0038 0x10 0x08; E 0x00d1 0x10 0x09;
  E 0x0011 0x01 0x07; E 0x0068 0x10 0x08; E 0x0028 0x10 0x08; E 0x00b1 0x10 0x09;
  E 0x0008 0x10 0x08; E 0x0088 0x10 0x08; E 0x0048 0x10 0x08; E 0x00f1 0x10 0x09;
  E 0x0004 0x00 0x07; E 0x0054 0x10 0x08; E 0x0014 0x10 0x08; E 0x00e3 0x05 0x08;
  E 0x002b 0x03 0x07; E 0x0074 0x10 0x08; E 0x0034 0x10 0x08; E 0x00c9 0x10 0x09;
  E 0x000d 0x01 0x07; E 0x0064 0x10 0x08; E 0x0024 0x10 0x08; E 0x00a9 0x10 0x09;
  E 0x0004 0x10 0x08; E 0x0084 0x10 0x08; E 0x0044 0x10 0x08; E 0x00e9 0x10 0x09;
  E 0x0008 0x00 0x07; E 0x005c 0x10 0x08; E 0x001c 0x10 0x08; E 0x0099 0x10 0x09;
  E 0x0053 0x04 0x07; E 0x007c 0x10 0x08; E 0x003c 0x10 0x08; E 0x00d9 0x10 0x09;
  E 0x0017 0x02 0x07; E 0x006c 0x10 0x08; E 0x002c 0x10 0x08; E 0x00b9 0x10 0x09;
  E 0x000c 0x10 0x08; E 0x008c 0x10 0x08; E 0x004c 0x10 0x08; E 0x00f9 0x10 0x09;
  E 0x0003 0x00 0x07; E 0x0052 0x10 0x08; E 0x0012 0x10 0x08; E 0x00a3 0x05 0x08;
  E 0x0023 0x03 0x07; E 0x0072 0x10 0x08; E 0x0032 0x10 0x08; E 0x00c5 0x10 0x09;
  E 0x000b 0x01 0x07; E 0x0062 0x10 0x08; E 0x0022 0x10 0x08; E 0x00a5 0x10 0x09;
  E 0x0002 0x10 0x08; E 0x0082 0x10 0x08; E 0x0042 0x10 0x08; E 0x00e5 0x10 0x09;
  E 0x0007 0x00 0x07; E 0x005a 0x10 0x08; E 0x001a 0x10 0x08; E 0x0095 0x10 0x09;
  E 0x0043 0x04 0x07; E 0x007a 0x10 0x08; E 0x003a 0x10 0x08; E 0x00d5 0x10 0x09;
  E 0x0013 0x02 0x07; E 0x006a 0x10 0x08; E 0x002a 0x10 0x08; E 0x00b5 0x10 0x09;
  E 0x000a 0x10 0x08; E 0x008a 0x10 0x08; E 0x004a 0x10 0x08; E 0x00f5 0x10 0x09;
  E 0x0005 0x00 0x07; E 0x0056 0x10 0x08; E 0x0016 0x10 0x08; E 0x0000 0x00 0x08;
  E 0x0033 0x03 0x07; E 0x0076 0x10 0x08; E 0x0036 0x10 0x08; E 0x00cd 0x10 0x09;
  E 0x000f 0x01 0x07; E 0x0066 0x10 0x08; E 0x0026 0x10 0x08; E 0x00ad 0x10 0x09;
  E 0x0006 0x10 0x08; E 0x0086 0x10 0x08; E 0x0046 0x10 0x08; E 0x00ed 0x10 0x09;
  E 0x0009 0x00 0x07; E 0x005e 0x10 0x08; E 0x001e 0x10 0x08; E 0x009d 0x10 0x09;
  E 0x0063 0x04 0x07; E 0x007e 0x10 0x08; E 0x003e 0x10 0x08; E 0x00dd 0x10 0x09;
  E 0x001b 0x02 0x07; E 0x006e 0x10 0x08; E 0x002e 0x10 0x08; E 0x00bd 0x10 0x09;
  E 0x000e 0x10 0x08; E 0x008e 0x10 0x08; E 0x004e 0x10 0x08; E 0x00fd 0x10 0x09;
  E 0x0100 0x11 0x07; E 0x0051 0x10 0x08; E 0x0011 0x10 0x08; E 0x0083 0x05 0x08;
  E 0x001f 0x02 0x07; E 0x0071 0x10 0x08; E 0x0031 0x10 0x08; E 0x00c3 0x10 0x09;
  E 0x000a 0x00 0x07; E 0x0061 0x10 0x08; E 0x0021 0x10 0x08; E 0x00a3 0x10 0x09;
  E 0x0001 0x10 0x08; E 0x0081 0x10 0x08; E 0x0041 0x10 0x08; E 0x00e3 0x10 0x09;
  E 0x0006 0x00 0x07; E 0x0059 0x10 0x08; E 0x0019 0x10 0x08; E 0x0093 0x10 0x09;
  E 0x003b 0x03 0x07; E 0x0079 0x10 0x08; E 0x0039 0x10 0x08; E 0x00d3 0x10 0x09;
  E 0x0011 0x01 0x07; E 0x0069 0x10 0x08; E 0x0029 0x10 0x08; E 0x00b3 0x10 0x09;
  E 0x0009 0x10 0x08; E 0x0089 0x10 0x08; E 0x0049 0x10 0x08; E 0x00f3 0x10 0x09;
  E 0x0004 0x00 0x07; E 0x0055 0x10 0x08; E 0x0015 0x10 0x08; E 0x0102 0x00 0x08;
  E 0x002b 0x03 0x07; E 0x0075 0x10 0x08; E 0x0035 0x10 0x08; E 0x00cb 0x10 0x09;
  E 0x000d 0x01 0x07; E 0x0065 0x10 0x08; E 0x0025 0x10 0x08; E 0x00ab 0x10 0x09;
  E 0x0005 0x10 0x08; E 0x0085 0x10 0x08; E 0x0045 0x10 0x08; E 0x00eb 0x10 0x09;
  E 0x0008 0x00 0x07; E 0x005d 0x10 0x08; E 0x001d 0x10 0x08; E 0x009b 0x10 0x09;
  E 0x0053 0x04 0x07; E 0x007d 0x10 0x08; E 0x003d 0x10 0x08; E 0x00db 0x10 0x09;
  E 0x0017 0x02 0x07; E 0x006d 0x10 0x08; E 0x002d 0x10 0x08; E 0x00bb 0x10 0x09;
  E 0x000d 0x10 0x08; E 0x008d 0x10 0x08; E 0x004d 0x10 0x08; E 0x00fb 0x10 0x09;
  E 0x0003 0x00 0x07; E 0x0053 0x10 0x08; E 0x0013 0x10 0x08; E 0x00c3 0x05 0x08;
  E 0x0023 0x03 0x07; E 0x0073 0x10 0x08; E 0x0033 0x10 0x08; E 0x00c7 0x10 0x09;
  E 0x000b 0x01 0x07; E 0x0063 0x10 0x08; E 0x0023 0x10 0x08; E 0x00a7 0x10 0x09;
  E 0x0003 0x10 0x08; E 0x0083 0x10 0x08; E 0x0043 0x10 0x08; E 0x00e7 0x10 0x09;
  E 0x0007 0x00 0x07; E 0x005b 0x10 0x08; E 0x001b 0x10 0x08; E 0x0097 0x10 0x09;
  E 0x0043 0x04 0x07; E 0x007b 0x10 0x08; E 0x003b 0x10 0x08; E 0x00d7 0x10 0x09;
  E 0x0013 0x02 0x07; E 0x006b 0x10 0x08; E 0x002b 0x10 0x08; E 0x00b7 0x10 0x09;
  E 0x000b 0x10 0x08; E 0x008b 0x10 0x08; E 0x004b 0x10 0x08; E 0x00f7 0x10 0x09;
  E 0x0005 0x00 0x07; E 0x0057 0x10 0x08; E 0x0017 0x10 0x08; E 0x0000 0x00 0x08;
  E 0x0033 0x03 0x07; E 0x0077 0x10 0x08; E 0x0037 0x10 0x08; E 0x00cf 0x10 0x09;
  E 0x000f 0x01 0x07; E 0x0067 0x10 0x08; E 0x0027 0x10 0x08; E 0x00af 0x10 0x09;
  E 0x0007 0x10 0x08; E 0x0087 0x10 0x08; E 0x0047 0x10 0x08; E 0x00ef 0x10 0x09;
  E 0x0009 0x00 0x07; E 0x005f 0x10 0x08; E 0x001f 0x10 0x08; E 0x009f 0x10 0x09;
  E 0x0063 0x04 0x07; E 0x007f 0x10 0x08; E 0x003f 0x10 0x08; E 0x00df 0x10 0x09;
  E 0x001b 0x02 0x07; E 0x006f 0x10 0x08; E 0x002f 0x10 0x08; E 0x00bf 0x10 0x09;
  E 0x000f 0x10 0x08; E 0x008f 0x10 0x08; E 0x004f 0x10 0x08; E 0x00ff 0x10 0x09].

Definition dsttctable : list TINFLTTEntry := [
  E 0x0001 0x00 0x05; E 0x0101 0x07 0x05; E 0x0011 0x03 0x05; E 0x1001 0x0b 0x05;
  E 0x0005 0x01 0x05; E 0x0401 0x09 0x05; E 0x0041 0x05 0x05; E 0x4001 0x0d 0x05;
  E 0x0003 0x00 0x05; E 0x0201 0x08 0x05; E 0x0021 0x04 0x05; E 0x2001 0x0c 0x05;
  E 0x0009 0x02 0x05; E 0x0801 0x0a 0x05; E 0x0081 0x06 0x05; E 0x0000 0x00 0x05;
  E 0x0002 0x00 0x05; E 0x0181 0x07 0x05; E 0x0019 0x03 0x05; E 0x1801 0x0b 0x05;
  E 0x0007 0x01 0x05; E 0x0601 0x09 0x05; E 0x0061 0x05 0x05; E 0x6001 0x0d 0x05;
  E 0x0004 0x00 0x05; E 0x0301 0x08 0x05; E 0x0031 0x04 0x05; E 0x3001 0x0c 0x05;
  E 0x000d 0x02 0x05; E 0x0c01 0x0a 0x05; E 0x00c1 0x06 0x05; E 0x0000 0x00 0x05;
  E 0x0001 0x00 0x05; E 0x0101 0x07 0x05; E 0x0011 0x03 0x05; E 0x1001 0x0b 0x05;
  E 0x0005 0x01 0x05; E 0x0401 0x09 0x05; E 0x0041 0x05 0x05; E 0x4001 0x0d 0x05;
  E 0x0003 0x00 0x05; E 0x0201 0x08 0x05; E 0x0021 0x04 0x05; E 0x2001 0x0c 0x05;
  E 0x0009 0x02 0x05; E 0x0801 0x0a 0x05; E 0x0081 0x06 0x05; E 0x0000 0x00 0x05;
  E 0x0002 0x00 0x05; E 0x0181 0x07 0x05; E 0x0019 0x03 0x05; E 0x1801 0x0b 0x05;
  E 0x0007 0x01 0x05; E 0x0601 0x09 0x05; E 0x0061 0x05 0x05; E 0x6001 0x0d 0x05;
  E 0x0004 0x00 0x05; E 0x0301 0x08 0x05; E 0x0031 0x04 0x05; E 0x3001 0x0c 0x05;
  E 0x000d 0x02 0x05; E 0x0c01 0x0a 0x05; E 0x00c1 0x06 0x05; E 0x0000 0x00 0x05;
  E 0x0001 0x00 0x05; E 0x0101 0x07 0x05; E 0x0011 0x03 0x05; E 0x1001 0x0b 0x05;
  E 0x0005 0x01 0x05; E 0x0401 0x09 0x05; E 0x0041 0x05 0x05; E 0x4001 0x0d 0x05;
  E 0x0003 0x00 0x05; E 0x0201 0x08 0x05; E 0x0021 0x04 0x05; E 0x2001 0x0c 0x05;
  E 0x0009 0x02 0x05; E 0x0801 0x0a 0x05; E 0x0081 0x06 0x05; E 0x0000 0x00 0x05;
  E 0x0002 0x00 0x05; E 0x0181 0x07 0x05; E 0x0019 0x03 0x05; E 0x1801 0x0b 0x05;
  E 0x0007 0x01 0x05; E 0x0601 0x09 0x05; E 0x0061 0x05 0x05; E 0x6001 0x0d 0x05;
  E 0x0004 0x00 0x05; E 0x0301 0x08 0x05; E 0x0031 0x04 0x05; E 0x3001 0x0c 0x05;
  E 0x000d 0x02 0x05; E 0x0c01 0x0a 0x05; E 0x00c1 0x06 0x05; E 0x0000 0x00 0x05;
  E 0x0001 0x00 0x05; E 0x0101 0x07 0x05; E 0x0011 0x03 0x05; E 0x1001 0x0b 0x05;
  E 0x0005 0x01 0x05; E 0x0401 0x09 0x05; E 0x0041 0x05 0x05; E 0x4001 0x0d 0x05;
  E 0x0003 0x00 0x05; E 0x0201 0x08 0x05; E 0x0021 0x04 0x05; E 0x2001 0x0c 0x05;
  E 0x0009 0x02 0x05; E 0x0801 0x0a 0x05; E 0x0081 0x06 0x05; E 0x0000 0x00 0x05;
  E 0x0002 0x00 0x05; E 0x0181 0x07 0x05; E 0x0019 0x03 0x05; E 0x1801 0x0b 0x05;
  E 0x0007 0x01 0x05; E 0x0601 0x09 0x05; E 0x0061 0x05 0x05; E 0x6001 0x0d 0x05;
  E 0x0004 0x00 0x05; E 0x0301 0x08 0x05; E 0x0031 0x04 0x05; E 0x3001 0x0c 0x05;
  E 0x000d 0x02 0x05; E 0x0c01 0x0a 0x05; E 0x00c1 0x06 0x05; E 0x0000 0x00 0x05].

(** ** Bit reversal *)

Definition reversecode (code length : Z) : option Z :=
  (if 8 <? length then
     let a := u8 (Z.shiftr code 0) in
     let b := u8 (Z.shiftr code 8) in
     a1 <-? nthZ rtable (Z.shiftr a 4) ;;
     a2 <-? nthZ rtable (Z.land a 0x0f) ;;
     b1 <-? nthZ rtable (Z.shiftr b 4) ;;
     b2 <-? nthZ rtable (Z.land b 0x0f) ;;
     let a := Z.lor a1 (Z.shiftl a2 4) in
     let b := Z.lor b1 (Z.shiftl b2 4) in
     let r := Z.lor b (Z.shiftl a 8) in
     r' <-? shr64 r (0x10 - length) ;;
     Some (u16 r')
   else
     let a := u8 code in
     a1 <-? nthZ rtable (Z.shiftr a 4) ;;
     a2 <-? nthZ rtable (Z.land a 0x0f) ;;
     let r := Z.lor a1 (Z.shiftl a2 4) in
     r' <-? shr64 r (0x08 - length) ;;
     Some (u16 r'))%opt.

(** The table branch of [clzero24]: the leading zeros of the 32-bit [n],
    counted over its three high bytes. *)
Definition clzero24 (n : Z) : option Z :=
  (a <-? nthZ clztable (u8 (Z.shiftr n 0x18)) ;;
   b <-? nthZ clztable (u8 (Z.shiftr n 0x10)) ;;
   if a =? 0x08 then
     let r := a + b in
     if r =? 0x10 then
       c <-? nthZ clztable (u8 (Z.shiftr n 0x08)) ;;
       Some (r + c)
     else Some r
   else Some a)%opt.

(** [reverseinc]: the successor of a bit-reversed code of [length] bits.
    [~n << 16] is taken on the promoted [int] and passed as [uint32]. *)
Definition reverseinc (n length : Z) : option Z :=
  (let offset := 0x10 - length in
   if (0 <=? offset) && (offset <? 32) then
     let n := u16 (Z.shiftl n offset) in
     z <-? clzero24 (u32 (Z.shiftl (Z.lnot n) 16)) ;;
     let s := Z.shiftr 0x8000 z in
     if s =? 0 then Some 0
     else Some (u16 (Z.shiftr (Z.land n (s - 1) + s) offset))
   else None)%opt.

(** ** The table builder *)

Definition LTABLEMODE : Z := 0.
Definition DTABLEMODE : Z := 1.
Definition CTABLEMODE : Z := 2.

Definition invalid_entry : TINFLTTEntry := E 0xffff INVALIDCODE 15.

(** [i = n - 1; while (i >= 0) counts[lengths[i--]] += 1;] with [k] the
    number of lengths still to count. *)
Fixpoint count_lengths (lengths : list Z) (k : nat) (counts : list Z)
  : option (list Z) :=
  match k with
  | O => Some counts
  | S k' =>
      (len <-? nth_error lengths k' ;;
       c <-? nthZ counts len ;;
       counts' <-? updZ counts len (u16 (c + 1)) ;;
       count_lengths lengths k' counts')%opt
  end.

(** [for (i = 0; i < 1 << mbits; i++) table[i] = invalid], and the same
    loop shape for the other fills: entry [e] is written at [f j] for [j]
    from [k - 1] down to 0. *)
Fixpoint fill_down (k : nat) (f : Z -> Z) (e : TINFLTTEntry)
    (table : list TINFLTTEntry) : option (list TINFLTTEntry) :=
  match k with
  | O => Some table
  | S k' =>
      (table' <-? updZ table (f (Z.of_nat k')) e ;;
       fill_down k' f e table')%opt
  end.

(** [for (i = 0; i < 1 << mbits; i++)] writing the invalid entry upwards. *)
Fixpoint fill_invalid (k : nat) (i : Z) (table : list TINFLTTEntry)
  : option (list TINFLTTEntry) :=
  match k with
  | O => Some table
  | S k' =>
      (table' <-? updZ table i invalid_entry ;;
       fill_invalid k' (i + 1) table')%opt
  end.

(** [i = DEFLT_MAXBITS; while (counts[i] == 0) i--;] *)
Fixpoint longest_length (counts : list Z) (i : nat) : option Z :=
  match nth_error counts i with
  | None => None
  | Some c =>
      if c =? 0 then
        match i with
        | O => None
        | S i' => longest_length counts i'
        end
      else Some (Z.of_nat i)
  end.

(** The validity loop: [left = (left << 1) - counts[i]] for [i] up to
    [DEFLT_MAXBITS]; the inner [None] is the over-subscribed exit. *)
Fixpoint check_left (counts : list Z) (k : nat) (i : Z) (left : Z)
  : option (option Z) :=
  match k with
  | O => Some (Some left)
  | S k' =>
      (c <-? nthZ counts i ;;
       let left := 2 * left - c in
       if left <? 0 then Some None
       else check_left counts k' (i + 1) left)%opt
  end.

(** [for (i = 1; i <= mlen; i++) { code = (code + counts[i - 1]) << 1;
    ncodes[i] = reversecode(code, i); }] *)
Fixpoint first_codes (counts : list Z) (k : nat) (i : Z) (code : Z)
    (ncodes : list Z) : option (list Z) :=
  match k with
  | O => Some ncodes
  | S k' =>
      (c <-? nthZ counts (i - 1) ;;
       let code := u16 (Z.shiftl (code + c) 1) in
       rc <-? reversecode code i ;;
       ncodes' <-? updZ ncodes i rc ;;
       first_codes counts k' (i + 1) code ncodes')%opt
  end.

(** [for (i = 0; i <= mmask; i++) table[i].etag = 0;] *)
Fixpoint clear_tags (k : nat) (i : Z) (table : list TINFLTTEntry)
  : option (list TINFLTTEntry) :=
  match k with
  | O => Some table
  | S k' =>
      (e <-? nthZ table i ;;
       table' <-? updZ table i (E (TEntry.info e) 0 (TEntry.length e)) ;;
       clear_tags k' (i + 1) table')%opt
  end.

(** The inner loop of the subtable setup, [k] rounds left. *)
Fixpoint subtable_codes (k : nat) (mbits r : Z) (table : list TINFLTTEntry)
    (code offset : Z) : option (list TINFLTTEntry * Z * Z) :=
  match k with
  | O => Some (table, code, offset)
  | S k' =>
      (e <-? nthZ table code ;;
       if TEntry.etag e =? SUBTABLEENTRY then
         subtable_codes k' mbits r table code offset
       else
         table' <-? updZ table code
                      (E (u16 offset) SUBTABLEENTRY (u8 (mbits + r))) ;;
         code' <-? reverseinc code mbits ;;
         step <-? shl64 1 r ;;
         subtable_codes k' mbits r table' code' (uxx (offset + step)))%opt
  end.

(** [for (r = mlen - mbits; r; r--)], [k] being [r]. *)
Fixpoint subtable_setup (k : nat) (mbits mmask : Z) (counts ncodes : list Z)
    (table : list TINFLTTEntry) (code offset : Z)
  : option (list TINFLTTEntry * Z * Z) :=
  match k with
  | O => Some (table, code, offset)
  | S k' =>
      (let r := Z.of_nat k in
       count <-? nthZ counts (mbits + r) ;;
       if count =? 0 then
         subtable_setup k' mbits mmask counts ncodes table code offset
       else
         nc <-? nthZ ncodes (mbits + r) ;;
         let code := Z.land nc mmask in
         j <-? shr64 count r ;;
         m <-? shl64 1 r ;;
         let j := if Z.land count (m - 1) =? 0 then j else j + 1 in
         ' (table', code', offset') <-?
           subtable_codes (Z.to_nat j) mbits r table code offset ;;
         subtable_setup k' mbits mmask counts ncodes table' code' offset')%opt
  end.

(** The population loop over the symbols, [k] symbols left. *)
Fixpoint populate (k : nat) (symbol : Z) (lengths : list Z) (mode mbits mmask : Z)
    (ncodes : list Z) (table : list TINFLTTEntry) (code : Z)
  : option (list TINFLTTEntry * Z) :=
  match k with
  | O => Some (table, code)
  | S k' =>
      (length <-? nthZ lengths symbol ;;
       if length =? 0 then
         populate k' (symbol + 1) lengths mode mbits mmask ncodes table code
       else
         e <-? (if (mode =? DTABLEMODE) || (256 <=? symbol) then
                  si <-? nthZ (if mode =? LTABLEMODE then lnsinfo else dstinfo)
                           (if mode =? LTABLEMODE then symbol - 256 else symbol) ;;
                  Some (E (base si) (extrabits si) (u8 length))
                else Some (E (u16 symbol) LITERALSYMBOL (u8 length))) ;;
         code <-? nthZ ncodes length ;;
         nc <-? reverseinc code length ;;
         ncodes' <-? updZ ncodes length nc ;;
         ' (j, i, length, code) <-?
           (if mbits <? length then
              entry <-? nthZ table (Z.land code mmask) ;;
              code' <-? shr64 code mbits ;;
              Some (TEntry.length entry - length, TEntry.info entry,
                    length - mbits, code')
            else Some (mbits - length, 0, length, code)) ;;
         m <-? shl64 1 j ;;
         table' <-? fill_down (Z.to_nat m)
                      (fun j => i + Z.lor code (Z.shiftl j length)) e table ;;
         populate k' (symbol + 1) lengths mode mbits mmask ncodes' table' code)%opt
  end.

(** [buildtable(lengths, n, table, mode)]: the result code and the table
    as written.  [lengths] and [table] are the arrays from the pointers
    on. *)
Definition buildtable (lengths : list Z) (n : Z) (table : list TINFLTTEntry)
    (mode : Z) : option (Z * list TINFLTTEntry) :=
  (let mbits :=
     if mode =? LTABLEMODE then LROOTBITS
     else if mode =? DTABLEMODE then DROOTBITS
     else CROOTBITS in
   let counts := repeat 0 16 in
   let ncodes := repeat 0 16 in
   counts <-? count_lengths lengths (Z.to_nat n) counts ;;
   c0 <-? nthZ counts 0 ;;
   if c0 =? n then
     if mode =? DTABLEMODE then
       table' <-? fill_invalid (Z.to_nat (2 ^ mbits)) 0 table ;;
       Some (0, table')
     else Some (INFLT_ERROR, table)
   else
     counts <-? updZ counts 0 0 ;;
     mlen <-? longest_length counts (Z.to_nat DEFLT_MAXBITS) ;;
     valid <-? check_left counts (Z.to_nat DEFLT_MAXBITS) 1 1 ;;
     match valid with
     | None => Some (INFLT_ERROR, table)
     | Some left_ =>
         if negb (left_ =? 0)
            && (negb (mlen =? 1) || negb (mode =? DTABLEMODE))
         then Some (INFLT_ERROR, table)
         else
           ncodes <-? first_codes counts (Z.to_nat mlen) 1 0 ncodes ;;
           let mmask := 2 ^ mbits - 1 in
           ' (table, enough) <-?
             (if mbits <? mlen then
                table <-? clear_tags (Z.to_nat (mmask + 1)) 0 table ;;
                ' (table, _, offset) <-?
                  subtable_setup (Z.to_nat (mlen - mbits)) mbits mmask
                    counts ncodes table 0 (mmask + 1) ;;
                Some (table,
                      if mode =? DTABLEMODE then offset <=? ENOUGHD
                      else offset <=? ENOUGHL)
              else Some (table, true)) ;;
           if negb enough then Some (INFLT_ERROR, table)
           else
             ' (table, code) <-?
               populate (Z.to_nat n) 0 lengths mode mbits mmask ncodes table 0 ;;
             if (mlen =? 1) && (code =? 0) then
               table <-? fill_down (Z.to_nat (2 ^ (mbits - 1)))
                           (fun j => Z.lor 1 (Z.shiftl j 1)) invalid_entry table ;;
               Some (0, table)
             else Some (0, table)
     end)%opt.

(** ** The decoder state *)

(** Where [ltable] and [dtable] point: at a static table, into the
    [symbols] array of the dynamic tables, or nowhere yet ([inflator_reset]
    leaves them unassigned). *)
Inductive TablePtr : Type :=
| PtrUnset
| PtrStaticL
| PtrStaticD
| PtrSymbols (offset : Z).

(** [struct TTINFLTTables]. *)
Record TTINFLTTables : Type := mkTables {
  symbols : list TINFLTTEntry;
  lengths : list Z
}.

(** [struct TINFLTPrvt] with the public [struct TInflator] it starts with.
    The source and target pointers are offsets into [smem] and [tmem], the
    memory of the spans the caller handed over. *)
Record TInflator : Type := mkInflator {
  state : Z;
  error : Z;
  finalinput : Z;
  smem : list Z;
  source : Z;
  sbgn : Z;
  send : Z;
  tmem : list Z;
  target : Z;
  tbgn : Z;
  tend : Z;
  substate : Z;
  final : Z;
  used : Z;
  aux0 : Z;
  aux1 : Z;
  aux2 : Z;
  aux3 : Z;
  aux4 : Z;
  bbuffer : Z;
  bcount : Z;
  window : option (list Z);
  count : Z;
  end_ : Z;
  ltable : TablePtr;
  dtable : TablePtr;
  tables : option TTINFLTTables;
  allocator : Z -> bool
}.

Definition set_state (v : Z) (s : TInflator) : TInflator :=
  mkInflator v (error s) (finalinput s) (smem s) (source s) (sbgn s) (send s) (tmem s) (target s) (tbgn s) (tend s) (substate s) (final s) (used s) (aux0 s) (aux1 s) (aux2 s) (aux3 s) (aux4 s) (bbuffer s) (bcount s) (window s) (count s) (end_ s) (ltable s) (dtable s) (tables s) (allocator s).

Definition set_error (v : Z) (s : TInflator) : TInflator :=
  mkInflator (state s) v (finalinput s) (smem s) (source s) (sbgn s) (send s) (tmem s) (target s) (tbgn s) (tend s) (substate s) (final s) (used s) (aux0 s) (aux1 s) (aux2 s) (aux3 s) (aux4 s) (bbuffer s) (bcount s) (window s) (count s) (end_ s) (ltable s) (dtable s) (tables s) (allocator s).

Definition set_finalinput (v : Z) (s : TInflator) : TInflator :=
  mkInflator (state s) (error s) v (smem s) (source s) (sbgn s) (send s) (tmem s) (target s) (tbgn s) (tend s) (substate s) (final s) (used s) (aux0 s) (aux1 s) (aux2 s) (aux3 s) (aux4 s) (bbuffer s) (bcount s) (window s) (count s) (end_ s) (ltable s) (dtable s) (tables s) (allocator s).

Definition set_smem (v : list Z) (s : TInflator) : TInflator :=
  mkInflator (state s) (error s) (finalinput s) v (source s) (sbgn s) (send s) (tmem s) (target s) (tbgn s) (tend s) (substate s) (final s) (used s) (aux0 s) (aux1 s) (aux2 s) (aux3 s) (aux4 s) (bbuffer s) (bcount s) (window s) (count s) (end_ s) (ltable s) (dtable s) (tables s) (allocator s).

Definition set_source (v : Z) (s : TInflator) : TInflator :=
  mkInflator (state s) (error s) (finalinput s) (smem s) v (sbgn s) (send s) (tmem s) (target s) (tbgn s) (tend s) (substate s) (final s) (used s) (aux0 s) (aux1 s) (aux2 s) (aux3 s) (aux4 s) (bbuffer s) (bcount s) (window s) (count s) (end_ s) (ltable s) (dtable s) (tables s) (allocator s).

Definition set_sbgn (v : Z) (s : TInflator) : TInflator :=
  mkInflator (state s) (error s) (finalinput s) (smem s) (source s) v (send s) (tmem s) (target s) (tbgn s) (tend s) (substate s) (final s) (used s) (aux0 s) (aux1 s) (aux2 s) (aux3 s) (aux4 s) (bbuffer s) (bcount s) (window s) (count s) (end_ s) (ltable s) (dtable s) (tables s) (allocator s).

Definition set_send (v : Z) (s : TInflator) : TInflator :=
  mkInflator (state s) (error s) (finalinput s) (smem s) (source s) (sbgn s) v (tmem s) (target s) (tbgn s) (tend s) (substate s) (final s) (used s) (aux0 s) (aux1 s) (aux2 s) (aux3 s) (aux4 s) (bbuffer s) (bcount s) (window s) (count s) (end_ s) (ltable s) (dtable s) (tables s) (allocator s).

Definition set_tmem (v : list Z) (s : TInflator) : TInflator :=
  mkInflator (state s) (error s) (finalinput s) (smem s) (source s) (sbgn s) (send s) v (target s) (tbgn s) (tend s) (substate s) (final s) (used s) (aux0 s) (aux1 s) (aux2 s) (aux3 s) (aux4 s) (bbuffer s) (bcount s) (window s) (count s) (end_ s) (ltable s) (dtable s) (tables s) (allocator s).

Definition set_target (v : Z) (s : TInflator) : TInflator :=
  mkInflator (state s) (error s) (finalinput s) (smem s) (source s) (sbgn s) (send s) (tmem s) v (tbgn s) (tend s) (substate s) (final s) (used s) (aux0 s) (aux1 s) (aux2 s) (aux3 s) (aux4 s) (bbuffer s) (bcount s) (window s) (count s) (end_ s) (ltable s) (dtable s) (tables s) (allocator s).

Definition set_tbgn (v : Z) (s : TInflator) : TInflator :=
  mkInflator (state s) (error s) (finalinput s) (smem s) (source s) (sbgn s) (send s) (tmem s) (target s) v (tend s) (substate s) (final s) (used s) (aux0 s) (aux1 s) (aux2 s) (aux3 s) (aux4 s) (bbuffer s) (bcount s) (window s) (count s) (end_ s) (ltable s) (dtable s) (tables s) (allocator s).

Definition set_tend (v : Z) (s : TInflator) : TInflator :=
  mkInflator (state s) (error s) (finalinput s) (smem s) (source s) (sbgn s) (send s) (tmem s) (target s) (tbgn s) v (substate s) (final s) (used s) (aux0 s) (aux1 s) (aux2 s) (aux3 s) (aux4 s) (bbuffer s) (bcount s) (window s) (count s) (end_ s) (ltable s) (dtable s) (tables s) (allocator s).

Definition set_substate (v : Z) (s : TInflator) : TInflator :=
  mkInflator (state s) (error s) (finalinput s) (smem s) (source s) (sbgn s) (send s) (tmem s) (target s) (tbgn s) (tend s) v (final s) (used s) (aux0 s) (aux1 s) (aux2 s) (aux3 s) (aux4 s) (bbuffer s) (bcount s) (window s) (count s) (end_ s) (ltable s) (dtable s) (tables s) (allocator s).

Definition set_final (v : Z) (s : TInflator) : TInflator :=
  mkInflator (state s) (error s) (finalinput s) (smem s) (source s) (sbgn s) (send s) (tmem s) (target s) (tbgn s) (tend s) (substate s) v (used s) (aux0 s) (aux1 s) (aux2 s) (aux3 s) (aux4 s) (bbuffer s) (bcount s) (window s) (count s) (end_ s) (ltable s) (dtable s) (tables s) (allocator s).

Definition set_used (v : Z) (s : TInflator) : TInflator :=
  mkInflator (state s) (error s) (finalinput s) (smem s) (source s) (sbgn s) (send s) (tmem s) (target s) (tbgn s) (tend s) (substate s) (final s) v (aux0 s) (aux1 s) (aux2 s) (aux3 s) (aux4 s) (bbuffer s) (bcount s) (window s) (count s) (end_ s) (ltable s) (dtable s) (tables s) (allocator s).

Definition set_aux0 (v : Z) (s : TInflator) : TInflator :=
  mkInflator (state s) (error s) (finalinput s) (smem s) (source s) (sbgn s) (send s) (tmem s) (target s) (tbgn s) (tend s) (substate s) (final s) (used s) v (aux1 s) (aux2 s) (aux3 s) (aux4 s) (bbuffer s) (bcount s) (window s) (count s) (end_ s) (ltable s) (dtable s) (tables s) (allocator s).

Definition set_aux1 (v : Z) (s : TInflator) : TInflator :=
  mkInflator (state s) (error s) (finalinput s) (smem s) (source s) (sbgn s) (send s) (tmem s) (target s) (tbgn s) (tend s) (substate s) (final s) (used s) (aux0 s) v (aux2 s) (aux3 s) (aux4 s) (bbuffer s) (bcount s) (window s) (count s) (end_ s) (ltable s) (dtable s) (tables s) (allocator s).

Definition set_aux2 (v : Z) (s : TInflator) : TInflator :=
  mkInflator (state s) (error s) (finalinput s) (smem s) (source s) (sbgn s) (send s) (tmem s) (target s) (tbgn s) (tend s) (substate s) (final s) (used s) (aux0 s) (aux1 s) v (aux3 s) (aux4 s) (bbuffer s) (bcount s) (window s) (count s) (end_ s) (ltable s) (dtable s) (tables s) (allocator s).

Definition set_aux3 (v : Z) (s : TInflator) : TInflator :=
  mkInflator (state s) (error s) (finalinput s) (smem s) (source s) (sbgn s) (send s) (tmem s) (target s) (tbgn s) (tend s) (substate s) (final s) (used s) (aux0 s) (aux1 s) (aux2 s) v (aux4 s) (bbuffer s) (bcount s) (window s) (count s) (end_ s) (ltable s) (dtable s) (tables s) (allocator s).

Definition set_aux4 (v : Z) (s : TInflator) : TInflator :=
  mkInflator (state s) (error s) (finalinput s) (smem s) (source s) (sbgn s) (send s) (tmem s) (target s) (tbgn s) (tend s) (substate s) (final s) (used s) (aux0 s) (aux1 s) (aux2 s) (aux3 s) v (bbuffer s) (bcount s) (window s) (count s) (end_ s) (ltable s) (dtable s) (tables s) (allocator s).

Definition set_bbuffer (v : Z) (s : TInflator) : TInflator :=
  mkInflator (state s) (error s) (finalinput s) (smem s) (source s) (sbgn s) (send s) (tmem s) (target s) (tbgn s) (tend s) (substate s) (final s) (used s) (aux0 s) (aux1 s) (aux2 s) (aux3 s) (aux4 s) v (bcount s) (window s) (count s) (end_ s) (ltable s) (dtable s) (tables s) (allocator s).

Definition set_bcount (v : Z) (s : TInflator) : TInflator :=
  mkInflator (state s) (error s) (finalinput s) (smem s) (source s) (sbgn s) (send s) (tmem s) (target s) (tbgn s) (tend s) (substate s) (final s) (used s) (aux0 s) (aux1 s) (aux2 s) (aux3 s) (aux4 s) (bbuffer s) v (window s) (count s) (end_ s) (ltable s) (dtable s) (tables s) (allocator s).

Definition set_window (v : option (list Z)) (s : TInflator) : TInflator :=
  mkInflator (state s) (error s) (finalinput s) (smem s) (source s) (sbgn s) (send s) (tmem s) (target s) (tbgn s) (tend s) (substate s) (final s) (used s) (aux0 s) (aux1 s) (aux2 s) (aux3 s) (aux4 s) (bbuffer s) (bcount s) v (count s) (end_ s) (ltable s) (dtable s) (tables s) (allocator s).

Definition set_count (v : Z) (s : TInflator) : TInflator :=
  mkInflator (state s) (error s) (finalinput s) (smem s) (source s) (sbgn s) (send s) (tmem s) (target s) (tbgn s) (tend s) (substate s) (final s) (used s) (aux0 s) (aux1 s) (aux2 s) (aux3 s) (aux4 s) (bbuffer s) (bcount s) (window s) v (end_ s) (ltable s) (dtable s) (tables s) (allocator s).

Definition set_end_ (v : Z) (s : TInflator) : TInflator :=
  mkInflator (state s) (error s) (finalinput s) (smem s) (source s) (sbgn s) (send s) (tmem s) (target s) (tbgn s) (tend s) (substate s) (final s) (used s) (aux0 s) (aux1 s) (aux2 s) (aux3 s) (aux4 s) (bbuffer s) (bcount s) (window s) (count s) v (ltable s) (dtable s) (tables s) (allocator s).

Definition set_ltable (v : TablePtr) (s : TInflator) : TInflator :=
  mkInflator (state s) (error s) (finalinput s) (smem s) (source s) (sbgn s) (send s) (tmem s) (target s) (tbgn s) (tend s) (substate s) (final s) (used s) (aux0 s) (aux1 s) (aux2 s) (aux3 s) (aux4 s) (bbuffer s) (bcount s) (window s) (count s) (end_ s) v (dtable s) (tables s) (allocator s).

Definition set_dtable (v : TablePtr) (s : TInflator) : TInflator :=
  mkInflator (state s) (error s) (finalinput s) (smem s) (source s) (sbgn s) (send s) (tmem s) (target s) (tbgn s) (tend s) (substate s) (final s) (used s) (aux0 s) (aux1 s) (aux2 s) (aux3 s) (aux4 s) (bbuffer s) (bcount s) (window s) (count s) (end_ s) (ltable s) v (tables s) (allocator s).

Definition set_tables (v : option TTINFLTTables) (s : TInflator) : TInflator :=
  mkInflator (state s) (error s) (finalinput s) (smem s) (source s) (sbgn s) (send s) (tmem s) (target s) (tbgn s) (tend s) (substate s) (final s) (used s) (aux0 s) (aux1 s) (aux2 s) (aux3 s) (aux4 s) (bbuffer s) (bcount s) (window s) (count s) (end_ s) (ltable s) (dtable s) v (allocator s).

Definition set_allocator (v : Z -> bool) (s : TInflator) : TInflator :=
  mkInflator (state s) (error s) (finalinput s) (smem s) (source s) (sbgn s) (send s) (tmem s) (target s) (tbgn s) (tend s) (substate s) (final s) (used s) (aux0 s) (aux1 s) (aux2 s) (aux3 s) (aux4 s) (bbuffer s) (bcount s) (window s) (count s) (end_ s) (ltable s) (dtable s) (tables s) v.

(** ** A state monad for the functions that work on [struct TInflator]

    [Undefined] is a run that leaves defined C behaviour; [Timeout] is a
    loop of the embedding that used up its fuel. *)

Inductive result (A : Type) : Type :=
| Ok (a : A) (s : TInflator)
| Undefined
| Timeout.

Arguments Ok {A} a s.
Arguments Undefined {A}.
Arguments Timeout {A}.

Definition M (A : Type) : Type := TInflator -> result A.

Definition ret {A : Type} (a : A) : M A := fun s => Ok a s.

Definition bind {A B : Type} (m : M A) (k : A -> M B) : M B :=
  fun s =>
    match m s with
    | Ok a s' => k a s'
    | Undefined => Undefined
    | Timeout => Timeout
    end.

Definition gets {A : Type} (f : TInflator -> A) : M A := fun s => Ok (f s) s.
Definition modify (f : TInflator -> TInflator) : M unit := fun s => Ok tt (f s).
Definition undefined {A : Type} : M A := fun _ => Undefined.
Definition timeout {A : Type} : M A := fun _ => Timeout.

Definition lift {A : Type} (o : option A) : M A :=
  fun s => match o with Some a => Ok a s | None => Undefined end.

(** A read of the state that is undefined where [f] is [None]. *)
Definition geto {A : Type} (f : TInflator -> option A) : M A :=
  fun s => match f s with Some a => Ok a s | None => Undefined end.

Declare Scope inflt_scope.
Delimit Scope inflt_scope with inflt.
Notation "x <- m ;; k" := (bind m (fun x => k))
  (at level 61, m at next level, right associativity) : inflt_scope.
Notation "m ;; k" := (bind m (fun _ => k))
  (at level 61, right associativity) : inflt_scope.
Open Scope inflt_scope.

(** [SETERROR(ERROR)] *)
Definition SETERROR (e : Z) : M unit := modify (set_error e).

(** ** Memory *)

(** [ctb_memcpy(dst + doff, src + soff, n)] on disjoint arrays. *)
Definition memcpy (dst : list Z) (doff : Z) (src : list Z) (soff n : Z)
  : option (list Z) :=
  if (0 <=? doff) && (0 <=? soff) && (0 <=? n)
     && (doff + n <=? Z.of_nat (length dst))
     && (soff + n <=? Z.of_nat (length src))
  then Some (firstn (Z.to_nat doff) dst
             ++ firstn (Z.to_nat n) (skipn (Z.to_nat soff) src)
             ++ skipn (Z.to_nat (doff + n)) dst)
  else None.

(** [k] rounds of [*target++ = *buffer++], the buffer being in the window
    ([inwin]) or in the target span itself; the bytes are moved one at a
    time, so that a source that overlaps the destination repeats. *)
Fixpoint copy_run (k : nat) (win : option (list Z)) (inwin : bool)
    (buffer : Z) (tm : list Z) (tgt : Z) : option (list Z) :=
  match k with
  | O => Some tm
  | S k' =>
      (b <-? (if inwin then w <-? win ;; nthZ w buffer else nthZ tm buffer) ;;
       tm' <-? updZ tm tgt b ;;
       copy_run k' win inwin (buffer + 1) tm' (tgt + 1))%opt
  end.

(** The entry [i] of the table a pointer refers to. *)
Definition table_at (s : TInflator) (p : TablePtr) (i : Z)
  : option TINFLTTEntry :=
  match p with
  | PtrUnset => None
  | PtrStaticL => nthZ lsttctable i
  | PtrStaticD => nthZ dsttctable i
  | PtrSymbols off =>
      match tables s with
      | Some t => if off + i <? 0 then None else nthZ (symbols t) (off + i)
      | None => None
      end
  end.

Definition lookup (p : TInflator -> TablePtr) (i : Z) : M TINFLTTEntry :=
  geto (fun s => table_at s (p s) i).

(** ** Bit input operations *)

(** [*state->source++] *)
Definition nextbyte : M Z :=
  b <- (geto (fun s => nthZ (smem s) (source s))) ;;
  modify (fun s => set_source (source s + 1) s) ;;
  ret b.

Fixpoint tryreadbits (fuel : nat) (n : Z) : M bool :=
  match fuel with
  | O => timeout
  | S fuel' =>
      bc <- gets bcount ;;
      if bc <? n then
        src <- gets source ;;
        lim <- gets send ;;
        if lim <=? src then ret false
        else
          b <- nextbyte ;;
          v <- lift (shl64 b bc) ;;
          modify (fun s => set_bbuffer (Z.lor (bbuffer s) v) s) ;;
          modify (fun s => set_bcount (uxx (bcount s + 8)) s) ;;
          tryreadbits fuel' n
      else ret true
  end.

Definition fetchbyte : M bool :=
  src <- gets source ;;
  lim <- gets send ;;
  if src <? lim then
    bc <- gets bcount ;;
    b <- nextbyte ;;
    v <- lift (shl64 b bc) ;;
    modify (fun s => set_bbuffer (Z.lor (bbuffer s) v) s) ;;
    modify (fun s => set_bcount (uxx (bcount s + 8)) s) ;;
    ret true
  else ret false.

Definition dropbits (n : Z) : M unit :=
  bb <- gets bbuffer ;;
  v <- lift (shr64 bb n) ;;
  modify (set_bbuffer v) ;;
  modify (fun s => set_bcount (uxx (bcount s - n)) s).

Definition getbits (n : Z) : M Z :=
  bb <- gets bbuffer ;;
  m <- lift (shl64 1 n) ;;
  ret (Z.land bb (m - 1)).

(** ** The sliding window *)

Definition updatewindow : M Z :=
  total <- gets (fun s => uxx (target s - tbgn s)) ;;
  if total =? 0 then ret 0
  else
    let total := if WNDWSIZE <? total then WNDWSIZE else total in
    begin <- gets (fun s => target s - total) ;;
    cnt <- gets count ;;
    (if cnt <? WNDWSIZE then
       let bytes := uxx (cnt + total) in
       let bytes := if WNDWSIZE <? bytes then WNDWSIZE else bytes in
       modify (set_count bytes)
     else ret tt) ;;
    e <- gets end_ ;;
    let maxrun := uxx (WNDWSIZE - e) in
    let maxrun := if total <? maxrun then total else maxrun in
    w <- (geto (fun s => window s)) ;;
    tm <- gets tmem ;;
    w <- lift (memcpy w e tm begin maxrun) ;;
    modify (set_window (Some w)) ;;
    let total := uxx (total - maxrun) in
    if negb (total =? 0) then
      w <- lift (memcpy w 0 tm (begin + maxrun) total) ;;
      modify (set_window (Some w)) ;;
      modify (set_end_ total) ;;
      ret 0
    else
      modify (set_end_ (uxx (e + maxrun))) ;;
      ret 0.

(** ** Stored blocks *)

(** [if (updatewindow(state)) return INFLT_ERROR; ...] *)
Definition after_window (k : M Z) : M Z :=
  r <- updatewindow ;;
  if negb (r =? 0) then ret INFLT_ERROR else k.

(** A little-endian pair of bytes from the bit buffer. *)
Definition getpair : M Z :=
  a <- getbits 8 ;;
  dropbits 8 ;;
  b <- getbits 8 ;;
  dropbits 8 ;;
  ret (Z.lor (u8 a) (Z.shiftl (u8 b) 8)).

Definition strd_state3 : M Z :=
  sourceleft <- gets (fun s => uxx (send s - source s)) ;;
  targetleft <- gets (fun s => uxx (tend s - target s)) ;;
  slength <- gets aux0 ;;
  let maxrun := slength in
  let maxrun := if targetleft <? maxrun then targetleft else maxrun in
  let maxrun := if sourceleft <? maxrun then sourceleft else maxrun in
  tm <- (geto (fun s => memcpy (tmem s) (target s) (smem s) (source s) maxrun)) ;;
  modify (set_tmem tm) ;;
  modify (fun s => set_target (target s + maxrun) s) ;;
  modify (fun s => set_source (source s + maxrun) s) ;;
  modify (fun s => set_aux0 (uxx (aux0 s - maxrun)) s) ;;
  slength <- gets aux0 ;;
  if negb (slength =? 0) then
    fin <- gets final ;;
    r <- (if fin =? 0 then updatewindow else ret 0) ;;
    if negb (r =? 0) then ret INFLT_ERROR
    else if uxx (targetleft - maxrun) =? 0 then ret INFLT_TGTEXHSTD
    else ret INFLT_SRCEXHSTD
  else
    modify (set_substate 0) ;;
    ret INFLT_OK.

Definition strd_state2 (fuel : nat) : M Z :=
  b <- tryreadbits fuel 16 ;;
  if b then
    nlength <- getpair ;;
    slength <- gets aux0 ;;
    if negb (u16 (Z.lnot slength) =? nlength) then
      SETERROR INFLT_EBADBLOCK ;;
      ret INFLT_ERROR
    else
      modify (fun s => set_substate (uxx (substate s + 1)) s) ;;
      strd_state3
  else after_window (ret INFLT_SRCEXHSTD).

Definition strd_state1 (fuel : nat) : M Z :=
  b <- tryreadbits fuel 16 ;;
  if b then
    v <- getpair ;;
    modify (set_aux0 v) ;;
    modify (fun s => set_substate (uxx (substate s + 1)) s) ;;
    strd_state2 fuel
  else after_window (ret INFLT_SRCEXHSTD).

Definition strd_state0 (fuel : nat) : M Z :=
  b <- tryreadbits fuel 8 ;;
  if b then
    bc <- gets bcount ;;
    dropbits (Z.land bc 7) ;;
    modify (fun s => set_substate (uxx (substate s + 1)) s) ;;
    strd_state1 fuel
  else after_window (ret INFLT_SRCEXHSTD).

Definition decodestrd (fuel : nat) : M Z :=
  sub <- gets substate ;;
  if sub =? 1 then strd_state1 fuel
  else if sub =? 2 then strd_state2 fuel
  else if sub =? 3 then strd_state3
  else strd_state0 fuel.

(** ** Dynamic block headers *)

(** The loop that reads a table entry, pulling bytes until the bits of the
    entry are in the buffer: the entry is [table[base + (getbits(bits) >>
    shift)]]; [None] is the exit on an exhausted source. *)
Fixpoint fetch_entry (fuel : nat) (tbl : TInflator -> TablePtr)
    (base bits shift : Z) : M (option TINFLTTEntry) :=
  match fuel with
  | O => timeout
  | S fuel' =>
      g <- getbits bits ;;
      e <- lookup tbl (base + Z.shiftr g shift) ;;
      bc <- gets bcount ;;
      if TEntry.length e <=? bc then ret (Some e)
      else
        b <- fetchbyte ;;
        if b then fetch_entry fuel' tbl base bits shift else ret None
  end.

(** The array [lengths] of the dynamic tables. *)
Definition get_lengths : M (list Z) :=
  geto (fun s => option_map lengths (tables s)).

Definition put_lengths (l : list Z) : M unit :=
  t <- (geto (fun s => tables s)) ;;
  modify (set_tables (Some (mkTables (symbols t) l))).

(** [lengths[i] = v] *)
Definition store_length (i v : Z) : M unit :=
  l <- get_lengths ;;
  l' <- lift (updZ l i v) ;;
  put_lengths l'.

(** [while (replen--) lengths[scindex++] = (uint16) length;] *)
Fixpoint repeat_length (k : nat) (len : Z) : M unit :=
  match k with
  | O => ret tt
  | S k' =>
      i <- gets aux3 ;;
      store_length i (u16 len) ;;
      modify (set_aux3 (uxx (i + 1))) ;;
      repeat_length k' len
  end.

(** The extra bits and the base of the repeat codes 16, 17 and 18. *)
Definition replen_sinfo : list (Z * Z) := [(0x02, 0x03); (0x03, 0x03); (0x07, 0x0b)].

(** The repeat count of a code 16, 17 or 18: the extra bits are read and
    the bits of the code and the extra bits dropped.  The result is the
    number of extra bits (the local [length]) with the count (the local
    [replen]), [None] on an exhausted source. *)
Definition read_repeat (fuel : nat) (e : TINFLTTEntry) : M (option (Z * Z)) :=
  si <- lift (nthZ replen_sinfo (TEntry.info e - 16)) ;;
  let replen := snd si in
  let length := fst si in
  b <- tryreadbits fuel (uxx (TEntry.length e + length)) ;;
  if b then
    dropbits (TEntry.length e) ;;
    g <- getbits length ;;
    let replen := uxx (replen + g) in
    dropbits length ;;
    ret (Some (length, replen))
  else ret None.

Fixpoint readlengths (fuel : nat) (n : Z) : M Z :=
  match fuel with
  | O => timeout
  | S fuel' =>
      scindex <- gets aux3 ;;
      if scindex <? n then
        oe <- fetch_entry fuel ltable 0 CROOTBITS 0 ;;
        match oe with
        | None => after_window (ret INFLT_SRCEXHSTD)
        | Some e =>
            if TEntry.info e <? 16 then
              store_length scindex (TEntry.info e) ;;
              modify (set_aux3 (uxx (scindex + 1))) ;;
              dropbits (TEntry.length e) ;;
              readlengths fuel' n
            else
              rr <- read_repeat fuel e ;;
              match rr with
              | None => after_window (ret INFLT_SRCEXHSTD)
              | Some (length, replen) =>
                  if (length =? 2) && (scindex =? 0) then
                    SETERROR INFLT_EBADTREE ;;
                    ret INFLT_ERROR
                  else
                    length <- (if length =? 2 then
                                 l <- get_lengths ;;
                                 lift (nthZ l (scindex - 1))
                               else ret 0) ;;
                    if DEFLT_DMAXSYMBOL + DEFLT_LMAXSYMBOL <? uxx (scindex + replen) then
                      SETERROR INFLT_EBADTREE ;;
                      ret INFLT_ERROR
                    else
                      repeat_length (Z.to_nat replen) length ;;
                      readlengths fuel' n
              end
        end
      else ret 0
  end.

(** The order of the code-length codes. *)
Definition lcorder : list Z :=
  [16; 17; 18; 0; 8; 7; 9; 6; 10; 5; 11; 4; 12; 3; 13; 2; 14; 1; 15].

(** [buildtable] on the table a pointer refers to. *)
Definition build_at (p : TablePtr) (lens : list Z) (n mode : Z) : M Z :=
  t <- (geto (fun s => tables s)) ;;
  match p with
  | PtrSymbols off =>
      if (0 <=? off) && (off <=? Z.of_nat (List.length (symbols t))) then
        rt <- lift (buildtable lens n (skipn (Z.to_nat off) (symbols t)) mode) ;;
        modify (set_tables
                  (Some (mkTables (firstn (Z.to_nat off) (symbols t) ++ snd rt)
                           (lengths t)))) ;;
        ret (fst rt)
      else undefined
  | _ => undefined
  end.

(** [for (; sccount > scindex; scindex++)] reading the code-length code
    lengths, three bits each; [None] when the loop is through. *)
Fixpoint read_clengths (fuel : nat) : M (option Z) :=
  match fuel with
  | O => timeout
  | S fuel' =>
      sccount <- gets aux2 ;;
      scindex <- gets aux3 ;;
      if scindex <? sccount then
        b <- tryreadbits fuel 3 ;;
        if b then
          i <- lift (nthZ lcorder scindex) ;;
          g <- getbits 3 ;;
          store_length i (u16 g) ;;
          dropbits 3 ;;
          modify (set_aux3 (uxx (scindex + 1))) ;;
          read_clengths fuel'
        else
          r <- after_window (ret INFLT_SRCEXHSTD) ;;
          ret (Some r)
      else ret None
  end.

(** [for (; sccount > scindex; scindex++) lengths[lcorder[scindex]] = 0;] *)
Fixpoint zero_clengths (fuel : nat) : M unit :=
  match fuel with
  | O => timeout
  | S fuel' =>
      sccount <- gets aux2 ;;
      scindex <- gets aux3 ;;
      if scindex <? sccount then
        i <- lift (nthZ lcorder scindex) ;;
        store_length i 0 ;;
        modify (set_aux3 (uxx (scindex + 1))) ;;
        zero_clengths fuel'
      else ret tt
  end.

Definition dnmc_state2 (fuel : nat) : M Z :=
  slcount <- gets aux0 ;;
  sdcount <- gets aux1 ;;
  r <- readlengths fuel (uxx (slcount + sdcount)) ;;
  if negb (r =? 0) then ret r
  else
    lens <- get_lengths ;;
    l256 <- lift (nthZ lens 256) ;;
    if l256 =? 0 then
      SETERROR INFLT_EBADTREE ;;
      ret INFLT_ERROR
    else
      lt <- gets ltable ;;
      r <- build_at lt lens slcount LTABLEMODE ;;
      if negb (r =? 0) then
        SETERROR INFLT_EBADTREE ;;
        ret INFLT_ERROR
      else
        dt <- gets dtable ;;
        r <- build_at dt (skipn (Z.to_nat slcount) lens) sdcount DTABLEMODE ;;
        if negb (r =? 0) then
          SETERROR INFLT_EBADTREE ;;
          ret INFLT_ERROR
        else
          modify (set_substate 0) ;;
          ret 0.

Definition dnmc_state1 (fuel : nat) : M Z :=
  o <- read_clengths fuel ;;
  match o with
  | Some r => ret r
  | None =>
      modify (set_aux2 DEFLT_CMAXSYMBOL) ;;
      zero_clengths fuel ;;
      lens <- get_lengths ;;
      lt <- gets ltable ;;
      r <- build_at lt lens DEFLT_CMAXSYMBOL CTABLEMODE ;;
      if negb (r =? 0) then
        SETERROR INFLT_EBADTREE ;;
        ret r
      else
        modify (fun s => set_substate (uxx (substate s + 1)) s) ;;
        modify (set_aux3 0) ;;
        dnmc_state2 fuel
  end.

Definition dnmc_state0 (fuel : nat) : M Z :=
  modify (set_ltable (PtrSymbols 0)) ;;
  modify (set_dtable (PtrSymbols ENOUGHL)) ;;
  b <- tryreadbits fuel 14 ;;
  if b then
    g <- getbits 5 ;; modify (set_aux0 (uxx (g + 257))) ;; dropbits 5 ;;
    g <- getbits 5 ;; modify (set_aux1 (uxx (g + 1))) ;; dropbits 5 ;;
    g <- getbits 4 ;; modify (set_aux2 (uxx (g + 4))) ;; dropbits 4 ;;
    slcount <- gets aux0 ;;
    sdcount <- gets aux1 ;;
    if (286 <? slcount) || (30 <? sdcount) then
      SETERROR INFLT_EBADTREE ;;
      ret INFLT_ERROR
    else
      modify (fun s => set_substate (uxx (substate s + 1)) s) ;;
      modify (set_aux3 0) ;;
      dnmc_state1 fuel
  else after_window (ret INFLT_SRCEXHSTD).

Definition decodednmc (fuel : nat) : M Z :=
  sub <- gets substate ;;
  if sub =? 1 then dnmc_state1 fuel
  else if sub =? 2 then dnmc_state2 fuel
  else dnmc_state0 fuel.

(** ** The match copy *)

(** Where the bytes of a match at [distance] behind target position [tgt]
    start: in the window (offset [offset], [maxrun] of them before the
    window or the run ends) or in the target span.  [None] is a distance
    beyond the window contents. *)
Definition match_source (s : TInflator) (tgt distance length : Z)
  : option (bool * Z * Z) :=
  let maxrun := uxx (tgt - tbgn s) in
  if maxrun <? distance then
    let maxrun := uxx (distance - maxrun) in
    if count s <? maxrun then None
    else
      let '(maxrun, offset) :=
        if end_ s <? maxrun
        then (uxx (maxrun - end_ s), uxx (WNDWSIZE - uxx (maxrun - end_ s)))
        else (maxrun, uxx (end_ s - maxrun)) in
      Some (true, offset, if length <? maxrun then length else maxrun)
  else Some (false, tgt - distance, length).

(** [do { *target++ = *buffer++; } while (--maxrun);] on the target
    position [tgt]; with [maxrun] zero the C loop runs 2^64 times and
    leaves the buffers. *)
Definition copy_maxrun (inwin : bool) (buffer tgt maxrun : Z) : M unit :=
  if maxrun =? 0 then undefined
  else
    tm <- (geto (fun s => copy_run (Z.to_nat maxrun) (window s) inwin buffer
                            (tmem s) tgt)) ;;
    modify (set_tmem tm).

Fixpoint copybytes_loop (fuel : nat) (distance length avaible : Z) : M Z :=
  match fuel with
  | O => timeout
  | S fuel' =>
      if avaible =? 0 then
        after_window
          (modify (set_aux0 length) ;;
           modify (set_aux2 distance) ;;
           modify (set_substate 4) ;;
           ret INFLT_TGTEXHSTD)
      else
        ms <- gets (fun s => match_source s (target s) distance length) ;;
        match ms with
        | None =>
            SETERROR INFLT_EFAROFFSET ;;
            ret INFLT_ERROR
        | Some (inwin, buffer, maxrun) =>
            let maxrun := if avaible <? maxrun then avaible else maxrun in
            let length := uxx (length - maxrun) in
            let avaible := uxx (avaible - maxrun) in
            tgt <- gets target ;;
            copy_maxrun inwin buffer tgt maxrun ;;
            modify (set_target (tgt + maxrun)) ;;
            if negb (length =? 0)
            then copybytes_loop fuel' distance length avaible
            else ret 0
        end
  end.

Definition copybytes (fuel : nat) (distance length : Z) : M Z :=
  avaible <- gets (fun s => uxx (tend s - target s)) ;;
  copybytes_loop fuel distance length avaible.

(** ** The fast path *)

Definition FASTSRCLEFT : Z := 14.
Definition FASTTGTLEFT : Z := 274.

(** The local variables of [decodefast] that live across its loop. *)
Record fastvars : Type := mkFast {
  fsource : Z;
  ftarget : Z;
  fbb : Z;
  fbc : Z
}.

(** [FILLBBUFFER(); bb |= n << bc; bc += 48; source += 6;] *)
Definition fillbb (v : fastvars) : M fastvars :=
  let rd i := (geto (fun s => nthZ (smem s) (fsource v + i))) : M Z in
  b0 <- rd 0 ;; b1 <- rd 1 ;; b2 <- rd 2 ;;
  b3 <- rd 3 ;; b4 <- rd 4 ;; b5 <- rd 5 ;;
  let n := Z.lor (Z.lor (Z.lor (Z.lor (Z.lor
             (Z.shiftl b0 0x00) (Z.shiftl b1 0x08)) (Z.shiftl b2 0x10))
             (Z.shiftl b3 0x18)) (Z.shiftl b4 0x20)) (Z.shiftl b5 0x28) in
  sh <- lift (shl64 n (fbc v)) ;;
  ret (mkFast (fsource v + 6) (ftarget v) (Z.lor (fbb v) sh) (uxx (fbc v + 48))).

(** [GETBITS(bb, N)] *)
Definition GETBITS (bb n : Z) : M Z :=
  m <- lift (shl64 1 n) ;;
  ret (Z.land bb (m - 1)).

(** [DROPBITS(bb, bc, N)] *)
Definition DROPBITS (v : fastvars) (n : Z) : M fastvars :=
  bb <- lift (shr64 (fbb v) n) ;;
  ret (mkFast (fsource v) (ftarget v) bb (uxx (fbc v - n))).

(** A table entry of the fast path, through the subtable when the root
    entry points at one. *)
Definition fast_entry (tbl : TInflator -> TablePtr) (rootbits : Z)
    (v : fastvars) : M TINFLTTEntry :=
  g <- GETBITS (fbb v) rootbits ;;
  e <- lookup tbl g ;;
  if TEntry.etag e =? SUBTABLEENTRY then
    g <- GETBITS (fbb v) (TEntry.length e) ;;
    lookup tbl (TEntry.info e + Z.shiftr g rootbits)
  else ret e.

(** [do { (step bytes copied); } while (target < end);] returning the
    target reached. *)
Fixpoint copy_until (fuel : nat) (step : Z) (buffer tgt lim : Z) : M Z :=
  match fuel with
  | O => timeout
  | S fuel' =>
      tm <- (geto (fun s => copy_run (Z.to_nat step) (window s) false buffer
                              (tmem s) tgt)) ;;
      modify (set_tmem tm) ;;
      let tgt := tgt + step in
      let buffer := buffer + step in
      if tgt <? lim then copy_until fuel' step buffer tgt lim
      else ret tgt
  end.

(** The copy of a match whose source may start in the window. *)
Fixpoint fast_far_copy (fuel : nat) (distance length tgt : Z) : M (option Z) :=
  match fuel with
  | O => timeout
  | S fuel' =>
      ms <- gets (fun s => match_source s tgt distance length) ;;
      match ms with
      | None => ret None
      | Some (inwin, buffer, maxrun) =>
          let length := uxx (length - maxrun) in
          copy_maxrun inwin buffer tgt maxrun ;;
          let tgt := tgt + maxrun in
          if negb (length =? 0) then fast_far_copy fuel' distance length tgt
          else ret (Some tgt)
      end
  end.

(** [L_DONE]: the whole bytes left in the bit buffer go back to the
    source. *)
Definition fast_done (v : fastvars) (r : Z) : M Z :=
  let n := Z.land (fbc v) 7 in
  m <- lift (shl64 1 n) ;;
  modify (set_bbuffer (Z.land (fbb v) (m - 1))) ;;
  modify (set_bcount n) ;;
  modify (set_source (fsource v - Z.shiftr (uxx (fbc v - n)) 3)) ;;
  modify (set_target (ftarget v)) ;;
  ret r.

(** The match of the fast path, from the length entry [e] on: the extra
    bits of the length, the distance, and the copy.  [k] is the jump back
    to [L_LOOP]. *)
Definition fast_match (fuel : nat) (k : fastvars -> M Z) (v : fastvars)
    (e : TINFLTTEntry) : M Z :=
  (* length *)
  v <- (if fbc v <? TEntry.etag e then fillbb v else ret v) ;;
  g <- GETBITS (fbb v) (TEntry.etag e) ;;
  let length := uxx (TEntry.info e + g) in
  v <- DROPBITS v (TEntry.etag e) ;;
  v <- (if fbc v <? 15 then fillbb v else ret v) ;;
  (* decode distance *)
  e <- fast_entry dtable DROOTBITS v ;;
  v <- DROPBITS v (TEntry.length e) ;;
  if TEntry.etag e =? INVALIDCODE then
    SETERROR INFLT_EBADCODE ;;
    ret INFLT_ERROR
  else
    v <- (if fbc v <? TEntry.etag e then fillbb v else ret v) ;;
    g <- GETBITS (fbb v) (TEntry.etag e) ;;
    let distance := uxx (TEntry.info e + g) in
    v <- DROPBITS v (TEntry.etag e) ;;
    targetsz <- gets (fun s => uxx (ftarget v - tbgn s)) ;;
    if distance <? targetsz then
      let buffer := ftarget v - distance in
      let lim := ftarget v + length in
      if 8 <=? distance then
        tm <- (geto (fun s => copy_run 8 (window s) false buffer
                                (tmem s) (ftarget v))) ;;
        modify (set_tmem tm) ;;
        copy_until fuel 8 (buffer + 8) (ftarget v + 8) lim ;;
        k (mkFast (fsource v) lim (fbb v) (fbc v))
      else
        tm <- (geto (fun s => copy_run 2 (window s) false buffer
                                (tmem s) (ftarget v))) ;;
        modify (set_tmem tm) ;;
        tgt <- copy_until fuel 1 (buffer + 2) (ftarget v + 2) lim ;;
        k (mkFast (fsource v) tgt (fbb v) (fbc v))
    else
      o <- fast_far_copy fuel distance length (ftarget v) ;;
      match o with
      | None =>
          SETERROR INFLT_EFAROFFSET ;;
          ret INFLT_ERROR
      | Some tgt => k (mkFast (fsource v) tgt (fbb v) (fbc v))
      end.

Fixpoint fast_loop (fuel : nat) (v : fastvars) : M Z :=
  match fuel with
  | O => timeout
  | S fuel' =>
      tlim <- gets tend ;;
      slim <- gets send ;;
      if (tlim - ftarget v <? FASTTGTLEFT) || (slim - fsource v <? FASTSRCLEFT)
      then fast_done v 0
      else
        v <- (if fbc v <? 15 then fillbb v else ret v) ;;
        (* decode literal or length *)
        e <- fast_entry ltable LROOTBITS v ;;
        v <- DROPBITS v (TEntry.length e) ;;
        if TEntry.etag e =? LITERALSYMBOL then
          tm <- (geto (fun s => updZ (tmem s) (ftarget v) (u8 (TEntry.info e)))) ;;
          modify (set_tmem tm) ;;
          fast_loop fuel' (mkFast (fsource v) (ftarget v + 1) (fbb v) (fbc v))
        else if TEntry.etag e =? ENDOFBLOCK then fast_done v ENDOFBLOCK
        else if TEntry.etag e =? INVALIDCODE then
          SETERROR INFLT_EBADCODE ;;
          ret INFLT_ERROR
        else fast_match fuel (fast_loop fuel') v e
  end.

Definition decodefast (fuel : nat) : M Z :=
  v <- gets (fun s => mkFast (source s) (target s) (bbuffer s) (bcount s)) ;;
  fast_loop fuel v.

(** ** The block decoder *)

(** The suspension of [decodeblck] on an exhausted source in the states 1
    to 3: the window is updated and the match decoded so far is saved. *)
Definition suspend_src (sub length bextra distance : Z) : M Z :=
  after_window
    (modify (set_substate sub) ;;
     modify (set_aux0 length) ;;
     modify (set_aux1 bextra) ;;
     modify (set_aux2 distance) ;;
     ret INFLT_SRCEXHSTD).

(** [L_STATE4], with [k] the jump back to [L_LOOP]. *)
Definition blck_state4 (fuel : nat) (k : Z -> Z -> Z -> M Z)
    (length bextra distance : Z) : M Z :=
  r <- copybytes fuel distance length ;;
  if negb (r =? 0) then ret r else k length bextra distance.

Definition blck_state3 (fuel : nat) (k : Z -> Z -> Z -> M Z)
    (length bextra distance : Z) : M Z :=
  b <- tryreadbits fuel bextra ;;
  if b then
    g <- getbits bextra ;;
    let distance := uxx (distance + g) in
    dropbits bextra ;;
    blck_state4 fuel k length bextra distance
  else suspend_src 3 length bextra distance.

Definition blck_state2 (fuel : nat) (k : Z -> Z -> Z -> M Z)
    (length bextra distance : Z) : M Z :=
  oe <- fetch_entry fuel dtable 0 DROOTBITS 0 ;;
  match oe with
  | None => suspend_src 2 length bextra distance
  | Some e =>
      oe <- (if TEntry.etag e =? SUBTABLEENTRY
             then fetch_entry fuel dtable (TEntry.info e) (TEntry.length e) DROOTBITS
             else ret (Some e)) ;;
      match oe with
      | None =>
          r <- updatewindow ;;
          if negb (r =? 0) then
            SETERROR INFLT_EOOM ;;
            ret INFLT_ERROR
          else
            modify (set_substate 2) ;;
            modify (set_aux0 length) ;;
            modify (set_aux1 bextra) ;;
            modify (set_aux2 distance) ;;
            ret INFLT_SRCEXHSTD
      | Some e =>
          if TEntry.etag e =? INVALIDCODE then
            SETERROR INFLT_EBADCODE ;;
            ret INFLT_ERROR
          else
            dropbits (TEntry.length e) ;;
            blck_state3 fuel k length (TEntry.etag e) (TEntry.info e)
      end
  end.

Definition blck_state1 (fuel : nat) (k : Z -> Z -> Z -> M Z)
    (length bextra distance : Z) : M Z :=
  b <- tryreadbits fuel bextra ;;
  if b then
    g <- getbits bextra ;;
    let length := uxx (length + g) in
    dropbits bextra ;;
    blck_state2 fuel k length bextra distance
  else suspend_src 1 length bextra distance.

(** The fast path as tried at [L_LOOP]: [Some] is the result [decodeblck]
    returns with, [None] goes on to the next symbol. *)
Definition blck_fastcheck (fuel : nat) : M (option Z) :=
  targetleft <- gets (fun s => uxx (tend s - target s)) ;;
  sourceleft <- gets (fun s => uxx (send s - source s)) ;;
  if (FASTTGTLEFT <=? targetleft) && (FASTSRCLEFT <=? sourceleft) then
    r <- decodefast fuel ;;
    if r =? ENDOFBLOCK then
      modify (set_substate 0) ;;
      ret (Some 0)
    else if negb (r =? 0) then ret (Some INFLT_ERROR)
    else ret None
  else ret None.

(** What [decodeblck] does with the literal/length entry [e] it has read;
    for a length, the states 1 to 4 follow.  [k] is the jump back to
    [L_LOOP]. *)
Definition blck_entry (fuel : nat) (k : Z -> Z -> Z -> M Z)
    (length bextra distance : Z) (e : TINFLTTEntry) : M Z :=
  if TEntry.etag e =? LITERALSYMBOL then
    tgt <- gets target ;;
    lim <- gets tend ;;
    if tgt <? lim then
      tm <- (geto (fun s => updZ (tmem s) tgt (u8 (TEntry.info e)))) ;;
      modify (set_tmem tm) ;;
      modify (set_target (tgt + 1)) ;;
      dropbits (TEntry.length e) ;;
      k length bextra distance
    else
      after_window (modify (set_substate 0) ;; ret INFLT_TGTEXHSTD)
  else if TEntry.etag e =? ENDOFBLOCK then
    dropbits (TEntry.length e) ;;
    modify (set_substate 0) ;;
    ret 0
  else if TEntry.etag e =? INVALIDCODE then
    SETERROR INFLT_EBADCODE ;;
    ret INFLT_ERROR
  else
    dropbits (TEntry.length e) ;;
    blck_state1 fuel k (TEntry.info e) (TEntry.etag e) distance.

(** One literal/length symbol of the slow path: the two loops that read
    its entry, then [blck_entry]. *)
Definition blck_symbol (fuel : nat) (k : Z -> Z -> Z -> M Z)
    (length bextra distance : Z) : M Z :=
  oe <- fetch_entry fuel ltable 0 LROOTBITS 0 ;;
  match oe with
  | None => after_window (modify (set_substate 0) ;; ret INFLT_SRCEXHSTD)
  | Some e =>
      oe <- (if TEntry.etag e =? SUBTABLEENTRY
             then fetch_entry fuel ltable (TEntry.info e) (TEntry.length e) LROOTBITS
             else ret (Some e)) ;;
      match oe with
      | None => after_window (modify (set_substate 0) ;; ret INFLT_SRCEXHSTD)
      | Some e => blck_entry fuel k length bextra distance e
      end
  end.

(** [L_LOOP], entered with the flag [fastcheck]. *)
Fixpoint blck_loop (fuel : nat) (fastcheck : bool) (length bextra distance : Z)
  : M Z :=
  match fuel with
  | O => timeout
  | S fuel' =>
      fast <- (if fastcheck then blck_fastcheck fuel' else ret None) ;;
      match fast with
      | Some r => ret r
      | None =>
          blck_symbol fuel' (blck_loop fuel' false) length bextra distance
      end
  end.

Definition decodeblck (fuel : nat) : M Z :=
  length <- gets aux0 ;;
  bextra <- gets aux1 ;;
  distance <- gets aux2 ;;
  let k := blck_loop fuel true in
  sub <- gets substate ;;
  if sub =? 1 then blck_state1 fuel k length bextra distance
  else if sub =? 2 then blck_state2 fuel k length bextra distance
  else if sub =? 3 then blck_state3 fuel k length bextra distance
  else if sub =? 4 then blck_state4 fuel k length bextra distance
  else k length bextra distance.

(** ** The stream driver *)

(** [if (state->finalinput && r == INFLT_SRCEXHSTD) { SETERROR(
    INFLT_EINPUTEND); return INFLT_ERROR; } return r;] *)
Definition return_result (r : Z) : M Z :=
  fi <- gets finalinput ;;
  if negb (fi =? 0) && (r =? INFLT_SRCEXHSTD) then
    SETERROR INFLT_EINPUTEND ;;
    ret INFLT_ERROR
  else ret r.

(** [L_ERROR] *)
Definition l_error : M Z :=
  err <- gets error ;;
  (if err =? 0 then SETERROR INFLT_EBADSTATE else ret tt) ;;
  ret INFLT_ERROR.

(** [L_DECODE], with [k] the way on into the [for (;;)] loop. *)
Definition l_decode (fuel : nat) (k : M Z) : M Z :=
  r <- decodeblck fuel ;;
  if negb (r =? 0) then return_result r
  else
    modify (set_state 0) ;;
    k.

(** The [for (;;) switch (state->state)] of [inflator_inflate]. *)
Fixpoint inflate_loop (fuel : nat) : M Z :=
  match fuel with
  | O => timeout
  | S fuel' =>
      st <- gets state ;;
      if st =? 0 then
        fin <- gets final ;;
        if negb (fin =? 0) then
          modify (set_state INFLT_BADSTATE) ;;
          ret INFLT_OK
        else
          b <- tryreadbits fuel 3 ;;
          if b then
            g <- getbits 1 ;; modify (set_final g) ;; dropbits 1 ;;
            g <- getbits 2 ;; modify (set_state g) ;; dropbits 2 ;;
            modify (fun s => set_state (uxx (state s + 1)) s) ;;
            inflate_loop fuel'
          else
            fi <- gets finalinput ;;
            if negb (fi =? 0) then
              SETERROR INFLT_EINPUTEND ;;
              ret INFLT_ERROR
            else after_window (ret INFLT_SRCEXHSTD)
      else if st =? 1 then
        r <- decodestrd fuel ;;
        if negb (r =? 0) then return_result r
        else
          modify (set_state 0) ;;
          inflate_loop fuel'
      else if st =? 2 then
        modify (set_ltable PtrStaticL) ;;
        modify (set_dtable PtrStaticD) ;;
        modify (set_state 5) ;;
        l_decode fuel (inflate_loop fuel')
      else if st =? 3 then
        r <- decodednmc fuel ;;
        if negb (r =? 0) then return_result r
        else
          modify (set_state 5) ;;
          l_decode fuel (inflate_loop fuel')
      else if st =? 4 then
        SETERROR INFLT_EBADBLOCK ;;
        l_error
      else l_error
  end.

(** [if (state->state == 5) { L_DECODE: ... } for (;;) ...] *)
Definition inflate_dispatch (fuel : nat) : M Z :=
  st <- gets state ;;
  if st =? 5 then l_decode fuel (inflate_loop fuel)
  else inflate_loop fuel.

Definition inflator_inflate (fuel : nat) (final : Z) : M Z :=
  fi <- gets finalinput ;;
  (if (fi =? 0) && negb (final =? 0) then modify (set_finalinput 1) else ret tt) ;;
  modify (set_used 1) ;;
  inflate_dispatch fuel.

(** ** Creation, reset and the preset dictionary *)

(** [_reserve]: fresh memory is modelled as filled with zeros. *)
Definition reserve_bytes (s : TInflator) (amount : Z) : option (list Z) :=
  if allocator s amount then Some (repeat 0 (Z.to_nat amount)) else None.

(** [sizeof(struct TTINFLTTables)] *)
Definition TABLESSIZE : Z :=
  (ENOUGHL + ENOUGHD) * 4 + (DEFLT_LMAXSYMBOL + DEFLT_DMAXSYMBOL) * 2.

Definition reserve_tables (s : TInflator) : option TTINFLTTables :=
  if allocator s TABLESSIZE
  then Some (mkTables (repeat (E 0 0 0) (Z.to_nat (ENOUGHL + ENOUGHD)))
               (repeat 0 (Z.to_nat (DEFLT_LMAXSYMBOL + DEFLT_DMAXSYMBOL))))
  else None.

(** The assignments [inflator_reset] starts with. *)
Definition reset_fields (s : TInflator) : TInflator :=
  let s := set_state 0 s in
  let s := set_error 0 s in
  let s := set_finalinput 0 s in
  let s := set_smem [] (set_source 0 (set_sbgn 0 (set_send 0 s))) in
  let s := set_tmem [] (set_target 0 (set_tbgn 0 (set_tend 0 s))) in
  let s := set_final 0 s in
  let s := set_substate 0 s in
  let s := set_used 0 s in
  let s := set_aux0 0 (set_aux1 0 (set_aux2 0 (set_aux3 0 (set_aux4 0 s)))) in
  let s := set_bbuffer 0 s in
  let s := set_bcount 0 s in
  let s := set_count 0 s in
  set_end_ 0 s.

(** The allocations [inflator_reset] ends with, and its [L_ERROR]. *)
Definition reset_alloc (c : TInflator) : TInflator :=
  let l_error s := set_state INFLT_BADSTATE (set_error INFLT_EOOM s) in
  match window c with
  | Some _ =>
      match tables c with
      | Some _ => c
      | None =>
          match reserve_tables c with
          | Some t => set_tables (Some t) c
          | None => l_error c
          end
      end
  | None =>
      match reserve_bytes c WNDWSIZE with
      | None => l_error c
      | Some w =>
          let s := set_window (Some w) c in
          match tables s with
          | Some _ => s
          | None =>
              match reserve_tables s with
              | Some t => set_tables (Some t) s
              | None => l_error s
              end
          end
      end
  end.

Definition inflator_reset (s : TInflator) : TInflator :=
  reset_alloc (reset_fields s).

Definition inflator_setdctnr (dict : list Z) (size : Z) (s : TInflator)
  : option TInflator :=
  if negb (used s =? 0) then
    Some (set_state INFLT_BADSTATE (set_error INFLT_EINCORRECTUSE s))
  else
    match (match window s with
           | Some w => Some w
           | None => reserve_bytes s WNDWSIZE
           end) with
    | None => Some (set_state INFLT_BADSTATE (set_error INFLT_EOOM s))
    | Some w =>
        let size := if WNDWSIZE <? size then WNDWSIZE else size in
        option_map
          (fun w' => set_used 1 (set_end_ size (set_count size
                       (set_window (Some w') s))))
          (memcpy w 0 dict 0 size)
    end.

(** Modelled from the spec: [inflator_setsrc] and [inflator_settgt] are
    defined in the header [inflator.h], which is not among the sources;
    they establish the current input and output spans. *)
Definition inflator_setsrc (bytes : list Z) (s : TInflator) : TInflator :=
  set_smem bytes (set_sbgn 0 (set_source 0
    (set_send (Z.of_nat (List.length bytes)) s))).

Definition inflator_settgt (bytes : list Z) (s : TInflator) : TInflator :=
  set_tmem bytes (set_tbgn 0 (set_target 0
    (set_tend (Z.of_nat (List.length bytes)) s))).

(** * Specification-level notions and concrete runs *)

(** The state a run stops in, and its result. *)
Definition state_of {A : Type} (r : result A) (d : TInflator) : TInflator :=
  match r with
  | Ok _ s => s
  | _ => d
  end.

Definition value_of {A : Type} (r : result A) : option A :=
  match r with
  | Ok a _ => Some a
  | _ => None
  end.

(** [preserves I m]: the runs of [m] that return keep the invariant [I]. *)
Definition preserves {A : Type} (I : TInflator -> Prop) (m : M A) : Prop :=
  forall s, I s -> match m s with Ok _ s' => I s' | _ => True end.

(** [wp m Q s]: if the run of [m] from [s] returns, [Q] holds of the result
    and the state reached. *)
Definition wp {A : Type} (m : M A) (Q : A -> TInflator -> Prop)
    (s : TInflator) : Prop :=
  match m s with
  | Ok a s' => Q a s'
  | _ => True
  end.

(** The bytes written to the target span so far. *)
Definition output (s : TInflator) : list Z :=
  firstn (Z.to_nat (target s - tbgn s)) (skipn (Z.to_nat (tbgn s)) (tmem s)).

(** A zeroed decoder structure whose allocator never fails, and the
    decoder after its first reset. *)
Definition zeroed : TInflator :=
  mkInflator 0 0 0 [] 0 0 0 [] 0 0 0 0 0 0 0 0 0 0 0 0 0
    None 0 0 PtrUnset PtrUnset None (fun _ => true).

Definition fresh : TInflator := inflator_reset zeroed.

(** A fresh decoder given [input] and a zeroed target span of [outsz]
    bytes. *)
Definition start (input : list Z) (outsz : nat) : TInflator :=
  inflator_settgt (repeat 0 outsz) (inflator_setsrc input fresh).

(** A sequence of calls of [inflator_inflate], each with its fuel and
    its [final] argument, and the results they give. *)
Fixpoint inflate_calls (calls : list (nat * Z)) (s : TInflator)
  : result (list Z) :=
  match calls with
  | [] => Ok [] s
  | (fuel, final) :: rest =>
      match inflator_inflate fuel final s with
      | Ok r s' =>
          match inflate_calls rest s' with
          | Ok rs s'' => Ok (r :: rs) s''
          | Undefined => Undefined
          | Timeout => Timeout
          end
      | Undefined => Undefined
      | Timeout => Timeout
      end
  end.

(** The empty final stored block [01 00 00 ff ff]. *)
Definition empty_stored : list Z := [0x01; 0x00; 0x00; 0xff; 0xff].

(** A final stored block whose length check fails on [00 00] and is
    followed by the bytes [fe ff 41] that would have passed it. *)
Definition bad_stored : list Z :=
  [0x01; 0x01; 0x00; 0x00; 0x00; 0xfe; 0xff; 0x41].

(** ** The window invariant *)

Definition window_bounds (s : TInflator) : Prop :=
  0 <= count s <= WNDWSIZE /\ 0 <= end_ s <= WNDWSIZE.

(** The states a caller can bring a decoder into. *)
Inductive reachable : TInflator -> Prop :=
| reach_reset s : reachable (inflator_reset s)
| reach_setsrc s bytes : reachable s -> reachable (inflator_setsrc bytes s)
| reach_settgt s bytes : reachable s -> reachable (inflator_settgt bytes s)
| reach_setdctnr s dict size s' :
    reachable s -> inflator_setdctnr dict size s = Some s' -> reachable s'
| reach_inflate s fuel final r s' :
    reachable s -> inflator_inflate fuel final s = Ok r s' -> reachable s'.

(** The decoder after the call that consumes the final block of
    [empty_stored]. *)
Definition after_final : TInflator :=
  state_of (inflator_inflate 10 1 (start empty_stored 4)) zeroed.

(** The decoder after the call that fails on [bad_stored], and after the
    call that follows it. *)
Definition after_bad_block : TInflator :=
  state_of (inflator_inflate 10 0 (start bad_stored 4)) zeroed.

Definition after_bad_block_again : TInflator :=
  state_of (inflator_inflate 10 0 after_bad_block) zeroed.

(** ** Dictionaries *)

(** A dictionary of the size of the window. *)
Definition dict_window_size : list Z := repeat 7 (Z.to_nat WNDWSIZE).

(** A dictionary one byte longer than the window: a byte 1 and then 32768
    bytes 2. *)
Definition dict_long : list Z := 1 :: repeat 2 (Z.to_nat WNDWSIZE).

(** The last [n] bytes of a dictionary. *)
Definition tail_bytes (n : nat) (dict : list Z) : list Z :=
  skipn (length dict - n) dict.

(** The window contents once the allocation has succeeded. *)
Definition window_bytes (s : TInflator) : list Z :=
  match window s with
  | Some w => w
  | None => []
  end.

Definition small_dict : list Z := [0x61; 0x62; 0x63].

Fixpoint bytes_eqb (a b : list Z) : bool :=
  match a, b with
  | [], [] => true
  | x :: a', y :: b' => (x =? y) && bytes_eqb a' b'
  | _, _ => false
  end.

(** The decoder a dictionary call leaves, [d] where the call is
    undefined. *)
Definition installed (o : option TInflator) (d : TInflator) : TInflator :=
  match o with
  | Some s => s
  | None => d
  end.

(** A fresh decoder with a dictionary as long as the window, with the
    long dictionary, and with the small dictionary given once and twice. *)
Definition with_full_dict : TInflator :=
  installed (inflator_setdctnr dict_window_size WNDWSIZE fresh) zeroed.

Definition with_long_dict : TInflator :=
  installed (inflator_setdctnr dict_long (WNDWSIZE + 1) fresh) zeroed.

Definition with_small_dict : TInflator :=
  installed (inflator_setdctnr small_dict 3 fresh) zeroed.

Definition with_small_dict_twice : TInflator :=
  installed (inflator_setdctnr small_dict 3 with_small_dict) zeroed.

(** A fresh decoder whose target span of the size of the window has been
    written to the end. *)
Definition window_full_output : TInflator :=
  set_target WNDWSIZE (inflator_settgt (repeat 0 (Z.to_nat WNDWSIZE)) fresh).

Definition is_some {A : Type} (o : option A) : bool :=
  match o with
  | Some _ => true
  | None => false
  end.

(** ** The final-input condition *)

(** [fi_frame m]: the run of [m] neither reads nor writes the field
    [finalinput]. *)
Definition fi_frame {A : Type} (m : M A) : Prop :=
  forall v s,
    m (set_finalinput v s)
    = match m s with
      | Ok a s' => Ok a (set_finalinput v s')
      | Undefined => Undefined
      | Timeout => Timeout
      end.

(** How a run with the final-input condition set to [v] relates to the
    run [x] without it: a source exhaustion becomes the error
    [INFLT_EINPUTEND], any other result is the same. *)
Definition final_rel (v : Z) (x y : result Z) : Prop :=
  match x with
  | Ok r s' =>
      if r =? INFLT_SRCEXHSTD then
        exists s'', y = Ok INFLT_ERROR s''
                    /\ error s'' = INFLT_EINPUTEND /\ finalinput s'' = v
      else y = Ok r (set_finalinput v s')
  | _ => True
  end.

Definition final_relM (v : Z) (m : M Z) : Prop :=
  forall s, finalinput s = 0 -> final_rel v (m s) (m (set_finalinput v s)).

(** What a call returns once the final-input condition is set to [v]. *)
Definition final_post (v : Z) (r : Z) (s' : TInflator) : Prop :=
  finalinput s' = v /\ r <> INFLT_SRCEXHSTD.

(** A final stored block cut off inside its length field. *)
Definition truncated_stored : list Z := [0x01; 0x05].

(** The fixed-Huffman block [f3 48 cd c9 c9 07 00] that holds "Hello". *)
Definition fixed_hello : list Z := [0xf3; 0x48; 0xcd; 0xc9; 0xc9; 0x07; 0x00].

(** ** Dynamic headers *)

(** A final dynamic block with HLIT = 257 and HDIST = 1, whose code
    lengths end with a repeat code 17 of three zeros that starts at
    position 257 and so runs two positions past HLIT + HDIST = 258; the
    literal/length code has the symbols 97 and 256, and the data are three
    times the symbol 97 and the end of block. *)
Definition repeat_overrun : list Z :=
  [5; 192; 33; 1; 0; 0; 0; 0; 144; 173; 254; 159; 16; 16].

(** The same block with a single code length 1 in place of the repeat. *)
Definition repeat_exact : list Z :=
  [5; 192; 33; 1; 0; 0; 0; 0; 144; 173; 254; 159; 0; 1].

(** A final dynamic block with HLIT = 286 and HDIST = 30 whose code
    lengths are three repeat codes 18 of 138 zeros each: the third runs
    from position 276 to 414, past the 320 entries of the array of
    lengths.  [repeat_capacity_head] are its first six bytes, which end
    inside the third repeat code, [repeat_capacity_rest] is its last
    byte. *)
Definition repeat_capacity_head : list Z := [237; 29; 128; 228; 255; 255].
Definition repeat_capacity_rest : list Z := [31].

(** The decoder suspended inside the third repeat code and given the
    rest of the block: [decodednmc] resumes in [readlengths] there. *)
Definition at_third_repeat : TInflator :=
  inflator_setsrc repeat_capacity_rest
    (state_of (inflator_inflate 100 0 (start repeat_capacity_head 8)) zeroed).

(** The table entry and the repeat read at the head of [readlengths]. *)
Definition entry_read (fuel : nat) (s : TInflator) : TINFLTTEntry :=
  match value_of (fetch_entry fuel ltable 0 CROOTBITS 0 s) with
  | Some (Some e) => e
  | _ => E 0 0 0
  end.

Definition after_entry (fuel : nat) (s : TInflator) : TInflator :=
  state_of (fetch_entry fuel ltable 0 CROOTBITS 0 s) zeroed.

(** ** Code-length vectors *)

(** The number of codes of length [k] in a vector of code lengths. *)
Definition count_of (L : list Z) (k : Z) : Z :=
  Z.of_nat (count_occ Z.eq_dec L k).

(** The count the validity check of the table builder runs: 1 at the
    start, doubled and lowered by the number of codes at each length. *)
Fixpoint kraft_left (L : list Z) (k : nat) : Z :=
  match k with
  | O => 1
  | S k' => 2 * kraft_left L k' - count_of L (Z.of_nat k)
  end.

(** Over-subscribed: the count goes negative at some length. *)
Definition over_subscribed (L : list Z) : Prop :=
  exists k, (1 <= k <= 15)%nat /\ kraft_left L k < 0.

(** Incomplete: the count never goes negative and stays positive. *)
Definition incomplete (L : list Z) : Prop :=
  (forall k, (1 <= k <= 15)%nat -> 0 <= kraft_left L k)
  /\ 0 < kraft_left L 15.

Definition all_zero (L : list Z) : Prop := Forall (fun x => x = 0) L.

(** The longest code length present, 0 when there is none. *)
Definition max_length (L : list Z) : Z := fold_right Z.max 0 L.

(** The code lengths a call of [buildtable] reads. *)
Definition lengths_read (lengths : list Z) (n : Z) : list Z :=
  firstn (Z.to_nat n) lengths.

(** Whether the count of the validity check is negative at one of the [k]
    lengths from [i] on. *)
Definition negative_in (L : list Z) (i k : nat) : bool :=
  existsb (fun j => kraft_left L j <? 0) (seq i k).

(** ** The exits of the fast path *)

(** What holds of the bit buffer when [decodefast] returns without an
    error. *)
Definition fast_exit_post (r : Z) (s' : TInflator) : Prop :=
  r <> INFLT_ERROR ->
  0 <= bcount s' < 8 /\ 0 <= bbuffer s' < 2 ^ bcount s'.

(** ** The fast path against the slow path *)

(** The source span read as one little-endian number, and the [n] bits of
    it from the bit position [p] on. *)
Fixpoint le_int (l : list Z) : Z :=
  match l with
  | [] => 0
  | b :: l' => b + 256 * le_int l'
  end.

Definition bits_at (l : list Z) (p n : Z) : Z := (le_int l / 2 ^ p) mod 2 ^ n.

(** The position in the source span of the next bit to decode. *)
Definition bitpos (s : TInflator) : Z := 8 * source s - bcount s.

(** The bit buffer holds the [bcount] bits of the source span that end at
    the byte [source], and nothing above them. *)
Definition is_byte (b : Z) : Prop := 0 <= b < 256.

Definition reservoir_ok (s : TInflator) : Prop :=
  Forall is_byte (smem s)
  /\ 0 <= source s <= send s
  /\ send s <= Z.of_nat (length (smem s))
  /\ 0 <= bcount s <= 63
  /\ 0 <= bitpos s
  /\ bbuffer s = bits_at (smem s) (bitpos s) (bcount s).

(** The target span lies in the target array. *)
Definition target_ok (s : TInflator) : Prop :=
  0 <= tbgn s <= target s
  /\ target s <= tend s
  /\ tend s <= Z.of_nat (length (tmem s)).

Definition range (n : Z) : list Z := map Z.of_nat (seq 0 (Z.to_nat n)).

Definition entry_eqb (a b : TINFLTTEntry) : bool :=
  (TEntry.info a =? TEntry.info b) && (TEntry.etag a =? TEntry.etag b)
  && (TEntry.length a =? TEntry.length b).

(** An entry for a match length: at most 5 extra bits and lengths from 3
    to 258. *)
Definition length_entry_ok (e : TINFLTTEntry) : bool :=
  (0 <=? TEntry.etag e) && (TEntry.etag e <=? 5)
  && (3 <=? TEntry.info e) && (TEntry.info e + 2 ^ TEntry.etag e <=? 259).

(** An entry for a match distance: at most 13 extra bits and distances
    from 1 on. *)
Definition distance_entry_ok (e : TINFLTTEntry) : bool :=
  (0 <=? TEntry.etag e) && (TEntry.etag e <=? 13)
  && (1 <=? TEntry.info e) && (TEntry.info e <? 2 ^ 16).

(** An entry that ends a lookup, in the table of the mode [mode]. *)
Definition leaf_ok (mode : Z) (e : TINFLTTEntry) : bool :=
  (0 <=? TEntry.length e) && (TEntry.length e <=? 15)
  && (if mode =? LTABLEMODE then
        (TEntry.etag e =? LITERALSYMBOL) || (TEntry.etag e =? ENDOFBLOCK)
        || (TEntry.etag e =? INVALIDCODE) || length_entry_ok e
      else (TEntry.etag e =? INVALIDCODE) || distance_entry_ok e).

(** The root entry [i] of a table with [root] root bits: a link to a
    subtable whose entries are all there and end the lookup, or an entry
    that ends the lookup and, when its code is no longer than the root,
    sits at every root index with the bits of its code. *)
Definition root_ok (s : TInflator) (tbl : TInflator -> TablePtr)
    (mode root i : Z) : bool :=
  match table_at s (tbl s) i with
  | None => false
  | Some e =>
      if TEntry.etag e =? SUBTABLEENTRY then
        (root <? TEntry.length e) && (TEntry.length e <=? 15)
        && (0 <=? TEntry.info e)
        && forallb (fun m =>
                      match table_at s (tbl s) (TEntry.info e + m) with
                      | Some e' => leaf_ok mode e'
                      | None => false
                      end)
             (range (2 ^ (TEntry.length e - root)))
      else
        leaf_ok mode e
        && ((root <? TEntry.length e)
            || forallb (fun m =>
                          match table_at s (tbl s)
                                  (i mod 2 ^ TEntry.length e
                                   + m * 2 ^ TEntry.length e) with
                          | Some e' => entry_eqb e' e
                          | None => false
                          end)
                 (range (2 ^ (root - TEntry.length e))))
  end.

Definition table_ok (s : TInflator) (tbl : TInflator -> TablePtr)
    (mode root : Z) : Prop :=
  forallb (root_ok s tbl mode root) (range (2 ^ root)) = true.

Definition tables_ok (s : TInflator) : Prop :=
  table_ok s ltable LTABLEMODE LROOTBITS
  /\ table_ok s dtable DTABLEMODE DROOTBITS.

(** The entry the code at the bit position [p] of the source span leads
    to. *)
Definition entry_at (s : TInflator) (tbl : TInflator -> TablePtr)
    (root p : Z) : option TINFLTTEntry :=
  match table_at s (tbl s) (bits_at (smem s) p root) with
  | Some e =>
      if TEntry.etag e =? SUBTABLEENTRY then
        table_at s (tbl s)
          (TEntry.info e
           + Z.shiftr (bits_at (smem s) p (TEntry.length e)) root)
      else Some e
  | None => None
  end.

(** The loop of the slow path run for [n] symbols: [SYMBOLS_DONE] is the
    jump back to [L_LOOP] after the last of them. *)
Definition SYMBOLS_DONE : Z := -1.

Fixpoint slow_symbols (fuel n : nat) (length bextra distance : Z) : M Z :=
  match n with
  | O => ret SYMBOLS_DONE
  | S n' => blck_symbol fuel (slow_symbols fuel n') length bextra distance
  end.

(** The decoder with the bit buffer holding the [bc] bits before the
    source byte [src], and with the target array [tm] written up to
    [tgt]. *)
Definition with_reservoir (src bc : Z) (s : TInflator) : TInflator :=
  set_bcount bc
    (set_bbuffer (bits_at (smem s) (8 * src - bc) bc) (set_source src s)).

Definition slow_at (tm : list Z) (tgt src bc : Z) (s : TInflator)
  : TInflator :=
  set_target tgt (set_tmem tm (with_reservoir src bc s)).

(** The local variables of the fast path at the same point. *)
Definition fast_at (src tgt bc : Z) (s : TInflator) : fastvars :=
  mkFast src tgt (bits_at (smem s) (8 * src - bc) bc) bc.

(** What the fast path and the slow path agree on after the same
    symbols: the output, the position in the source span, and every field
    of the decoder but the target array behind the output, the source
    position with the bit buffer, and the sub-state. *)
Definition same_decoding (s1 s2 : TInflator) : Prop :=
  target s1 = target s2
  /\ output s1 = output s2
  /\ bitpos s1 = bitpos s2
  /\ reservoir_ok s1 /\ reservoir_ok s2
  /\ exists tm src bb bc sub,
       s2 = set_substate sub
              (set_tmem tm
                 (set_source src (set_bbuffer bb (set_bcount bc s1)))).

(** Two target arrays of the same size with the same first [n] bytes. *)
Definition same_upto (n : Z) (tm1 tm2 : list Z) : Prop :=
  length tm1 = length tm2
  /\ firstn (Z.to_nat n) tm1 = firstn (Z.to_nat n) tm2.

(** The fast path with its locals at [srcf], [bcf] and the slow path at
    [srcs], [bcs], after the same symbols: the same target position
    [tgt], target arrays with the same bytes below it, and the same
    position in the source span. *)
Definition paired (s : TInflator) (tmf tms : list Z)
    (tgt srcf bcf srcs bcs : Z) : Prop :=
  same_upto tgt tmf tms
  /\ length tmf = length (tmem s)
  /\ tbgn s <= tgt <= tend s
  /\ 0 <= 8 * srcf - bcf
  /\ 8 * srcf - bcf = 8 * srcs - bcs
  /\ 0 <= srcf <= send s /\ 0 <= srcs <= send s
  /\ 0 <= bcf <= 63 /\ 0 <= bcs <= 63.

(** How a run of the fast path that returned [r] in the state [s1]
    compares with a run of the slow path that returned [r2] in [s2]. *)
Definition same_outcome (r : Z) (s1 : TInflator) (r2 : Z) (s2 : TInflator)
  : Prop :=
  ((r = 0 /\ r2 = SYMBOLS_DONE \/ r = ENDOFBLOCK /\ r2 = 0)
   /\ same_decoding s1 s2)
  \/ (r = INFLT_ERROR /\ r2 = INFLT_ERROR /\ error s1 = error s2).

(** A final dynamic block of 165 bytes (282 bytes of text with matches),
    and the decoder stopped on it in front of its first symbol, the
    tables built, then given a target span of 1000 bytes: a state in
    which [decodeblck] takes the fast path. *)
Definition dynamic_stream : list Z :=
  [109; 143; 87; 18; 194; 48; 12; 68; 175; 178; 7; 96; 50; 244; 50; 
  124; 209; 203; 45; 12; 118; 28; 131; 99; 167; 57; 33; 57; 61; 114; 2; 
  31; 148; 63; 237; 104; 247; 105; 85; 68; 2; 169; 83; 215; 59; 46; 
  153; 173; 12; 66; 251; 192; 205; 197; 73; 14; 91; 138; 12; 5; 173; 
  53; 107; 106; 112; 43; 151; 31; 10; 185; 22; 130; 108; 206; 240; 151; 
  239; 11; 19; 32; 97; 164; 227; 26; 23; 98; 86; 170; 136; 16; 170; 82; 
  80; 182; 17; 6; 90; 165; 206; 102; 116; 74; 230; 61; 159; 54; 157; 
  219; 115; 194; 183; 221; 11; 186; 20; 160; 63; 24; 142; 198; 147; 
  233; 108; 190; 192; 106; 189; 217; 238; 246; 135; 227; 233; 220; 121; 
  61; 145; 248; 202; 72; 202; 52; 44; 227; 121; 91; 191; 43; 163; 235; 
  223; 47; 192; 12; 255; 87; 23; 76; 50; 101; 218; 109; 59; 5; 79].

Definition at_fast_check : TInflator :=
  inflator_settgt (repeat 0 1000)
    (state_of (inflator_inflate 400 0 (start dynamic_stream 0)) zeroed).

Definition is_byteb (b : Z) : bool := (0 <=? b) && (b <? 256).

(** ** Reversed codes *)

(** [p] holds of the [k] numbers from [i] on, and of the numbers below
    [n]. *)
Fixpoint all_from (k : nat) (i : Z) (p : Z -> bool) : bool :=
  match k with
  | O => true
  | S k' => p i && all_from k' (i + 1) p
  end.

Definition all_below (n : Z) (p : Z -> bool) : bool :=
  all_from (Z.to_nat n) 0 p.

(** [reversecode] gives a number of [len] bits whose bit [i] is the bit
    [len - 1 - i] of [code], and takes it back to [code]. *)
Definition rev_ok (len code : Z) : bool :=
  match reversecode code len with
  | Some r =>
      (0 <=? r) && (r <? 2 ^ len)
      && all_below len
           (fun i => Bool.eqb (Z.testbit r i) (Z.testbit code (len - 1 - i)))
      && match reversecode r len with
         | Some c => c =? code
         | None => false
         end
  | None => false
  end.

(** [reverseinc] takes the reversed [code] to the reversed successor of
    [code]. *)
Definition inc_ok (len code : Z) : bool :=
  match reversecode code len with
  | Some rc =>
      match reverseinc rc len, reversecode ((code + 1) mod 2 ^ len) len with
      | Some a, Some b => a =? b
      | _, _ => false
      end
  | None => false
  end.

(** ** Stored blocks *)

(** Where the length field of a stored block starts, in bits of the
    source span: at the first byte boundary from the bit position of the
    decoder on.  The length it announces, the complement that follows it,
    and the bytes of the block. *)
Definition stored_start (s : TInflator) : Z := 8 * ((bitpos s + 7) / 8).

Definition stored_len (s : TInflator) : Z :=
  bits_at (smem s) (stored_start s) 16.

Definition stored_nlen (s : TInflator) : Z :=
  bits_at (smem s) (stored_start s + 16) 16.

Definition stored_data (s : TInflator) : list Z :=
  firstn (Z.to_nat (stored_len s))
    (skipn (Z.to_nat (stored_start s / 8 + 4)) (smem s)).

(** The stream of one final stored block that holds [data]. *)
Definition stored_stream (data : list Z) : list Z :=
  let n := Z.of_nat (length data) in
  [0x01; n mod 256; n / 256; 255 - n mod 256; 255 - n / 256] ++ data.

(** ** The history in the window *)

(** The byte of the window [k] places before its end, the window being
    circular. *)
Definition window_back (s : TInflator) (k : Z) : option Z :=
  match window s with
  | Some w => nthZ w ((end_ s - k) mod WNDWSIZE)
  | None => None
  end.

(** A fresh decoder whose target span holds [bytes] and has been written
    to its end. *)
Definition with_output (bytes : list Z) : TInflator :=
  set_target (Z.of_nat (length bytes)) (inflator_settgt bytes fresh).

(** ** Allocation *)

(** The allocator refuses memory that [inflator_reset] has to ask for:
    the window or the tables are missing and their size is not granted. *)
Definition reset_fails (s : TInflator) : Prop :=
  (window s = None /\ allocator s WNDWSIZE = false)
  \/ (tables s = None /\ allocator s TABLESSIZE = false).

(** A zeroed decoder structure whose allocator always fails. *)
Definition no_memory : TInflator := set_allocator (fun _ => false) zeroed.

(** The byte at the place [i] of the target array [tm], the places before
    the start of the target span being those of the window: the history a
    match reaches back into. *)
Definition history_at (s : TInflator) (tm : list Z) (i : Z) : option Z :=
  if tbgn s <=? i then nthZ tm i else window_back s (tbgn s - i).

(** A fresh decoder with the small dictionary and a zeroed target span
    of [outsz] bytes. *)
Definition with_dict_and_target (outsz : nat) : TInflator :=
  inflator_settgt (repeat 0 outsz) with_small_dict.

(** ** The fields of a match *)

(** For the length entry [e] of the code at the bit position of the
    decoder: the length of the match with its extra bits, and the bit
    position of the distance code.  For the distance entry [e2] of that
    code: the distance with its extra bits, and the bit position behind
    the match. *)
Definition match_len (s : TInflator) (e : TINFLTTEntry) : Z :=
  TEntry.info e
  + bits_at (smem s) (bitpos s + TEntry.length e) (TEntry.etag e).

Definition match_dist_pos (s : TInflator) (e : TINFLTTEntry) : Z :=
  bitpos s + TEntry.length e + TEntry.etag e.

Definition match_dist (s : TInflator) (e e2 : TINFLTTEntry) : Z :=
  TEntry.info e2
  + bits_at (smem s) (match_dist_pos s e + TEntry.length e2) (TEntry.etag e2).

Definition match_end (s : TInflator) (e e2 : TINFLTTEntry) : Z :=
  match_dist_pos s e + TEntry.length e2 + TEntry.etag e2.

(** The decoder of [at_fast_check] after the 32 literals its block
    starts with, in front of the first match. *)
Definition at_first_match : TInflator :=
  state_of (slow_symbols 5 32 0 0 0 at_fast_check) zeroed.

(** ** What a call reports *)

(** A result of the enumeration of [inflator_inflate], an error coming
    with an error code. *)
Definition reports (r : Z) (s : TInflator) : Prop :=
  r = INFLT_OK \/ r = INFLT_SRCEXHSTD \/ r = INFLT_TGTEXHSTD
  \/ (r = INFLT_ERROR /\ error s <> 0).

(** The same for [decodefast], whose results are 0 for the exit at its
    guards, [ENDOFBLOCK], and an error. *)
Definition fast_reports (r : Z) (s : TInflator) : Prop :=
  r = 0 \/ r = ENDOFBLOCK \/ (r = INFLT_ERROR /\ error s <> 0).

(** The two spans a call of [inflator_inflate] works on: the source
    bytes with the bounds of the source span, and the bounds of the
    target span. *)
Definition same_spans (s s' : TInflator) : Prop :=
  smem s' = smem s /\ sbgn s' = sbgn s /\ send s' = send s
  /\ tbgn s' = tbgn s /\ tend s' = tend s.


(** The decoder stopped in [readlengths] in front of the last repeat code
    of [repeat_overrun], at the position 257 of its 258 lengths, and
    given the rest of the block. *)
Definition at_last_repeat : TInflator :=
  inflator_setsrc (skipn 13 repeat_overrun)
    (state_of (inflator_inflate 100 0 (start (firstn 13 repeat_overrun) 8))
       zeroed).

(** ** A match of length 0 in a fixed block *)

(** A final fixed block: the literal 97 twice, the length code 286, the
    distance code 0 and the end of block, followed by 19 bytes that are not
    read.  The static table gives the code 286 the entry [{0, 0, 8}], a
    match of the length 0. *)
Definition zero_length_match : list Z :=
  [75; 76; 28; 3; 0; 0; 0; 0; 0; 0; 0; 0; 0; 0; 0; 0; 0; 0; 0; 0; 0; 0; 0; 0].

(** The decoder stopped in that block in front of its first symbol, then
    given a target span of 300 bytes: the guards of the fast path hold. *)
Definition at_zero_length_match : TInflator :=
  inflator_settgt (repeat 0 300)
    (state_of (inflator_inflate 10 0 (start zero_length_match 0)) zeroed).

(** The decoder stopped in the block of [dynamic_stream] for want of
    room: it was given no target span, so that it returned in front of the
    first literal of the block. *)
Definition at_full_target : TInflator :=
  state_of (inflator_inflate 400 0 (start dynamic_stream 0)) zeroed.

(** The decoder of [at_fast_check] with two more bytes in its source
    span, after the 150 symbols of the block: in front of the end-of-block
    code. *)
Definition at_block_end : TInflator :=
  state_of
    (slow_symbols 5 150 0 0 0
       (inflator_settgt (repeat 0 1000)
          (state_of (inflator_inflate 400 0
                       (start (dynamic_stream ++ [0; 0]) 0)) zeroed)))
    zeroed.

(** ** Conditions checked by computation *)

Definition reservoir_okb (s : TInflator) : bool :=
  forallb is_byteb (smem s)
  && (0 <=? source s) && (source s <=? send s)
  && (send s <=? Z.of_nat (length (smem s)))
  && (0 <=? bcount s) && (bcount s <=? 63)
  && (0 <=? bitpos s)
  && (bbuffer s =? bits_at (smem s) (bitpos s) (bcount s)).

Definition target_okb (s : TInflator) : bool :=
  (0 <=? tbgn s) && (tbgn s <=? target s) && (target s <=? tend s)
  && (tend s <=? Z.of_nat (length (tmem s))) && (tend s <? 2 ^ 64).

Definition table_okb (s : TInflator) (tbl : TInflator -> TablePtr)
    (mode root : Z) : bool :=
  forallb (root_ok s tbl mode root) (range (2 ^ root)).

Definition entry_isb (s : TInflator) (tbl : TInflator -> TablePtr)
    (root p : Z) (e : TINFLTTEntry) : bool :=
  match entry_at s tbl root p with
  | Some e' => entry_eqb e' e
  | None => false
  end.

Definition window_okb (s : TInflator) : bool :=
  is_some (window s)
  && (Z.of_nat (length (window_bytes s)) =? WNDWSIZE)
  && (0 <=? count s) && (count s <=? WNDWSIZE)
  && (0 <=? end_ s) && (end_ s <=? WNDWSIZE).

(** The decoder [s] in front of a code whose entry is [e], with [n] more
    bits in its source span. *)
Definition symbol_readyb (s : TInflator) (n : Z) (e : TINFLTTEntry) : bool :=
  reservoir_okb s && target_okb s
  && table_okb s ltable LTABLEMODE LROOTBITS
  && (bitpos s + n <=? 8 * send s)
  && entry_isb s ltable LROOTBITS (bitpos s) e.

(** The same in front of a match with the length entry [e] and the
    distance entry [e2], which the history and the target span have room
    for. *)
Definition match_readyb (s : TInflator) (e e2 : TINFLTTEntry) : bool :=
  symbol_readyb s 48 e && window_okb s
  && table_okb s dtable DTABLEMODE DROOTBITS
  && length_entry_ok e
  && entry_isb s dtable DROOTBITS (match_dist_pos s e) e2
  && distance_entry_ok e2
  && (match_dist s e e2 <=? target s - tbgn s + count s)
  && (target s + match_len s e <=? tend s).

(** * Reasoning about the state monad *)

Lemma bind_ok {A B : Type} (m : M A) (k : A -> M B) s a s' :
  m s = Ok a s' -> bind m k s = k a s'.
Proof. unfold bind; intros ->; reflexivity. Qed.

Lemma bind_inv {A B : Type} (m : M A) (k : A -> M B) s b s' :
  bind m k s = Ok b s' ->
  exists a s1, m s = Ok a s1 /\ k a s1 = Ok b s'.
Proof.
  unfold bind; destruct (m s) as [a s1 | |]; try discriminate.
  intros H; exists a, s1; auto.
Qed.

Section Preserves.
Variable I : TInflator -> Prop.

Lemma preserves_ret {A} (a : A) : preserves I (ret a).
Proof. intros s H; exact H. Qed.

Lemma preserves_bind {A B} (m : M A) (k : A -> M B) :
  preserves I m -> (forall a, preserves I (k a)) -> preserves I (bind m k).
Proof.
  intros Hm Hk s H; unfold bind.
  specialize (Hm s H); destruct (m s) as [a s1 | |]; auto.
  apply Hk; exact Hm.
Qed.

Lemma preserves_gets {A} (f : TInflator -> A) : preserves I (gets f).
Proof. intros s H; exact H. Qed.

Lemma preserves_geto {A} (f : TInflator -> option A) : preserves I (geto f).
Proof. intros s H; unfold geto; destruct (f s); auto. Qed.

Lemma preserves_lift {A} (o : option A) : preserves I (lift o).
Proof. intros s H; unfold lift; destruct o; auto. Qed.

Lemma preserves_undefined {A} : preserves I (@undefined A).
Proof. intros s H; exact Logic.I. Qed.

Lemma preserves_timeout {A} : preserves I (@timeout A).
Proof. intros s H; exact Logic.I. Qed.

Lemma preserves_modify (f : TInflator -> TInflator) :
  (forall s, I s -> I (f s)) -> preserves I (modify f).
Proof. intros Hf s H; apply Hf; exact H. Qed.
End Preserves.

Ltac pres_step tac :=
  cbv beta zeta;
  lazymatch goal with
  | |- preserves _ (bind _ _) => apply preserves_bind; [ | intros ? ]
  | |- preserves _ (ret _) => apply preserves_ret
  | |- preserves _ (gets _) => apply preserves_gets
  | |- preserves _ (geto _) => apply preserves_geto
  | |- preserves _ (lift _) => apply preserves_lift
  | |- preserves _ undefined => apply preserves_undefined
  | |- preserves _ timeout => apply preserves_timeout
  | |- preserves _ (modify _) => apply preserves_modify; intros ? ?; tac
  | |- preserves _ (after_window _) => unfold after_window
  | |- preserves _ (l_decode _ _) => unfold l_decode
  | |- preserves _ (if ?b then _ else _) => destruct b
  | |- preserves _ (match ?x with _ => _ end) => destruct x
  | |- preserves _ _ => solve [ eauto ]
  end.

(** Invariants that do not depend on the fields the decoders write, apart
    from the window fields, are kept by every decoder once the window
    update keeps them. *)
Section Frame.
Variable I : TInflator -> Prop.
Hypothesis I_state : forall v s, I s -> I (set_state v s).
Hypothesis I_error : forall v s, I s -> I (set_error v s).
Hypothesis I_source : forall v s, I s -> I (set_source v s).
Hypothesis I_tmem : forall v s, I s -> I (set_tmem v s).
Hypothesis I_target : forall v s, I s -> I (set_target v s).
Hypothesis I_substate : forall v s, I s -> I (set_substate v s).
Hypothesis I_final : forall v s, I s -> I (set_final v s).
Hypothesis I_aux0 : forall v s, I s -> I (set_aux0 v s).
Hypothesis I_aux1 : forall v s, I s -> I (set_aux1 v s).
Hypothesis I_aux2 : forall v s, I s -> I (set_aux2 v s).
Hypothesis I_aux3 : forall v s, I s -> I (set_aux3 v s).
Hypothesis I_bbuffer : forall v s, I s -> I (set_bbuffer v s).
Hypothesis I_bcount : forall v s, I s -> I (set_bcount v s).
Hypothesis I_ltable : forall v s, I s -> I (set_ltable v s).
Hypothesis I_dtable : forall v s, I s -> I (set_dtable v s).
Hypothesis I_tables : forall v s, I s -> I (set_tables v s).
Hypothesis I_updatewindow : preserves I updatewindow.

Hint Resolve preserves_ret preserves_gets preserves_geto preserves_lift
  preserves_undefined preserves_timeout : core.

Ltac stab := eauto 20.
Ltac pres := repeat pres_step stab.

Lemma preserves_SETERROR e : preserves I (SETERROR e).
Proof. unfold SETERROR; pres. Qed.

Lemma preserves_nextbyte : preserves I nextbyte.
Proof. unfold nextbyte; pres. Qed.

Hint Resolve preserves_SETERROR preserves_nextbyte : core.

Lemma preserves_tryreadbits fuel n : preserves I (tryreadbits fuel n).
Proof. induction fuel; cbn [tryreadbits]; pres. Qed.

Lemma preserves_fetchbyte : preserves I fetchbyte.
Proof. unfold fetchbyte; pres. Qed.

Lemma preserves_dropbits n : preserves I (dropbits n).
Proof. unfold dropbits; pres. Qed.

Lemma preserves_getbits n : preserves I (getbits n).
Proof. unfold getbits; pres. Qed.

Hint Resolve preserves_tryreadbits preserves_fetchbyte preserves_dropbits
  preserves_getbits : core.

Lemma preserves_after_window k : preserves I k -> preserves I (after_window k).
Proof. intros; unfold after_window; pres. Qed.

Lemma preserves_getpair : preserves I getpair.
Proof. unfold getpair; pres. Qed.

Hint Resolve preserves_after_window preserves_getpair : core.

Lemma preserves_decodestrd fuel : preserves I (decodestrd fuel).
Proof.
  unfold decodestrd, strd_state0, strd_state1, strd_state2, strd_state3; pres.
Qed.

Lemma preserves_lookup tbl i : preserves I (lookup tbl i).
Proof. unfold lookup; pres. Qed.

Hint Resolve preserves_lookup : core.

Lemma preserves_fetch_entry fuel tbl base bits shift :
  preserves I (fetch_entry fuel tbl base bits shift).
Proof.
  revert base bits shift; induction fuel; intros; cbn [fetch_entry]; pres.
Qed.

Lemma preserves_get_lengths : preserves I get_lengths.
Proof. unfold get_lengths; pres. Qed.

Lemma preserves_put_lengths l : preserves I (put_lengths l).
Proof. unfold put_lengths; pres. Qed.

Hint Resolve preserves_fetch_entry preserves_lookup preserves_get_lengths
  preserves_put_lengths : core.

Lemma preserves_store_length i v : preserves I (store_length i v).
Proof. unfold store_length; pres. Qed.

Hint Resolve preserves_store_length : core.

Lemma preserves_repeat_length k len : preserves I (repeat_length k len).
Proof. induction k; cbn [repeat_length]; pres. Qed.

Hint Resolve preserves_repeat_length : core.

Lemma preserves_read_repeat fuel e : preserves I (read_repeat fuel e).
Proof. unfold read_repeat; pres. Qed.

Hint Resolve preserves_read_repeat : core.

Lemma preserves_readlengths fuel n : preserves I (readlengths fuel n).
Proof. induction fuel; cbn [readlengths]; pres. Qed.

Lemma preserves_build_at p lens n mode : preserves I (build_at p lens n mode).
Proof. unfold build_at; pres. Qed.

Lemma preserves_read_clengths fuel : preserves I (read_clengths fuel).
Proof. induction fuel; cbn [read_clengths]; pres. Qed.

Lemma preserves_zero_clengths fuel : preserves I (zero_clengths fuel).
Proof. induction fuel; cbn [zero_clengths]; pres. Qed.

Hint Resolve preserves_readlengths preserves_build_at preserves_read_clengths
  preserves_zero_clengths : core.

Lemma preserves_decodednmc fuel : preserves I (decodednmc fuel).
Proof.
  unfold decodednmc, dnmc_state0, dnmc_state1, dnmc_state2; pres.
Qed.

Lemma preserves_copy_maxrun inwin buffer tgt maxrun :
  preserves I (copy_maxrun inwin buffer tgt maxrun).
Proof. unfold copy_maxrun; pres. Qed.

Hint Resolve preserves_copy_maxrun : core.

Lemma preserves_copybytes_loop fuel distance length avaible :
  preserves I (copybytes_loop fuel distance length avaible).
Proof.
  revert distance length avaible; induction fuel; intros;
    cbn [copybytes_loop]; pres.
Qed.

Hint Resolve preserves_copybytes_loop : core.

Lemma preserves_copybytes fuel distance length :
  preserves I (copybytes fuel distance length).
Proof. unfold copybytes; pres. Qed.

Lemma preserves_fillbb v : preserves I (fillbb v).
Proof. unfold fillbb; pres. Qed.

Lemma preserves_GETBITS bb n : preserves I (GETBITS bb n).
Proof. unfold GETBITS; pres. Qed.

Lemma preserves_DROPBITS v n : preserves I (DROPBITS v n).
Proof. unfold DROPBITS; pres. Qed.

Hint Resolve preserves_copybytes preserves_fillbb preserves_GETBITS
  preserves_DROPBITS : core.

Lemma preserves_fast_entry tbl rootbits v :
  preserves I (fast_entry tbl rootbits v).
Proof. unfold fast_entry; pres. Qed.

Lemma preserves_copy_until fuel step buffer tgt lim :
  preserves I (copy_until fuel step buffer tgt lim).
Proof.
  revert buffer tgt; induction fuel; intros; cbn [copy_until]; pres.
Qed.

Lemma preserves_fast_far_copy fuel distance length tgt :
  preserves I (fast_far_copy fuel distance length tgt).
Proof.
  revert length tgt; induction fuel; intros; cbn [fast_far_copy]; pres.
Qed.

Lemma preserves_fast_done v r : preserves I (fast_done v r).
Proof. unfold fast_done; pres. Qed.

Hint Resolve preserves_fast_entry preserves_copy_until
  preserves_fast_far_copy preserves_fast_done : core.

Lemma preserves_fast_loop fuel v : preserves I (fast_loop fuel v).
Proof. revert v; induction fuel; intros; cbn [fast_loop]; unfold fast_match; pres. Qed.

Hint Resolve preserves_fast_loop : core.

Lemma preserves_decodefast fuel : preserves I (decodefast fuel).
Proof. unfold decodefast; pres. Qed.

Hint Resolve preserves_decodefast : core.

Lemma preserves_suspend_src sub l b d : preserves I (suspend_src sub l b d).
Proof. unfold suspend_src; pres. Qed.

Hint Resolve preserves_suspend_src : core.

Section Continuation.
Variable k : Z -> Z -> Z -> M Z.
Hypothesis Hk : forall l b d, preserves I (k l b d).

Lemma preserves_blck_state4 fuel l b d :
  preserves I (blck_state4 fuel k l b d).
Proof. unfold blck_state4; pres. Qed.

Hint Resolve preserves_blck_state4 : core.

Lemma preserves_blck_state3 fuel l b d :
  preserves I (blck_state3 fuel k l b d).
Proof. unfold blck_state3; pres. Qed.

Hint Resolve preserves_blck_state3 : core.

Lemma preserves_blck_state2 fuel l b d :
  preserves I (blck_state2 fuel k l b d).
Proof. unfold blck_state2; pres. Qed.

Hint Resolve preserves_blck_state2 : core.

Lemma preserves_blck_state1 fuel l b d :
  preserves I (blck_state1 fuel k l b d).
Proof. unfold blck_state1; pres. Qed.

Hint Resolve preserves_blck_state1 : core.

Lemma preserves_blck_symbol fuel l b d :
  preserves I (blck_symbol fuel k l b d).
Proof. unfold blck_symbol, blck_entry; pres. Qed.
End Continuation.

Lemma preserves_blck_fastcheck fuel : preserves I (blck_fastcheck fuel).
Proof. unfold blck_fastcheck; pres. Qed.

Hint Resolve preserves_blck_fastcheck : core.

Lemma preserves_blck_loop fuel fc l b d :
  preserves I (blck_loop fuel fc l b d).
Proof.
  revert fc l b d; induction fuel; intros; cbn [blck_loop]; pres.
  apply preserves_blck_symbol; auto.
Qed.

Lemma preserves_decodeblck fuel : preserves I (decodeblck fuel).
Proof.
  pose proof (preserves_blck_loop fuel true) as Hk.
  unfold decodeblck; pres;
    first [ apply preserves_blck_state1 | apply preserves_blck_state2
          | apply preserves_blck_state3 | apply preserves_blck_state4 ];
    exact Hk.
Qed.

Lemma preserves_return_result r : preserves I (return_result r).
Proof. unfold return_result; pres. Qed.

Lemma preserves_l_error : preserves I l_error.
Proof. unfold l_error; pres. Qed.

Hint Resolve preserves_decodeblck preserves_decodestrd preserves_decodednmc
  preserves_return_result preserves_l_error : core.

Lemma preserves_l_decode fuel k : preserves I k -> preserves I (l_decode fuel k).
Proof. intros; unfold l_decode; pres. Qed.

Hint Resolve preserves_l_decode : core.

Lemma preserves_inflate_loop fuel : preserves I (inflate_loop fuel).
Proof. induction fuel; cbn [inflate_loop]; pres. Qed.

Hint Resolve preserves_inflate_loop : core.

Lemma preserves_inflate_dispatch fuel : preserves I (inflate_dispatch fuel).
Proof. unfold inflate_dispatch; pres. Qed.
End Frame.

Lemma wp_ret {A} (a : A) Q s : Q a s -> wp (ret a) Q s.
Proof. exact (fun H => H). Qed.

Lemma wp_bind {A B} (m : M A) (k : A -> M B) Q s :
  wp m (fun a s' => wp (k a) Q s') s -> wp (bind m k) Q s.
Proof. unfold wp, bind; destruct (m s); auto. Qed.

Lemma wp_gets {A} (f : TInflator -> A) Q s : Q (f s) s -> wp (gets f) Q s.
Proof. exact (fun H => H). Qed.

Lemma wp_modify f (Q : unit -> TInflator -> Prop) s :
  Q tt (f s) -> wp (modify f) Q s.
Proof. exact (fun H => H). Qed.

Lemma wp_geto {A} (f : TInflator -> option A) Q s :
  (forall a, f s = Some a -> Q a s) -> wp (geto f) Q s.
Proof. unfold wp, geto; destruct (f s); auto. Qed.

Lemma wp_lift {A} (o : option A) Q s :
  (forall a, o = Some a -> Q a s) -> wp (lift o) Q s.
Proof. unfold wp, lift; destruct o; auto. Qed.

Lemma wp_undefined {A} (Q : A -> TInflator -> Prop) s : wp undefined Q s.
Proof. exact Logic.I. Qed.

Lemma wp_timeout {A} (Q : A -> TInflator -> Prop) s : wp timeout Q s.
Proof. exact Logic.I. Qed.

Lemma wp_conseq {A} (m : M A) (R Q : A -> TInflator -> Prop) s :
  wp m R s -> (forall a s', R a s' -> Q a s') -> wp m Q s.
Proof. unfold wp; destruct (m s); auto. Qed.

Lemma wp_any {A} (m : M A) (Q : A -> TInflator -> Prop) s :
  (forall a s', Q a s') -> wp m Q s.
Proof. unfold wp; destruct (m s); auto. Qed.

Lemma wp_elim {A} (m : M A) Q s a s' : wp m Q s -> m s = Ok a s' -> Q a s'.
Proof. unfold wp; intros H E; rewrite E in H; exact H. Qed.

Lemma wp_preserves {A} (I : TInflator -> Prop) (m : M A) Q s :
  preserves I m -> I s -> (forall a s', I s' -> Q a s') -> wp m Q s.
Proof.
  intros Hp Hs HQ; unfold wp; specialize (Hp s Hs); destruct (m s); auto.
Qed.

(** One step of symbolic execution on a [wp] goal. *)
Ltac wp_step :=
  cbv beta zeta;
  lazymatch goal with
  | |- wp (bind _ _) _ _ => apply wp_bind
  | |- wp (ret _) _ _ => apply wp_ret
  | |- wp (gets _) _ _ => apply wp_gets
  | |- wp (modify _) _ _ => apply wp_modify
  | |- wp (geto _) _ _ => apply wp_geto; intros ? ?
  | |- wp (lift _) _ _ => apply wp_lift; intros ? ?
  | |- wp undefined _ _ => apply wp_undefined
  | |- wp timeout _ _ => apply wp_timeout
  | |- wp (SETERROR _) _ _ => unfold SETERROR
  | |- wp (after_window _) _ _ => unfold after_window
  | |- wp (if ?b then _ else _) _ _ => destruct b eqn:?
  | |- wp (match ?x with _ => _ end) _ _ => destruct x eqn:?
  end.

(** Steps over a call whose result and state are immaterial. *)
Ltac wp_opaque := apply wp_any; intros ? ?.

Lemma negb_eqb_true a b : negb (a =? b) = true -> a <> b.
Proof. rewrite negb_true_iff; apply Z.eqb_neq. Qed.

Lemma run_ok {A : Type} (r : result A) (a : A) (d : TInflator) :
  value_of r = Some a -> r = Ok a (state_of r d).
Proof. destruct r; cbn; congruence. Qed.

Lemma installed_some (o : option TInflator) (d : TInflator) :
  is_some o = true -> o = Some (installed o d).
Proof. destruct o; cbn; congruence. Qed.

Lemma bytes_eqb_eq a b : bytes_eqb a b = true -> a = b.
Proof.
  revert b; induction a as [ | x a IH ]; intros [ | y b ]; cbn;
    try discriminate; auto.
  intros H; apply andb_true_iff in H; destruct H as [H1 H2].
  apply Z.eqb_eq in H1; subst; f_equal; auto.
Qed.

(** An invariant that does not depend on the window fields is kept by
    the window update. *)
Lemma preserves_updatewindow_frame (I : TInflator -> Prop) :
  (forall v s, I s -> I (set_count v s)) ->
  (forall v s, I s -> I (set_window v s)) ->
  (forall v s, I s -> I (set_end_ v s)) ->
  preserves I updatewindow.
Proof.
  intros H1 H2 H3; unfold updatewindow.
  repeat pres_step ltac:(eauto).
Qed.

Ltac frame_fields := try (intros ? ? ?; assumption).

(** An invariant on fields that no decoder writes is kept by the loop of
    [inflator_inflate] and by the block decoder. *)
Ltac frame_unwritten :=
  first [ apply preserves_inflate_dispatch | apply preserves_inflate_loop
        | apply preserves_decodeblck | apply preserves_return_result ];
  frame_fields; apply preserves_updatewindow_frame; frame_fields.

Lemma window_some s : is_some (window s) = true -> window s = Some (window_bytes s).
Proof. unfold window_bytes; destruct (window s); cbn; congruence. Qed.

Ltac zbool :=
  repeat match goal with
    | H : (_ <? _) = true |- _ => apply Z.ltb_lt in H
    | H : (_ <? _) = false |- _ => apply Z.ltb_ge in H
    | H : (_ <=? _) = true |- _ => apply Z.leb_le in H
    | H : (_ <=? _) = false |- _ => apply Z.leb_gt in H
    | H : (_ =? _) = true |- _ => apply Z.eqb_eq in H
    | H : (_ =? _) = false |- _ => apply Z.eqb_neq in H
    | H : negb _ = true |- _ => apply negb_true_iff in H
    | H : negb _ = false |- _ => apply negb_false_iff in H
    | H : (_ && _) = true |- _ => apply andb_true_iff in H; destruct H
    end.

Ltac uxx_lia :=
  unfold uxx, WNDWSIZE, DEFLT_WINDOWSZ in *;
  change (2 ^ 64) with 18446744073709551616 in *;
  Z.div_mod_to_equations; lia.

(** * Arrays *)

Lemma nthZ_nth {A} (l : list A) (i : Z) (d : A) :
  0 <= i < Z.of_nat (length l) -> nthZ l i = Some (nth (Z.to_nat i) l d).
Proof.
  intros Hi; unfold nthZ.
  replace (i <? 0) with false by (symmetry; apply Z.ltb_ge; lia).
  apply nth_error_nth'; lia.
Qed.

Lemma updZ_some {A} (l : list A) (i : Z) (x : A) :
  0 <= i < Z.of_nat (length l) ->
  updZ l i x = Some (firstn (Z.to_nat i) l ++ x :: skipn (S (Z.to_nat i)) l).
Proof.
  intros Hi; unfold updZ.
  replace ((0 <=? i) && (i <? Z.of_nat (length l))) with true; [ reflexivity | ].
  symmetry; apply andb_true_iff; split; [ apply Z.leb_le | apply Z.ltb_lt ]; lia.
Qed.

Lemma upd_length {A} (l : list A) (i : nat) (x : A) :
  (i < length l)%nat ->
  length (firstn i l ++ x :: skipn (S i) l) = length l.
Proof.
  intros Hi. rewrite length_app, length_firstn; cbn [length].
  rewrite length_skipn; lia.
Qed.

Lemma upd_nth_same {A} (l : list A) (i : nat) (x d : A) :
  (i < length l)%nat -> nth i (firstn i l ++ x :: skipn (S i) l) d = x.
Proof.
  intros Hi. rewrite app_nth2; rewrite length_firstn; [ | lia ].
  replace (i - Nat.min i (length l))%nat with 0%nat by lia; reflexivity.
Qed.

Lemma upd_nth_other {A} (l : list A) (i j : nat) (x d : A) :
  (i < length l)%nat -> j <> i ->
  nth j (firstn i l ++ x :: skipn (S i) l) d = nth j l d.
Proof.
  intros Hi Hj.
  destruct (Nat.lt_ge_cases j i) as [Hlt | Hge].
  - rewrite app_nth1 by (rewrite length_firstn; lia).
    rewrite nth_firstn.
    replace (j <? i)%nat with true by (symmetry; apply Nat.ltb_lt; exact Hlt).
    reflexivity.
  - rewrite app_nth2; rewrite length_firstn; [ | lia ].
    replace (Nat.min i (length l)) with i by lia.
    destruct (j - i)%nat as [ | m ] eqn:E; [ lia | ].
    cbn [nth]. rewrite nth_skipn. f_equal; lia.
Qed.

(** ** Counting the lengths *)

(** * The bits of the source span *)

Lemma land_7 x : Z.land x 7 = x mod 8.
Proof. change 7 with (Z.ones 3); rewrite Z.land_ones by lia; reflexivity. Qed.

Lemma shl64_one n : 0 <= n < 64 -> shl64 1 n = Some (2 ^ n).
Proof.
  intros Hn; unfold shl64.
  replace ((0 <=? n) && (n <? 64)) with true
    by (symmetry; apply andb_true_iff; split; [ apply Z.leb_le | apply Z.ltb_lt ]; lia).
  rewrite Z.shiftl_1_l; unfold uxx.
  rewrite Z.mod_small; [ reflexivity | ].
  split; [ apply Z.pow_nonneg; lia | apply Z.pow_lt_mono_r; lia ].
Qed.

Lemma land_mask x n : 0 <= n -> Z.land x (2 ^ n - 1) = x mod 2 ^ n.
Proof.
  intros Hn. replace (2 ^ n - 1) with (Z.ones n)
    by (rewrite Z.ones_equiv; lia).
  apply Z.land_ones; exact Hn.
Qed.

Lemma le_int_nonneg l : Forall is_byte l -> 0 <= le_int l.
Proof.
  induction 1 as [ | b l Hb _ IH ]; cbn [le_int]; [ lia | ].
  unfold is_byte in Hb; lia.
Qed.

Lemma le_int_skipn l :
  Forall is_byte l ->
  forall i, le_int l / 2 ^ (8 * Z.of_nat i) = le_int (skipn i l).
Proof.
  induction 1 as [ | b l Hb Hl IH ]; intros [ | i ].
  - cbn. reflexivity.
  - cbn [skipn le_int]. apply Z.div_0_l.
    apply Z.pow_nonzero; lia.
  - cbn [skipn]. change (8 * Z.of_nat 0) with 0.
    rewrite Z.pow_0_r, Z.div_1_r; reflexivity.
  - cbn [skipn le_int].
    replace (8 * Z.of_nat (S i)) with (8 + 8 * Z.of_nat i) by lia.
    rewrite Z.pow_add_r by lia. change (2 ^ 8) with 256.
    rewrite <- Z.div_div by (try lia; apply Z.pow_pos_nonneg; lia).
    rewrite (Z.mul_comm 256), Z.div_add by lia.
    unfold is_byte in Hb. rewrite (Z.div_small b 256) by lia.
    apply IH.
Qed.

Lemma bits_at_range l p n : 0 <= n -> 0 <= bits_at l p n < 2 ^ n.
Proof.
  intros Hn; unfold bits_at; apply Z.mod_pos_bound.
  apply Z.pow_pos_nonneg; lia.
Qed.

Lemma bits_at_zero l p : bits_at l p 0 = 0.
Proof. unfold bits_at; rewrite Z.pow_0_r; apply Z.mod_1_r. Qed.

Lemma bits_at_split l p a b :
  0 <= p -> 0 <= a -> 0 <= b ->
  bits_at l p (a + b) = bits_at l p a + 2 ^ a * bits_at l (p + a) b.
Proof.
  intros Hp Ha Hb; unfold bits_at.
  assert (H2a : 0 < 2 ^ a) by (apply Z.pow_pos_nonneg; lia).
  assert (H2b : 0 < 2 ^ b) by (apply Z.pow_pos_nonneg; lia).
  assert (H2p : 0 < 2 ^ p) by (apply Z.pow_pos_nonneg; lia).
  rewrite (Z.pow_add_r 2 a b), Z.rem_mul_r by lia.
  rewrite (Z.pow_add_r 2 p a), Z.div_div by lia.
  reflexivity.
Qed.

Lemma bits_at_drop l p n k :
  0 <= p -> 0 <= k <= n ->
  bits_at l p n / 2 ^ k = bits_at l (p + k) (n - k).
Proof.
  intros Hp Hk.
  replace n with (k + (n - k)) at 1 by lia.
  rewrite bits_at_split by lia.
  assert (H2k : 0 < 2 ^ k) by (apply Z.pow_pos_nonneg; lia).
  pose proof (bits_at_range l p k ltac:(lia)).
  rewrite (Z.mul_comm (2 ^ k)), Z.div_add by lia.
  rewrite Z.div_small by lia. reflexivity.
Qed.

Lemma bits_at_low l p n k :
  0 <= p -> 0 <= k <= n -> bits_at l p n mod 2 ^ k = bits_at l p k.
Proof.
  intros Hp Hk.
  replace n with (k + (n - k)) at 1 by lia.
  rewrite bits_at_split by lia.
  pose proof (bits_at_range l p k ltac:(lia)).
  rewrite (Z.mul_comm (2 ^ k)), Z.mod_add by lia.
  apply Z.mod_small; lia.
Qed.

Lemma bits_at_byte l i b :
  Forall is_byte l -> nthZ l i = Some b -> bits_at l (8 * i) 8 = b.
Proof.
  intros Hl Hn; unfold nthZ in Hn.
  destruct (i <? 0) eqn:Ei; [ discriminate | ]. apply Z.ltb_ge in Ei.
  unfold bits_at. rewrite <- (Z2Nat.id i) at 1 by lia.
  rewrite le_int_skipn by exact Hl.
  assert (Hs : exists r, skipn (Z.to_nat i) l = b :: r /\ Forall is_byte r).
  { clear Ei. revert l Hl Hn. induction (Z.to_nat i) as [ | k IH ];
      intros [ | x l ] Hl Hn; cbn in Hn; try discriminate.
    - injection Hn as ->. inversion Hl; subst. exists l; split; auto.
    - inversion Hl; subst. apply (IH l); assumption. }
  destruct Hs as (r & -> & Hr). cbn [le_int]. change (2 ^ 8) with 256.
  rewrite (Z.mul_comm 256), Z.mod_add by lia.
  rewrite Forall_forall in Hl.
  assert (Hb : is_byte b).
  { apply Hl. apply nth_error_In with (n := Z.to_nat i). exact Hn. }
  unfold is_byte in Hb. apply Z.mod_small; lia.
Qed.

(** [a | (b << n)] adds, when [a] has no bit from [n] on. *)
Lemma lor_shiftl_add a b n :
  0 <= n -> 0 <= a < 2 ^ n -> Z.lor a (Z.shiftl b n) = a + b * 2 ^ n.
Proof.
  intros Hn Ha.
  assert (Hl : Z.land a (Z.shiftl b n) = 0).
  { apply Z.bits_inj'; intros i Hi. rewrite Z.land_spec, Z.bits_0.
    destruct (Z_lt_le_dec i n) as [Hlt | Hge].
    - rewrite (Z.shiftl_spec_low b n i Hlt). apply andb_false_r.
    - replace a with (a mod 2 ^ n) by (apply Z.mod_small; lia).
      rewrite Z.mod_pow2_bits_high by lia. reflexivity. }
  rewrite <- (Z.lxor_lor _ _ Hl), <- (Z.add_nocarry_lxor _ _ Hl).
  rewrite Z.shiftl_mul_pow2 by lia. reflexivity.
Qed.

(** A byte pushed on top of the bits in the buffer. *)
Lemma bits_at_push_byte l q n i b :
  Forall is_byte l -> nthZ l i = Some b ->
  0 <= q -> 0 <= n -> q + n = 8 * i ->
  Z.lor (bits_at l q n) (Z.shiftl b n) = bits_at l q (n + 8).
Proof.
  intros Hl Hb Hq Hn Hi.
  rewrite lor_shiftl_add by (try lia; apply bits_at_range; lia).
  rewrite bits_at_split by lia.
  rewrite Hi, (bits_at_byte l i b Hl Hb). lia.
Qed.

Lemma bits_at_push l src bc b :
  Forall is_byte l -> nthZ l src = Some b ->
  0 <= bc -> 0 <= 8 * src - bc ->
  Z.lor (bits_at l (8 * src - bc) bc) (Z.shiftl b bc)
  = bits_at l (8 * src - bc) (bc + 8).
Proof.
  intros Hl Hb Hbc Hp. apply (bits_at_push_byte l _ _ src); auto; lia.
Qed.

(** The six bytes the fast path reads at once. *)
Lemma bits_at_6_bytes l src b0 b1 b2 b3 b4 b5 :
  Forall is_byte l -> 0 <= src ->
  nthZ l (src + 0) = Some b0 -> nthZ l (src + 1) = Some b1 ->
  nthZ l (src + 2) = Some b2 -> nthZ l (src + 3) = Some b3 ->
  nthZ l (src + 4) = Some b4 -> nthZ l (src + 5) = Some b5 ->
  Z.lor (Z.lor (Z.lor (Z.lor (Z.lor
    (Z.shiftl b0 0x00) (Z.shiftl b1 0x08)) (Z.shiftl b2 0x10))
    (Z.shiftl b3 0x18)) (Z.shiftl b4 0x20)) (Z.shiftl b5 0x28)
  = bits_at l (8 * src) 48.
Proof.
  intros Hl Hs H0 H1 H2 H3 H4 H5.
  rewrite Z.shiftl_0_r.
  rewrite Z.add_0_r in H0.
  rewrite <- (bits_at_byte l src b0 Hl H0).
  rewrite (bits_at_push_byte l (8 * src) 8 (src + 1) b1) by (auto; lia).
  change (8 + 8) with 16.
  rewrite (bits_at_push_byte l (8 * src) 16 (src + 2) b2) by (auto; lia).
  change (16 + 8) with 24.
  rewrite (bits_at_push_byte l (8 * src) 24 (src + 3) b3) by (auto; lia).
  change (24 + 8) with 32.
  rewrite (bits_at_push_byte l (8 * src) 32 (src + 4) b4) by (auto; lia).
  change (32 + 8) with 40.
  rewrite (bits_at_push_byte l (8 * src) 40 (src + 5) b5) by (auto; lia).
  reflexivity.
Qed.

(** * The stream driver *)

Lemma return_result_nonzero r s :
  r <> 0 -> wp (return_result r) (fun r' _ => r' <> 0) s.
Proof.
  intros Hr; unfold return_result.
  repeat wp_step; first [ discriminate | exact Hr ].
Qed.

(** [inflator_inflate] returns [INFLT_OK] in one place only: where it
    finds the final block consumed and marks the state as bad. *)
Ltac wp_driver :=
  repeat first
    [ wp_step
    | lazymatch goal with
      | |- wp (inflate_loop _) _ _ => fail
      | |- wp (return_result _) _ _ => fail
      | |- wp (l_decode _ _) _ _ => unfold l_decode
      | |- wp l_error _ _ => unfold l_error
      | |- wp _ _ _ => wp_opaque
      end ].

Lemma inflate_loop_ok fuel :
  forall s, wp (inflate_loop fuel)
              (fun r s' => r = INFLT_OK -> state s' = INFLT_BADSTATE) s.
Proof.
  induction fuel; intros s; cbn [inflate_loop]; [ exact Logic.I | ].
  wp_driver;
    try apply IHfuel;
    try (eapply wp_conseq;
         [ apply return_result_nonzero; apply negb_eqb_true; eassumption
         | cbv beta; intros; exfalso; auto ]);
    try (intros; discriminate);
    try (intros; reflexivity).
Qed.

(** The first part of the corrected C6: a call that returns [INFLT_OK]
    leaves the decoder in the bad state. *)
Lemma inflate_ok_badstate fuel final s s' :
  inflator_inflate fuel final s = Ok INFLT_OK s' -> state s' = INFLT_BADSTATE.
Proof.
  intros H.
  assert (W : wp (inflator_inflate fuel final)
                (fun r s' => r = INFLT_OK -> state s' = INFLT_BADSTATE) s).
  { unfold inflator_inflate, inflate_dispatch.
    wp_driver;
      try apply inflate_loop_ok;
      try (eapply wp_conseq;
           [ apply return_result_nonzero; apply negb_eqb_true; eassumption
           | cbv beta; intros; exfalso; auto ]). }
  exact (wp_elim _ _ _ _ _ W H eq_refl).
Qed.

(** In the bad state a call does nothing but report the error. *)
Lemma inflate_loop_bad fuel s :
  state s = INFLT_BADSTATE ->
  inflate_loop (S fuel) s
  = Ok INFLT_ERROR (if error s =? 0 then set_error INFLT_EBADSTATE s else s).
Proof.
  intros Hst; cbn [inflate_loop].
  unfold bind at 1, gets at 1; rewrite Hst.
  change (INFLT_BADSTATE =? 0) with false.
  change (INFLT_BADSTATE =? 1) with false.
  change (INFLT_BADSTATE =? 2) with false.
  change (INFLT_BADSTATE =? 3) with false.
  change (INFLT_BADSTATE =? 4) with false.
  cbv iota.
  unfold l_error, bind, gets, SETERROR, modify, ret.
  destruct (error s =? 0); reflexivity.
Qed.

Lemma inflate_badstate fuel final s :
  state s = INFLT_BADSTATE ->
  exists s',
    inflator_inflate (S fuel) final s = Ok INFLT_ERROR s'
    /\ state s' = INFLT_BADSTATE
    /\ error s' = (if error s =? 0 then INFLT_EBADSTATE else error s)
    /\ tmem s' = tmem s /\ target s' = target s /\ tbgn s' = tbgn s
    /\ smem s' = smem s /\ source s' = source s
    /\ bbuffer s' = bbuffer s /\ bcount s' = bcount s
    /\ window s' = window s /\ count s' = count s /\ end_ s' = end_ s.
Proof.
  intros Hst.
  unfold inflator_inflate.
  unfold bind at 1, gets at 1.
  set (m := if (finalinput s =? 0) && negb (final =? 0)
            then modify (set_finalinput 1) else ret tt).
  assert (Hm : exists s1, m s = Ok tt s1 /\ state s1 = state s
             /\ error s1 = error s /\ tmem s1 = tmem s /\ target s1 = target s
             /\ tbgn s1 = tbgn s /\ smem s1 = smem s /\ source s1 = source s
             /\ bbuffer s1 = bbuffer s /\ bcount s1 = bcount s
             /\ window s1 = window s /\ count s1 = count s /\ end_ s1 = end_ s).
  { unfold m; destruct ((finalinput s =? 0) && negb (final =? 0));
      eexists; (split; [ reflexivity | ]); repeat split; reflexivity. }
  destruct Hm as (s1 & Em & Hs1 & He1 & H1).
  unfold bind at 1; rewrite Em.
  unfold bind at 1, modify at 1.
  unfold inflate_dispatch.
  unfold bind at 1, gets at 1.
  change (state (set_used 1 s1)) with (state s1).
  rewrite Hs1, Hst.
  change (INFLT_BADSTATE =? 5) with false; cbv iota.
  rewrite inflate_loop_bad by (cbn; congruence).
  eexists; split; [ reflexivity | ].
  change (error (set_used 1 s1)) with (error s1); rewrite He1.
  destruct (error s =? 0) eqn:E; cbn; rewrite ?Hs1, ?He1, ?Hst, ?E;
    intuition congruence.
Qed.

Lemma inflate_calls_bad calls :
  Forall (fun c : nat * Z => fst c <> O) calls ->
  forall s, state s = INFLT_BADSTATE ->
  exists s',
    inflate_calls calls s = Ok (repeat INFLT_ERROR (length calls)) s'
    /\ state s' = INFLT_BADSTATE
    /\ tmem s' = tmem s /\ target s' = target s /\ tbgn s' = tbgn s
    /\ smem s' = smem s /\ source s' = source s
    /\ (calls <> [] ->
        error s' = (if error s =? 0 then INFLT_EBADSTATE else error s)).
Proof.
  induction 1 as [ | [fuel final] rest Hf _ IH ]; intros s Hst.
  - exists s; cbn; intuition congruence.
  - destruct fuel as [ | fuel ]; [ exfalso; apply Hf; reflexivity | ].
    destruct (inflate_badstate fuel final s Hst)
      as (s1 & E1 & Hs1 & He1 & Htm & Htg & Htb & Hsm & Hsr & _).
    destruct (IH s1 Hs1) as (s2 & E2 & Hs2 & Htm2 & Htg2 & Htb2 & Hsm2 & Hsr2 & He2).
    exists s2; cbn [inflate_calls length repeat]; rewrite E1, E2.
    repeat split; try congruence.
    intros _. destruct rest as [ | c rest ].
    + cbn in E2; injection E2 as <-. exact He1.
    + rewrite (He2 ltac:(discriminate)), He1.
      destruct (error s =? 0) eqn:E; [ reflexivity | rewrite E; reflexivity ].
Qed.

(** The one place where the switch of [inflator_inflate] returns
    [INFLT_OK]: the state 0 with the final flag set. *)
Lemma inflate_loop_final_block fuel s :
  state s = 0 -> final s <> 0 ->
  inflate_loop (S fuel) s = Ok INFLT_OK (set_state INFLT_BADSTATE s).
Proof.
  intros Hst Hfin. cbn [inflate_loop].
  unfold bind at 1, gets at 1. rewrite Hst. cbn [Z.eqb].
  unfold bind at 1, gets at 1.
  replace (final s =? 0) with false by (symmetry; apply Z.eqb_neq; exact Hfin).
  reflexivity.
Qed.

(** C6 (corrected): the switch of [inflator_inflate] that finds the final
    block consumed (it is in the state 0 and the final flag is set)
    returns [INFLT_OK], changing nothing but the state, which becomes the
    bad state; this is the only return of [INFLT_OK]: every call that
    returns it leaves the decoder in the bad state.  Every further call
    of [inflator_inflate] then returns [INFLT_ERROR], writes no output
    byte and reads no input byte, and the error code stored after it is
    [INFLT_EBADSTATE] when none was stored before, the code stored before
    otherwise. *)
Theorem C6_after_final_block_calls_fail :
  forall fuel fin s,
    (state s = 0 -> final s <> 0 ->
     inflate_loop (S fuel) s = Ok INFLT_OK (set_state INFLT_BADSTATE s))
    /\ forall s1,
         inflator_inflate fuel fin s = Ok INFLT_OK s1 ->
         state s1 = INFLT_BADSTATE /\
         forall calls, Forall (fun c : nat * Z => fst c <> O) calls ->
           exists s2,
             inflate_calls calls s1 = Ok (repeat INFLT_ERROR (length calls)) s2
             /\ output s2 = output s1
             /\ target s2 = target s1
             /\ source s2 = source s1
             /\ (calls <> [] ->
                 error s2
                 = (if error s1 =? 0 then INFLT_EBADSTATE else error s1)).
Proof.
  intros fuel fin s. split; [ apply inflate_loop_final_block | ].
  intros s1 H.
  pose proof (inflate_ok_badstate _ _ _ _ H) as Hst.
  split; [ exact Hst | ].
  intros calls Hc.
  destruct (inflate_calls_bad calls Hc s1 Hst)
    as (s2 & E & _ & Htm & Htg & Htb & _ & Hsr & He).
  exists s2; repeat split; auto.
  unfold output; rewrite Htm, Htg, Htb; reflexivity.
Qed.

Lemma C6_after_final_block_calls_fail_witness :
  inflate_loop 10 (set_state 0 after_final)
  = Ok INFLT_OK (set_state INFLT_BADSTATE (set_state 0 after_final))
  /\ state after_final = INFLT_BADSTATE
  /\ exists s2,
       inflate_calls [(5%nat, 0); (5%nat, 1)] after_final
       = Ok [INFLT_ERROR; INFLT_ERROR] s2
       /\ output s2 = output after_final
       /\ target s2 = target after_final
       /\ source s2 = source after_final
       /\ ([(5%nat, 0); (5%nat, 1)] <> [] ->
           error s2
           = (if error after_final =? 0 then INFLT_EBADSTATE
              else error after_final)).
Proof.
  split.
  - apply (proj1 (C6_after_final_block_calls_fail 9 1
                    (set_state 0 after_final))).
    + reflexivity.
    + vm_compute. discriminate.
  - assert (H : inflator_inflate 10 1 (start empty_stored 4)
                = Ok INFLT_OK after_final)
      by (apply run_ok; vm_compute; reflexivity).
    destruct (proj2 (C6_after_final_block_calls_fail 10 1
                       (start empty_stored 4)) _ H) as [Hst Hc].
    split; [ exact Hst | ].
    apply (Hc [(5%nat, 0); (5%nat, 1)]).
    repeat constructor; discriminate.
Defined.

(** C6, as claimed, fails: after the final block of [empty_stored] has
    been consumed (the call returned [INFLT_OK] with no output), the next
    call returns [INFLT_ERROR], not [INFLT_OK]. *)
Lemma C6_counterexample :
  value_of (inflator_inflate 10 1 (start empty_stored 4)) = Some INFLT_OK
  /\ output after_final = []
  /\ value_of (inflator_inflate 10 1 after_final) = Some INFLT_ERROR
  /\ value_of (inflator_inflate 10 0 after_final) = Some INFLT_ERROR
  /\ INFLT_ERROR <> INFLT_OK.
Proof. vm_compute; repeat split; discriminate. Qed.

(** C2 (defect of the code): the length check of the stored block of
    [bad_stored] fails, the call returns [INFLT_ERROR] and stores
    [INFLT_EBADBLOCK]; the next call, with no reset in between, reads three
    more source bytes, writes the byte [0x41] and returns [INFLT_OK]. *)
Theorem C2_error_is_not_terminal :
  value_of (inflator_inflate 10 0 (start bad_stored 4)) = Some INFLT_ERROR
  /\ error after_bad_block = INFLT_EBADBLOCK
  /\ state after_bad_block <> INFLT_BADSTATE
  /\ source after_bad_block = 5
  /\ output after_bad_block = []
  /\ value_of (inflator_inflate 10 0 after_bad_block) = Some INFLT_OK
  /\ source after_bad_block_again = 8
  /\ output after_bad_block_again = [0x41].
Proof. vm_compute; repeat split; discriminate. Qed.

(** * The sliding window and the preset dictionary *)

Lemma updatewindow_bounds s :
  window_bounds s -> wp updatewindow (fun _ s' => window_bounds s') s.
Proof.
  intros [Hc He]; unfold updatewindow.
  repeat wp_step;
    repeat match goal with
      | H : memcpy _ _ _ _ _ = _ |- _ => clear H
      | H : window _ = _ |- _ => clear H
      end;
    unfold window_bounds;
    cbn [count end_ set_count set_window set_end_ target tbgn] in *;
    remember (uxx (target s - tbgn s)) as total eqn:Et;
    assert (0 <= total) by (subst total; apply Z.mod_pos_bound; reflexivity);
    clear Et;
    repeat match goal with
      | H : context [if ?b then _ else _] |- _ => destruct b eqn:?
      | |- context [if ?b then _ else _] => destruct b eqn:?
      end;
    zbool; split; uxx_lia.
Qed.

Lemma preserves_updatewindow_bounds : preserves window_bounds updatewindow.
Proof. intros s H; exact (updatewindow_bounds s H). Qed.

Lemma preserves_inflate_bounds fuel final :
  preserves window_bounds (inflator_inflate fuel final).
Proof.
  assert (HL : preserves window_bounds (inflate_dispatch fuel)).
  { apply preserves_inflate_dispatch; frame_fields.
    apply preserves_updatewindow_bounds. }
  unfold inflator_inflate.
  repeat pres_step ltac:(first [ assumption | exact H ]).
Qed.

Lemma reset_alloc_keeps c :
  let s' := reset_alloc c in
  count s' = count c /\ end_ s' = end_ c /\ used s' = used c
  /\ finalinput s' = finalinput c /\ bbuffer s' = bbuffer c
  /\ bcount s' = bcount c /\ substate s' = substate c /\ final s' = final c.
Proof.
  unfold reset_alloc.
  destruct (window c).
  - destruct (tables c); [ repeat split; reflexivity | ].
    destruct (reserve_tables c); repeat split; reflexivity.
  - destruct (reserve_bytes c WNDWSIZE) as [ w | ]; [ | repeat split; reflexivity ].
    cbv zeta.
    destruct (tables (set_window (Some w) c)); [ repeat split; reflexivity | ].
    destruct (reserve_tables (set_window (Some w) c)); repeat split; reflexivity.
Qed.

Lemma reset_clears s :
  let s' := inflator_reset s in
  count s' = 0 /\ end_ s' = 0 /\ used s' = 0 /\ finalinput s' = 0
  /\ bbuffer s' = 0 /\ bcount s' = 0 /\ substate s' = 0 /\ final s' = 0.
Proof.
  unfold inflator_reset.
  destruct (reset_alloc_keeps (reset_fields s))
    as (H1 & H2 & H3 & H4 & H5 & H6 & H7 & H8).
  cbv zeta; rewrite H1, H2, H3, H4, H5, H6, H7, H8.
  repeat split; reflexivity.
Qed.

Lemma setdctnr_bounds dict size s s' :
  window_bounds s -> inflator_setdctnr dict size s = Some s' -> window_bounds s'.
Proof.
  intros Hb; unfold inflator_setdctnr.
  destruct (negb (used s =? 0)); [ intros [= <-]; exact Hb | ].
  destruct (match window s with Some w => Some w | None => reserve_bytes s WNDWSIZE end)
    as [ w | ]; [ | intros [= <-]; exact Hb ].
  destruct (memcpy w 0 dict 0 _) as [ w' | ] eqn:Em; [ | discriminate ].
  intros [= <-]; unfold window_bounds; cbn.
  unfold memcpy in Em.
  destruct (WNDWSIZE <? size) eqn:E.
  - unfold WNDWSIZE, DEFLT_WINDOWSZ; lia.
  - apply Z.ltb_ge in E.
    destruct ((0 <=? 0) && (0 <=? 0) && (0 <=? size)) eqn:E2;
      [ | cbn in Em; discriminate ].
    apply andb_true_iff in E2; destruct E2 as [_ E2]; apply Z.leb_le in E2.
    lia.
Qed.

(** C7 (corrected): in every reachable decoder state the window fields
    satisfy [0 <= count <= 32768] and [0 <= end <= 32768] (the upper bound
    of [end] is attained); [updatewindow] and the installation of a
    dictionary keep these bounds. *)
Theorem C7_window_bounds :
  forall s, reachable s -> window_bounds s.
Proof.
  induction 1 as [ s | s bytes _ IH | s bytes _ IH | s dict size s' _ IH Hd
                 | s fuel final r s' _ IH Hi ].
  - destruct (reset_clears s) as (Hc & He & _).
    unfold window_bounds; rewrite Hc, He; unfold WNDWSIZE, DEFLT_WINDOWSZ; lia.
  - exact IH.
  - exact IH.
  - exact (setdctnr_bounds _ _ _ _ IH Hd).
  - pose proof (preserves_inflate_bounds fuel final s IH) as Hp.
    rewrite Hi in Hp; exact Hp.
Qed.

Lemma reachable_fresh : reachable fresh.
Proof. unfold fresh; apply reach_reset. Qed.

Lemma C7_window_bounds_witness : window_bounds with_full_dict.
Proof.
  apply (C7_window_bounds with_full_dict).
  apply (reach_setdctnr fresh dict_window_size WNDWSIZE).
  - exact reachable_fresh.
  - apply installed_some; vm_compute; reflexivity.
Defined.

(** C7, as claimed, fails: a dictionary of 32768 bytes installed in a
    fresh decoder leaves [end] at 32768, and so does [updatewindow] after
    32768 bytes of output; [end] is then not below 32768. *)
Lemma C7_counterexample :
  reachable with_full_dict
  /\ end_ with_full_dict = 32768
  /\ end_ (state_of (updatewindow window_full_output) zeroed) = 32768
  /\ value_of (updatewindow window_full_output) = Some 0
  /\ ~ (32768 < WNDWSIZE).
Proof.
  split.
  - apply (reach_setdctnr fresh dict_window_size WNDWSIZE).
    + exact reachable_fresh.
    + apply installed_some; vm_compute; reflexivity.
  - vm_compute; repeat split; discriminate.
Qed.

Lemma inflate_sets_used fuel final s r s' :
  inflator_inflate fuel final s = Ok r s' -> used s' = 1.
Proof.
  intros H.
  assert (W : wp (inflator_inflate fuel final) (fun _ s' => used s' = 1) s).
  { unfold inflator_inflate.
    repeat wp_step;
      (eapply wp_preserves with (I := fun s => used s = 1);
       [ frame_unwritten | reflexivity | intros ? ? H0; exact H0 ]). }
  exact (wp_elim _ _ _ _ _ W H).
Qed.

Lemma memcpy_prefix (w dict : list Z) (n : Z) :
  0 <= n <= Z.of_nat (length w) -> n <= Z.of_nat (length dict) ->
  memcpy w 0 dict 0 n
  = Some (firstn (Z.to_nat n) dict ++ skipn (Z.to_nat n) w).
Proof.
  intros Hw Hd; unfold memcpy.
  replace ((0 <=? 0) && (0 <=? 0) && (0 <=? n)
           && (0 + n <=? Z.of_nat (length w))
           && (0 + n <=? Z.of_nat (length dict))) with true.
  - reflexivity.
  - symmetry; repeat (apply andb_true_iff; split); apply Z.leb_le; lia.
Qed.

(** C9 (corrected): [inflator_setdctnr] succeeds exactly while the
    decoder is unused, that is after a reset and before any call of
    [inflator_inflate] (whether or not it read input) and before any
    earlier successful [inflator_setdctnr]; on a used decoder it stores
    [INFLT_EINCORRECTUSE], leaves the window as it is and puts the decoder
    in the bad state. *)
Theorem C9_setdctnr_only_on_unused_decoder :
  (forall s, used (inflator_reset s) = 0)
  /\ (forall fuel final s r s',
        inflator_inflate fuel final s = Ok r s' -> used s' = 1)
  /\ (forall dict size s w,
        window s = Some w -> Z.of_nat (length w) = WNDWSIZE ->
        0 <= size <= Z.of_nat (length dict) ->
        (used s = 0 ->
         exists s',
           inflator_setdctnr dict size s = Some s'
           /\ error s' = error s /\ state s' = state s /\ used s' = 1
           /\ window_bytes s'
              = firstn (Z.to_nat (Z.min size WNDWSIZE)) dict
                ++ skipn (Z.to_nat (Z.min size WNDWSIZE)) w)
        /\ (used s <> 0 ->
            exists s',
              inflator_setdctnr dict size s = Some s'
              /\ error s' = INFLT_EINCORRECTUSE
              /\ state s' = INFLT_BADSTATE
              /\ window s' = window s)).
Proof.
  split; [ intros s; apply (reset_clears s) | ].
  split; [ exact inflate_sets_used | ].
  intros dict size s w Hw Hlen Hsize; split; intros Hu; unfold inflator_setdctnr.
  - rewrite Hu, Hw; cbn [Z.eqb negb].
    assert (Hn : (if WNDWSIZE <? size then WNDWSIZE else size) = Z.min size WNDWSIZE).
    { destruct (WNDWSIZE <? size) eqn:E; [ apply Z.ltb_lt in E | apply Z.ltb_ge in E ]; lia. }
    rewrite Hn, memcpy_prefix by lia.
    eexists; split; [ reflexivity | ].
    repeat split; reflexivity.
  - apply Z.eqb_neq in Hu; rewrite Hu; cbn [negb].
    eexists; split; [ reflexivity | ]. repeat split; reflexivity.
Qed.

Lemma C9_setdctnr_only_on_unused_decoder_witness :
  (exists s',
      inflator_setdctnr small_dict 3 fresh = Some s'
      /\ error s' = error fresh /\ state s' = state fresh /\ used s' = 1
      /\ window_bytes s'
         = firstn (Z.to_nat (Z.min 3 WNDWSIZE)) small_dict
           ++ skipn (Z.to_nat (Z.min 3 WNDWSIZE)) (window_bytes fresh))
  /\ (exists s',
        inflator_setdctnr small_dict 3 after_final = Some s'
        /\ error s' = INFLT_EINCORRECTUSE
        /\ state s' = INFLT_BADSTATE
        /\ window s' = window after_final).
Proof.
  destruct C9_setdctnr_only_on_unused_decoder as (_ & _ & H).
  split.
  - apply (H small_dict 3 fresh (window_bytes fresh)).
    + apply window_some; vm_compute; reflexivity.
    + vm_compute; reflexivity.
    + cbn; lia.
    + vm_compute; reflexivity.
  - apply (H small_dict 3 after_final (window_bytes after_final)).
    + apply window_some; vm_compute; reflexivity.
    + vm_compute; reflexivity.
    + cbn; lia.
    + vm_compute; discriminate.
Defined.

(** C9, as claimed, fails: on a decoder that has read no input at all (no
    source was ever set), a second [inflator_setdctnr] fails with
    [INFLT_EINCORRECTUSE] and leaves the decoder in the bad state. *)
Lemma C9_counterexample :
  is_some (inflator_setdctnr small_dict 3 fresh) = true
  /\ error with_small_dict = 0
  /\ source with_small_dict = sbgn with_small_dict
  /\ smem with_small_dict = []
  /\ error with_small_dict_twice = INFLT_EINCORRECTUSE
  /\ state with_small_dict_twice = INFLT_BADSTATE.
Proof. vm_compute; repeat split; reflexivity. Qed.

(** C4 (defect of the code): for the dictionary [dict_long] of 32769
    bytes, [inflator_setdctnr] fills the window with its first 32768 bytes
    (the byte 1 and 32767 bytes 2), not with its last 32768 bytes (all 2),
    which the claim requires. *)
Theorem C4_dictionary_head_installed :
  is_some (inflator_setdctnr dict_long (WNDWSIZE + 1) fresh) = true
  /\ bytes_eqb (window_bytes with_long_dict) (firstn (Z.to_nat WNDWSIZE) dict_long) = true
  /\ bytes_eqb (window_bytes with_long_dict) (tail_bytes (Z.to_nat WNDWSIZE) dict_long) = false
  /\ nth 0 (window_bytes with_long_dict) 0 = 1
  /\ nth 0 (tail_bytes (Z.to_nat WNDWSIZE) dict_long) 0 = 2
  /\ count with_long_dict = 32768.
Proof. vm_compute; repeat split; reflexivity. Qed.

(** * Independence of the final-input condition *)

Lemma fi_ret {A} (a : A) : fi_frame (ret a).
Proof. intros v s; reflexivity. Qed.

Lemma fi_bind {A B} (m : M A) (k : A -> M B) :
  fi_frame m -> (forall a, fi_frame (k a)) -> fi_frame (bind m k).
Proof.
  intros Hm Hk v s; unfold bind; rewrite Hm.
  destruct (m s) as [a s1 | |]; [ apply Hk | reflexivity | reflexivity ].
Qed.

Lemma fi_gets {A} (f : TInflator -> A) :
  (forall v s, f (set_finalinput v s) = f s) -> fi_frame (gets f).
Proof. intros Hf v s; unfold gets; rewrite Hf; reflexivity. Qed.

Lemma fi_geto {A} (f : TInflator -> option A) :
  (forall v s, f (set_finalinput v s) = f s) -> fi_frame (geto f).
Proof. intros Hf v s; unfold geto; rewrite Hf; destruct (f s); reflexivity. Qed.

Lemma fi_lift {A} (o : option A) : fi_frame (lift o).
Proof. intros v s; unfold lift; destruct o; reflexivity. Qed.

Lemma fi_undefined {A} : fi_frame (@undefined A).
Proof. intros v s; reflexivity. Qed.

Lemma fi_timeout {A} : fi_frame (@timeout A).
Proof. intros v s; reflexivity. Qed.

Lemma fi_modify (f : TInflator -> TInflator) :
  (forall v s, f (set_finalinput v s) = set_finalinput v (f s)) ->
  fi_frame (modify f).
Proof. intros Hf v s; unfold modify; rewrite Hf; reflexivity. Qed.

Create HintDb fi discriminated.

#[local] Hint Resolve fi_ret fi_lift fi_undefined fi_timeout : fi.

Ltac fi_step :=
  cbv beta zeta;
  lazymatch goal with
  | |- fi_frame (bind _ _) => apply fi_bind; [ | intros ? ]
  | |- fi_frame (ret _) => apply fi_ret
  | |- fi_frame (gets _) => apply fi_gets; intros; reflexivity
  | |- fi_frame (geto _) => apply fi_geto; intros; reflexivity
  | |- fi_frame (lift _) => apply fi_lift
  | |- fi_frame undefined => apply fi_undefined
  | |- fi_frame timeout => apply fi_timeout
  | |- fi_frame (modify _) => apply fi_modify; intros; reflexivity
  | |- fi_frame (after_window _) => unfold after_window
  | |- fi_frame (l_decode _ _) => unfold l_decode
  | |- fi_frame (if ?b then _ else _) => destruct b
  | |- fi_frame (match ?x with _ => _ end) => destruct x
  | |- fi_frame _ => solve [ eauto with fi ]
  end.

Ltac fi_go := repeat fi_step.




Lemma fi_SETERROR e : fi_frame (SETERROR e).
Proof. unfold SETERROR; fi_go. Qed.

Lemma fi_nextbyte : fi_frame nextbyte.
Proof. unfold nextbyte; fi_go. Qed.

#[local] Hint Resolve fi_SETERROR fi_nextbyte : fi.

Lemma fi_tryreadbits fuel n : fi_frame (tryreadbits fuel n).
Proof. induction fuel; cbn [tryreadbits]; fi_go. Qed.

Lemma fi_fetchbyte : fi_frame fetchbyte.
Proof. unfold fetchbyte; fi_go. Qed.

Lemma fi_dropbits n : fi_frame (dropbits n).
Proof. unfold dropbits; fi_go. Qed.

Lemma fi_getbits n : fi_frame (getbits n).
Proof. unfold getbits; fi_go. Qed.

#[local] Hint Resolve fi_tryreadbits fi_fetchbyte fi_dropbits
  fi_getbits : fi.

Lemma fi_updatewindow : fi_frame updatewindow.
Proof. unfold updatewindow; fi_go. Qed.

#[local] Hint Resolve fi_updatewindow : fi.

Lemma fi_after_window k : fi_frame k -> fi_frame (after_window k).
Proof. intros; unfold after_window; fi_go. Qed.

Lemma fi_getpair : fi_frame getpair.
Proof. unfold getpair; fi_go. Qed.

#[local] Hint Resolve fi_after_window fi_getpair : fi.

Lemma fi_decodestrd fuel : fi_frame (decodestrd fuel).
Proof.
  unfold decodestrd, strd_state0, strd_state1, strd_state2, strd_state3; fi_go.
Qed.

Lemma fi_lookup tbl i :
  (forall v s, tbl (set_finalinput v s) = tbl s) -> fi_frame (lookup tbl i).
Proof.
  intros Ht; unfold lookup; apply fi_geto; intros v s; rewrite Ht.
  destruct (tbl s); reflexivity.
Qed.

#[local] Hint Extern 1 (forall v s, _ (set_finalinput v s) = _ s) =>
  intros; reflexivity : fi.

#[local] Hint Resolve fi_lookup : fi.

Lemma fi_fetch_entry fuel tbl base bits shift :
  (forall v s, tbl (set_finalinput v s) = tbl s) ->
  fi_frame (fetch_entry fuel tbl base bits shift).
Proof.
  intros Ht; revert base bits shift; induction fuel; intros;
    cbn [fetch_entry]; fi_go.
Qed.

Lemma fi_get_lengths : fi_frame get_lengths.
Proof. unfold get_lengths; fi_go. Qed.

Lemma fi_put_lengths l : fi_frame (put_lengths l).
Proof. unfold put_lengths; fi_go. Qed.

#[local] Hint Resolve fi_fetch_entry fi_lookup fi_get_lengths
  fi_put_lengths : fi.

Lemma fi_store_length i v : fi_frame (store_length i v).
Proof. unfold store_length; fi_go. Qed.

#[local] Hint Resolve fi_store_length : fi.

Lemma fi_repeat_length k len : fi_frame (repeat_length k len).
Proof. induction k; cbn [repeat_length]; fi_go. Qed.

#[local] Hint Resolve fi_repeat_length : fi.

Lemma fi_read_repeat fuel e : fi_frame (read_repeat fuel e).
Proof. unfold read_repeat; fi_go. Qed.

#[local] Hint Resolve fi_read_repeat : fi.

Lemma fi_readlengths fuel n : fi_frame (readlengths fuel n).
Proof. induction fuel; cbn [readlengths]; fi_go. Qed.

Lemma fi_build_at p lens n mode : fi_frame (build_at p lens n mode).
Proof. unfold build_at; fi_go. Qed.

Lemma fi_read_clengths fuel : fi_frame (read_clengths fuel).
Proof. induction fuel; cbn [read_clengths]; fi_go. Qed.

Lemma fi_zero_clengths fuel : fi_frame (zero_clengths fuel).
Proof. induction fuel; cbn [zero_clengths]; fi_go. Qed.

#[local] Hint Resolve fi_readlengths fi_build_at fi_read_clengths
  fi_zero_clengths : fi.

Lemma fi_decodednmc fuel : fi_frame (decodednmc fuel).
Proof.
  unfold decodednmc, dnmc_state0, dnmc_state1, dnmc_state2; fi_go.
Qed.

Lemma fi_copy_maxrun inwin buffer tgt maxrun :
  fi_frame (copy_maxrun inwin buffer tgt maxrun).
Proof. unfold copy_maxrun; fi_go. Qed.

#[local] Hint Resolve fi_copy_maxrun : fi.

Lemma fi_copybytes_loop fuel distance length avaible :
  fi_frame (copybytes_loop fuel distance length avaible).
Proof.
  revert distance length avaible; induction fuel; intros;
    cbn [copybytes_loop]; fi_go.
Qed.

#[local] Hint Resolve fi_copybytes_loop : fi.

Lemma fi_copybytes fuel distance length :
  fi_frame (copybytes fuel distance length).
Proof. unfold copybytes; fi_go. Qed.

Lemma fi_fillbb v : fi_frame (fillbb v).
Proof. unfold fillbb; fi_go. Qed.

Lemma fi_GETBITS bb n : fi_frame (GETBITS bb n).
Proof. unfold GETBITS; fi_go. Qed.

Lemma fi_DROPBITS v n : fi_frame (DROPBITS v n).
Proof. unfold DROPBITS; fi_go. Qed.

#[local] Hint Resolve fi_copybytes fi_fillbb fi_GETBITS
  fi_DROPBITS : fi.

Lemma fi_fast_entry tbl rootbits v :
  (forall v s, tbl (set_finalinput v s) = tbl s) ->
  fi_frame (fast_entry tbl rootbits v).
Proof. intros Ht; unfold fast_entry; fi_go. Qed.

Lemma fi_copy_until fuel step buffer tgt lim :
  fi_frame (copy_until fuel step buffer tgt lim).
Proof.
  revert buffer tgt; induction fuel; intros; cbn [copy_until]; fi_go.
Qed.

Lemma fi_fast_far_copy fuel distance length tgt :
  fi_frame (fast_far_copy fuel distance length tgt).
Proof.
  revert length tgt; induction fuel; intros; cbn [fast_far_copy]; fi_go.
Qed.

Lemma fi_fast_done v r : fi_frame (fast_done v r).
Proof. unfold fast_done; fi_go. Qed.

#[local] Hint Resolve fi_fast_entry fi_copy_until
  fi_fast_far_copy fi_fast_done : fi.

Lemma fi_fast_loop fuel v : fi_frame (fast_loop fuel v).
Proof. revert v; induction fuel; intros; cbn [fast_loop]; unfold fast_match; fi_go. Qed.

#[local] Hint Resolve fi_fast_loop : fi.

Lemma fi_decodefast fuel : fi_frame (decodefast fuel).
Proof. unfold decodefast; fi_go. Qed.

#[local] Hint Resolve fi_decodefast : fi.

Lemma fi_suspend_src sub l b d : fi_frame (suspend_src sub l b d).
Proof. unfold suspend_src; fi_go. Qed.

#[local] Hint Resolve fi_suspend_src : fi.

Section FiContinuation.
Variable k : Z -> Z -> Z -> M Z.
Hypothesis Hk : forall l b d, fi_frame (k l b d).
#[local] Hint Resolve Hk : fi.

Lemma fi_blck_state4 fuel l b d :
  fi_frame (blck_state4 fuel k l b d).
Proof. unfold blck_state4; fi_go. Qed.

#[local] Hint Resolve fi_blck_state4 : fi.

Lemma fi_blck_state3 fuel l b d :
  fi_frame (blck_state3 fuel k l b d).
Proof. unfold blck_state3; fi_go. Qed.

#[local] Hint Resolve fi_blck_state3 : fi.

Lemma fi_blck_state2 fuel l b d :
  fi_frame (blck_state2 fuel k l b d).
Proof. unfold blck_state2; fi_go. Qed.

#[local] Hint Resolve fi_blck_state2 : fi.

Lemma fi_blck_state1 fuel l b d :
  fi_frame (blck_state1 fuel k l b d).
Proof. unfold blck_state1; fi_go. Qed.

#[local] Hint Resolve fi_blck_state1 : fi.

Lemma fi_blck_symbol fuel l b d :
  fi_frame (blck_symbol fuel k l b d).
Proof. unfold blck_symbol, blck_entry; fi_go. Qed.
End FiContinuation.

Lemma fi_blck_fastcheck fuel : fi_frame (blck_fastcheck fuel).
Proof. unfold blck_fastcheck; fi_go. Qed.

#[local] Hint Resolve fi_blck_fastcheck : fi.

Lemma fi_blck_loop fuel fc l b d :
  fi_frame (blck_loop fuel fc l b d).
Proof.
  revert fc l b d; induction fuel; intros; cbn [blck_loop]; fi_go.
  apply fi_blck_symbol; auto with fi.
Qed.

Lemma fi_decodeblck fuel : fi_frame (decodeblck fuel).
Proof.
  pose proof (fi_blck_loop fuel true) as Hk.
  unfold decodeblck; fi_go;
    first [ apply fi_blck_state1 | apply fi_blck_state2
          | apply fi_blck_state3 | apply fi_blck_state4 ];
    exact Hk.
Qed.

Lemma fi_l_error : fi_frame l_error.
Proof. unfold l_error; fi_go. Qed.

#[local] Hint Resolve fi_decodeblck fi_decodestrd fi_decodednmc fi_l_error : fi.

(** * The final-input condition in the driver *)

Lemma set_finalinput_same s : set_finalinput (finalinput s) s = s.
Proof. destruct s; reflexivity. Qed.

Lemma fi_frame_keeps {A} (m : M A) s a s' :
  fi_frame m -> m s = Ok a s' -> finalinput s' = finalinput s.
Proof.
  intros Hm E.
  pose proof (Hm (finalinput s) s) as H.
  rewrite set_finalinput_same, E in H.
  injection H as H.
  rewrite H at 1; reflexivity.
Qed.

Section FinalRel.
Variable v : Z.
Hypothesis v_set : v <> 0.

Lemma relM_bind {A} (m : M A) (k : A -> M Z) :
  fi_frame m -> (forall a, final_relM v (k a)) -> final_relM v (bind m k).
Proof.
  intros Hm Hk s Hs; unfold bind; rewrite Hm.
  destruct (m s) as [a s1 | |] eqn:E; try exact I.
  apply Hk. rewrite (fi_frame_keeps m s a s1 Hm E); exact Hs.
Qed.

Lemma relM_ret r : r <> INFLT_SRCEXHSTD -> final_relM v (ret r).
Proof.
  intros Hr s Hs; unfold final_rel, ret.
  apply Z.eqb_neq in Hr; rewrite Hr; reflexivity.
Qed.

Lemma relM_return_result r : final_relM v (return_result r).
Proof.
  intros s Hs; unfold return_result, bind, gets, SETERROR, modify, ret.
  cbn [finalinput set_finalinput]; rewrite Hs.
  apply Z.eqb_neq in v_set; rewrite v_set; cbn [Z.eqb negb andb].
  unfold final_rel.
  destruct (r =? INFLT_SRCEXHSTD) eqn:E; [ | reflexivity ].
  eexists; split; [ reflexivity | split; reflexivity ].
Qed.

Lemma updatewindow_zero s : wp updatewindow (fun r _ => r = 0) s.
Proof. unfold updatewindow; repeat wp_step; reflexivity. Qed.

(** The source exhaustion at the block header. *)
Lemma relM_header_exhausted :
  final_relM v
    (fi <- gets finalinput ;;
     if negb (fi =? 0) then SETERROR INFLT_EINPUTEND ;; ret INFLT_ERROR
     else after_window (ret INFLT_SRCEXHSTD)).
Proof.
  intros s Hs.
  unfold bind at 1, gets at 1. unfold bind at 2, gets at 1.
  cbn [finalinput set_finalinput]; rewrite Hs.
  apply Z.eqb_neq in v_set; rewrite v_set; cbn [Z.eqb negb].
  unfold after_window, bind.
  pose proof (updatewindow_zero s) as Hz; unfold wp in Hz.
  destruct (updatewindow s) as [r s1 | |]; try exact I.
  subst r; cbn [Z.eqb negb]; unfold ret, final_rel; cbn [Z.eqb].
  eexists; split; [ reflexivity | split; reflexivity ].
Qed.

Ltac rel_step :=
  cbv beta zeta;
  lazymatch goal with
  | |- final_relM _ (bind (gets finalinput) _) => apply relM_header_exhausted
  | |- final_relM _ (bind _ _) =>
      apply relM_bind; [ solve [ fi_go; eauto with fi ] | intros ? ]
  | |- final_relM _ (ret _) => apply relM_ret; discriminate
  | |- final_relM _ (return_result _) => apply relM_return_result
  | |- final_relM _ (l_decode _ _) => unfold l_decode
  | |- final_relM _ l_error => unfold l_error
  | |- final_relM _ (if ?b then _ else _) => destruct b
  | |- final_relM _ (match ?x with _ => _ end) => destruct x
  | |- final_relM _ _ => solve [ eauto with fi ]
  end.

Lemma relM_inflate_loop fuel : final_relM v (inflate_loop fuel).
Proof.
  induction fuel; cbn [inflate_loop]; [ intros s Hs; exact I | ].
  repeat rel_step.
Qed.

Lemma relM_inflate_dispatch fuel : final_relM v (inflate_dispatch fuel).
Proof.
  pose proof (relM_inflate_loop fuel).
  unfold inflate_dispatch; repeat rel_step.
Qed.
End FinalRel.

Lemma wp_fi_frame {A} (m : M A) (Q : A -> TInflator -> Prop) s :
  fi_frame m ->
  (forall a s', finalinput s' = finalinput s -> Q a s') -> wp m Q s.
Proof.
  intros Hm HQ; unfold wp.
  destruct (m s) as [a s' | |] eqn:E; auto.
  apply HQ; exact (fi_frame_keeps m s a s' Hm E).
Qed.

Section FinalSet.
Variable v : Z.
Hypothesis v_set : v <> 0.

Lemma wp_return_result_final r s :
  finalinput s = v -> wp (return_result r) (final_post v) s.
Proof.
  intros Hs; unfold return_result, final_post.
  repeat wp_step; cbn [finalinput set_error]; zbool.
  - split; [ exact Hs | discriminate ].
  - split; [ exact Hs | ].
    intros ->. apply andb_false_iff in Heqb.
    destruct Heqb as [H | H]; [ | discriminate ].
    apply negb_false_iff, Z.eqb_eq in H; congruence.
Qed.

Ltac final_step :=
  cbv beta zeta;
  lazymatch goal with
  | |- wp (bind (gets finalinput) _) _ _ => apply wp_bind; apply wp_gets
  | |- wp (bind _ _) _ _ =>
      apply wp_bind; apply wp_fi_frame;
      [ solve [ fi_go; eauto with fi ] | intros ? ? ? ]
  | |- wp (ret _) _ _ => apply wp_ret
  | |- wp (return_result _) _ _ => apply wp_return_result_final
  | |- wp (l_decode _ _) _ _ => unfold l_decode
  | |- wp l_error _ _ => unfold l_error
  | |- wp (SETERROR _) _ _ => unfold SETERROR
  | |- wp (modify _) _ _ => apply wp_modify
  | |- wp (after_window _) _ _ => unfold after_window
  | |- wp (if ?b then _ else _) _ _ => destruct b eqn:?
  | |- wp (match ?x with _ => _ end) _ _ => destruct x eqn:?
  end.

Lemma inflate_loop_final fuel :
  forall s, finalinput s = v -> wp (inflate_loop fuel) (final_post v) s.
Proof.
  induction fuel; intros s Hs; cbn [inflate_loop]; [ exact I | ].
  repeat final_step;
    try (apply IHfuel; cbn [finalinput set_state]; congruence);
    try (unfold final_post; cbn [finalinput set_state set_error];
         split; [ congruence | discriminate ]);
    try congruence;
    try (exfalso; zbool; congruence).
Qed.

Lemma inflate_dispatch_final fuel s :
  finalinput s = v -> wp (inflate_dispatch fuel) (final_post v) s.
Proof.
  intros Hs; unfold inflate_dispatch.
  repeat final_step;
    try (apply inflate_loop_final; cbn [finalinput set_state]; congruence);
    try congruence.
Qed.
End FinalSet.

Lemma set_finalinput_twice a b s :
  set_finalinput a (set_finalinput b s) = set_finalinput a s.
Proof. reflexivity. Qed.

(** C10: once the final-input condition is on the decoder (the call has a
    nonzero [final], or an earlier call had), it stays set, also through
    calls with [final = 0]; such a call never returns [INFLT_SRCEXHSTD],
    and where the same call without the condition would return
    [INFLT_SRCEXHSTD] it returns [INFLT_ERROR] with [INFLT_EINPUTEND]
    stored. *)
Theorem C10_final_input_is_sticky :
  forall fuel final s,
    final <> 0 \/ finalinput s <> 0 ->
    (forall r s',
        inflator_inflate fuel final s = Ok r s' ->
        finalinput s' <> 0 /\ r <> INFLT_SRCEXHSTD)
    /\ (forall s0,
          inflator_inflate fuel 0 (set_finalinput 0 s) = Ok INFLT_SRCEXHSTD s0 ->
          exists s',
            inflator_inflate fuel final s = Ok INFLT_ERROR s'
            /\ error s' = INFLT_EINPUTEND /\ finalinput s' <> 0).
Proof.
  intros fuel final s Hf.
  set (v := if finalinput s =? 0 then 1 else finalinput s).
  assert (Hv : v <> 0).
  { unfold v; destruct (finalinput s =? 0) eqn:E; [ discriminate | ].
    apply Z.eqb_neq; exact E. }
  (* the state the dispatch starts from *)
  assert (Hrun : inflator_inflate fuel final s
                 = inflate_dispatch fuel (set_finalinput v (set_used 1 s))).
  { unfold inflator_inflate, bind, gets, modify, ret, v.
    destruct (finalinput s =? 0) eqn:E; cbn [andb].
    - destruct Hf as [Hf | Hf]; [ | apply Z.eqb_eq in E; contradiction ].
      apply Z.eqb_neq in Hf; rewrite Hf; reflexivity.
    - cbn [andb]. rewrite <- (set_finalinput_same s) at 1.
      destruct s; reflexivity. }
  split.
  - intros r s' H. rewrite Hrun in H.
    assert (W := inflate_dispatch_final v Hv fuel
                   (set_finalinput v (set_used 1 s)) eq_refl).
    destruct (wp_elim _ _ _ _ _ W H) as [H1 H2].
    split; [ congruence | exact H2 ].
  - intros s0 H0.
    assert (Hrun0 : inflator_inflate fuel 0 (set_finalinput 0 s)
                    = inflate_dispatch fuel (set_used 1 (set_finalinput 0 s))).
    { reflexivity. }
    rewrite Hrun0 in H0.
    pose proof (relM_inflate_dispatch v Hv fuel
                  (set_used 1 (set_finalinput 0 s)) eq_refl) as R.
    rewrite H0 in R; unfold final_rel in R; cbn [Z.eqb INFLT_SRCEXHSTD] in R.
    destruct R as (s' & E & He & Hfi).
    exists s'; rewrite Hrun.
    split; [ exact E | split; [ exact He | congruence ] ].
Qed.


Lemma C10_final_input_is_sticky_witness :
  (forall r s',
      inflator_inflate 10 1 (start truncated_stored 4) = Ok r s' ->
      finalinput s' <> 0 /\ r <> INFLT_SRCEXHSTD)
  /\ exists s',
       inflator_inflate 10 1 (start truncated_stored 4) = Ok INFLT_ERROR s'
       /\ error s' = INFLT_EINPUTEND /\ finalinput s' <> 0.
Proof.
  destruct (C10_final_input_is_sticky 10 1 (start truncated_stored 4))
    as [H1 H2].
  - left; discriminate.
  - split; [ exact H1 | ].
    apply (H2 (state_of (inflator_inflate 10 0
                           (set_finalinput 0 (start truncated_stored 4))) zeroed)).
    apply run_ok; vm_compute; reflexivity.
Defined.

(** * The reservoir at the exits of the fast path *)

(** [L_DONE] leaves fewer than eight bits in the buffer and gives the
    whole bytes among the unread bits back to the source. *)
Lemma fast_done_spec v r s :
  0 <= fbc v < 2 ^ 64 ->
  fast_done v r s
  = Ok r (set_target (ftarget v)
            (set_source (fsource v - fbc v / 8)
               (set_bcount (fbc v mod 8)
                  (set_bbuffer (fbb v mod 2 ^ (fbc v mod 8)) s)))).
Proof.
  intros Hbc; unfold fast_done.
  assert (H8 : 0 <= fbc v mod 8 < 8) by (apply Z.mod_pos_bound; lia).
  rewrite land_7, shl64_one by lia.
  unfold bind, lift, modify, ret.
  rewrite land_mask by lia.
  replace (Z.shiftr (uxx (fbc v - fbc v mod 8)) 3) with (fbc v / 8); [ reflexivity | ].
  unfold uxx; rewrite Z.mod_small.
  - rewrite Z.shiftr_div_pow2 by lia. change (2 ^ 3) with 8.
    rewrite (Z.div_mod (fbc v) 8) at 2 by lia.
    replace (8 * (fbc v / 8) + fbc v mod 8 - fbc v mod 8) with (fbc v / 8 * 8) by lia.
    rewrite Z.div_mul by lia; reflexivity.
  - pose proof (Z.mod_le (fbc v) 8); lia.
Qed.

Lemma fast_done_post v r s : wp (fast_done v r) fast_exit_post s.
Proof.
  unfold fast_done; repeat wp_step.
  intros _; cbn [bcount bbuffer set_target set_source set_bcount set_bbuffer].
  rewrite land_7 in *.
  assert (H8 : 0 <= fbc v mod 8 < 8) by (apply Z.mod_pos_bound; lia).
  rewrite shl64_one in H by lia; injection H as <-.
  rewrite land_mask by lia.
  split; [ exact H8 | apply Z.mod_pos_bound; apply Z.pow_pos_nonneg; lia ].
Qed.

Ltac wp_fast :=
  repeat first
    [ wp_step
    | lazymatch goal with
      | |- wp (fast_loop _ _) _ _ => fail
      | |- wp (fast_done _ _) _ _ => fail
      | |- wp _ _ _ => wp_opaque
      end ].

Lemma fast_loop_post fuel : forall v s, wp (fast_loop fuel v) fast_exit_post s.
Proof.
  induction fuel; intros v s; cbn [fast_loop]; [ exact I | ]; unfold fast_match.
  wp_fast;
    try apply IHfuel;
    try apply fast_done_post;
    try (intros Hr; exfalso; apply Hr; reflexivity).
Qed.

(** * The table builder *)

Lemma count_of_app L1 L2 k : count_of (L1 ++ L2) k = count_of L1 k + count_of L2 k.
Proof. unfold count_of; rewrite count_occ_app; lia. Qed.

Lemma count_of_nonneg L k : 0 <= count_of L k.
Proof. unfold count_of; lia. Qed.

Lemma count_of_le L k : count_of L k <= Z.of_nat (length L).
Proof. unfold count_of; pose proof (count_occ_bound Z.eq_dec k L); lia. Qed.

Lemma firstn_succ_nth (l : list Z) k x :
  nth_error l k = Some x -> firstn (S k) l = firstn k l ++ [x].
Proof.
  revert l; induction k as [ | k IH ]; intros [ | y l ] H; cbn in *;
    try discriminate.
  - injection H as ->; reflexivity.
  - rewrite (IH l H); reflexivity.
Qed.

Lemma count_lengths_spec lengths :
  forall k counts,
    length counts = 16%nat ->
    (k <= length lengths)%nat ->
    Forall (fun x => 0 <= x <= 15) (firstn k lengths) ->
    (forall j, (j < 16)%nat ->
               0 <= nth j counts 0 /\ nth j counts 0 + Z.of_nat k < 65536) ->
    exists c',
      count_lengths lengths k counts = Some c'
      /\ length c' = 16%nat
      /\ forall j, (j < 16)%nat ->
           nth j c' 0
           = nth j counts 0 + count_of (firstn k lengths) (Z.of_nat j).
Proof.
  induction k as [ | k IH ]; intros counts Hlen Hk Hall Hc.
  - exists counts; cbn; repeat split; auto.
    intros j Hj; unfold count_of; cbn; lia.
  - destruct (nth_error lengths k) as [ x | ] eqn:Ex;
      [ | apply nth_error_None in Ex; lia ].
    rewrite (firstn_succ_nth _ _ _ Ex) in *.
    apply Forall_app in Hall; destruct Hall as [Hall Hx].
    apply Forall_inv in Hx.
    cbn [count_lengths]; rewrite Ex; cbn [obind].
    assert (Hxi : 0 <= x < Z.of_nat (length counts)) by lia.
    rewrite (nthZ_nth counts x 0 Hxi); cbn [obind].
    rewrite (updZ_some counts x _ Hxi); cbn [obind].
    set (counts' := firstn (Z.to_nat x) counts
                    ++ u16 (nth (Z.to_nat x) counts 0 + 1)
                       :: skipn (S (Z.to_nat x)) counts).
    assert (Hu : u16 (nth (Z.to_nat x) counts 0 + 1) = nth (Z.to_nat x) counts 0 + 1).
    { unfold u16; apply Z.mod_small.
      destruct (Hc (Z.to_nat x)) as [H1 H2]; [ lia | ].
      change (2 ^ 16) with 65536; lia. }
    assert (Hn : forall j, (j < 16)%nat ->
               nth j counts' 0
               = nth j counts 0 + (if Z.eq_dec x (Z.of_nat j) then 1 else 0)).
    { intros j Hj; unfold counts'.
      destruct (Z.eq_dec x (Z.of_nat j)) as [ -> | Hne ].
      - rewrite Nat2Z.id, upd_nth_same by lia.
        rewrite Nat2Z.id in Hu; exact Hu.
      - rewrite upd_nth_other by lia; lia. }
    destruct (IH counts') as (c' & E & Hl & Hv).
    + unfold counts'; rewrite upd_length; lia.
    + lia.
    + exact Hall.
    + intros j Hj; rewrite (Hn j Hj).
      destruct (Hc j Hj) as [H1 H2].
      destruct (Z.eq_dec x (Z.of_nat j)); lia.
    + exists c'; repeat split; auto.
      intros j Hj; rewrite (Hv j Hj), (Hn j Hj), count_of_app.
      unfold count_of at 3; cbn [count_occ].
      destruct (Z.eq_dec x (Z.of_nat j)); cbn; lia.
Qed.

(** ** The validity check *)

Lemma check_left_spec L counts :
  length counts = 16%nat ->
  (forall j, (1 <= j <= 15)%nat -> nth j counts 0 = count_of L (Z.of_nat j)) ->
  forall k i,
    (1 <= i)%nat -> (i + k <= 16)%nat ->
    check_left counts k (Z.of_nat i) (kraft_left L (i - 1))
    = if negative_in L i k then Some None
      else Some (Some (kraft_left L (i + k - 1))).
Proof.
  intros Hlen Hc; induction k as [ | k IH ]; intros i Hi Hik.
  - cbn. replace (i + 0 - 1)%nat with (i - 1)%nat by lia. reflexivity.
  - cbn [check_left].
    rewrite (nthZ_nth counts (Z.of_nat i) 0) by lia.
    cbn [obind]. rewrite Nat2Z.id, Hc by lia.
    assert (Hk : 2 * kraft_left L (i - 1) - count_of L (Z.of_nat i)
                 = kraft_left L i).
    { destruct i as [ | i ]; [ lia | ].
      cbn [kraft_left]. replace (S i - 1)%nat with i by lia. reflexivity. }
    rewrite Hk. unfold negative_in; cbn [seq existsb].
    destruct (kraft_left L i <? 0) eqn:E; [ reflexivity | ].
    cbn [orb].
    replace (Z.of_nat i + 1) with (Z.of_nat (S i)) by lia.
    replace (kraft_left L i) with (kraft_left L (S i - 1))
      by (f_equal; lia).
    rewrite IH by lia.
    unfold negative_in.
    replace (S i + k - 1)%nat with (i + S k - 1)%nat by lia.
    reflexivity.
Qed.

Lemma negative_in_over L : negative_in L 1 15 = true <-> over_subscribed L.
Proof.
  unfold negative_in, over_subscribed; rewrite existsb_exists.
  split; intros (k & H1 & H2); exists k.
  - apply in_seq in H1; apply Z.ltb_lt in H2; split; [ lia | exact H2 ].
  - split; [ apply in_seq; lia | apply Z.ltb_lt; exact H2 ].
Qed.

(** ** The longest length *)

Lemma longest_length_spec counts :
  length counts = 16%nat ->
  forall i,
    (i <= 15)%nat ->
    (exists j, (1 <= j <= i)%nat /\ nth j counts 0 <> 0) ->
    exists m,
      longest_length counts i = Some (Z.of_nat m)
      /\ (1 <= m <= i)%nat
      /\ nth m counts 0 <> 0
      /\ forall j, (m < j <= i)%nat -> nth j counts 0 = 0.
Proof.
  intros Hlen; induction i as [ | i IH ]; intros Hi (j & Hj & Hnz).
  - lia.
  - cbn [longest_length].
    rewrite (nth_error_nth' counts 0) by lia.
    destruct (nth (S i) counts 0 =? 0) eqn:E.
    + apply Z.eqb_eq in E.
      destruct (IH ltac:(lia)) as (m & Hm & Hr & Hn & Hz).
      { exists j; split; [ | exact Hnz ].
        destruct (Nat.eq_dec j (S i)) as [ -> | ]; [ contradiction | lia ]. }
      exists m; repeat split; auto; try lia.
      intros j' Hj'. destruct (Nat.eq_dec j' (S i)) as [ -> | ];
        [ exact E | apply Hz; lia ].
    + apply Z.eqb_neq in E.
      exists (S i); repeat split; auto; try lia.
Qed.

Lemma count_of_pos_in L x : 0 < count_of L x <-> In x L.
Proof.
  unfold count_of; rewrite (count_occ_In Z.eq_dec L x); lia.
Qed.

Lemma max_length_bounds L :
  Forall (fun x => 0 <= x) L ->
  Forall (fun x => x <= max_length L) L
  /\ (max_length L = 0 \/ In (max_length L) L).
Proof.
  induction 1 as [ | x L Hx _ [IH1 IH2] ]; cbn [max_length fold_right].
  - split; [ constructor | left; reflexivity ].
  - fold (max_length L). split.
    + constructor; [ lia | ].
      eapply Forall_impl; [ | exact IH1 ]; cbn; intros; lia.
    + destruct (Z.max_spec x (max_length L)) as [[H1 ->] | [H1 ->]].
      * destruct IH2 as [H0 | Hin]; [ | right; right; exact Hin ].
        right; right. exfalso; lia.
      * right; left; reflexivity.
Qed.

Lemma max_length_unique L m :
  Forall (fun x => 0 <= x) L ->
  Forall (fun x => x <= m) L -> In m L -> max_length L = m.
Proof.
  intros Hnn Hle Hin.
  destruct (max_length_bounds L Hnn) as [H1 H2].
  rewrite Forall_forall in H1, Hle.
  specialize (H1 m Hin).
  destruct H2 as [H0 | Hmax]; [ | specialize (Hle _ Hmax); lia ].
  rewrite Forall_forall in Hnn. specialize (Hnn m Hin). lia.
Qed.

Lemma all_zero_count L :
  count_of L 0 = Z.of_nat (length L) <-> all_zero L.
Proof.
  unfold count_of, all_zero. rewrite Nat2Z.inj_iff.
  induction L as [ | x L IH ]; cbn [count_occ length].
  - split; [ constructor | reflexivity ].
  - destruct (Z.eq_dec x 0) as [ -> | Hx ].
    + split.
      * intros H; constructor; [ reflexivity | apply IH; lia ].
      * intros H; inversion H; subst. f_equal; apply IH; assumption.
    + split.
      * intros H. pose proof (count_occ_bound Z.eq_dec 0 L). lia.
      * intros H; inversion H; subst; contradiction.
Qed.

(** ** The counts of a call *)

Lemma lengths_read_length lengths n :
  0 <= n <= Z.of_nat (length lengths) ->
  length (lengths_read lengths n) = Z.to_nat n.
Proof. intros Hn; unfold lengths_read; rewrite length_firstn; lia. Qed.

Lemma buildtable_counts lengths n :
  0 <= n <= Z.of_nat (length lengths) -> n < 65536 ->
  Forall (fun x => 0 <= x <= 15) (lengths_read lengths n) ->
  exists counts,
    count_lengths lengths (Z.to_nat n) (repeat 0 16) = Some counts
    /\ length counts = 16%nat
    /\ forall j, (j < 16)%nat ->
         nth j counts 0 = count_of (lengths_read lengths n) (Z.of_nat j).
Proof.
  intros Hn Hn' Hr.
  destruct (count_lengths_spec lengths (Z.to_nat n) (repeat 0 16))
    as (c & Hc & Hl & Hv); try reflexivity; try lia; try exact Hr.
  - intros j Hj.
    replace (nth j (repeat 0 16) 0) with 0
      by (symmetry; apply nth_repeat).
    lia.
  - exists c; repeat split; auto.
    intros j Hj; rewrite (Hv j Hj).
    replace (nth j (repeat 0 16) 0) with 0
      by (symmetry; apply nth_repeat).
    reflexivity.
Qed.

Lemma kraft_all_zero L : all_zero L -> forall k, 0 < kraft_left L k.
Proof.
  intros Hz; induction k as [ | k IH ]; cbn [kraft_left]; [ lia | ].
  assert (count_of L (Z.of_nat (S k)) = 0); [ | lia ].
  pose proof (count_of_nonneg L (Z.of_nat (S k))) as Hnn.
  destruct (Z.eq_dec (count_of L (Z.of_nat (S k))) 0) as [ | Hne ]; [ assumption | ].
  assert (Hin : In (Z.of_nat (S k)) L) by (apply count_of_pos_in; lia).
  unfold all_zero in Hz; rewrite Forall_forall in Hz.
  specialize (Hz _ Hin); lia.
Qed.

Lemma not_all_zero_has L :
  Forall (fun x => 0 <= x <= 15) L -> ~ all_zero L ->
  exists x, In x L /\ 1 <= x <= 15.
Proof.
  induction 1 as [ | x L Hx HL IH ]; intros Hnz.
  - exfalso; apply Hnz; constructor.
  - destruct (Z.eq_dec x 0) as [ -> | Hx0 ].
    + destruct IH as (y & Hin & Hy).
      { intros Hz; apply Hnz; constructor; [ reflexivity | exact Hz ]. }
      exists y; split; [ right; exact Hin | exact Hy ].
    + exists x; split; [ left; reflexivity | lia ].
Qed.

(** The part of [buildtable] after the count of the lengths, for a vector
    that is not all zero: the longest length and the outcome of the
    validity loop. *)
Lemma buildtable_checks lengths n counts :
  let L := lengths_read lengths n in
  Forall (fun x => 0 <= x <= 15) L ->
  ~ all_zero L ->
  length counts = 16%nat ->
  (forall j, (j < 16)%nat -> nth j counts 0 = count_of L (Z.of_nat j)) ->
  exists counts',
    updZ counts 0 0 = Some counts'
    /\ length counts' = 16%nat
    /\ nth 0%nat counts' 0 = 0
    /\ longest_length counts' (Z.to_nat DEFLT_MAXBITS) = Some (max_length L)
    /\ check_left counts' (Z.to_nat DEFLT_MAXBITS) 1 1
       = if negative_in L 1 15 then Some None
         else Some (Some (kraft_left L 15)).
Proof.
  intros L Hr Hnz Hlen Hc.
  rewrite updZ_some by lia.
  change (Z.to_nat 0) with 0%nat.
  set (counts' := firstn 0 counts ++ 0 :: skipn 1 counts).
  assert (Hlen' : length counts' = 16%nat)
    by (unfold counts'; rewrite upd_length; lia).
  assert (Hc' : forall j, (1 <= j <= 15)%nat ->
                  nth j counts' 0 = count_of L (Z.of_nat j)).
  { intros j Hj; unfold counts'.
    rewrite upd_nth_other by lia. apply Hc; lia. }
  exists counts'; repeat split; auto.
  - destruct (not_all_zero_has L Hr Hnz) as (x & Hin & Hx).
    destruct (longest_length_spec counts' Hlen' 15) as (m & Hm & Hr' & Hn & Hz).
    { lia. }
    { exists (Z.to_nat x); split; [ lia | ].
      rewrite Hc' by lia. rewrite Z2Nat.id by lia.
      apply count_of_pos_in in Hin; lia. }
    change (Z.to_nat DEFLT_MAXBITS) with 15%nat.
    rewrite Hm; f_equal; symmetry.
    apply max_length_unique.
    + eapply Forall_impl; [ | exact Hr ]; cbn; intros; lia.
    + rewrite Forall_forall; intros y Hy.
      rewrite Forall_forall in Hr; specialize (Hr y Hy).
      destruct (Z_le_gt_dec y (Z.of_nat m)) as [ | Hgt ]; [ assumption | exfalso ].
      specialize (Hz (Z.to_nat y) ltac:(lia)).
      rewrite Hc', Z2Nat.id in Hz by lia.
      apply count_of_pos_in in Hy; lia.
    + apply count_of_pos_in.
      rewrite Hc' in Hn by lia.
      pose proof (count_of_nonneg L (Z.of_nat m)); lia.
  - change (Z.to_nat DEFLT_MAXBITS) with 15%nat.
    apply (check_left_spec L counts' Hlen' Hc' 15 1); lia.
Qed.

(** ** Filling the table *)

Lemma fill_invalid_spec (d : TINFLTTEntry) :
  forall k i table,
    (i + k <= length table)%nat ->
    exists t',
      fill_invalid k (Z.of_nat i) table = Some t'
      /\ length t' = length table
      /\ (forall j, (i <= j < i + k)%nat -> nth j t' d = invalid_entry)
      /\ (forall j, (j < i \/ i + k <= j)%nat -> nth j t' d = nth j table d).
Proof.
  induction k as [ | k IH ]; intros i table Hk; cbn [fill_invalid].
  - exists table; repeat split; auto. intros j Hj; lia.
  - rewrite updZ_some by lia. cbn [obind]. rewrite Nat2Z.id.
    set (t1 := firstn i table ++ invalid_entry :: skipn (S i) table).
    assert (Hl1 : length t1 = length table)
      by (unfold t1; rewrite upd_length; lia).
    replace (Z.of_nat i + 1) with (Z.of_nat (S i)) by lia.
    destruct (IH (S i) t1) as (t' & Ht & Hl & Hin & Hout); [ lia | ].
    exists t'; repeat split; auto; try congruence.
    + intros j Hj. destruct (Nat.eq_dec j i) as [ -> | Hne ].
      * rewrite Hout by lia. unfold t1; apply upd_nth_same; lia.
      * apply Hin; lia.
    + intros j Hj. rewrite Hout by lia.
      unfold t1; apply upd_nth_other; lia.
Qed.

Lemma fill_down_some (f : Z -> Z) (e : TINFLTTEntry) :
  forall k table,
    (forall j, (j < k)%nat -> 0 <= f (Z.of_nat j) < Z.of_nat (length table)) ->
    exists t', fill_down k f e table = Some t' /\ length t' = length table.
Proof.
  induction k as [ | k IH ]; intros table Hf; cbn [fill_down].
  - exists table; split; reflexivity.
  - rewrite updZ_some by (apply Hf; lia). cbn [obind].
    set (t1 := firstn _ table ++ e :: skipn _ table).
    assert (Hl1 : length t1 = length table).
    { unfold t1; rewrite upd_length; [ reflexivity | ].
      specialize (Hf k ltac:(lia)); lia. }
    destruct (IH t1) as (t' & Ht & Hl).
    { intros j Hj; rewrite Hl1; apply Hf; lia. }
    exists t'; split; congruence.
Qed.

(** ** A single distance code *)

Lemma firstn_skipn_cons {A} (l : list A) (i k : nat) (x : A) :
  nth_error l i = Some x ->
  firstn (S k) (skipn i l) = x :: firstn k (skipn (S i) l).
Proof.
  revert i; induction l as [ | a l IH ]; intros [ | i ] H; cbn in H |- *;
    try discriminate.
  - congruence.
  - apply (IH i H).
Qed.

Lemma populate_zeros lengths mode mbits mmask ncodes table code :
  forall k symbol,
    (symbol + k <= length lengths)%nat ->
    all_zero (firstn k (skipn symbol lengths)) ->
    populate k (Z.of_nat symbol) lengths mode mbits mmask ncodes table code
    = Some (table, code).
Proof.
  induction k as [ | k IH ]; intros symbol Hk Hz; cbn [populate]; [ reflexivity | ].
  destruct (nth_error lengths symbol) as [ x | ] eqn:Hx;
    [ | apply nth_error_None in Hx; lia ].
  rewrite (firstn_skipn_cons _ _ _ _ Hx) in Hz. inversion Hz; subst.
  unfold nthZ. replace (Z.of_nat symbol <? 0) with false
    by (symmetry; apply Z.ltb_ge; lia).
  rewrite Nat2Z.id, Hx. cbn [obind]. change (0 =? 0) with true. cbv iota.
  replace (Z.of_nat symbol + 1) with (Z.of_nat (S symbol)) by lia.
  apply IH; [ lia | assumption ].
Qed.

Lemma populate_single lengths :
  forall k symbol table,
    (symbol + k <= length lengths)%nat -> (symbol + k <= 30)%nat ->
    (128 <= length table)%nat ->
    Forall (fun x => x = 0 \/ x = 1) (firstn k (skipn symbol lengths)) ->
    count_of (firstn k (skipn symbol lengths)) 1 <= 1 ->
    exists t',
      populate k (Z.of_nat symbol) lengths DTABLEMODE DROOTBITS
        (2 ^ DROOTBITS - 1) (repeat 0 16) table 0 = Some (t', 0)
      /\ length t' = length table.
Proof.
  induction k as [ | k IH ]; intros symbol table Hk Hk' Ht Hr Hc;
    cbn [populate].
  - exists table; split; reflexivity.
  - destruct (nth_error lengths symbol) as [ x | ] eqn:Hx;
      [ | apply nth_error_None in Hx; lia ].
    rewrite (firstn_skipn_cons _ _ _ _ Hx) in Hr, Hc. inversion Hr; subst.
    unfold nthZ at 1. replace (Z.of_nat symbol <? 0) with false
      by (symmetry; apply Z.ltb_ge; lia).
    rewrite Nat2Z.id, Hx. cbn [obind].
    replace (Z.of_nat symbol + 1) with (Z.of_nat (S symbol)) by lia.
    match goal with H : x = 0 \/ x = 1 |- _ => destruct H as [ -> | -> ] end.
    + change (0 =? 0) with true; cbv iota.
      assert (Hc' : count_of (firstn k (skipn (S symbol) lengths)) 1 <= 1).
      { unfold count_of in Hc |- *; cbn [count_occ] in Hc.
        destruct (Z.eq_dec 0 1); [ lia | exact Hc ]. }
      apply IH; auto; lia.
    + change (1 =? 0) with false; cbv iota.
      change (DTABLEMODE =? DTABLEMODE) with true.
      change (DTABLEMODE =? LTABLEMODE) with false. cbn [orb]. cbv iota.
      rewrite (nthZ_nth dstinfo (Z.of_nat symbol) (SI 0 0))
        by (change (length dstinfo) with 30%nat; lia).
      cbn [obind].
      set (e := E _ _ _).
      change (nthZ (repeat 0 16) 1) with (Some 0). cbn [obind].
      change (reverseinc 0 1) with (Some 1). cbn [obind].
      change (updZ (repeat 0 16) 1 1)
        with (Some (0 :: 1 :: repeat 0 14)). cbn [obind].
      change (DROOTBITS <? 1) with false. cbv iota. cbn [obind].
      change (shl64 1 (DROOTBITS - 1)) with (Some 64). cbn [obind].
      destruct (fill_down_some (fun j => 0 + Z.lor 0 (Z.shiftl j 1)) e
                  (Z.to_nat 64) table) as (t1 & Ht1 & Hl1).
      { intros j Hj. rewrite Z.lor_0_l, Z.shiftl_mul_pow2 by lia.
        change (2 ^ 1) with 2. lia. }
      rewrite Ht1. cbn [obind].
      assert (Hz : all_zero (firstn k (skipn (S symbol) lengths))).
      { unfold count_of in Hc; cbn [count_occ] in Hc.
        destruct (Z.eq_dec 1 1) as [ _ | ]; [ | contradiction ].
        assert (Hc0 : count_occ Z.eq_dec (firstn k (skipn (S symbol) lengths)) 1
                      = 0%nat) by lia.
        rewrite <- (count_occ_not_In Z.eq_dec) in Hc0.
        unfold all_zero; rewrite Forall_forall.
        match goal with H : Forall _ _ |- _ => rewrite Forall_forall in H;
          intros y Hy; destruct (H y Hy) as [ | -> ]; [ assumption | ] end.
        contradiction. }
      rewrite (populate_zeros lengths DTABLEMODE DROOTBITS (2 ^ DROOTBITS - 1)
                 (0 :: 1 :: repeat 0 14) t1 0 k (S symbol)) by (lia || exact Hz).
      exists t1; split; [ reflexivity | exact Hl1 ].
Qed.

Lemma lor_one_even j : 0 <= j -> Z.lor 1 (Z.shiftl j 1) = 2 * j + 1.
Proof.
  intros Hj. rewrite Z.shiftl_mul_pow2 by lia. change (2 ^ 1) with 2.
  assert (Hl : Z.land 1 (j * 2) = 0).
  { rewrite Z.land_comm. change 1 with (Z.ones 1).
    rewrite Z.land_ones by lia. change (2 ^ 1) with 2.
    apply Z.mod_mul; lia. }
  rewrite <- (Z.lxor_lor _ _ Hl), <- (Z.add_nocarry_lxor _ _ Hl). lia.
Qed.

Lemma kraft_stays_nonpos L :
  forall k i, kraft_left L i <= 0 -> kraft_left L (i + k) <= 0.
Proof.
  induction k as [ | k IH ]; intros i Hi.
  - rewrite Nat.add_0_r; exact Hi.
  - replace (i + S k)%nat with (S (i + k)) by lia. cbn [kraft_left].
    specialize (IH i Hi).
    pose proof (count_of_nonneg L (Z.of_nat (S (i + k)))). lia.
Qed.

Lemma incomplete_single L :
  incomplete L -> count_of L 1 <= 1.
Proof.
  intros [_ Hpos].
  destruct (Z_le_gt_dec (count_of L 1) 1) as [ | Hgt ]; [ assumption | exfalso ].
  assert (H1 : kraft_left L 1 <= 0) by (cbn [kraft_left]; change (Z.of_nat 1) with 1; lia).
  pose proof (kraft_stays_nonpos L 14 1 H1) as H15.
  change (1 + 14)%nat with 15%nat in H15. lia.
Qed.

Lemma max_one_bits L :
  Forall (fun x => 0 <= x <= 15) L -> max_length L = 1 ->
  Forall (fun x => x = 0 \/ x = 1) L.
Proof.
  intros Hr Hm.
  destruct (max_length_bounds L) as [Hle _].
  { eapply Forall_impl; [ | exact Hr ]; cbn; intros; lia. }
  rewrite Hm in Hle. rewrite Forall_forall in Hle, Hr |- *.
  intros x Hx. specialize (Hle x Hx). specialize (Hr x Hx). lia.
Qed.

Section Buildtable.

Variables (lengths : list Z) (n : Z) (table : list TINFLTTEntry) (mode : Z).
Let L := lengths_read lengths n.
Hypothesis Hn : 0 <= n <= Z.of_nat (length lengths).
Hypothesis Hn' : n < 65536.
Hypothesis Hr : Forall (fun x => 0 <= x <= 15) L.

Lemma buildtable_all_zero :
  all_zero L ->
  buildtable lengths n table mode
  = if mode =? DTABLEMODE then
      obind (fill_invalid (Z.to_nat (2 ^ DROOTBITS)) 0 table)
        (fun t => Some (0, t))
    else Some (INFLT_ERROR, table).
Proof.
  intros Hz.
  destruct (buildtable_counts lengths n Hn Hn' Hr) as (counts & Hc & Hlen & Hv).
  unfold buildtable; cbv zeta. rewrite Hc; cbn [obind].
  rewrite (nthZ_nth counts 0 0) by lia. cbn [obind].
  change (Z.to_nat 0) with 0%nat. rewrite (Hv 0%nat) by lia.
  change (Z.of_nat 0) with 0.
  apply all_zero_count in Hz. fold L. rewrite Hz.
  unfold L at 1; rewrite lengths_read_length by exact Hn.
  rewrite Z2Nat.id, Z.eqb_refl by lia.
  destruct (mode =? DTABLEMODE) eqn:E; [ | reflexivity ].
  apply Z.eqb_eq in E; subst mode. reflexivity.
Qed.

(** The steps of [buildtable] up to the outcome of the validity loop, for
    a vector that is not all zero. *)
Ltac bt_header Hnz counts' :=
  let counts := fresh "counts" in
  let Hc := fresh "Hc" in let Hlen := fresh "Hlen" in let Hv := fresh "Hv" in
  let Hu := fresh "Hu" in let Hlen' := fresh "Hlen'" in
  let H0 := fresh "H0" in let Hm := fresh "Hm" in let Hk := fresh "Hk" in
  destruct (buildtable_counts lengths n Hn Hn' Hr) as (counts & Hc & Hlen & Hv);
  destruct (buildtable_checks lengths n counts Hr Hnz Hlen Hv)
    as (counts' & Hu & Hlen' & H0 & Hm & Hk);
  unfold buildtable; cbv zeta; rewrite Hc; cbn [obind];
  rewrite (nthZ_nth counts 0 0) by lia; cbn [obind];
  change (Z.to_nat 0) with 0%nat; rewrite (Hv 0%nat) by lia;
  change (Z.of_nat 0) with 0; fold L;
  replace (count_of L 0 =? n) with false
    by (symmetry; apply Z.eqb_neq; intros Hc0; apply Hnz;
        apply all_zero_count; rewrite Hc0;
        unfold L; rewrite lengths_read_length by exact Hn; lia);
  rewrite Hu; cbn [obind]; rewrite Hm; cbn [obind]; rewrite Hk; fold L.

Lemma buildtable_over_subscribed :
  over_subscribed L ->
  buildtable lengths n table mode = Some (INFLT_ERROR, table).
Proof.
  intros Ho.
  assert (Hnz : ~ all_zero L).
  { intros Hz; destruct Ho as (k & _ & Hk).
    pose proof (kraft_all_zero L Hz k); lia. }
  bt_header Hnz counts'.
  apply negative_in_over in Ho. fold L in Ho. rewrite Ho. reflexivity.
Qed.

Lemma incomplete_not_negative : incomplete L -> negative_in L 1 15 = false.
Proof.
  intros [Hk _]. destruct (negative_in L 1 15) eqn:E; [ | reflexivity ].
  apply negative_in_over in E. destruct E as (k & Hk1 & Hk2).
  specialize (Hk k Hk1); lia.
Qed.

Lemma buildtable_incomplete :
  incomplete L -> ~ all_zero L ->
  ~ (max_length L = 1 /\ mode = DTABLEMODE) ->
  buildtable lengths n table mode = Some (INFLT_ERROR, table).
Proof.
  intros Hi Hnz Hx.
  bt_header Hnz counts'.
  rewrite (incomplete_not_negative Hi). cbn [obind].
  destruct Hi as [_ Hpos].
  replace (kraft_left L 15 =? 0) with false
    by (symmetry; apply Z.eqb_neq; lia).
  cbn [negb andb].
  destruct (max_length L =? 1) eqn:E1; [ | reflexivity ].
  destruct (mode =? DTABLEMODE) eqn:E2; [ | reflexivity ].
  exfalso; apply Hx; split; [ apply Z.eqb_eq, E1 | apply Z.eqb_eq, E2 ].
Qed.

Lemma buildtable_single_distance :
  incomplete L -> max_length L = 1 -> mode = DTABLEMODE ->
  n <= 30 -> (128 <= length table)%nat ->
  exists t, buildtable lengths n table mode = Some (0, t)
            /\ length t = length table.
Proof.
  intros Hi Hmax Hmode Hn30 Ht.
  assert (Hnz : ~ all_zero L).
  { intros Hz. destruct (max_length_bounds L) as [_ [H0 | Hin]].
    - eapply Forall_impl; [ | exact Hr ]; cbn; intros; lia.
    - lia.
    - unfold all_zero in Hz; rewrite Forall_forall in Hz.
      specialize (Hz _ Hin); lia. }
  bt_header Hnz counts'.
  rewrite (incomplete_not_negative Hi). cbn [obind].
  rewrite Hmax, Hmode.
  change (1 =? 1) with true. change (DTABLEMODE =? DTABLEMODE) with true.
  cbn [negb orb]. rewrite andb_false_r.
  change (Z.to_nat 1) with 1%nat. cbn [first_codes].
  change (1 - 1) with 0.
  rewrite (nthZ_nth counts' 0 0) by lia.
  change (Z.to_nat 0) with 0%nat. rewrite H0. cbn [obind].
  change (u16 (Z.shiftl (0 + 0) 1)) with 0.
  change (reversecode 0 1) with (Some 0). cbn [obind].
  change (updZ (repeat 0 16) 1 0) with (Some (repeat 0 16)). cbn [obind].
  change (DTABLEMODE =? LTABLEMODE) with false. cbv iota.
  change (DROOTBITS <? 1) with false. cbv iota. cbn [obind negb].
  destruct (populate_single lengths (Z.to_nat n) 0 table) as (t1 & Hp & Hl1);
    try lia.
  { apply (max_one_bits L Hr Hmax). }
  { apply (incomplete_single L Hi). }
  change (Z.of_nat 0) with 0 in Hp. rewrite Hp. cbn [obind].
  change ((1 =? 1) && (0 =? 0)) with true. cbv iota.
  destruct (fill_down_some (fun j => Z.lor 1 (Z.shiftl j 1)) invalid_entry
              (Z.to_nat (2 ^ (DROOTBITS - 1))) t1) as (t2 & Hf & Hl2).
  { intros j Hj. rewrite lor_one_even by lia.
    change (Z.to_nat (2 ^ (DROOTBITS - 1))) with 64%nat in Hj. lia. }
  rewrite Hf. cbn [obind].
  exists t2; split; [ reflexivity | congruence ].
Qed.

Lemma buildtable_no_distance (d : TINFLTTEntry) :
  all_zero L -> mode = DTABLEMODE -> (128 <= length table)%nat ->
  exists t,
    buildtable lengths n table mode = Some (0, t)
    /\ length t = length table
    /\ (forall j, (j < 128)%nat -> nth j t d = invalid_entry)
    /\ (forall j, (128 <= j)%nat -> nth j t d = nth j table d).
Proof.
  intros Hz Hmode Ht.
  rewrite (buildtable_all_zero Hz), Hmode.
  change (DTABLEMODE =? DTABLEMODE) with true. cbv iota.
  destruct (fill_invalid_spec d (Z.to_nat (2 ^ DROOTBITS)) 0 table)
    as (t & Hf & Hl & Hin & Hout).
  { change (Z.to_nat (2 ^ DROOTBITS)) with 128%nat; lia. }
  change (Z.of_nat 0) with 0 in Hf. rewrite Hf. cbn [obind].
  change (Z.to_nat (2 ^ DROOTBITS)) with 128%nat in Hin, Hout.
  exists t; split; [ reflexivity | split; [ exact Hl | split ] ].
  - intros j Hj; apply Hin; lia.
  - intros j Hj; apply Hout; lia.
Qed.

Lemma buildtable_no_codes :
  all_zero L -> mode <> DTABLEMODE ->
  buildtable lengths n table mode = Some (INFLT_ERROR, table).
Proof.
  intros Hz Hmode.
  rewrite (buildtable_all_zero Hz).
  replace (mode =? DTABLEMODE) with false
    by (symmetry; apply Z.eqb_neq; exact Hmode).
  reflexivity.
Qed.

End Buildtable.

(** Claim C5.  For a vector of [n] code lengths, each between 0 and 15,
    [buildtable] returns [INFLT_ERROR] and leaves the table alone when the
    running count of the validity check goes negative at some length
    (over-subscribed); it does the same when the count stays positive
    (incomplete) and the vector is not all zero, unless the longest length
    is 1 and the table is the distance table; in that case, with at most
    30 symbols, it returns 0; for an all-zero vector it returns 0 in the
    distance mode, every one of the 128 entries of the root table being
    the invalid entry afterwards and the entries behind them untouched;
    for an all-zero vector in the literal/length or the code-length mode
    it returns [INFLT_ERROR]. *)
Theorem C5_buildtable_validity
    (lengths : list Z) (n : Z) (table : list TINFLTTEntry) (mode : Z) :
  let L := lengths_read lengths n in
  0 <= n <= Z.of_nat (length lengths) -> n < 65536 ->
  Forall (fun x => 0 <= x <= 15) L ->
  (over_subscribed L ->
     buildtable lengths n table mode = Some (INFLT_ERROR, table))
  /\ (incomplete L -> ~ all_zero L ->
      ~ (max_length L = 1 /\ mode = DTABLEMODE) ->
      buildtable lengths n table mode = Some (INFLT_ERROR, table))
  /\ (incomplete L -> max_length L = 1 -> mode = DTABLEMODE ->
      n <= 30 -> (128 <= length table)%nat ->
      exists t, buildtable lengths n table mode = Some (0, t)
                /\ length t = length table)
  /\ (all_zero L -> mode = DTABLEMODE -> (128 <= length table)%nat ->
      exists t,
        buildtable lengths n table mode = Some (0, t)
        /\ length t = length table
        /\ (forall j, (j < 128)%nat -> nth j t (E 0 0 0) = invalid_entry)
        /\ (forall j, (128 <= j)%nat ->
              nth j t (E 0 0 0) = nth j table (E 0 0 0)))
  /\ (all_zero L -> mode <> DTABLEMODE ->
      buildtable lengths n table mode = Some (INFLT_ERROR, table)).
Proof.
  intros L Hn Hn' Hr. repeat split.
  - apply buildtable_over_subscribed; assumption.
  - apply buildtable_incomplete; assumption.
  - intros; apply buildtable_single_distance; assumption.
  - intros; apply buildtable_no_distance; assumption.
  - apply buildtable_no_codes; assumption.
Qed.

Lemma incomplete_check (L : list Z) :
  forallb (fun k => 0 <=? kraft_left L k) (seq 1 15) = true ->
  0 < kraft_left L 15 -> incomplete L.
Proof.
  intros Hall Hpos; split; [ | exact Hpos ].
  intros k Hk. rewrite forallb_forall in Hall.
  apply Z.leb_le, Hall, in_seq; lia.
Qed.

(** Three codes of length 1 are over-subscribed; one code of length 2 is
    incomplete and rejected in every mode; one distance code of length 1
    is accepted; no distance code at all is accepted and no literal/length
    code at all is rejected. *)
Lemma C5_buildtable_validity_witness :
  let table := repeat (E 0 0 0) 128 in
  buildtable [1; 1; 1] 3 table LTABLEMODE = Some (INFLT_ERROR, table)
  /\ buildtable [0; 2] 2 table DTABLEMODE = Some (INFLT_ERROR, table)
  /\ (exists t, buildtable [0; 1] 2 table DTABLEMODE = Some (0, t)
                /\ length t = length table)
  /\ (exists t, buildtable [0; 0] 2 table DTABLEMODE = Some (0, t)
                /\ length t = length table
                /\ (forall j, (j < 128)%nat -> nth j t (E 0 0 0) = invalid_entry)
                /\ (forall j, (128 <= j)%nat ->
                      nth j t (E 0 0 0) = nth j table (E 0 0 0)))
  /\ buildtable [0; 0] 2 table LTABLEMODE = Some (INFLT_ERROR, table).
Proof.
  intros table.
  assert (Hr : forall l, forallb (fun x => (0 <=? x) && (x <=? 15)) l = true ->
                 Forall (fun x => 0 <= x <= 15) l).
  { intros l H; rewrite forallb_forall in H; rewrite Forall_forall.
    intros x Hx; specialize (H x Hx); apply andb_true_iff in H.
    destruct H as [H1 H2]; apply Z.leb_le in H1; apply Z.leb_le in H2; lia. }
  split; [ | split; [ | split; [ | split ] ] ].
  - destruct (C5_buildtable_validity [1; 1; 1] 3 table LTABLEMODE)
      as (H & _); [ cbn; lia | lia | apply Hr; reflexivity | ].
    apply H. exists 1%nat; split; [ lia | vm_compute; reflexivity ].
  - destruct (C5_buildtable_validity [0; 2] 2 table DTABLEMODE)
      as (_ & H & _); [ cbn; lia | lia | apply Hr; reflexivity | ].
    apply H.
    + apply incomplete_check; [ reflexivity | vm_compute; reflexivity ].
    + intros H0; inversion H0 as [ | ? ? _ H2 ]; inversion H2; discriminate.
    + intros [H0 _]; vm_compute in H0; discriminate.
  - destruct (C5_buildtable_validity [0; 1] 2 table DTABLEMODE)
      as (_ & _ & H & _); [ cbn; lia | lia | apply Hr; reflexivity | ].
    apply H; [ | reflexivity | reflexivity | lia | cbn; lia ].
    apply incomplete_check; [ reflexivity | vm_compute; reflexivity ].
  - destruct (C5_buildtable_validity [0; 0] 2 table DTABLEMODE)
      as (_ & _ & _ & H & _); [ cbn; lia | lia | apply Hr; reflexivity | ].
    apply H; [ repeat constructor | reflexivity | cbn; lia ].
  - destruct (C5_buildtable_validity [0; 0] 2 table LTABLEMODE)
      as (_ & _ & _ & _ & H); [ cbn; lia | lia | apply Hr; reflexivity | ].
    apply H; [ repeat constructor | discriminate ].
Defined.

(** * The runs of the two paths on the same state *)

(** ** Steps of a run *)

Lemma bind_gets {A B} (f : TInflator -> A) (k : A -> M B) s :
  bind (gets f) k s = k (f s) s.
Proof. reflexivity. Qed.

Lemma bind_modify {B} (f : TInflator -> TInflator) (k : unit -> M B) s :
  bind (modify f) k s = k tt (f s).
Proof. reflexivity. Qed.

Lemma bind_ret {A B} (a : A) (k : A -> M B) s : bind (ret a) k s = k a s.
Proof. reflexivity. Qed.

Lemma bind_lift {A B} (o : option A) (a : A) (k : A -> M B) s :
  o = Some a -> bind (lift o) k s = k a s.
Proof. intros ->; reflexivity. Qed.

Lemma bind_geto {A B} (f : TInflator -> option A) (a : A) (k : A -> M B) s :
  f s = Some a -> bind (geto f) k s = k a s.
Proof. unfold bind, geto; intros ->; reflexivity. Qed.

Lemma bind_assoc {A B C} (m : M A) (k : A -> M B) (h : B -> M C) s :
  bind (bind m k) h s = bind m (fun a => bind (k a) h) s.
Proof. unfold bind; destruct (m s); reflexivity. Qed.

(** The fields of a state built from setters. *)
Ltac fields :=
  cbn [state error finalinput smem source sbgn send tmem target tbgn tend
       substate final used aux0 aux1 aux2 aux3 aux4 bbuffer bcount window
       count end_ ltable dtable tables allocator
       set_state set_error set_finalinput set_smem set_source set_sbgn
       set_send set_tmem set_target set_tbgn set_tend set_substate set_final
       set_used set_aux0 set_aux1 set_aux2 set_aux3 set_aux4 set_bbuffer
       set_bcount set_window set_count set_end_ set_ltable set_dtable
       set_tables set_allocator
       slow_at with_reservoir fast_at fsource ftarget fbb fbc].

Ltac fields_in H :=
  cbn [state error finalinput smem source sbgn send tmem target tbgn tend
       substate final used aux0 aux1 aux2 aux3 aux4 bbuffer bcount window
       count end_ ltable dtable tables allocator
       set_state set_error set_finalinput set_smem set_source set_sbgn
       set_send set_tmem set_target set_tbgn set_tend set_substate set_final
       set_used set_aux0 set_aux1 set_aux2 set_aux3 set_aux4 set_bbuffer
       set_bcount set_window set_count set_end_ set_ltable set_dtable
       set_tables set_allocator
       slow_at with_reservoir fast_at fsource ftarget fbb fbc] in H.

Lemma uxx_small x : 0 <= x < 2 ^ 64 -> uxx x = x.
Proof. intros H; unfold uxx; apply Z.mod_small; exact H. Qed.

Lemma shl64_some x n :
  0 <= n < 64 -> 0 <= x -> x * 2 ^ n < 2 ^ 64 ->
  shl64 x n = Some (Z.shiftl x n).
Proof.
  intros Hn Hx Hlt; unfold shl64.
  replace ((0 <=? n) && (n <? 64)) with true
    by (symmetry; apply andb_true_iff; split;
        [ apply Z.leb_le | apply Z.ltb_lt ]; lia).
  rewrite uxx_small; [ reflexivity | ].
  rewrite Z.shiftl_mul_pow2 by lia.
  split; [ | exact Hlt ].
  apply Z.mul_nonneg_nonneg; [ exact Hx | apply Z.pow_nonneg; lia ].
Qed.

Lemma shr64_some x n : 0 <= n < 64 -> shr64 x n = Some (x / 2 ^ n).
Proof.
  intros Hn; unfold shr64.
  replace ((0 <=? n) && (n <? 64)) with true
    by (symmetry; apply andb_true_iff; split;
        [ apply Z.leb_le | apply Z.ltb_lt ]; lia).
  rewrite Z.shiftr_div_pow2 by lia. reflexivity.
Qed.

Lemma pow2_le_mono a b : 0 <= a <= b -> 2 ^ a <= 2 ^ b.
Proof. intros H; apply Z.pow_le_mono_r; lia. Qed.

Lemma nthZ_some {A} (l : list A) i :
  0 <= i < Z.of_nat (length l) -> exists x, nthZ l i = Some x.
Proof.
  intros Hi; unfold nthZ.
  replace (i <? 0) with false by (symmetry; apply Z.ltb_ge; lia).
  destruct (nth_error l (Z.to_nat i)) eqn:E; [ eauto | ].
  apply nth_error_None in E; lia.
Qed.

Lemma nthZ_byte l i b : Forall is_byte l -> nthZ l i = Some b -> is_byte b.
Proof.
  intros Hl H; unfold nthZ in H. destruct (i <? 0); [ discriminate | ].
  rewrite Forall_forall in Hl. apply Hl. eapply nth_error_In; exact H.
Qed.

(** ** The bit input of the slow path *)

Section Slow.

Variable s0 : TInflator.
Hypothesis Hbytes : Forall is_byte (smem s0).
Hypothesis Hsend : send s0 <= Z.of_nat (length (smem s0)).

Lemma fetchbyte_slow tm tgt src bc :
  0 <= src < send s0 -> 0 <= bc <= 55 -> 0 <= 8 * src - bc ->
  fetchbyte (slow_at tm tgt src bc s0)
  = Ok true (slow_at tm tgt (src + 1) (bc + 8) s0).
Proof.
  intros Hsrc Hbc Hp.
  destruct (nthZ_some (smem s0) src ltac:(lia)) as (b & Hb).
  pose proof (nthZ_byte _ _ _ Hbytes Hb) as Hbb; unfold is_byte in Hbb.
  unfold fetchbyte, nextbyte.
  rewrite bind_gets, bind_gets. fields.
  replace (src <? send s0) with true by (symmetry; apply Z.ltb_lt; lia).
  rewrite bind_gets, bind_assoc, (bind_geto _ b) by (fields; exact Hb).
  rewrite bind_assoc, bind_modify, bind_ret. fields.
  assert (H2 : 2 ^ bc <= 2 ^ 55) by (apply pow2_le_mono; lia).
  rewrite (bind_lift _ (Z.shiftl b bc))
    by (apply shl64_some; try lia;
        change (2 ^ 64) with (512 * 2 ^ 55); nia).
  rewrite bind_modify, bind_modify. fields.
  rewrite (bits_at_push _ _ _ _ Hbytes Hb) by lia.
  rewrite uxx_small by (change (2 ^ 64) with 18446744073709551616; lia).
  unfold slow_at, with_reservoir; fields.
  replace (8 * (src + 1) - (bc + 8)) with (8 * src - bc) by lia.
  reflexivity.
Qed.

Lemma tryreadbits_slow tm tgt n :
  0 <= n <= 32 ->
  forall F src bc,
    (1 <= F)%nat -> n - bc <= 8 * (Z.of_nat F - 1) ->
    0 <= src <= send s0 -> 0 <= bc <= 63 -> 0 <= 8 * src - bc ->
    8 * src - bc + n <= 8 * send s0 ->
    exists src' bc',
      tryreadbits F n (slow_at tm tgt src bc s0)
      = Ok true (slow_at tm tgt src' bc' s0)
      /\ 8 * src' - bc' = 8 * src - bc
      /\ src <= src' <= send s0
      /\ n <= bc' /\ bc <= bc' <= 63.
Proof.
  intros Hn; induction F as [ | F IH ]; intros src bc HF Hfuel Hsrc Hbc Hp Hav;
    [ lia | ].
  cbn [tryreadbits]. rewrite bind_gets. fields.
  destruct (bc <? n) eqn:E.
  - apply Z.ltb_lt in E.
    rewrite bind_gets, bind_gets. fields.
    replace (send s0 <=? src) with false by (symmetry; apply Z.leb_gt; lia).
    destruct (nthZ_some (smem s0) src ltac:(lia)) as (b & Hb).
    pose proof (nthZ_byte _ _ _ Hbytes Hb) as Hbb; unfold is_byte in Hbb.
    unfold nextbyte.
    rewrite bind_assoc, (bind_geto _ b) by (fields; exact Hb).
    rewrite bind_assoc, bind_modify, bind_ret. fields.
    assert (H2 : 2 ^ bc <= 2 ^ 55) by (apply pow2_le_mono; lia).
    rewrite (bind_lift _ (Z.shiftl b bc))
      by (apply shl64_some; try lia;
          change (2 ^ 64) with (512 * 2 ^ 55); nia).
    rewrite bind_modify, bind_modify. fields.
    rewrite (bits_at_push _ _ _ _ Hbytes Hb) by lia.
    rewrite uxx_small by (change (2 ^ 64) with 18446744073709551616; lia).
    destruct (IH (src + 1) (bc + 8)) as (src' & bc' & Hrun & Hp' & Hs' & Hn' & Hb');
      try lia.
    exists src', bc'. repeat split; try lia.
    rewrite <- Hrun. f_equal.
    unfold slow_at, with_reservoir; fields.
    replace (8 * (src + 1) - (bc + 8)) with (8 * src - bc) by lia.
    reflexivity.
  - apply Z.ltb_ge in E. exists src, bc. repeat split; try lia.
Qed.

Lemma getbits_slow tm tgt src bc n :
  0 <= n < 64 -> 0 <= bc -> 0 <= 8 * src - bc ->
  getbits n (slow_at tm tgt src bc s0)
  = Ok (bits_at (smem s0) (8 * src - bc) (Z.min n bc))
       (slow_at tm tgt src bc s0).
Proof.
  intros Hn Hbc Hp. unfold getbits.
  rewrite bind_gets. fields.
  rewrite (bind_lift _ (2 ^ n)) by (apply shl64_one; lia).
  rewrite land_mask by lia. unfold ret. f_equal.
  destruct (Z_le_gt_dec n bc) as [Hle | Hgt].
  - rewrite Z.min_l by lia. apply bits_at_low; lia.
  - rewrite Z.min_r by lia.
    pose proof (bits_at_range (smem s0) (8 * src - bc) bc Hbc).
    assert (2 ^ bc <= 2 ^ n) by (apply pow2_le_mono; lia).
    apply Z.mod_small; lia.
Qed.

Lemma dropbits_slow tm tgt src bc n :
  0 <= n <= bc -> bc <= 63 -> 0 <= 8 * src - bc ->
  dropbits n (slow_at tm tgt src bc s0)
  = Ok tt (slow_at tm tgt src (bc - n) s0).
Proof.
  intros Hn Hbc Hp. unfold dropbits.
  rewrite bind_gets. fields.
  rewrite (bind_lift _ _ _ _ (shr64_some _ n ltac:(lia))), bind_modify.
  unfold modify. fields.
  rewrite bits_at_drop by lia.
  rewrite uxx_small by (change (2 ^ 64) with 18446744073709551616; lia).
  unfold slow_at, with_reservoir; fields.
  replace (8 * src - (bc - n)) with (8 * src - bc + n) by lia.
  reflexivity.
Qed.

End Slow.

(** ** The tables *)

Lemma range_in n i : In i (range n) <-> 0 <= i < n.
Proof.
  unfold range; rewrite in_map_iff; split.
  - intros (k & <- & Hk). apply in_seq in Hk. lia.
  - intros Hi. exists (Z.to_nat i); split; [ lia | apply in_seq; lia ].
Qed.

Lemma entry_eqb_eq a b : entry_eqb a b = true -> a = b.
Proof.
  unfold entry_eqb; intros H.
  apply andb_true_iff in H; destruct H as [H H3].
  apply andb_true_iff in H; destruct H as [H1 H2].
  apply Z.eqb_eq in H1, H2, H3.
  destruct a, b; cbn in *; congruence.
Qed.

Lemma table_at_slow s0 tm tgt src bc p i :
  table_at (slow_at tm tgt src bc s0) p i = table_at s0 p i.
Proof. destruct p; reflexivity. Qed.

Lemma table_at_fast s0 tm p i :
  table_at (set_tmem tm s0) p i = table_at s0 p i.
Proof. destruct p; reflexivity. Qed.

Lemma leaf_length mode e : leaf_ok mode e = true -> 0 <= TEntry.length e <= 15.
Proof.
  unfold leaf_ok; intros H.
  apply andb_true_iff in H; destruct H as [H _].
  apply andb_true_iff in H; destruct H as [H1 H2].
  apply Z.leb_le in H1, H2. lia.
Qed.

Lemma leaf_not_subtable mode e :
  mode = LTABLEMODE \/ mode = DTABLEMODE ->
  leaf_ok mode e = true -> TEntry.etag e <> SUBTABLEENTRY.
Proof.
  unfold leaf_ok, length_entry_ok, distance_entry_ok; intros Hm H Hs.
  apply andb_true_iff in H; destruct H as [_ H]. rewrite Hs in H.
  destruct Hm as [ -> | -> ]; vm_compute in H; discriminate.
Qed.

Section Table.

Variable s0 : TInflator.
Variable tbl : TInflator -> TablePtr.
Variables mode root : Z.
Hypothesis Hroot : 0 <= root <= 15.
Hypothesis Hok : table_ok s0 tbl mode root.

Lemma root_entry i :
  0 <= i < 2 ^ root ->
  exists e, table_at s0 (tbl s0) i = Some e
            /\ root_ok s0 tbl mode root i = true.
Proof.
  intros Hi. unfold table_ok in Hok. rewrite forallb_forall in Hok.
  specialize (Hok i (proj2 (range_in _ _) Hi)).
  unfold root_ok in Hok |- *.
  destruct (table_at s0 (tbl s0) i) as [ e | ]; [ | discriminate ].
  exists e; split; [ reflexivity | exact Hok ].
Qed.

(** A root entry that links to a subtable. *)
Lemma root_subtable i e :
  0 <= i < 2 ^ root ->
  table_at s0 (tbl s0) i = Some e -> TEntry.etag e = SUBTABLEENTRY ->
  root < TEntry.length e <= 15 /\ 0 <= TEntry.info e
  /\ forall m, 0 <= m < 2 ^ (TEntry.length e - root) ->
       exists e', table_at s0 (tbl s0) (TEntry.info e + m) = Some e'
                  /\ leaf_ok mode e' = true.
Proof.
  intros Hi He Ht.
  destruct (root_entry i Hi) as (e0 & He0 & Hr).
  rewrite He in He0; injection He0 as <-.
  unfold root_ok in Hr. rewrite He, Ht, Z.eqb_refl in Hr.
  apply andb_true_iff in Hr; destruct Hr as [Hr Hall].
  apply andb_true_iff in Hr; destruct Hr as [Hr H3].
  apply andb_true_iff in Hr; destruct Hr as [H1 H2].
  apply Z.ltb_lt in H1. apply Z.leb_le in H2, H3.
  repeat split; try lia.
  intros m Hm. rewrite forallb_forall in Hall.
  specialize (Hall m (proj2 (range_in _ _) Hm)).
  destruct (table_at s0 (tbl s0) (TEntry.info e + m)) as [ e' | ];
    [ | discriminate ].
  exists e'; split; [ reflexivity | exact Hall ].
Qed.

(** A root entry that ends the lookup. *)
Lemma root_leaf i e :
  0 <= i < 2 ^ root ->
  table_at s0 (tbl s0) i = Some e -> TEntry.etag e <> SUBTABLEENTRY ->
  leaf_ok mode e = true
  /\ (TEntry.length e <= root ->
      forall m, 0 <= m < 2 ^ (root - TEntry.length e) ->
        table_at s0 (tbl s0)
          (i mod 2 ^ TEntry.length e + m * 2 ^ TEntry.length e) = Some e).
Proof.
  intros Hi He Ht.
  destruct (root_entry i Hi) as (e0 & He0 & Hr).
  rewrite He in He0; injection He0 as <-.
  unfold root_ok in Hr. rewrite He in Hr.
  replace (TEntry.etag e =? SUBTABLEENTRY) with false in Hr
    by (symmetry; apply Z.eqb_neq; exact Ht).
  apply andb_true_iff in Hr; destruct Hr as [Hl Hc].
  split; [ exact Hl | ].
  intros Hlen m Hm.
  apply orb_true_iff in Hc; destruct Hc as [Hc | Hc];
    [ apply Z.ltb_lt in Hc; lia | ].
  rewrite forallb_forall in Hc.
  specialize (Hc m (proj2 (range_in _ _) Hm)).
  destruct (table_at s0 (tbl s0)
              (i mod 2 ^ TEntry.length e + m * 2 ^ TEntry.length e))
    as [ e' | ]; [ | discriminate ].
  apply entry_eqb_eq in Hc; congruence.
Qed.

Lemma root_length i e :
  mode = LTABLEMODE \/ mode = DTABLEMODE ->
  0 <= i < 2 ^ root ->
  table_at s0 (tbl s0) i = Some e -> 0 <= TEntry.length e <= 15.
Proof.
  intros Hm Hi He.
  destruct (Z.eq_dec (TEntry.etag e) SUBTABLEENTRY) as [Ht | Ht].
  - destruct (root_subtable i e Hi He Ht) as (H & _). lia.
  - destruct (root_leaf i e Hi He Ht) as (H & _).
    apply (leaf_length mode); exact H.
Qed.

End Table.

(** ** The table lookups of the slow path *)

Section SlowEntry.

Variable s0 : TInflator.
Hypothesis Hbytes : Forall is_byte (smem s0).
Hypothesis Hsend : send s0 <= Z.of_nat (length (smem s0)).
Variable tbl : TInflator -> TablePtr.
Hypothesis Htbl : forall tm tgt src bc, tbl (slow_at tm tgt src bc s0) = tbl s0.

(** The loop that reads an entry ends with the entry [e] when every entry
    it may meet on the way is at most 15 bits long and is [e] once its
    bits are in the buffer. *)
Lemma fetch_entry_slow tm tgt base bits shift p lo e :
  0 <= bits < 64 -> 0 <= p -> p + 15 <= 8 * send s0 -> 0 <= lo ->
  (forall b, lo <= b ->
     exists e', table_at s0 (tbl s0)
                  (base + Z.shiftr (bits_at (smem s0) p (Z.min bits b)) shift)
                = Some e' /\ TEntry.length e' <= 15) ->
  (forall b e', lo <= b ->
     table_at s0 (tbl s0)
       (base + Z.shiftr (bits_at (smem s0) p (Z.min bits b)) shift) = Some e' ->
     TEntry.length e' <= b -> e' = e) ->
  forall F src bc,
    (1 <= F)%nat -> 15 - bc <= 8 * (Z.of_nat F - 1) ->
    0 <= src <= send s0 -> lo <= bc <= 63 -> 8 * src - bc = p ->
    exists src' bc',
      fetch_entry F tbl base bits shift (slow_at tm tgt src bc s0)
      = Ok (Some e) (slow_at tm tgt src' bc' s0)
      /\ 8 * src' - bc' = p
      /\ src <= src' <= send s0
      /\ TEntry.length e <= bc' /\ bc <= bc' <= 63.
Proof.
  intros Hbits Hp Hav Hlo Hin Huniq.
  induction F as [ | F IH ]; intros src bc HF Hfuel Hsrc Hbc Hpos; [ lia | ].
  cbn [fetch_entry].
  rewrite (bind_ok _ _ _ _ _ (getbits_slow s0 tm tgt src bc bits Hbits
                                ltac:(lia) ltac:(lia))).
  rewrite Hpos.
  destruct (Hin bc ltac:(lia)) as (e' & He' & Hlen).
  unfold lookup. rewrite (bind_geto _ e')
    by (rewrite table_at_slow, Htbl; exact He').
  rewrite bind_gets. fields.
  destruct (TEntry.length e' <=? bc) eqn:E.
  - apply Z.leb_le in E.
    rewrite (Huniq bc e' ltac:(lia) He' E).
    exists src, bc. repeat split; try lia.
    rewrite <- (Huniq bc e' ltac:(lia) He' E). exact E.
  - apply Z.leb_gt in E.
    rewrite (bind_ok _ _ _ _ _ (fetchbyte_slow s0 Hbytes Hsend tm tgt src bc
                                  ltac:(lia) ltac:(lia) ltac:(lia))).
    destruct (IH (src + 1) (bc + 8)) as (src' & bc' & Hrun & Hp' & Hs' & Hl' & Hb');
      try lia.
    exists src', bc'. repeat split; try lia. exact Hrun.
Qed.

Variables mode root : Z.
Hypothesis Hmode : mode = LTABLEMODE \/ mode = DTABLEMODE.
Hypothesis Hroot : 0 <= root <= 15.
Hypothesis Hok : table_ok s0 tbl mode root.

(** The root entry of the code at the position [p]. *)
Lemma slow_root_entry tm tgt p F src bc :
  0 <= p -> p + 15 <= 8 * send s0 ->
  (3 <= F)%nat -> 0 <= src <= send s0 -> 0 <= bc <= 63 -> 8 * src - bc = p ->
  exists e src' bc',
    table_at s0 (tbl s0) (bits_at (smem s0) p root) = Some e
    /\ fetch_entry F tbl 0 root 0 (slow_at tm tgt src bc s0)
       = Ok (Some e) (slow_at tm tgt src' bc' s0)
    /\ 8 * src' - bc' = p
    /\ src <= src' <= send s0
    /\ TEntry.length e <= bc' /\ bc <= bc' <= 63.
Proof.
  intros Hp Hav HF Hsrc Hbc Hpos.
  destruct (root_entry s0 tbl mode root Hok (bits_at (smem s0) p root))
    as (e & He & _); [ apply bits_at_range; lia | ].
  exists e.
  destruct (fetch_entry_slow tm tgt 0 root 0 p 0 e) with (F := F) (src := src) (bc := bc)
    as (src' & bc' & Hrun); try lia.
  - intros b Hb. rewrite Z.shiftr_0_r, Z.add_0_l.
    assert (Hi : 0 <= bits_at (smem s0) p (Z.min root b) < 2 ^ root).
    { pose proof (bits_at_range (smem s0) p (Z.min root b) ltac:(lia)).
      assert (2 ^ Z.min root b <= 2 ^ root) by (apply pow2_le_mono; lia).
      lia. }
    destruct (root_entry s0 tbl mode root Hok _ Hi) as (e' & He' & _).
    exists e'; split; [ exact He' | ].
    apply (root_length s0 tbl mode root Hroot Hok _ e' Hmode Hi He').
  - intros b e' Hb He' Hlen. rewrite Z.shiftr_0_r, Z.add_0_l in He'.
    destruct (Z_le_gt_dec root b) as [Hge | Hlt].
    + rewrite Z.min_l in He' by lia. congruence.
    + rewrite Z.min_r in He' by lia.
      assert (Hi : 0 <= bits_at (smem s0) p b < 2 ^ root).
      { pose proof (bits_at_range (smem s0) p b ltac:(lia)).
        assert (2 ^ b <= 2 ^ root) by (apply pow2_le_mono; lia).
        lia. }
      destruct (Z.eq_dec (TEntry.etag e') SUBTABLEENTRY) as [Ht | Ht].
      * destruct (root_subtable s0 tbl mode root Hok _ e' Hi He' Ht) as (H & _).
        lia.
      * destruct (root_leaf s0 tbl mode root Hok _ e' Hi He' Ht) as (Hl & Hc).
        pose proof (leaf_length mode e' Hl) as Hl'.
        specialize (Hc ltac:(lia)
                      (bits_at (smem s0) (p + TEntry.length e')
                         (root - TEntry.length e'))
                      (bits_at_range (smem s0) (p + TEntry.length e')
                         (root - TEntry.length e') ltac:(lia))).
        rewrite bits_at_low in Hc by lia.
        replace (bits_at (smem s0) p (TEntry.length e')
                 + bits_at (smem s0) (p + TEntry.length e')
                     (root - TEntry.length e') * 2 ^ TEntry.length e')
          with (bits_at (smem s0) p root) in Hc.
        { congruence. }
        replace root with (TEntry.length e' + (root - TEntry.length e')) at 1
          by lia.
        rewrite bits_at_split by lia. lia.
  - exists src', bc'. split; [ exact He | exact Hrun ].
Qed.

(** The entry of the subtable a root entry links to. *)
Lemma slow_sub_entry tm tgt p e F src bc :
  0 <= p -> p + 15 <= 8 * send s0 ->
  table_at s0 (tbl s0) (bits_at (smem s0) p root) = Some e ->
  TEntry.etag e = SUBTABLEENTRY ->
  (3 <= F)%nat -> 0 <= src <= send s0 ->
  TEntry.length e <= bc <= 63 -> 8 * src - bc = p ->
  exists e' src' bc',
    table_at s0 (tbl s0)
      (TEntry.info e
       + Z.shiftr (bits_at (smem s0) p (TEntry.length e)) root) = Some e'
    /\ leaf_ok mode e' = true
    /\ fetch_entry F tbl (TEntry.info e) (TEntry.length e) root
         (slow_at tm tgt src bc s0)
       = Ok (Some e') (slow_at tm tgt src' bc' s0)
    /\ 8 * src' - bc' = p
    /\ src <= src' <= send s0
    /\ TEntry.length e' <= bc' /\ bc <= bc' <= 63.
Proof.
  intros Hp Hav He Ht HF Hsrc Hbc Hpos.
  destruct (root_subtable s0 tbl mode root Hok _ e
              (bits_at_range (smem s0) p root ltac:(lia)) He Ht)
    as (Hlen & Hinfo & Hsub).
  assert (Hm : 0 <= Z.shiftr (bits_at (smem s0) p (TEntry.length e)) root
               < 2 ^ (TEntry.length e - root)).
  { rewrite Z.shiftr_div_pow2, bits_at_drop by lia.
    apply bits_at_range; lia. }
  destruct (Hsub _ Hm) as (e' & He' & Hl').
  exists e'.
  destruct (fetch_entry_slow tm tgt (TEntry.info e) (TEntry.length e) root p
              (TEntry.length e) e')
    with (F := F) (src := src) (bc := bc)
    as (src' & bc' & Hrun); try lia.
  - intros b Hb. rewrite Z.min_l by lia.
    exists e'; split; [ exact He' | ].
    apply (leaf_length mode e' Hl').
  - intros b e2 Hb He2 _. rewrite Z.min_l in He2 by lia. congruence.
  - exists src', bc'. split; [ exact He' | split; [ exact Hl' | exact Hrun ] ].
Qed.

(** The two loops of a lookup of the slow path find the entry of the
    code. *)
Lemma slow_entry_at tm tgt F src bc :
  0 <= 8 * src - bc -> 8 * src - bc + 15 <= 8 * send s0 ->
  (3 <= F)%nat -> 0 <= src <= send s0 -> 0 <= bc <= 63 ->
  exists e1 e src1 bc1 src' bc',
    fetch_entry F tbl 0 root 0 (slow_at tm tgt src bc s0)
    = Ok (Some e1) (slow_at tm tgt src1 bc1 s0)
    /\ (if TEntry.etag e1 =? SUBTABLEENTRY
        then fetch_entry F tbl (TEntry.info e1) (TEntry.length e1) root
        else ret (Some e1)) (slow_at tm tgt src1 bc1 s0)
       = Ok (Some e) (slow_at tm tgt src' bc' s0)
    /\ entry_at s0 tbl root (8 * src - bc) = Some e
    /\ leaf_ok mode e = true
    /\ 8 * src' - bc' = 8 * src - bc
    /\ src <= src' <= send s0
    /\ TEntry.length e <= bc' /\ bc <= bc' <= 63.
Proof.
  intros Hp Hav HF Hsrc Hbc.
  destruct (slow_root_entry tm tgt (8 * src - bc) F src bc)
    as (e1 & src1 & bc1 & He1 & Hrun1 & Hp1 & Hs1 & Hl1 & Hb1); try lia.
  exists e1. unfold entry_at. rewrite He1.
  destruct (TEntry.etag e1 =? SUBTABLEENTRY) eqn:Et.
  - apply Z.eqb_eq in Et.
    destruct (slow_sub_entry tm tgt (8 * src - bc) e1 F src1 bc1)
      as (e & src' & bc' & He & Hl & Hrun & Hp' & Hs' & Hl' & Hb'); try lia;
      try assumption.
    exists e, src1, bc1, src', bc'. repeat split; try assumption; lia.
  - apply Z.eqb_neq in Et.
    destruct (root_leaf s0 tbl mode root Hok _ e1
                (bits_at_range (smem s0) (8 * src - bc) root ltac:(lia))
                He1 Et) as (Hl & _).
    exists e1, src1, bc1, src1, bc1. repeat split; try assumption; lia.
Qed.

End SlowEntry.

(** ** The bit input and the table lookups of the fast path *)

Section Fast.

Variable s0 : TInflator.
Hypothesis Hbytes : Forall is_byte (smem s0).
Hypothesis Hsend : send s0 <= Z.of_nat (length (smem s0)).

Lemma fillbb_fast tm src tgt bc :
  0 <= src -> src + 6 <= send s0 -> 0 <= bc <= 15 -> 0 <= 8 * src - bc ->
  fillbb (fast_at src tgt bc s0) (set_tmem tm s0)
  = Ok (fast_at (src + 6) tgt (bc + 48) s0) (set_tmem tm s0).
Proof.
  intros Hsrc Hav Hbc Hp. unfold fillbb. fields.
  destruct (nthZ_some (smem s0) (src + 0) ltac:(lia)) as (b0 & H0).
  destruct (nthZ_some (smem s0) (src + 1) ltac:(lia)) as (b1 & H1).
  destruct (nthZ_some (smem s0) (src + 2) ltac:(lia)) as (b2 & H2).
  destruct (nthZ_some (smem s0) (src + 3) ltac:(lia)) as (b3 & H3).
  destruct (nthZ_some (smem s0) (src + 4) ltac:(lia)) as (b4 & H4).
  destruct (nthZ_some (smem s0) (src + 5) ltac:(lia)) as (b5 & H5).
  rewrite (bind_geto _ b0) by (fields; exact H0).
  rewrite (bind_geto _ b1) by (fields; exact H1).
  rewrite (bind_geto _ b2) by (fields; exact H2).
  rewrite (bind_geto _ b3) by (fields; exact H3).
  rewrite (bind_geto _ b4) by (fields; exact H4).
  rewrite (bind_geto _ b5) by (fields; exact H5).
  rewrite (bits_at_6_bytes (smem s0) src b0 b1 b2 b3 b4 b5) by (auto; lia).
  pose proof (bits_at_range (smem s0) (8 * src) 48 ltac:(lia)) as H48.
  assert (H2bc : 0 < 2 ^ bc <= 2 ^ 15)
    by (split; [ apply Z.pow_pos_nonneg; lia | apply pow2_le_mono; lia ]).
  rewrite (bind_lift _ (Z.shiftl (bits_at (smem s0) (8 * src) 48) bc))
    by (apply shl64_some; try lia;
        change (2 ^ 64) with (2 ^ 48 * (2 * 2 ^ 15)); nia).
  unfold ret, fast_at. f_equal. f_equal.
  - rewrite lor_shiftl_add by (try lia; apply bits_at_range; lia).
    replace (8 * (src + 6) - (bc + 48)) with (8 * src - bc) by lia.
    rewrite (bits_at_split _ _ bc 48) by lia.
    replace (8 * src - bc + bc) with (8 * src) by lia. lia.
  - apply uxx_small. change (2 ^ 64) with 18446744073709551616; lia.
Qed.

(** The refill before a read of up to [t] bits. *)
Lemma refill_fast tm src tgt bc t :
  t <= 15 -> 0 <= src <= send s0 -> 0 <= bc <= 63 -> 0 <= 8 * src - bc ->
  8 * src - bc + 62 <= 8 * send s0 ->
  exists src' bc',
    (if bc <? t then fillbb (fast_at src tgt bc s0)
     else ret (fast_at src tgt bc s0)) (set_tmem tm s0)
    = Ok (fast_at src' tgt bc' s0) (set_tmem tm s0)
    /\ 8 * src' - bc' = 8 * src - bc
    /\ src <= src' <= send s0
    /\ t <= bc' /\ bc <= bc' <= 63.
Proof.
  intros Ht Hsrc Hbc Hp Hav.
  destruct (bc <? t) eqn:E.
  - apply Z.ltb_lt in E. exists (src + 6), (bc + 48).
    split; [ apply fillbb_fast; lia | lia ].
  - apply Z.ltb_ge in E. exists src, bc. split; [ reflexivity | lia ].
Qed.

Lemma GETBITS_fast tm src bc n :
  0 <= n <= bc -> n < 64 -> 0 <= 8 * src - bc ->
  GETBITS (bits_at (smem s0) (8 * src - bc) bc) n (set_tmem tm s0)
  = Ok (bits_at (smem s0) (8 * src - bc) n) (set_tmem tm s0).
Proof.
  intros Hn Hn' Hp. unfold GETBITS.
  rewrite (bind_lift _ (2 ^ n)) by (apply shl64_one; lia).
  rewrite land_mask by lia. unfold ret. f_equal.
  apply bits_at_low; lia.
Qed.

Lemma DROPBITS_fast tm src tgt bc n :
  0 <= n <= bc -> bc <= 63 -> 0 <= 8 * src - bc ->
  DROPBITS (fast_at src tgt bc s0) n (set_tmem tm s0)
  = Ok (fast_at src tgt (bc - n) s0) (set_tmem tm s0).
Proof.
  intros Hn Hbc Hp. unfold DROPBITS. fields.
  rewrite (bind_lift _ _ _ _ (shr64_some _ n ltac:(lia))).
  unfold ret, fast_at. f_equal. f_equal.
  - rewrite bits_at_drop by lia.
    replace (8 * src - (bc - n)) with (8 * src - bc + n) by lia.
    reflexivity.
  - apply uxx_small. change (2 ^ 64) with 18446744073709551616; lia.
Qed.

Variable tbl : TInflator -> TablePtr.
Hypothesis Htbl : forall tm, tbl (set_tmem tm s0) = tbl s0.
Variables mode root : Z.
Hypothesis Hmode : mode = LTABLEMODE \/ mode = DTABLEMODE.
Hypothesis Hroot : 0 <= root <= 15.
Hypothesis Hok : table_ok s0 tbl mode root.

(** The lookup of the fast path finds the entry of the code. *)
Lemma fast_entry_at tm src tgt bc :
  15 <= bc <= 63 -> 0 <= 8 * src - bc ->
  exists e,
    entry_at s0 tbl root (8 * src - bc) = Some e
    /\ leaf_ok mode e = true
    /\ fast_entry tbl root (fast_at src tgt bc s0) (set_tmem tm s0)
       = Ok e (set_tmem tm s0).
Proof.
  intros Hbc Hp. unfold fast_entry, entry_at. fields.
  rewrite (bind_ok _ _ _ _ _ (GETBITS_fast tm src bc root ltac:(lia)
                                ltac:(lia) Hp)).
  destruct (root_entry s0 tbl mode root Hok
              (bits_at (smem s0) (8 * src - bc) root))
    as (e & He & _); [ apply bits_at_range; lia | ].
  unfold lookup at 1.
  rewrite (bind_geto _ e) by (rewrite table_at_fast, Htbl; exact He).
  rewrite He.
  destruct (TEntry.etag e =? SUBTABLEENTRY) eqn:Et.
  - apply Z.eqb_eq in Et.
    destruct (root_subtable s0 tbl mode root Hok _ e
                (bits_at_range (smem s0) (8 * src - bc) root ltac:(lia))
                He Et) as (Hlen & Hinfo & Hsub).
    rewrite (bind_ok _ _ _ _ _ (GETBITS_fast tm src bc (TEntry.length e)
                                  ltac:(lia) ltac:(lia) Hp)).
    assert (Hm : 0 <= Z.shiftr (bits_at (smem s0) (8 * src - bc)
                                  (TEntry.length e)) root
                 < 2 ^ (TEntry.length e - root)).
    { rewrite Z.shiftr_div_pow2, bits_at_drop by lia.
      apply bits_at_range; lia. }
    destruct (Hsub _ Hm) as (e' & He' & Hl').
    exists e'. split; [ exact He' | split; [ exact Hl' | ] ].
    unfold lookup, geto. rewrite table_at_fast, Htbl, He'. reflexivity.
  - apply Z.eqb_neq in Et.
    destruct (root_leaf s0 tbl mode root Hok _ e
                (bits_at_range (smem s0) (8 * src - bc) root ltac:(lia))
                He Et) as (Hl & _).
    exists e. split; [ reflexivity | split; [ exact Hl | reflexivity ] ].
Qed.

End Fast.

(** * The copies of a match *)

Lemma updZ_inv {A} (l l' : list A) i x :
  updZ l i x = Some l' ->
  0 <= i < Z.of_nat (length l)
  /\ l' = firstn (Z.to_nat i) l ++ x :: skipn (S (Z.to_nat i)) l.
Proof.
  unfold updZ. destruct ((0 <=? i) && (i <? Z.of_nat (length l))) eqn:E;
    [ | discriminate ].
  apply andb_true_iff in E; destruct E as [E1 E2].
  apply Z.leb_le in E1; apply Z.ltb_lt in E2.
  intros H; injection H as <-. split; [ lia | reflexivity ].
Qed.

Lemma updZ_length {A} (l l' : list A) i x :
  updZ l i x = Some l' -> length l' = length l.
Proof.
  intros H; apply updZ_inv in H; destruct H as (Hi & ->).
  rewrite length_app, length_firstn; cbn [length]. rewrite length_skipn. lia.
Qed.

Lemma updZ_below {A} (l l' : list A) i x n :
  updZ l i x = Some l' -> n <= i ->
  firstn (Z.to_nat n) l' = firstn (Z.to_nat n) l.
Proof.
  intros H Hn; apply updZ_inv in H; destruct H as (Hi & ->).
  rewrite firstn_app, firstn_firstn.
  rewrite length_firstn.
  replace (Z.to_nat n - Nat.min (Z.to_nat i) (length l))%nat with 0%nat by lia.
  cbn [firstn]. rewrite app_nil_r. f_equal. lia.
Qed.

Lemma same_upto_refl n tm : same_upto n tm tm.
Proof. split; reflexivity. Qed.

Lemma same_upto_sym n tm1 tm2 : same_upto n tm1 tm2 -> same_upto n tm2 tm1.
Proof. intros [H1 H2]; split; auto. Qed.

Lemma same_upto_trans n tm1 tm2 tm3 :
  same_upto n tm1 tm2 -> same_upto n tm2 tm3 -> same_upto n tm1 tm3.
Proof. intros [H1 H2] [H3 H4]; split; congruence. Qed.

Lemma same_upto_le n m tm1 tm2 :
  m <= n -> same_upto n tm1 tm2 -> same_upto m tm1 tm2.
Proof.
  intros Hm [H1 H2]; split; [ exact H1 | ].
  replace (Z.to_nat m) with (Nat.min (Z.to_nat m) (Z.to_nat n)) by lia.
  rewrite <- !firstn_firstn. f_equal. exact H2.
Qed.

Lemma same_upto_nth n tm1 tm2 i :
  same_upto n tm1 tm2 -> 0 <= i < n -> nthZ tm1 i = nthZ tm2 i.
Proof.
  intros [H1 H2] Hi. unfold nthZ.
  replace (i <? 0) with false by (symmetry; apply Z.ltb_ge; lia).
  assert (Hf : forall tm : list Z,
            nth_error tm (Z.to_nat i)
            = nth_error (firstn (Z.to_nat n) tm) (Z.to_nat i)).
  { intros tm. rewrite nth_error_firstn.
    replace (Z.to_nat i <? Z.to_nat n)%nat with true
      by (symmetry; apply Nat.ltb_lt; lia).
    reflexivity. }
  rewrite (Hf tm1), (Hf tm2), H2. reflexivity.
Qed.

Lemma same_upto_upd n tm1 tm2 tm1' x :
  same_upto n tm1 tm2 -> 0 <= n -> updZ tm1 n x = Some tm1' ->
  exists tm2', updZ tm2 n x = Some tm2' /\ same_upto (n + 1) tm1' tm2'.
Proof.
  intros [H1 H2] Hn Hu. apply updZ_inv in Hu. destruct Hu as (Hi & ->).
  rewrite updZ_some by lia. eexists; split; [ reflexivity | ].
  split.
  - rewrite !upd_length by lia. exact H1.
  - replace (Z.to_nat (n + 1)) with (length (firstn (Z.to_nat n) tm1) + 1)%nat
      by (rewrite length_firstn; lia).
    rewrite firstn_app_2.
    replace (length (firstn (Z.to_nat n) tm1))
      with (length (firstn (Z.to_nat n) tm2)) by (rewrite H2; reflexivity).
    rewrite firstn_app_2. cbn [firstn]. rewrite H2. reflexivity.
Qed.

(** ** Runs of bytes *)

Lemma copy_run_length k win iw : forall buf tm tgt tm',
  copy_run k win iw buf tm tgt = Some tm' -> length tm' = length tm.
Proof.
  induction k as [ | k IH ]; intros buf tm tgt tm' H; cbn [copy_run] in H.
  - congruence.
  - destruct (if iw then _ else _) as [ b | ]; [ | discriminate ].
    cbn [obind] in H.
    destruct (updZ tm tgt b) as [ tm1 | ] eqn:Hu; [ | discriminate ].
    cbn [obind] in H. rewrite (IH _ _ _ _ H). eapply updZ_length; exact Hu.
Qed.

(** A run writes nothing below its target. *)
Lemma copy_run_below k win iw : forall buf tm tgt tm' n,
  copy_run k win iw buf tm tgt = Some tm' -> n <= tgt ->
  firstn (Z.to_nat n) tm' = firstn (Z.to_nat n) tm.
Proof.
  induction k as [ | k IH ]; intros buf tm tgt tm' n H Hn; cbn [copy_run] in H.
  - congruence.
  - destruct (if iw then _ else _) as [ b | ]; [ | discriminate ].
    cbn [obind] in H.
    destruct (updZ tm tgt b) as [ tm1 | ] eqn:Hu; [ | discriminate ].
    cbn [obind] in H. rewrite (IH _ _ _ _ n H) by lia.
    eapply updZ_below; [ exact Hu | exact Hn ].
Qed.

(** A run of [a + b] bytes is a run of [a] bytes and a run of [b]. *)
Lemma copy_run_app a b win iw : forall buf tm tgt,
  copy_run (a + b) win iw buf tm tgt
  = obind (copy_run a win iw buf tm tgt)
      (fun tm1 => copy_run b win iw (buf + Z.of_nat a) tm1 (tgt + Z.of_nat a)).
Proof.
  induction a as [ | a IH ]; intros buf tm tgt.
  - cbn [copy_run obind Nat.add]. rewrite !Z.add_0_r. reflexivity.
  - cbn [copy_run Nat.add].
    destruct (if iw then _ else _) as [ x | ]; [ | reflexivity ].
    cbn [obind].
    destruct (updZ tm tgt x) as [ tm1 | ]; [ | reflexivity ].
    cbn [obind]. rewrite IH.
    replace (buf + 1 + Z.of_nat a) with (buf + Z.of_nat (S a)) by lia.
    replace (tgt + 1 + Z.of_nat a) with (tgt + Z.of_nat (S a)) by lia.
    reflexivity.
Qed.

(** A run on two arrays that agree below the target gives arrays that
    agree below the end of the run: the bytes come from the window or from
    below the target. *)
Lemma copy_run_same k win iw : forall buf tm1 tm2 tgt tm1',
  same_upto tgt tm1 tm2 -> 0 <= tgt ->
  (iw = true \/ 0 <= buf < tgt) ->
  copy_run k win iw buf tm1 tgt = Some tm1' ->
  exists tm2',
    copy_run k win iw buf tm2 tgt = Some tm2'
    /\ same_upto (tgt + Z.of_nat k) tm1' tm2'.
Proof.
  induction k as [ | k IH ]; intros buf tm1 tm2 tgt tm1' Hs Ht Hb H;
    cbn [copy_run] in H |- *.
  - injection H as <-. exists tm2; split; [ reflexivity | ].
    rewrite Z.add_0_r; exact Hs.
  - assert (Hrd : (if iw then obind win (fun w => nthZ w buf) else nthZ tm2 buf)
                  = (if iw then obind win (fun w => nthZ w buf) else nthZ tm1 buf)).
    { destruct iw; [ reflexivity | ].
      destruct Hb as [ Hb | Hb ]; [ discriminate | ].
      symmetry; apply (same_upto_nth tgt); assumption. }
    rewrite Hrd.
    destruct (if iw then _ else _) as [ b | ]; [ | discriminate ].
    cbn [obind] in H |- *.
    destruct (updZ tm1 tgt b) as [ tm1a | ] eqn:Hu; [ | discriminate ].
    cbn [obind] in H.
    destruct (same_upto_upd tgt tm1 tm2 tm1a b Hs Ht Hu) as (tm2a & Hu2 & Hs2).
    rewrite Hu2. cbn [obind].
    destruct (IH (buf + 1) tm1a tm2a (tgt + 1) tm1' Hs2 ltac:(lia)) as (tm2' & Hr & Hs');
      [ destruct Hb; [ left; assumption | right; lia ] | exact H | ].
    exists tm2'; split; [ exact Hr | ].
    replace (tgt + Z.of_nat (S k)) with (tgt + 1 + Z.of_nat k) by lia.
    exact Hs'.
Qed.

(** ** The copies of the fast path inside the target span *)

Section FastCopy.

Variable s0 : TInflator.

(** The loop of the fast path copies a whole number of steps, at least
    one, and stops at the first step that reaches the limit. *)
Lemma copy_until_run step :
  0 <= step ->
  forall f buf tgt lim tm tgt' s',
    copy_until f step buf tgt lim (set_tmem tm s0) = Ok tgt' s' ->
    exists (m : nat) tm',
      (1 <= m)%nat /\ tgt' = tgt + step * Z.of_nat m /\ lim <= tgt'
      /\ (m = 1%nat \/ tgt' - step < lim)
      /\ s' = set_tmem tm' s0
      /\ copy_run (Z.to_nat step * m) (window s0) false buf tm tgt = Some tm'.
Proof.
  intros Hstep. induction f as [ | f IH ]; intros buf tgt lim tm tgt' s' H;
    cbn [copy_until] in H; [ discriminate | ].
  apply bind_inv in H. destruct H as (tm1 & s1 & Hg & H).
  unfold geto in Hg. fields_in Hg.
  destruct (copy_run (Z.to_nat step) (window s0) false buf tm tgt)
    as [ tm1' | ] eqn:Hc; [ | discriminate ].
  injection Hg as <- <-.
  rewrite bind_modify in H. fields_in H.
  destruct (tgt + step <? lim) eqn:E.
  - apply Z.ltb_lt in E.
    apply IH in H. destruct H as (m & tm' & Hm & Ht & Hl & Hlast & Hs & Hr).
    exists (S m), tm'. repeat split; try lia; try assumption.
    replace (Z.to_nat step * S m)%nat with (Z.to_nat step + Z.to_nat step * m)%nat
      by lia.
    rewrite copy_run_app, Hc. cbn [obind].
    rewrite Z2Nat.id by lia. exact Hr.
  - apply Z.ltb_ge in E. injection H as <- <-.
    exists 1%nat, tm1'. repeat split; try lia.
    rewrite Nat.mul_1_r. exact Hc.
Qed.

(** A copy of at least [len] bytes inside the fast path's array, against
    the copy of [len] bytes in the slow path's array. *)
Lemma copy_run_longer K len buf tgt tmf tmf' tms :
  (Z.to_nat len <= K)%nat -> 0 <= len ->
  same_upto tgt tmf tms -> 0 <= buf < tgt ->
  copy_run K (window s0) false buf tmf tgt = Some tmf' ->
  exists tms',
    copy_run (Z.to_nat len) (window s0) false buf tms tgt = Some tms'
    /\ same_upto (tgt + len) tmf' tms'.
Proof.
  intros HK Hlen Hs Hb Hc.
  replace K with (Z.to_nat len + (K - Z.to_nat len))%nat in Hc by lia.
  rewrite copy_run_app in Hc.
  destruct (copy_run (Z.to_nat len) (window s0) false buf tmf tgt)
    as [ tmid | ] eqn:Hmid; [ | discriminate ].
  cbn [obind] in Hc. rewrite Z2Nat.id in Hc by lia.
  destruct (copy_run_same (Z.to_nat len) (window s0) false buf tmf tms tgt tmid Hs)
    as (tms' & Hr & Hs'); [ lia | right; exact Hb | exact Hmid | ].
  rewrite Z2Nat.id in Hs' by lia.
  exists tms'; split; [ exact Hr | ].
  apply (same_upto_trans _ _ tmid); [ | exact Hs' ].
  split.
  - apply (copy_run_length _ _ _ _ _ _ _ Hc).
  - apply (copy_run_below _ _ _ _ _ _ _ _ Hc). lia.
Qed.

End FastCopy.

(** ** The copies of the slow path *)

Lemma uxx_nonneg x : 0 <= uxx x.
Proof. unfold uxx; apply Z.mod_pos_bound; reflexivity. Qed.

Lemma match_source_inv s tgt d len iw buf mr :
  match_source s tgt d len = Some (iw, buf, mr) ->
  0 <= tbgn s <= tgt -> tgt < 2 ^ 64 -> 0 < len ->
  0 <= mr <= len
  /\ (iw = false -> buf = tgt - d /\ mr = len /\ d <= tgt - tbgn s).
Proof.
  unfold match_source. intros H Ht Ht' Hlen.
  rewrite (uxx_small (tgt - tbgn s)) in H by lia.
  destruct (tgt - tbgn s <? d) eqn:E.
  - destruct (count s <? uxx (d - (tgt - tbgn s))); [ discriminate | ].
    destruct (end_ s <? uxx (d - (tgt - tbgn s))).
    + injection H as <- <- <-.
      pose proof (uxx_nonneg (uxx (d - (tgt - tbgn s)) - end_ s)).
      split; [ | discriminate ].
      destruct (len <? _) eqn:E2; [ lia | apply Z.ltb_ge in E2; lia ].
    + injection H as <- <- <-.
      pose proof (uxx_nonneg (d - (tgt - tbgn s))).
      split; [ | discriminate ].
      destruct (len <? _) eqn:E2; [ lia | apply Z.ltb_ge in E2; lia ].
  - apply Z.ltb_ge in E. injection H as <- <- <-.
    split; [ lia | intros _; repeat split; lia ].
Qed.

Section SlowCopy.

Variable s0 : TInflator.
Variables src bc : Z.
Hypothesis Htend : tend s0 < 2 ^ 64.

Lemma copybytes_in_target tms tgt d len F tms' :
  0 <= tbgn s0 <= tgt -> tgt + len <= tend s0 -> 0 < len ->
  d <= tgt - tbgn s0 -> (1 <= F)%nat ->
  copy_run (Z.to_nat len) (window s0) false (tgt - d) tms tgt = Some tms' ->
  copybytes F d len (slow_at tms tgt src bc s0)
  = Ok 0 (slow_at tms' (tgt + len) src bc s0).
Proof.
  intros Ht Hend Hlen Hd HF Hc. unfold copybytes.
  rewrite bind_gets. fields.
  destruct F as [ | F ]; [ lia | ]. cbn [copybytes_loop].
  rewrite (uxx_small (tend s0 - tgt)) by lia.
  replace (tend s0 - tgt =? 0) with false by (symmetry; apply Z.eqb_neq; lia).
  rewrite bind_gets. unfold match_source. fields.
  rewrite (uxx_small (tgt - tbgn s0)) by lia.
  replace (tgt - tbgn s0 <? d) with false by (symmetry; apply Z.ltb_ge; lia).
  replace (tend s0 - tgt <? len) with false by (symmetry; apply Z.ltb_ge; lia).
  rewrite bind_gets. fields.
  unfold copy_maxrun.
  replace (len =? 0) with false by (symmetry; apply Z.eqb_neq; lia).
  rewrite bind_assoc, (bind_geto _ tms') by (fields; exact Hc).
  rewrite bind_modify, bind_modify. fields.
  rewrite Z.sub_diag. change (uxx 0) with 0. change (negb (0 =? 0)) with false.
  reflexivity.
Qed.

(** The copy of the fast path for a match that may start in the window,
    against the copy loop of the slow path: the same runs, as long as the
    target span has room for the match. *)
Lemma far_copy_same d :
  forall f F len tgt tmf tms avail o sf',
    (f <= F)%nat ->
    same_upto tgt tmf tms -> 0 <= tbgn s0 <= tgt ->
    0 < len <= avail -> tgt + avail <= tend s0 -> 1 <= d ->
    fast_far_copy f d len tgt (set_tmem tmf s0) = Ok o sf' ->
    match o with
    | None =>
        exists tms' tgt',
          copybytes_loop F d len avail (slow_at tms tgt src bc s0)
          = Ok INFLT_ERROR
              (set_error INFLT_EFAROFFSET (slow_at tms' tgt' src bc s0))
    | Some tgt' =>
        exists tmf' tms',
          sf' = set_tmem tmf' s0
          /\ copybytes_loop F d len avail (slow_at tms tgt src bc s0)
             = Ok 0 (slow_at tms' tgt' src bc s0)
          /\ same_upto tgt' tmf' tms' /\ tgt' = tgt + len
          /\ length tmf' = length tmf
    end.
Proof.
  induction f as [ | f IH ];
    intros F len tgt tmf tms avail o sf' HF Hs Ht Hlen Hav Hd H;
    cbn [fast_far_copy] in H; [ discriminate | ].
  destruct F as [ | F ]; [ lia | ]. cbn [copybytes_loop].
  replace (avail =? 0) with false by (symmetry; apply Z.eqb_neq; lia).
  rewrite bind_gets in H. rewrite bind_gets. fields.
  change (match_source (set_tmem tmf s0) tgt d len)
    with (match_source s0 tgt d len) in H.
  change (match_source (slow_at tms tgt src bc s0) tgt d len)
    with (match_source s0 tgt d len).
  destruct (match_source s0 tgt d len) as [ [[iw buf] mr] | ] eqn:Hms.
  - destruct (match_source_inv _ _ _ _ _ _ _ Hms Ht ltac:(lia) ltac:(lia))
      as (Hmr & Hin).
    replace (avail <? mr) with false by (symmetry; apply Z.ltb_ge; lia).
    rewrite bind_gets. fields.
    apply bind_inv in H. destruct H as ([] & s1 & Hcm & H).
    unfold copy_maxrun in Hcm |- *.
    destruct (mr =? 0) eqn:Emr; [ discriminate | ]. apply Z.eqb_neq in Emr.
    apply bind_inv in Hcm. destruct Hcm as (tmf1 & s2 & Hg & Hm).
    unfold geto in Hg. fields_in Hg.
    destruct (copy_run (Z.to_nat mr) (window s0) iw buf tmf tgt)
      as [ tmf1' | ] eqn:Hc; [ | discriminate ].
    injection Hg as <- <-. injection Hm as <-.
    destruct (copy_run_same (Z.to_nat mr) (window s0) iw buf tmf tms tgt tmf1' Hs)
      as (tms1 & Hc2 & Hs1);
      [ lia
      | destruct iw;
        [ left; reflexivity
        | right; destruct (Hin eq_refl) as (-> & _ & ?); lia ]
      | exact Hc | ].
    rewrite Z2Nat.id in Hs1 by lia.
    rewrite bind_assoc, (bind_geto _ tms1) by (fields; exact Hc2).
    rewrite bind_modify, bind_modify. fields.
    rewrite (uxx_small (len - mr)) in H |- * by lia.
    rewrite (uxx_small (avail - mr)) by lia.
    destruct (negb (len - mr =? 0)) eqn:E.
    + apply negb_true_iff, Z.eqb_neq in E.
      specialize (IH F (len - mr) (tgt + mr) tmf1' tms1 (avail - mr) o sf'
                    ltac:(lia) Hs1 ltac:(lia) ltac:(lia) ltac:(lia) Hd H).
      destruct o as [ tgt' | ].
      * destruct IH as (tmf' & tms' & Hsf & Hrun & Hs' & Htgt & Hl').
        exists tmf', tms'.
        split; [ exact Hsf | split; [ exact Hrun | split; [ exact Hs' | ] ] ].
        split; [ lia | ].
        rewrite Hl'. apply (copy_run_length _ _ _ _ _ _ _ Hc).
      * exact IH.
    + apply negb_false_iff, Z.eqb_eq in E.
      injection H as <- <-.
      exists tmf1', tms1.
      split; [ reflexivity | split; [ reflexivity | split; [ exact Hs1 | ] ] ].
      split; [ lia | apply (copy_run_length _ _ _ _ _ _ _ Hc) ].
  - injection H as <- <-.
    exists tms, tgt. reflexivity.
Qed.

End SlowCopy.

(** * One symbol on the two paths *)

(** A run [Hrun] of the first action of a hypothesis or of the goal. *)
Ltac run_in H Hrun :=
  lazymatch type of H with
  | bind ?m ?k ?s = ?R =>
      lazymatch type of Hrun with
      | _ = Ok ?a ?s' =>
          let H' := fresh in
          pose proof (eq_trans (eq_sym (bind_ok m k s a s' Hrun)) H) as H';
          clear H; rename H' into H; cbv beta zeta in H
      end
  end.

Ltac run Hrun :=
  lazymatch goal with
  | |- bind ?m ?k ?s = _ =>
      lazymatch type of Hrun with
      | _ = Ok ?a ?s' =>
          refine (eq_trans (bind_ok m k s a s' Hrun) _); cbv beta zeta
      end
  end.

Lemma Ok_inj {A} (a a' : A) (s s' : TInflator) :
  Ok a s = Ok a' s' -> a = a' /\ s = s'.
Proof. intros H; injection H as -> ->; split; reflexivity. Qed.

Lemma geto_inv {A B} (f : TInflator -> option A) (k : A -> M B) s r s1 :
  bind (geto f) k s = Ok r s1 -> exists a, f s = Some a /\ k a s = Ok r s1.
Proof.
  unfold bind, geto. destruct (f s) as [ a | ]; [ | discriminate ].
  intros H; exists a; split; [ reflexivity | exact H ].
Qed.

Lemma ltable_slow s0 tm tgt src bc : ltable (slow_at tm tgt src bc s0) = ltable s0.
Proof. reflexivity. Qed.

Lemma dtable_slow s0 tm tgt src bc : dtable (slow_at tm tgt src bc s0) = dtable s0.
Proof. reflexivity. Qed.

Section Symbol.

Variable s0 : TInflator.
Hypothesis Hbytes : Forall is_byte (smem s0).
Hypothesis Hsend : send s0 <= Z.of_nat (length (smem s0)).
Hypothesis Hlt : table_ok s0 ltable LTABLEMODE LROOTBITS.
Hypothesis Hdt : table_ok s0 dtable DTABLEMODE DROOTBITS.
Hypothesis Htbgn : 0 <= tbgn s0.
Hypothesis Htend : tend s0 <= Z.of_nat (length (tmem s0)).
Hypothesis Htend' : tend s0 < 2 ^ 64.

Lemma length_entry_inv e :
  length_entry_ok e = true ->
  0 <= TEntry.etag e <= 5 /\ 3 <= TEntry.info e
  /\ TEntry.info e + 2 ^ TEntry.etag e <= 259.
Proof.
  unfold length_entry_ok; intros H.
  repeat (apply andb_true_iff in H; destruct H as [H ?]). zbool. lia.
Qed.

Lemma distance_entry_inv e :
  distance_entry_ok e = true ->
  0 <= TEntry.etag e <= 13 /\ 1 <= TEntry.info e < 2 ^ 16.
Proof.
  unfold distance_entry_ok; intros H.
  repeat (apply andb_true_iff in H; destruct H as [H ?]). zbool. lia.
Qed.

(** A match, from its length entry on. *)
Lemma match_step f F tmf tms tgt srcf bcf srcs bcs r s1 e d :
  paired s0 tmf tms tgt srcf bcf srcs bcs ->
  length_entry_ok e = true ->
  FASTTGTLEFT <= tend s0 - tgt ->
  8 * srcf - bcf + 97 <= 8 * send s0 ->
  (3 <= F)%nat -> (S f <= F)%nat ->
  fast_match (S f) (fast_loop f) (fast_at srcf tgt bcf s0) e (set_tmem tmf s0)
  = Ok r s1 ->
  (exists tmf' tms' tgt' srcf' bcf' srcs' bcs' l' b' d',
     paired s0 tmf' tms' tgt' srcf' bcf' srcs' bcs'
     /\ fast_loop f (fast_at srcf' tgt' bcf' s0) (set_tmem tmf' s0) = Ok r s1
     /\ forall k,
          blck_state1 F k (TEntry.info e) (TEntry.etag e) d
            (slow_at tms tgt srcs bcs s0)
          = k l' b' d' (slow_at tms' tgt' srcs' bcs' s0))
  \/ (r = INFLT_ERROR
      /\ forall k, exists s2,
           blck_state1 F k (TEntry.info e) (TEntry.etag e) d
             (slow_at tms tgt srcs bcs s0)
           = Ok INFLT_ERROR s2 /\ error s2 = error s1).
Proof.
  intros (Hsame & Hlen & Htgt & Hp & Hpp & Hsf & Hss & Hbf & Hbs) He Hgt Hav HF HfF H.
  unfold FASTTGTLEFT in Hgt.
  destruct (length_entry_inv e He) as (Hx & Hinfo & Hmax).
  assert (H2x : 1 <= 2 ^ TEntry.etag e)
    by (change 1 with (2 ^ 0); apply pow2_le_mono; lia).
  unfold fast_match in H.
  (* the extra bits of the length, on the fast path *)
  destruct (refill_fast s0 Hbytes Hsend tmf srcf tgt bcf (TEntry.etag e))
    as (src1 & bc1 & Hrun1 & Hp1 & Hsr1 & Ht1 & Hb1); try lia.
  run_in H Hrun1.
  run_in H (GETBITS_fast s0 tmf src1 bc1 (TEntry.etag e)
              ltac:(lia) ltac:(lia) ltac:(lia)).
  run_in H (DROPBITS_fast s0 tmf src1 tgt bc1 (TEntry.etag e)
              ltac:(lia) ltac:(lia) ltac:(lia)).
  pose proof (bits_at_range (smem s0) (8 * src1 - bc1) (TEntry.etag e)
                ltac:(lia)) as Hg.
  set (g := bits_at (smem s0) (8 * src1 - bc1) (TEntry.etag e)) in *.
  rewrite (uxx_small (TEntry.info e + g)) in H
    by (change (2 ^ 64) with 18446744073709551616; lia).
  set (len := TEntry.info e + g) in *.
  (* and on the slow path *)
  destruct (tryreadbits_slow s0 Hbytes Hsend tms tgt (TEntry.etag e)
              ltac:(lia) F srcs bcs)
    as (srcs1 & bcs1 & Hs1 & Hps1 & Hss1 & Hn1 & Hbs1); try lia.
  assert (Hslow1 : forall k,
            blck_state1 F k (TEntry.info e) (TEntry.etag e) d
              (slow_at tms tgt srcs bcs s0)
            = blck_state2 F k len (TEntry.etag e) d
                (slow_at tms tgt srcs1 (bcs1 - TEntry.etag e) s0)).
  { intros k. unfold blck_state1. run Hs1. cbv iota.
    run (getbits_slow s0 tms tgt srcs1 bcs1 (TEntry.etag e)
           ltac:(lia) ltac:(lia) ltac:(lia)).
    run (dropbits_slow s0 tms tgt srcs1 bcs1 (TEntry.etag e)
           ltac:(lia) ltac:(lia) ltac:(lia)).
    rewrite Z.min_l by lia.
    replace (8 * srcs1 - bcs1) with (8 * src1 - bc1) by lia. fold g.
    rewrite (uxx_small (TEntry.info e + g))
      by (change (2 ^ 64) with 18446744073709551616; lia).
    reflexivity. }
  (* the distance code *)
  destruct (refill_fast s0 Hbytes Hsend tmf src1 tgt (bc1 - TEntry.etag e) 15)
    as (src2 & bc2 & Hrun2 & Hp2 & Hsr2 & Ht2 & Hb2); try lia.
  run_in H Hrun2.
  destruct (fast_entry_at s0 dtable (fun _ => eq_refl)
              DTABLEMODE DROOTBITS ltac:(vm_compute; split; discriminate)
              Hdt tmf src2 tgt bc2)
    as (e0 & Hent & Hleaf & Hrun3); try lia.
  run_in H Hrun3.
  pose proof (leaf_length _ _ Hleaf) as Hel.
  run_in H (DROPBITS_fast s0 tmf src2 tgt bc2 (TEntry.length e0)
              ltac:(lia) ltac:(lia) ltac:(lia)).
  destruct (slow_entry_at s0 Hbytes Hsend dtable (dtable_slow s0)
              DTABLEMODE DROOTBITS ltac:(right; reflexivity)
              ltac:(vm_compute; split; discriminate) Hdt tms tgt F srcs1
              (bcs1 - TEntry.etag e))
    as (e1 & e' & srcs2 & bcs2 & srcs3 & bcs3 & Hd1 & Hd2 & Hent' & _
        & Hps3 & Hss3 & Hl3 & Hb3); try lia.
  replace (8 * srcs1 - (bcs1 - TEntry.etag e)) with (8 * src2 - bc2) in Hent'
    by lia.
  rewrite Hent in Hent'. injection Hent' as <-.
  destruct (TEntry.etag e0 =? INVALIDCODE) eqn:Einv.
  { (* an invalid distance code *)
    right. injection H as <- <-. split; [ reflexivity | ].
    intros k. eexists; split.
    - rewrite Hslow1. unfold blck_state2.
      run Hd1. cbv iota beta. run Hd2. cbv iota beta. rewrite Einv.
      reflexivity.
    - reflexivity. }
  assert (Hde : distance_entry_ok e0 = true).
  { unfold leaf_ok in Hleaf. rewrite Einv in Hleaf.
    change (DTABLEMODE =? LTABLEMODE) with false in Hleaf.
    apply andb_true_iff in Hleaf. apply Hleaf. }
  destruct (distance_entry_inv e0 Hde) as (Hx0 & Hinfo0).
  (* the extra bits of the distance *)
  destruct (refill_fast s0 Hbytes Hsend tmf src2 tgt (bc2 - TEntry.length e0)
              (TEntry.etag e0))
    as (src3 & bc3 & Hrun4 & Hp3 & Hsr3 & Ht3 & Hb3'); try lia.
  run_in H Hrun4.
  run_in H (GETBITS_fast s0 tmf src3 bc3 (TEntry.etag e0)
              ltac:(lia) ltac:(lia) ltac:(lia)).
  run_in H (DROPBITS_fast s0 tmf src3 tgt bc3 (TEntry.etag e0)
              ltac:(lia) ltac:(lia) ltac:(lia)).
  pose proof (bits_at_range (smem s0) (8 * src3 - bc3) (TEntry.etag e0)
                ltac:(lia)) as Hg0.
  assert (H2x0 : 2 ^ TEntry.etag e0 <= 2 ^ 13) by (apply pow2_le_mono; lia).
  set (g0 := bits_at (smem s0) (8 * src3 - bc3) (TEntry.etag e0)) in *.
  rewrite (uxx_small (TEntry.info e0 + g0)) in H
    by (change (2 ^ 64) with 18446744073709551616;
        change (2 ^ 13) with 8192 in H2x0; change (2 ^ 16) with 65536 in Hinfo0;
        lia).
  set (dist := TEntry.info e0 + g0) in *.
  destruct (tryreadbits_slow s0 Hbytes Hsend tms tgt (TEntry.etag e0)
              ltac:(lia) F srcs3 (bcs3 - TEntry.length e0))
    as (srcs4 & bcs4 & Hs4 & Hps4 & Hss4 & Hn4 & Hbs4); try lia.
  assert (Hslow2 : forall k,
            blck_state1 F k (TEntry.info e) (TEntry.etag e) d
              (slow_at tms tgt srcs bcs s0)
            = blck_state4 F k len (TEntry.etag e0) dist
                (slow_at tms tgt srcs4 (bcs4 - TEntry.etag e0) s0)).
  { intros k. rewrite Hslow1. unfold blck_state2.
    run Hd1. cbv iota beta. run Hd2. cbv iota beta. rewrite Einv.
    run (dropbits_slow s0 tms tgt srcs3 bcs3 (TEntry.length e0)
           ltac:(lia) ltac:(lia) ltac:(lia)).
    unfold blck_state3. run Hs4. cbv iota.
    run (getbits_slow s0 tms tgt srcs4 bcs4 (TEntry.etag e0)
           ltac:(lia) ltac:(lia) ltac:(lia)).
    run (dropbits_slow s0 tms tgt srcs4 bcs4 (TEntry.etag e0)
           ltac:(lia) ltac:(lia) ltac:(lia)).
    rewrite Z.min_l by lia.
    replace (8 * srcs4 - bcs4) with (8 * src3 - bc3) by lia. fold g0.
    rewrite (uxx_small (TEntry.info e0 + g0))
      by (change (2 ^ 64) with 18446744073709551616;
          change (2 ^ 13) with 8192 in H2x0;
          change (2 ^ 16) with 65536 in Hinfo0; lia).
    reflexivity. }
  clear Hslow1.
  rewrite bind_gets in H. fields_in H.
  rewrite (uxx_small (tgt - tbgn s0)) in H
    by (change (2 ^ 64) with 18446744073709551616 in *; lia).
  assert (Hlen258 : 3 <= len <= 258) by (unfold len; lia).
  assert (Hdist : 1 <= dist) by (unfold dist; lia).
  destruct (dist <? tgt - tbgn s0) eqn:Enear.
  - apply Z.ltb_lt in Enear.
    destruct (8 <=? dist) eqn:E8.
    + (* a copy by eights *)
      apply Z.leb_le in E8. left.
      apply geto_inv in H. destruct H as (tm1 & Hc1 & H). fields_in Hc1.
      rewrite bind_modify in H.
      apply bind_inv in H. destruct H as (tgtx & sx & Hcu & H).
      apply (copy_until_run s0 8 ltac:(lia) (S f) _ _ _ tm1) in Hcu.
      destruct Hcu as (m & tm' & Hm & Htx & Hlim & _ & -> & Hc2).
      assert (Hc : copy_run (8 + Z.to_nat 8 * m) (window s0) false (tgt - dist)
                     tmf tgt = Some tm').
      { rewrite copy_run_app, Hc1. cbn [obind]. exact Hc2. }
      destruct (copy_run_longer s0 (8 + Z.to_nat 8 * m) len (tgt - dist) tgt
                  tmf tm' tms) as (tms' & Hcs & Hsame');
        [ lia | lia | exact Hsame | lia | exact Hc | ].
      exists tm', tms', (tgt + len), src3, (bc3 - TEntry.etag e0), srcs4,
        (bcs4 - TEntry.etag e0), len, (TEntry.etag e0), dist.
      split; [ | split ].
      * pose proof (copy_run_length _ _ _ _ _ _ _ Hc) as Hl'.
        repeat split; try lia; try apply Hsame'.
      * exact H.
      * intros k. rewrite Hslow2. unfold blck_state4.
        run (copybytes_in_target s0 srcs4 (bcs4 - TEntry.etag e0) Htend'
               tms tgt dist len F tms' ltac:(lia) ltac:(lia) ltac:(lia)
               ltac:(lia) ltac:(lia) Hcs).
        reflexivity.
    + (* a copy byte by byte *)
      apply Z.leb_gt in E8. left.
      apply geto_inv in H. destruct H as (tm1 & Hc1 & H). fields_in Hc1.
      rewrite bind_modify in H.
      apply bind_inv in H. destruct H as (tgtx & sx & Hcu & H).
      apply (copy_until_run s0 1 ltac:(lia) (S f) _ _ _ tm1) in Hcu.
      destruct Hcu as (m & tm' & Hm & Htx & Hlim & Hlast & -> & Hc2).
      assert (Htx' : tgtx = tgt + len) by lia.
      assert (Hc : copy_run (2 + Z.to_nat 1 * m) (window s0) false (tgt - dist)
                     tmf tgt = Some tm').
      { rewrite copy_run_app, Hc1. cbn [obind]. exact Hc2. }
      destruct (copy_run_longer s0 (2 + Z.to_nat 1 * m) len (tgt - dist) tgt
                  tmf tm' tms) as (tms' & Hcs & Hsame');
        [ lia | lia | exact Hsame | lia | exact Hc | ].
      exists tm', tms', (tgt + len), src3, (bc3 - TEntry.etag e0), srcs4,
        (bcs4 - TEntry.etag e0), len, (TEntry.etag e0), dist.
      split; [ | split ].
      * pose proof (copy_run_length _ _ _ _ _ _ _ Hc) as Hl'.
        repeat split; try lia; try apply Hsame'.
      * rewrite <- Htx'. exact H.
      * intros k. rewrite Hslow2. unfold blck_state4.
        run (copybytes_in_target s0 srcs4 (bcs4 - TEntry.etag e0) Htend'
               tms tgt dist len F tms' ltac:(lia) ltac:(lia) ltac:(lia)
               ltac:(lia) ltac:(lia) Hcs).
        reflexivity.
  - (* a copy that may start in the window *)
    apply Z.ltb_ge in Enear.
    apply bind_inv in H. destruct H as (o & sx & Hfc & H).
    pose proof (far_copy_same s0 srcs4 (bcs4 - TEntry.etag e0) Htend' dist
                  (S f) F len tgt tmf tms (tend s0 - tgt) o sx HfF Hsame
                  ltac:(lia) ltac:(lia) ltac:(lia) Hdist Hfc) as Hfar.
    assert (Hcb : forall k r' s',
              copybytes_loop F dist len (tend s0 - tgt)
                (slow_at tms tgt srcs4 (bcs4 - TEntry.etag e0) s0) = Ok r' s' ->
              blck_state1 F k (TEntry.info e) (TEntry.etag e) d
                (slow_at tms tgt srcs bcs s0)
              = (if negb (r' =? 0) then ret r'
                 else k len (TEntry.etag e0) dist) s').
    { intros k r' s' Hr'. rewrite Hslow2. unfold blck_state4, copybytes.
      rewrite bind_assoc, bind_gets. fields.
      rewrite (uxx_small (tend s0 - tgt))
        by (change (2 ^ 64) with 18446744073709551616 in *; lia).
      run Hr'. reflexivity. }
    destruct o as [ tgt' | ].
    + left. destruct Hfar as (tmf' & tms' & -> & Hrun & Hsame' & -> & Hl').
      exists tmf', tms', (tgt + len), src3, (bc3 - TEntry.etag e0), srcs4,
        (bcs4 - TEntry.etag e0), len, (TEntry.etag e0), dist.
      split; [ | split ].
      * repeat split; try lia; try apply Hsame'.
      * exact H.
      * intros k. rewrite (Hcb k _ _ Hrun). reflexivity.
    + right. destruct Hfar as (tms' & tgt' & Hrun).
      injection H as <- <-. split; [ reflexivity | ].
      intros k. eexists; split.
      * rewrite (Hcb k _ _ Hrun). reflexivity.
      * reflexivity.
Qed.

Lemma symbol_step f F tmf tms tgt srcf bcf srcs bcs r s1 l b d :
  paired s0 tmf tms tgt srcf bcf srcs bcs ->
  FASTTGTLEFT <= tend s0 - tgt -> FASTSRCLEFT <= send s0 - srcf ->
  (3 <= F)%nat -> (S f <= F)%nat ->
  fast_loop (S f) (fast_at srcf tgt bcf s0) (set_tmem tmf s0) = Ok r s1 ->
  (exists tmf' tms' tgt' srcf' bcf' srcs' bcs' l' b' d',
     paired s0 tmf' tms' tgt' srcf' bcf' srcs' bcs'
     /\ fast_loop f (fast_at srcf' tgt' bcf' s0) (set_tmem tmf' s0) = Ok r s1
     /\ forall k,
          blck_symbol F k l b d (slow_at tms tgt srcs bcs s0)
          = k l' b' d' (slow_at tms' tgt' srcs' bcs' s0))
  \/ (exists srcf' bcf' srcs' bcs',
        paired s0 tmf tms tgt srcf' bcf' srcs' bcs'
        /\ fast_done (fast_at srcf' tgt bcf' s0) ENDOFBLOCK (set_tmem tmf s0)
           = Ok r s1
        /\ forall k,
             blck_symbol F k l b d (slow_at tms tgt srcs bcs s0)
             = Ok 0 (set_substate 0 (slow_at tms tgt srcs' bcs' s0)))
  \/ (r = INFLT_ERROR
      /\ forall k, exists s2,
           blck_symbol F k l b d (slow_at tms tgt srcs bcs s0)
           = Ok INFLT_ERROR s2 /\ error s2 = error s1).
Proof.
  intros (Hsame & Hlen & Htgt & Hp & Hpp & Hsf & Hss & Hbf & Hbs) Hgt Hgs HF HfF H.
  unfold FASTTGTLEFT in Hgt. unfold FASTSRCLEFT in Hgs.
  cbn [fast_loop] in H.
  rewrite !bind_gets in H. fields_in H.
  replace ((tend s0 - tgt <? FASTTGTLEFT) || (send s0 - srcf <? FASTSRCLEFT))
    with false in H
    by (symmetry; apply orb_false_iff; split; apply Z.ltb_ge;
        unfold FASTTGTLEFT, FASTSRCLEFT; lia).
  (* the literal/length code *)
  destruct (refill_fast s0 Hbytes Hsend tmf srcf tgt bcf 15)
    as (src1 & bc1 & Hrun1 & Hp1 & Hsr1 & Ht1 & Hb1); try lia.
  run_in H Hrun1.
  destruct (fast_entry_at s0 ltable (fun _ => eq_refl)
              LTABLEMODE LROOTBITS ltac:(vm_compute; split; discriminate)
              Hlt tmf src1 tgt bc1)
    as (e & Hent & Hleaf & Hrun2); try lia.
  run_in H Hrun2.
  pose proof (leaf_length _ _ Hleaf) as Hel.
  run_in H (DROPBITS_fast s0 tmf src1 tgt bc1 (TEntry.length e)
              ltac:(lia) ltac:(lia) ltac:(lia)).
  (* the same entry on the slow path *)
  destruct (slow_entry_at s0 Hbytes Hsend ltable (ltable_slow s0)
              LTABLEMODE LROOTBITS ltac:(left; reflexivity)
              ltac:(vm_compute; split; discriminate) Hlt tms tgt F srcs bcs)
    as (e1 & e' & srcs1 & bcs1 & srcs2 & bcs2 & Hs1 & Hs2 & Hent' & _
        & Hp2 & Hss2 & Hl2 & Hb2); try lia.
  rewrite <- Hpp, <- Hp1, Hent in Hent'. injection Hent' as <-.
  assert (Hlook : forall k,
            blck_symbol F k l b d (slow_at tms tgt srcs bcs s0)
            = blck_entry F k l b d e (slow_at tms tgt srcs2 bcs2 s0)).
  { intros k. unfold blck_symbol. run Hs1. cbv iota beta. run Hs2.
    reflexivity. }
  destruct (TEntry.etag e =? LITERALSYMBOL) eqn:Elit.
  { (* a literal *)
    left.
    apply geto_inv in H. destruct H as (tmf' & Hu & H). fields_in Hu.
    rewrite bind_modify in H.
    destruct (same_upto_upd tgt tmf tms tmf' _ Hsame ltac:(lia) Hu)
      as (tms' & Hu' & Hsame').
    exists tmf', tms', (tgt + 1), src1, (bc1 - TEntry.length e), srcs2,
      (bcs2 - TEntry.length e), l, b, d.
    split; [ | split ].
    - apply updZ_length in Hu.
      repeat split; try lia; try apply Hsame'.
    - exact H.
    - intros k. rewrite Hlook. unfold blck_entry. rewrite Elit.
      rewrite !bind_gets. fields.
      replace (tgt <? tend s0) with true by (symmetry; apply Z.ltb_lt; lia).
      rewrite (bind_geto _ tms') by (fields; exact Hu').
      rewrite !bind_modify.
      run (dropbits_slow s0 tms' (tgt + 1) srcs2 bcs2 (TEntry.length e)
             ltac:(lia) ltac:(lia) ltac:(lia)).
      reflexivity. }
  destruct (TEntry.etag e =? ENDOFBLOCK) eqn:Eeob.
  { (* the end of the block *)
    right; left.
    exists src1, (bc1 - TEntry.length e), srcs2, (bcs2 - TEntry.length e).
    split; [ | split ].
    - repeat split; try lia; try apply Hsame.
    - exact H.
    - intros k. rewrite Hlook. unfold blck_entry. rewrite Elit, Eeob.
      run (dropbits_slow s0 tms tgt srcs2 bcs2 (TEntry.length e)
             ltac:(lia) ltac:(lia) ltac:(lia)).
      reflexivity. }
  destruct (TEntry.etag e =? INVALIDCODE) eqn:Einv.
  { (* an invalid code *)
    right; right.
    injection H as <- <-.
    split; [ reflexivity | ].
    intros k. rewrite Hlook. unfold blck_entry. rewrite Elit, Eeob, Einv.
    eexists; split; reflexivity. }
  (* a match *)
  assert (He : length_entry_ok e = true).
  { unfold leaf_ok in Hleaf. rewrite Elit, Eeob, Einv in Hleaf.
    change (LTABLEMODE =? LTABLEMODE) with true in Hleaf.
    apply andb_true_iff in Hleaf. apply Hleaf. }
  assert (Hdrop : forall k,
            blck_symbol F k l b d (slow_at tms tgt srcs bcs s0)
            = blck_state1 F k (TEntry.info e) (TEntry.etag e) d
                (slow_at tms tgt srcs2 (bcs2 - TEntry.length e) s0)).
  { intros k. rewrite Hlook. unfold blck_entry. rewrite Elit, Eeob, Einv.
    run (dropbits_slow s0 tms tgt srcs2 bcs2 (TEntry.length e)
           ltac:(lia) ltac:(lia) ltac:(lia)).
    reflexivity. }
  destruct (match_step f F tmf tms tgt src1 (bc1 - TEntry.length e) srcs2
              (bcs2 - TEntry.length e) r s1 e d) as [Hm | Hm]; try assumption.
  - repeat split; try lia; try apply Hsame.
  - lia.
  - left. destruct Hm as (tmf' & tms' & tgt' & srcf' & bcf' & srcs' & bcs'
                          & l' & b' & d' & Hpair & Hfast & Hslow).
    exists tmf', tms', tgt', srcf', bcf', srcs', bcs', l', b', d'.
    split; [ exact Hpair | split; [ exact Hfast | ] ].
    intros k. rewrite Hdrop. apply Hslow.
  - right; right. destruct Hm as (Hr & Hslow).
    split; [ exact Hr | ]. intros k. rewrite Hdrop. apply Hslow.
Qed.

(** ** The runs *)

Lemma same_upto_output n t tm1 tm2 :
  same_upto n tm1 tm2 -> 0 <= t <= n ->
  firstn (Z.to_nat (n - t)) (skipn (Z.to_nat t) tm1)
  = firstn (Z.to_nat (n - t)) (skipn (Z.to_nat t) tm2).
Proof.
  intros [_ H] Ht.
  rewrite !firstn_skipn_comm.
  replace (Z.to_nat t + Z.to_nat (n - t))%nat with (Z.to_nat n) by lia.
  rewrite H. reflexivity.
Qed.

(** [L_DONE] on the fast path against the state of the slow path. *)
Lemma fast_done_paired tmf tms tgt srcf bcf srcs bcs r0 r s1 sub :
  paired s0 tmf tms tgt srcf bcf srcs bcs ->
  fast_done (fast_at srcf tgt bcf s0) r0 (set_tmem tmf s0) = Ok r s1 ->
  r = r0
  /\ same_decoding s1 (set_substate sub (slow_at tms tgt srcs bcs s0)).
Proof.
  intros (Hsame & Hlen & Htgt & Hp & Hpp & Hsf & Hss & Hbf & Hbs) H.
  unfold fast_at in H.
  rewrite fast_done_spec in H
    by (cbn [fbc]; change (2 ^ 64) with 18446744073709551616; lia).
  cbn [fsource ftarget fbb fbc] in H.
  apply Ok_inj in H. destruct H as [<- <-]. split; [ reflexivity | ].
  assert (Hd : bcf = 8 * (bcf / 8) + bcf mod 8) by (apply Z.div_mod; lia).
  assert (Hm : 0 <= bcf mod 8 < 8) by (apply Z.mod_pos_bound; lia).
  assert (Hq : 0 <= bcf / 8) by (apply Z.div_pos; lia).
  unfold same_decoding, reservoir_ok, bitpos, output. fields.
  split; [ reflexivity | ].
  split; [ apply same_upto_output; [ exact Hsame | lia ] | ].
  split; [ lia | ].
  split; [ | split ].
  - repeat split; try assumption; try lia.
    rewrite bits_at_low by lia. f_equal. lia.
  - repeat split; try assumption; try lia.
  - exists tms, srcs, (bits_at (smem s0) (8 * srcs - bcs) bcs), bcs, sub.
    reflexivity.
Qed.

(** The fast path against the loop of the slow path: the slow path, run
    for the symbols the fast path has decoded, ends the same way. *)
Lemma fast_loop_simulated F :
  (3 <= F)%nat ->
  forall f tmf tms tgt srcf bcf srcs bcs r s1 l b d,
    (f <= F)%nat ->
    paired s0 tmf tms tgt srcf bcf srcs bcs ->
    fast_loop f (fast_at srcf tgt bcf s0) (set_tmem tmf s0) = Ok r s1 ->
    exists n r2 s2,
      slow_symbols F n l b d (slow_at tms tgt srcs bcs s0) = Ok r2 s2
      /\ same_outcome r s1 r2 s2.
Proof.
  intros HF. induction f as [ | f IH ];
    intros tmf tms tgt srcf bcf srcs bcs r s1 l b d HfF Hpair H;
    [ discriminate | ].
  destruct ((tend s0 - tgt <? FASTTGTLEFT) || (send s0 - srcf <? FASTSRCLEFT))
    eqn:Eg.
  - (* the guards fail *)
    cbn [fast_loop] in H. rewrite !bind_gets in H. fields_in H.
    rewrite Eg in H.
    destruct (fast_done_paired _ _ _ _ _ _ _ _ _ _ (substate s0) Hpair H)
      as (-> & Hsd).
    exists 0%nat, SYMBOLS_DONE, (slow_at tms tgt srcs bcs s0).
    split; [ reflexivity | ].
    left. split; [ left; split; reflexivity | exact Hsd ].
  - apply orb_false_iff in Eg. destruct Eg as [Eg1 Eg2].
    apply Z.ltb_ge in Eg1, Eg2.
    destruct (symbol_step f F tmf tms tgt srcf bcf srcs bcs r s1 l b d
                Hpair Eg1 Eg2 HF HfF H) as [Hc | [Hc | Hc]].
    + destruct Hc as (tmf' & tms' & tgt' & srcf' & bcf' & srcs' & bcs'
                      & l' & b' & d' & Hpair' & Hfast & Hslow).
      destruct (IH tmf' tms' tgt' srcf' bcf' srcs' bcs' r s1 l' b' d'
                  ltac:(lia) Hpair' Hfast) as (n & r2 & s2 & Hrun & Hout).
      exists (S n), r2, s2. split; [ | exact Hout ].
      cbn [slow_symbols]. rewrite Hslow. exact Hrun.
    + destruct Hc as (srcf' & bcf' & srcs' & bcs' & Hpair' & Hfast & Hslow).
      destruct (fast_done_paired _ _ _ _ _ _ _ _ _ _ 0 Hpair' Hfast)
        as (-> & Hsd).
      exists 1%nat, 0, (set_substate 0 (slow_at tms tgt srcs' bcs' s0)).
      split; [ cbn [slow_symbols]; apply Hslow | ].
      left. split; [ right; split; reflexivity | exact Hsd ].
    + destruct Hc as (-> & Hslow).
      destruct (Hslow (slow_symbols F 0)) as (s2 & Hrun & Herr).
      exists 1%nat, INFLT_ERROR, s2.
      split; [ cbn [slow_symbols]; exact Hrun | ].
      right. split; [ reflexivity | split; [ reflexivity | ] ].
      symmetry; exact Herr.
Qed.

End Symbol.

(** * The fast path against the slow path *)

Lemma set_tmem_self s : set_tmem (tmem s) s = s.
Proof. destruct s; reflexivity. Qed.

Lemma slow_at_self s :
  bbuffer s = bits_at (smem s) (bitpos s) (bcount s) ->
  slow_at (tmem s) (target s) (source s) (bcount s) s = s.
Proof.
  unfold bitpos; destruct s; cbn; intros ->; reflexivity.
Qed.

Lemma fast_at_self s :
  bbuffer s = bits_at (smem s) (bitpos s) (bcount s) ->
  mkFast (source s) (target s) (bbuffer s) (bcount s)
  = fast_at (source s) (target s) (bcount s) s.
Proof. unfold bitpos, fast_at; intros ->; reflexivity. Qed.

Lemma is_byteb_all l : forallb is_byteb l = true -> Forall is_byte l.
Proof.
  intros H; rewrite forallb_forall in H; rewrite Forall_forall.
  intros x Hx; specialize (H x Hx). unfold is_byteb in H; unfold is_byte.
  apply andb_true_iff in H; destruct H as [H1 H2].
  apply Z.leb_le in H1; apply Z.ltb_lt in H2. lia.
Qed.

(** The decoder of [at_fast_check] meets the conditions of the
    statements below. *)
Lemma at_fast_check_reservoir : reservoir_ok at_fast_check.
Proof.
  unfold reservoir_ok. split; [ apply is_byteb_all; vm_compute; reflexivity | ].
  vm_compute. repeat split; discriminate.
Qed.

Lemma at_fast_check_target :
  target_ok at_fast_check /\ tend at_fast_check < 2 ^ 64.
Proof. vm_compute. repeat split; discriminate. Qed.

Lemma at_fast_check_tables : tables_ok at_fast_check.
Proof. split; vm_compute; reflexivity. Qed.

Lemma at_fast_check_run :
  decodefast 400 at_fast_check
  = Ok 0 (state_of (decodefast 400 at_fast_check) zeroed).
Proof. apply run_ok. vm_compute; reflexivity. Qed.

(** The fast path against the slow path, with the conditions spelled
    out. *)
Lemma decodefast_simulated (fuel F : nat) (s s1 : TInflator) (r l b d : Z) :
  reservoir_ok s -> target_ok s -> tables_ok s -> tend s < 2 ^ 64 ->
  (3 <= F)%nat -> (fuel <= F)%nat ->
  decodefast fuel s = Ok r s1 ->
  exists n r2 s2,
    slow_symbols F n l b d s = Ok r2 s2 /\ same_outcome r s1 r2 s2.
Proof.
  intros (Hbytes & Hsrc & Hsend & Hbc & Hpos & Hbb) (Htb & Htt & Htend)
    (Hlt & Hdt) Htend' HF HfF H.
  unfold decodefast in H. rewrite bind_gets in H.
  rewrite (fast_at_self s Hbb) in H.
  assert (H' : fast_loop fuel (fast_at (source s) (target s) (bcount s) s)
                 (set_tmem (tmem s) s) = Ok r s1)
    by (rewrite set_tmem_self; exact H).
  unfold bitpos in Hpos.
  assert (Hpair : paired s (tmem s) (tmem s) (target s) (source s) (bcount s)
                    (source s) (bcount s)).
  { repeat split; try lia. }
  pose proof (fast_loop_simulated s Hbytes Hsend Hlt Hdt ltac:(lia)
                Htend' F HF fuel (tmem s) (tmem s) (target s) (source s)
                (bcount s) (source s) (bcount s) r s1 l b d HfF Hpair H')
    as Hsim.
  rewrite (slow_at_self s Hbb) in Hsim. exact Hsim.
Qed.

(** The fast path and the slow path decode the same symbols, on tables
    whose matches are well formed.  Let the bit buffer of the decoder hold
    bits of its source span ([reservoir_ok]), its target span lie in the
    target array, and its two tables be well formed ([tables_ok]: every
    lookup ends, a short code fills all its root entries, every length
    entry gives lengths from 3 to 258 and every distance entry distances
    from 1 on).  The static tables of the fixed blocks are not well formed
    in this sense: their entries for the length codes 286 and 287 and for
    the distance codes 30 and 31 give the length 0 and the distance 0, so
    that the statement is about decoders with tables built for a dynamic
    block.  When [decodefast] returns, the loop of the slow path, run from
    the same state for some number [n] of symbols, returns as well and the
    two runs agree ([same_outcome]): where the fast path stops for its
    guards the slow path is back at [L_LOOP], where it meets the end of
    the block so does the slow path, and in both cases the output bytes,
    the target position and the position in the source span are the same,
    the states differing only in the source position with the bit buffer,
    the sub-state and the bytes of the target array behind the output;
    where the fast path fails the slow path fails with the same error
    code. *)
Theorem decodefast_agrees_with_slow_path (fuel F : nat) (s s1 : TInflator)
    (r l b d : Z) :
  reservoir_ok s -> target_ok s -> tables_ok s -> tend s < 2 ^ 64 ->
  (3 <= F)%nat -> (fuel <= F)%nat ->
  decodefast fuel s = Ok r s1 ->
  exists n r2 s2,
    slow_symbols F n l b d s = Ok r2 s2 /\ same_outcome r s1 r2 s2.
Proof.
  intros Hres Htgt Htab Ht64 HF HfF H.
  exact (decodefast_simulated fuel F s s1 r l b d Hres Htgt Htab Ht64 HF HfF H).
Qed.

Lemma decodefast_agrees_with_slow_path_witness :
  exists n r2 s2,
    slow_symbols 400 n 0 0 0 at_fast_check = Ok r2 s2
    /\ same_outcome 0 (state_of (decodefast 400 at_fast_check) zeroed) r2 s2.
Proof.
  apply (decodefast_agrees_with_slow_path 400 400 at_fast_check).
  - exact at_fast_check_reservoir.
  - exact (proj1 at_fast_check_target).
  - exact at_fast_check_tables.
  - exact (proj2 at_fast_check_target).
  - lia.
  - lia.
  - exact at_fast_check_run.
Defined.

(** The bit buffer at the exits of the fast path: the shared form of the
    statement below. *)
Lemma fast_exit_reservoir (fuel : nat) (s s' : TInflator)
    (r : Z) :
  decodefast fuel s = Ok r s' -> r <> INFLT_ERROR ->
  (0 <= bcount s' < 8 /\ 0 <= bbuffer s' < 2 ^ bcount s')
  /\ (reservoir_ok s -> target_ok s -> tables_ok s -> tend s < 2 ^ 64 ->
      reservoir_ok s'
      /\ bbuffer s' = bits_at (smem s) (8 * source s' - bcount s') (bcount s')
      /\ 0 <= source s' <= send s).
Proof.
  intros H Hr. split.
  - assert (Hwp : wp (decodefast fuel) fast_exit_post s).
    { unfold decodefast. apply wp_bind, wp_gets. apply fast_loop_post. }
    exact (wp_elim _ _ _ _ _ Hwp H Hr).
  - intros Hres Htgt Htab Ht64.
    destruct (decodefast_simulated fuel (Nat.max fuel 3) s s' r 0 0 0
                Hres Htgt Htab Ht64 ltac:(lia) ltac:(lia) H)
      as (n & r2 & s2 & _ & Hsame).
    destruct Hsame as [ (_ & Hdec) | (Hr' & _) ]; [ | contradiction ].
    destruct Hdec as (_ & _ & _ & Hres' & _ & _).
    split; [ exact Hres' | ].
    assert (Hframe : smem s' = smem s /\ send s' = send s).
    { pose proof (preserves_decodefast
                    (fun x => smem x = smem s /\ send x = send s)
                    ltac:(intros ? ? ?; assumption)
                    ltac:(intros ? ? ?; assumption)
                    ltac:(intros ? ? ?; assumption)
                    ltac:(intros ? ? ?; assumption)
                    ltac:(intros ? ? ?; assumption)
                    ltac:(intros ? ? ?; assumption)
                    fuel s (conj eq_refl eq_refl)) as P.
      rewrite H in P. exact P. }
    destruct Hframe as [Hsm Hse].
    destruct Hres' as (_ & Hsrc' & _ & _ & _ & Hbb').
    unfold bitpos in Hbb'. rewrite Hsm in Hbb'. rewrite Hse in Hsrc'.
    split; [ exact Hbb' | exact Hsrc' ].
Qed.

(** The bits the fast path leaves.  When [decodefast] returns without an
    error it leaves fewer than 8 bits in the bit buffer and no bit above
    them.  When moreover the decoder is as in the statement above (the bit
    buffer held bits of the source span, the target span lies in the
    target array, the tables are well formed, which the static tables are
    not), the bit buffer still holds bits of the source span
    ([reservoir_ok]): the bits left are the bits of the span that end at
    the source position, which is within the span.  So [L_DONE] has given
    the whole bytes among the unread bits back to the source, and the bits
    of the byte in front of the source position that were not decoded are
    the ones it kept. *)
Theorem decodefast_leaves_less_than_a_byte (fuel : nat) (s s' : TInflator)
    (r : Z) :
  decodefast fuel s = Ok r s' -> r <> INFLT_ERROR ->
  (0 <= bcount s' < 8 /\ 0 <= bbuffer s' < 2 ^ bcount s')
  /\ (reservoir_ok s -> target_ok s -> tables_ok s -> tend s < 2 ^ 64 ->
      reservoir_ok s'
      /\ bbuffer s' = bits_at (smem s) (8 * source s' - bcount s') (bcount s')
      /\ 0 <= source s' <= send s).
Proof.
  intros H Hr. exact (fast_exit_reservoir fuel s s' r H Hr).
Qed.

Lemma decodefast_leaves_less_than_a_byte_witness :
  (0 <= bcount (state_of (decodefast 400 at_fast_check) zeroed) < 8
   /\ 0 <= bbuffer (state_of (decodefast 400 at_fast_check) zeroed)
      < 2 ^ bcount (state_of (decodefast 400 at_fast_check) zeroed))
  /\ reservoir_ok (state_of (decodefast 400 at_fast_check) zeroed)
  /\ bbuffer (state_of (decodefast 400 at_fast_check) zeroed)
     = bits_at (smem at_fast_check)
         (8 * source (state_of (decodefast 400 at_fast_check) zeroed)
          - bcount (state_of (decodefast 400 at_fast_check) zeroed))
         (bcount (state_of (decodefast 400 at_fast_check) zeroed))
  /\ 0 <= source (state_of (decodefast 400 at_fast_check) zeroed)
     <= send at_fast_check.
Proof.
  destruct (decodefast_leaves_less_than_a_byte 400 at_fast_check _ 0
              at_fast_check_run ltac:(discriminate)) as [Hbits Hsrc].
  split; [ exact Hbits | ].
  exact (Hsrc at_fast_check_reservoir (proj1 at_fast_check_target)
           at_fast_check_tables (proj2 at_fast_check_target)).
Defined.

(** C1 (defect of the code): the fast path and the slow path differ on a
    match of the length 0, which the static table of the fixed blocks
    gives for the length codes 286 and 287.  In [at_zero_length_match]
    the guards of the fast path hold.  [decodefast] copies three bytes for
    the match (its copy writes two bytes and then one more before it tests
    the end) and returns at the end of the block with five bytes of
    output.  The slow path decodes the two literals, then [copybytes]
    enters its copy loop [do ... while (--maxrun)] with [maxrun] 0, which
    runs 2^64 times and leaves the target array: the loop of the slow path
    has no result.  So [inflator_inflate] returns [INFLT_OK] with the
    output [aaaaa] for a target span of 300 bytes, and has no result for
    a target span of 8 bytes, where the block is decoded by the slow
    path. *)
Theorem C1_fast_path_differs_on_zero_length :
  FASTTGTLEFT <= tend at_zero_length_match - target at_zero_length_match
  /\ FASTSRCLEFT <= send at_zero_length_match - source at_zero_length_match
  /\ ltable at_zero_length_match = PtrStaticL
  /\ nthZ lsttctable 99 = Some (E 0 0 8)
  /\ value_of (decodefast 10 at_zero_length_match) = Some ENDOFBLOCK
  /\ output (state_of (decodefast 10 at_zero_length_match) zeroed)
     = [97; 97; 97; 97; 97]
  /\ value_of (slow_symbols 10 2 0 0 0 at_zero_length_match)
     = Some SYMBOLS_DONE
  /\ output (state_of (slow_symbols 10 2 0 0 0 at_zero_length_match) zeroed)
     = [97; 97]
  /\ copybytes 10 1 0
       (state_of (slow_symbols 10 2 0 0 0 at_zero_length_match) zeroed)
     = Undefined
  /\ slow_symbols 10 3 0 0 0 at_zero_length_match = Undefined
  /\ value_of (inflator_inflate 100 1 (start zero_length_match 300))
     = Some INFLT_OK
  /\ output (state_of (inflator_inflate 100 1 (start zero_length_match 300))
               zeroed)
     = [97; 97; 97; 97; 97]
  /\ inflator_inflate 100 1 (start zero_length_match 8) = Undefined.
Proof. vm_compute; repeat split; first [ reflexivity | discriminate ]. Qed.

(** * Reversed codes *)

Lemma all_from_spec p k : forall i,
  all_from k i p = true -> forall j, i <= j < i + Z.of_nat k -> p j = true.
Proof.
  induction k as [ | k IH ]; intros i H j Hj; [ lia | ].
  cbn [all_from] in H. apply andb_true_iff in H. destruct H as [Hi H].
  destruct (Z.eq_dec j i) as [ -> | Hne ]; [ exact Hi | ].
  apply (IH (i + 1) H). lia.
Qed.

Lemma all_below_spec p n j :
  all_below n p = true -> 0 <= j < n -> p j = true.
Proof.
  unfold all_below; intros H Hj. apply (all_from_spec p _ 0 H). lia.
Qed.

(** Every code of every length up to [DEFLT_MAXBITS], by enumeration. *)
Lemma codes_checked :
  all_below (DEFLT_MAXBITS + 1)
    (fun len => all_below (2 ^ len) (fun c => rev_ok len c && inc_ok len c))
  = true.
Proof. vm_cast_no_check (eq_refl true). Qed.

Lemma code_checked len code :
  0 <= len <= DEFLT_MAXBITS -> 0 <= code < 2 ^ len ->
  rev_ok len code = true /\ inc_ok len code = true.
Proof.
  intros Hlen Hcode. apply andb_true_iff.
  apply (all_below_spec (fun c => rev_ok len c && inc_ok len c) (2 ^ len));
    [ | exact Hcode ].
  apply (all_below_spec
           (fun len => all_below (2 ^ len)
                         (fun c => rev_ok len c && inc_ok len c))
           (DEFLT_MAXBITS + 1));
    [ exact codes_checked | lia ].
Qed.

(** [reversecode] reverses the bits of a code.  For a code of [len] bits,
    [len] at most [DEFLT_MAXBITS], the call returns a number [r] of [len]
    bits whose bit [i] is the bit [len - 1 - i] of the code, and the
    reversal of [r] is the code again. *)
Theorem reversecode_reverses_bits (code len : Z) :
  0 <= len <= DEFLT_MAXBITS -> 0 <= code < 2 ^ len ->
  exists r,
    reversecode code len = Some r
    /\ 0 <= r < 2 ^ len
    /\ (forall i, 0 <= i < len ->
          Z.testbit r i = Z.testbit code (len - 1 - i))
    /\ reversecode r len = Some code.
Proof.
  intros Hlen Hcode.
  destruct (code_checked len code Hlen Hcode) as [H _].
  unfold rev_ok in H.
  destruct (reversecode code len) as [ r | ]; [ | discriminate ].
  exists r. split; [ reflexivity | ].
  apply andb_true_iff in H; destruct H as [H Hback].
  apply andb_true_iff in H; destruct H as [H Hbits].
  apply andb_true_iff in H; destruct H as [H0 H1].
  apply Z.leb_le in H0. apply Z.ltb_lt in H1.
  split; [ lia | split ].
  - intros i Hi.
    apply Bool.eqb_prop.
    exact (all_below_spec _ len i Hbits Hi).
  - destruct (reversecode r len) as [ c | ]; [ | discriminate ].
    apply Z.eqb_eq in Hback. congruence.
Qed.

Lemma reversecode_reverses_bits_witness :
  exists r,
    reversecode 6 3 = Some r
    /\ 0 <= r < 2 ^ 3
    /\ (forall i, 0 <= i < 3 -> Z.testbit r i = Z.testbit 6 (3 - 1 - i))
    /\ reversecode r 3 = Some 6.
Proof.
  apply (reversecode_reverses_bits 6 3); [ unfold DEFLT_MAXBITS | ]; lia.
Defined.

(** [reverseinc] steps through the codes in reversed form.  For a code of
    [len] bits with the reversal [rc], the call on [rc] returns the
    reversal of the next code, the code after the last one being 0. *)
Theorem reverseinc_is_successor (code len rc : Z) :
  1 <= len <= DEFLT_MAXBITS -> 0 <= code < 2 ^ len ->
  reversecode code len = Some rc ->
  reverseinc rc len = reversecode ((code + 1) mod 2 ^ len) len
  /\ reverseinc rc len <> None.
Proof.
  intros Hlen Hcode Hrc.
  destruct (code_checked len code ltac:(lia) Hcode) as [_ H].
  unfold inc_ok in H. rewrite Hrc in H.
  destruct (reverseinc rc len) as [ a | ]; [ | discriminate ].
  destruct (reversecode ((code + 1) mod 2 ^ len) len) as [ b | ];
    [ | discriminate ].
  apply Z.eqb_eq in H. split; [ congruence | discriminate ].
Qed.

Lemma reverseinc_is_successor_witness :
  reverseinc 3 3 = reversecode ((6 + 1) mod 2 ^ 3) 3
  /\ reverseinc 3 3 <> None.
Proof.
  apply (reverseinc_is_successor 6 3 3);
    [ unfold DEFLT_MAXBITS; lia | lia | reflexivity ].
Defined.

(** * The bit reader *)

Lemma slow_at_reservoir s src bc :
  slow_at (tmem s) (target s) src bc s = with_reservoir src bc s.
Proof. destruct s; reflexivity. Qed.

Lemma reservoir_self s :
  bbuffer s = bits_at (smem s) (bitpos s) (bcount s) ->
  with_reservoir (source s) (bcount s) s = s.
Proof. unfold bitpos; destruct s; cbn; intros ->; reflexivity. Qed.

Section Reader.

Variable s0 : TInflator.
Hypothesis Hbytes : Forall is_byte (smem s0).
Hypothesis Hsend : send s0 <= Z.of_nat (length (smem s0)).

Lemma reservoir_ok_slow_at tm tgt src bc :
  0 <= src <= send s0 -> 0 <= bc <= 63 -> 0 <= 8 * src - bc ->
  reservoir_ok (slow_at tm tgt src bc s0).
Proof.
  intros Hsrc Hbc Hp. unfold reservoir_ok, bitpos. fields.
  repeat split; try assumption; lia.
Qed.

(** The bits [tryreadbits] leaves in the buffer: those that were there,
    or fewer than a byte more than asked for. *)
Lemma tryreadbits_exact tm tgt n :
  0 <= n <= 32 ->
  forall F src bc,
    (1 <= F)%nat -> n - bc <= 8 * (Z.of_nat F - 1) ->
    0 <= src <= send s0 -> 0 <= bc <= 63 -> 0 <= 8 * src - bc ->
    8 * src - bc + n <= 8 * send s0 ->
    exists src' bc',
      tryreadbits F n (slow_at tm tgt src bc s0)
      = Ok true (slow_at tm tgt src' bc' s0)
      /\ 8 * src' - bc' = 8 * src - bc
      /\ src <= src' <= send s0
      /\ n <= bc' /\ bc <= bc' <= 63
      /\ (bc' = bc \/ bc' < n + 8).
Proof.
  intros Hn; induction F as [ | F IH ]; intros src bc HF Hfuel Hsrc Hbc Hp Hav;
    [ lia | ].
  cbn [tryreadbits]. rewrite bind_gets. fields.
  destruct (bc <? n) eqn:E.
  - apply Z.ltb_lt in E.
    rewrite bind_gets, bind_gets. fields.
    replace (send s0 <=? src) with false by (symmetry; apply Z.leb_gt; lia).
    destruct (nthZ_some (smem s0) src ltac:(lia)) as (b & Hb).
    pose proof (nthZ_byte _ _ _ Hbytes Hb) as Hbb; unfold is_byte in Hbb.
    unfold nextbyte.
    rewrite bind_assoc, (bind_geto _ b) by (fields; exact Hb).
    rewrite bind_assoc, bind_modify, bind_ret. fields.
    assert (H2 : 2 ^ bc <= 2 ^ 55) by (apply pow2_le_mono; lia).
    rewrite (bind_lift _ (Z.shiftl b bc))
      by (apply shl64_some; try lia;
          change (2 ^ 64) with (512 * 2 ^ 55); nia).
    rewrite bind_modify, bind_modify. fields.
    rewrite (bits_at_push _ _ _ _ Hbytes Hb) by lia.
    rewrite uxx_small by (change (2 ^ 64) with 18446744073709551616; lia).
    destruct (IH (src + 1) (bc + 8))
      as (src' & bc' & Hrun & Hp' & Hs' & Hn' & Hb' & Hx); try lia.
    exists src', bc'. repeat split; try lia.
    rewrite <- Hrun. f_equal.
    unfold slow_at, with_reservoir; fields.
    replace (8 * (src + 1) - (bc + 8)) with (8 * src - bc) by lia.
    reflexivity.
  - apply Z.ltb_ge in E. exists src, bc. repeat split; try lia.
Qed.

(** [tryreadbits] on a source span that ends before the bits asked for. *)
Lemma tryreadbits_short tm tgt n :
  0 <= n <= 32 ->
  forall F src bc,
    (1 <= F)%nat -> n - bc <= 8 * (Z.of_nat F - 1) ->
    0 <= src <= send s0 -> 0 <= bc <= 63 -> 0 <= 8 * src - bc ->
    8 * send s0 < 8 * src - bc + n ->
    exists bc',
      tryreadbits F n (slow_at tm tgt src bc s0)
      = Ok false (slow_at tm tgt (send s0) bc' s0)
      /\ 8 * send s0 - bc' = 8 * src - bc
      /\ bc <= bc' < n.
Proof.
  intros Hn; induction F as [ | F IH ]; intros src bc HF Hfuel Hsrc Hbc Hp Hav;
    [ lia | ].
  cbn [tryreadbits]. rewrite bind_gets. fields.
  replace (bc <? n) with true by (symmetry; apply Z.ltb_lt; lia).
  rewrite bind_gets, bind_gets. fields.
  destruct (send s0 <=? src) eqn:E.
  - apply Z.leb_le in E. assert (src = send s0) as -> by lia.
    exists bc. repeat split; lia.
  - apply Z.leb_gt in E.
    destruct (nthZ_some (smem s0) src ltac:(lia)) as (b & Hb).
    pose proof (nthZ_byte _ _ _ Hbytes Hb) as Hbb; unfold is_byte in Hbb.
    unfold nextbyte.
    rewrite bind_assoc, (bind_geto _ b) by (fields; exact Hb).
    rewrite bind_assoc, bind_modify, bind_ret. fields.
    assert (H2 : 2 ^ bc <= 2 ^ 55) by (apply pow2_le_mono; lia).
    rewrite (bind_lift _ (Z.shiftl b bc))
      by (apply shl64_some; try lia;
          change (2 ^ 64) with (512 * 2 ^ 55); nia).
    rewrite bind_modify, bind_modify. fields.
    rewrite (bits_at_push _ _ _ _ Hbytes Hb) by lia.
    rewrite uxx_small by (change (2 ^ 64) with 18446744073709551616; lia).
    destruct (IH (src + 1) (bc + 8)) as (bc' & Hrun & Hp' & Hb'); try lia.
    exists bc'. repeat split; try lia.
    rewrite <- Hrun. f_equal.
    unfold slow_at, with_reservoir; fields.
    replace (8 * (src + 1) - (bc + 8)) with (8 * src - bc) by lia.
    reflexivity.
Qed.

(** The three calls that read [n] bits. *)
Lemma take_bits tm tgt n F src bc :
  0 <= n <= 32 -> (5 <= F)%nat ->
  0 <= src <= send s0 -> 0 <= bc <= 63 -> 0 <= 8 * src - bc ->
  8 * src - bc + n <= 8 * send s0 ->
  exists src' bc',
    tryreadbits F n (slow_at tm tgt src bc s0)
    = Ok true (slow_at tm tgt src' bc' s0)
    /\ getbits n (slow_at tm tgt src' bc' s0)
       = Ok (bits_at (smem s0) (8 * src - bc) n) (slow_at tm tgt src' bc' s0)
    /\ dropbits n (slow_at tm tgt src' bc' s0)
       = Ok tt (slow_at tm tgt src' (bc' - n) s0)
    /\ 8 * src' - bc' = 8 * src - bc
    /\ src <= src' <= send s0
    /\ n <= bc' /\ bc <= bc' <= 63
    /\ (bc' = bc \/ bc' < n + 8).
Proof.
  intros Hn HF Hsrc Hbc Hp Hav.
  destruct (tryreadbits_exact tm tgt n Hn F src bc)
    as (src' & bc' & Hrun & Hp' & Hs' & Hn' & Hb' & Hx); try lia.
  exists src', bc'.
  split; [ exact Hrun | ].
  split.
  { rewrite (getbits_slow s0 tm tgt src' bc' n) by lia.
    rewrite Z.min_l by lia. rewrite Hp'. reflexivity. }
  split.
  { apply (dropbits_slow s0); lia. }
  repeat split; try lia.
Qed.

End Reader.

(** The bit reader hands out the source span bit by bit, lowest bit
    first.  Let the bit buffer hold bits of the source span
    ([reservoir_ok]) and the span have [n] more bits, [n] at most 32.
    [tryreadbits] then succeeds, [getbits] returns the [n] bits of the
    span at the bit position of the decoder, and [dropbits] moves that
    position on by [n]; the calls change the source position and the bit
    buffer only, and the buffer still holds bits of the span. *)
Theorem bit_reader_reads_in_order (F : nat) (n : Z) (s : TInflator) :
  reservoir_ok s -> 0 <= n <= 32 -> bitpos s + n <= 8 * send s ->
  (5 <= F)%nat ->
  exists s1 s2,
    tryreadbits F n s = Ok true s1
    /\ getbits n s1 = Ok (bits_at (smem s) (bitpos s) n) s1
    /\ dropbits n s1 = Ok tt s2
    /\ bitpos s2 = bitpos s + n
    /\ reservoir_ok s2
    /\ s2 = with_reservoir (source s2) (bcount s2) s.
Proof.
  intros (Hbytes & Hsrc & Hsend & Hbc & Hpos & Hbb) Hn Hav HF.
  unfold bitpos in Hpos, Hav.
  destruct (take_bits s Hbytes Hsend (tmem s) (target s) n F
              (source s) (bcount s))
    as (src' & bc' & Hrun & Hget & Hdrop & Hp' & Hs' & Hn' & Hb' & _);
    try lia.
  rewrite (slow_at_self s Hbb) in Hrun.
  exists (slow_at (tmem s) (target s) src' bc' s),
    (slow_at (tmem s) (target s) src' (bc' - n) s).
  split; [ exact Hrun | ].
  split; [ exact Hget | ].
  split; [ exact Hdrop | ].
  split; [ unfold bitpos; fields; lia | ].
  split; [ apply reservoir_ok_slow_at; try assumption; lia | ].
  fields. apply slow_at_reservoir.
Qed.

Lemma bit_reader_reads_in_order_witness :
  exists s1 s2,
    tryreadbits 5 3 (start fixed_hello 8) = Ok true s1
    /\ getbits 3 s1
       = Ok (bits_at (smem (start fixed_hello 8))
               (bitpos (start fixed_hello 8)) 3) s1
    /\ dropbits 3 s1 = Ok tt s2
    /\ bitpos s2 = bitpos (start fixed_hello 8) + 3
    /\ reservoir_ok s2
    /\ s2 = with_reservoir (source s2) (bcount s2) (start fixed_hello 8).
Proof.
  apply (bit_reader_reads_in_order 5 3 (start fixed_hello 8)).
  - unfold reservoir_ok.
    split; [ apply is_byteb_all; vm_compute; reflexivity | ].
    vm_compute. repeat split; discriminate.
  - lia.
  - vm_compute. discriminate.
  - lia.
Defined.

(** [tryreadbits] on a decoder whose span ends too early: the shared form
    of the statement below. *)
Lemma tryreadbits_exhausted (F : nat) (n : Z)
    (s : TInflator) :
  reservoir_ok s -> 0 <= n <= 32 -> 8 * send s < bitpos s + n ->
  (5 <= F)%nat ->
  exists s1,
    tryreadbits F n s = Ok false s1
    /\ source s1 = send s
    /\ bitpos s1 = bitpos s
    /\ bcount s1 < n
    /\ reservoir_ok s1
    /\ s1 = with_reservoir (send s) (bcount s1) s.
Proof.
  intros (Hbytes & Hsrc & Hsend & Hbc & Hpos & Hbb) Hn Hav HF.
  unfold bitpos in Hpos, Hav.
  destruct (tryreadbits_short s Hbytes Hsend (tmem s) (target s) n Hn F
              (source s) (bcount s))
    as (bc' & Hrun & Hp' & Hb'); try lia.
  rewrite (slow_at_self s Hbb) in Hrun.
  exists (slow_at (tmem s) (target s) (send s) bc' s).
  split; [ exact Hrun | ].
  split; [ reflexivity | ].
  split; [ unfold bitpos; fields; lia | ].
  split; [ fields; lia | ].
  split; [ apply reservoir_ok_slow_at; try assumption; lia | ].
  fields. apply slow_at_reservoir.
Qed.

(** A source span that ends before the bits asked for.  Let the bit
    buffer hold bits of the source span ([reservoir_ok]) and the span end
    before the [n] bits asked for, [n] at most 32.  [tryreadbits] then
    returns false with the source position at the end of the span: every
    byte that was left is in the bit buffer, which holds fewer than [n]
    bits, all of them bits of the span; the bit position of the decoder
    is the same, and only the source position and the bit buffer have
    changed. *)
Theorem tryreadbits_keeps_bits_on_exhaustion (F : nat) (n : Z)
    (s : TInflator) :
  reservoir_ok s -> 0 <= n <= 32 -> 8 * send s < bitpos s + n ->
  (5 <= F)%nat ->
  exists s1,
    tryreadbits F n s = Ok false s1
    /\ source s1 = send s
    /\ bitpos s1 = bitpos s
    /\ bcount s1 < n
    /\ reservoir_ok s1
    /\ s1 = with_reservoir (send s) (bcount s1) s.
Proof.
  intros Hres Hn Hav HF. exact (tryreadbits_exhausted F n s Hres Hn Hav HF).
Qed.

Lemma tryreadbits_keeps_bits_on_exhaustion_witness :
  exists s1,
    tryreadbits 5 24 (start truncated_stored 8) = Ok false s1
    /\ source s1 = send (start truncated_stored 8)
    /\ bitpos s1 = bitpos (start truncated_stored 8)
    /\ bcount s1 < 24
    /\ reservoir_ok s1
    /\ s1 = with_reservoir (send (start truncated_stored 8)) (bcount s1)
              (start truncated_stored 8).
Proof.
  apply (tryreadbits_keeps_bits_on_exhaustion 5 24 (start truncated_stored 8)).
  - unfold reservoir_ok.
    split; [ apply is_byteb_all; vm_compute; reflexivity | ].
    vm_compute. repeat split; discriminate.
  - lia.
  - vm_compute. reflexivity.
  - lia.
Defined.

(** * The bit buffer where the decoder stops *)




(** * Stored blocks *)

Lemma u16_lnot x : 0 <= x < 2 ^ 16 -> u16 (Z.lnot x) = 65535 - x.
Proof.
  intros H. unfold u16, Z.lnot.
  change (2 ^ 16) with 65536 in *.
  replace (Z.pred (- x)) with (65535 - x + (-1) * 65536) by lia.
  rewrite Z.mod_add by lia. apply Z.mod_small; lia.
Qed.

Section Stored.

Variable s0 : TInflator.
Hypothesis Hbytes : Forall is_byte (smem s0).
Hypothesis Hsend : send s0 <= Z.of_nat (length (smem s0)).

(** The two bytes of a length field. *)
Lemma getpair_slow tm tgt src bc :
  16 <= bc <= 63 -> 0 <= 8 * src - bc ->
  getpair (slow_at tm tgt src bc s0)
  = Ok (bits_at (smem s0) (8 * src - bc) 16)
       (slow_at tm tgt src (bc - 16) s0).
Proof.
  intros Hbc Hp. unfold getpair.
  run (getbits_slow s0 tm tgt src bc 8 ltac:(lia) ltac:(lia) Hp).
  run (dropbits_slow s0 tm tgt src bc 8 ltac:(lia) ltac:(lia) Hp).
  run (getbits_slow s0 tm tgt src (bc - 8) 8 ltac:(lia) ltac:(lia) ltac:(lia)).
  run (dropbits_slow s0 tm tgt src (bc - 8) 8 ltac:(lia) ltac:(lia) ltac:(lia)).
  unfold ret. f_equal.
  - rewrite !Z.min_l by lia.
    replace (8 * src - (bc - 8)) with (8 * src - bc + 8) by lia.
    pose proof (bits_at_range (smem s0) (8 * src - bc) 8 ltac:(lia)) as Ha.
    pose proof (bits_at_range (smem s0) (8 * src - bc + 8) 8 ltac:(lia)) as Hb.
    change (2 ^ 8) with 256 in Ha, Hb.
    unfold u8. change (2 ^ 8) with 256.
    rewrite !Z.mod_small by lia.
    rewrite lor_shiftl_add by (change (2 ^ 8) with 256; lia).
    change 16 with (8 + 8). rewrite bits_at_split by lia. lia.
  - replace (bc - 8 - 8) with (bc - 16) by lia. reflexivity.
Qed.

(** The copy of a block that the two spans have room for. *)
Lemma strd_state3_whole tm tgt src tm' :
  0 <= src -> 0 <= tgt ->
  send s0 < 2 ^ 64 -> tend s0 < 2 ^ 64 ->
  0 <= aux0 s0 -> src + aux0 s0 <= send s0 -> tgt + aux0 s0 <= tend s0 ->
  memcpy tm tgt (smem s0) src (aux0 s0) = Some tm' ->
  strd_state3 (slow_at tm tgt src 0 s0)
  = Ok INFLT_OK
      (set_substate 0
         (set_aux0 0 (slow_at tm' (tgt + aux0 s0) (src + aux0 s0) 0 s0))).
Proof.
  intros Hsrc Htgt Hs64 Ht64 Hlen Hsl Htl Hcp. unfold strd_state3.
  rewrite !bind_gets. fields.
  rewrite (uxx_small (send s0 - src)), (uxx_small (tend s0 - tgt)) by lia.
  replace (tend s0 - tgt <? aux0 s0) with false
    by (symmetry; apply Z.ltb_ge; lia).
  replace (send s0 - src <? aux0 s0) with false
    by (symmetry; apply Z.ltb_ge; lia).
  rewrite (bind_geto _ tm') by (fields; exact Hcp).
  rewrite !bind_modify, bind_gets. fields.
  rewrite Z.sub_diag. change (uxx 0) with 0.
  change (negb (0 =? 0)) with false. cbv iota.
  rewrite bind_modify. unfold ret, INFLT_OK. f_equal.
  unfold slow_at, with_reservoir. fields.
  rewrite !bits_at_zero. reflexivity.
Qed.

End Stored.

(** The state of the goal, written as [X]. *)
Ltac at_state X :=
  lazymatch goal with
  | |- ?m ?st = ?R => change (m X = R)
  end.

Lemma stored_start_bounds s :
  bitpos s <= stored_start s <= bitpos s + 7
  /\ stored_start s = 8 * (stored_start s / 8).
Proof.
  unfold stored_start.
  rewrite (Z.mul_comm 8 ((bitpos s + 7) / 8)), Z.div_mul by lia.
  pose proof (Z.div_mod (bitpos s + 7) 8 ltac:(lia)).
  pose proof (Z.mod_pos_bound (bitpos s + 7) 8 ltac:(lia)).
  lia.
Qed.

(** The header of a stored block: the length, its complement and the
    check of the two. *)
Lemma strd_header F s :
  reservoir_ok s -> substate s = 0 -> bcount s <= 32 ->
  stored_start s + 32 <= 8 * send s -> (3 <= F)%nat ->
  decodestrd F s
  = (if negb (65535 - stored_len s =? stored_nlen s)
     then Ok INFLT_ERROR
            (set_error INFLT_EBADBLOCK
               (slow_at (tmem s) (target s) (stored_start s / 8 + 4) 0
                  (set_substate 2 (set_aux0 (stored_len s) s))))
     else strd_state3
            (slow_at (tmem s) (target s) (stored_start s / 8 + 4) 0
               (set_substate 3 (set_aux0 (stored_len s) s)))).
Proof.
  intros (Hbytes & Hsrc & Hsend & Hbc & Hpos & Hbb) Hsub Hbc' Hav HF.
  destruct (stored_start_bounds s) as (Hq & Hq8).
  unfold stored_len, stored_nlen.
  set (q := stored_start s) in *. set (p := bitpos s) in *.
  assert (Hp : p = 8 * source s - bcount s) by reflexivity.
  replace (decodestrd F s)
    with (decodestrd F (slow_at (tmem s) (target s) (source s) (bcount s) s))
    by (rewrite (slow_at_self s Hbb); reflexivity).
  set (tm := tmem s). set (tgt := target s).
  unfold decodestrd. rewrite bind_gets.
  change (substate (slow_at tm tgt (source s) (bcount s) s)) with (substate s).
  rewrite Hsub. cbv iota beta.
  change (0 =? 1) with false. change (0 =? 2) with false.
  change (0 =? 3) with false. cbv iota.
  unfold strd_state0.
  (* up to the byte boundary *)
  destruct (tryreadbits_exact s Hbytes Hsend tm tgt 8 ltac:(lia) F
              (source s) (bcount s))
    as (src1 & bc1 & Hrun1 & Hp1 & Hs1 & Hn1 & Hb1 & Hx1); try lia.
  run Hrun1. cbv iota. rewrite bind_gets.
  change (bcount (slow_at tm tgt src1 bc1 s)) with bc1.
  rewrite land_7.
  pose proof (Z.mod_pos_bound bc1 8 ltac:(lia)) as Hm.
  pose proof (Z.div_mod bc1 8 ltac:(lia)) as Hd.
  run (dropbits_slow s tm tgt src1 bc1 (bc1 mod 8)
         ltac:(lia) ltac:(lia) ltac:(lia)).
  rewrite bind_modify.
  change (substate (slow_at tm tgt src1 (bc1 - bc1 mod 8) s))
    with (substate s).
  rewrite Hsub.
  set (a := bc1 - bc1 mod 8).
  assert (Ha : 8 * src1 - a = q) by lia.
  assert (Ha' : 8 <= a <= 32) by lia.
  at_state (slow_at tm tgt src1 a (set_substate 1 s)).
  unfold strd_state1.
  (* the length *)
  destruct (tryreadbits_exact (set_substate 1 s) Hbytes Hsend tm tgt 16
              ltac:(lia) F src1 a)
    as (src2 & bc2 & Hrun2 & Hp2 & Hs2 & Hn2 & Hb2 & Hx2);
    try (cbn [send set_substate]; lia).
  cbn [send set_substate] in Hs2.
  run Hrun2. cbv iota.
  run (getpair_slow (set_substate 1 s) tm tgt src2 bc2 ltac:(lia) ltac:(lia)).
  cbn [smem set_substate]. rewrite Hp2, Ha.
  rewrite !bind_modify.
  set (len := bits_at (smem s) q 16).
  at_state (slow_at tm tgt src2 (bc2 - 16) (set_substate 2 (set_aux0 len s))).
  unfold strd_state2.
  (* its complement *)
  destruct (tryreadbits_exact (set_substate 2 (set_aux0 len s)) Hbytes Hsend
              tm tgt 16 ltac:(lia) F src2 (bc2 - 16))
    as (src3 & bc3 & Hrun3 & Hp3 & Hs3 & Hn3 & Hb3 & Hx3);
    try (cbn [send set_substate set_aux0]; lia).
  cbn [send set_substate set_aux0] in Hs3.
  run Hrun3. cbv iota.
  run (getpair_slow (set_substate 2 (set_aux0 len s)) tm tgt src3 bc3
         ltac:(lia) ltac:(lia)).
  cbn [smem set_substate set_aux0].
  replace (8 * src3 - bc3) with (q + 16) by lia.
  rewrite bind_gets.
  change (aux0 (slow_at tm tgt src3 (bc3 - 16)
                  (set_substate 2 (set_aux0 len s)))) with len.
  pose proof (bits_at_range (smem s) q 16 ltac:(lia)) as Hlen. fold len in Hlen.
  rewrite (u16_lnot len Hlen).
  assert (bc3 = 16) as -> by lia.
  assert (src3 = q / 8 + 4) as -> by lia.
  change (16 - 16) with 0.
  destruct (negb (65535 - len =? bits_at (smem s) (q + 16) 16)).
  - reflexivity.
  - rewrite bind_modify. reflexivity.
Qed.

(** The output after a copy into the target span at its end. *)
Lemma memcpy_output tm tgt sm src len tm' tb :
  memcpy tm tgt sm src len = Some tm' ->
  0 <= tb <= tgt ->
  length tm' = length tm
  /\ firstn (Z.to_nat (tgt + len - tb)) (skipn (Z.to_nat tb) tm')
     = firstn (Z.to_nat (tgt - tb)) (skipn (Z.to_nat tb) tm)
       ++ firstn (Z.to_nat len) (skipn (Z.to_nat src) sm).
Proof.
  unfold memcpy. intros H Htb.
  destruct ((0 <=? tgt) && (0 <=? src) && (0 <=? len)
            && (tgt + len <=? Z.of_nat (length tm))
            && (src + len <=? Z.of_nat (length sm))) eqn:E; [ | discriminate ].
  injection H as <-.
  apply andb_true_iff in E; destruct E as [E H5].
  apply andb_true_iff in E; destruct E as [E H4].
  apply andb_true_iff in E; destruct E as [E H3].
  apply andb_true_iff in E; destruct E as [H1 H2].
  apply Z.leb_le in H1, H2, H3, H4, H5.
  assert (L1 : length (firstn (Z.to_nat tgt) tm) = Z.to_nat tgt)
    by (rewrite length_firstn; lia).
  assert (L2 : length (firstn (Z.to_nat len) (skipn (Z.to_nat src) sm))
               = Z.to_nat len)
    by (rewrite length_firstn, length_skipn; lia).
  split.
  - rewrite !length_app, L1, L2, length_skipn. lia.
  - rewrite skipn_app, L1.
    replace (Z.to_nat tb - Z.to_nat tgt)%nat with 0%nat by lia.
    cbn [skipn].
    rewrite firstn_app, length_skipn, L1.
    replace (Z.to_nat (tgt + len - tb) - (Z.to_nat tgt - Z.to_nat tb))%nat
      with (Z.to_nat len) by lia.
    rewrite firstn_app, L2, Nat.sub_diag. cbn [firstn].
    rewrite app_nil_r, firstn_firstn, Nat.min_id.
    f_equal.
    rewrite firstn_all2 by (rewrite length_skipn, L1; lia).
    rewrite skipn_firstn_comm.
    replace (Z.to_nat tgt - Z.to_nat tb)%nat with (Z.to_nat (tgt - tb)) by lia.
    reflexivity.
Qed.

Lemma memcpy_some tm tgt sm src len :
  0 <= tgt -> 0 <= src -> 0 <= len ->
  tgt + len <= Z.of_nat (length tm) -> src + len <= Z.of_nat (length sm) ->
  exists tm', memcpy tm tgt sm src len = Some tm'.
Proof.
  intros H1 H2 H3 H4 H5. unfold memcpy.
  replace ((0 <=? tgt) && (0 <=? src) && (0 <=? len)
           && (tgt + len <=? Z.of_nat (length tm))
           && (src + len <=? Z.of_nat (length sm))) with true.
  - eexists; reflexivity.
  - symmetry. repeat (apply andb_true_iff; split); apply Z.leb_le; lia.
Qed.

(** The run of [decodestrd] on a block that the two spans hold whole. *)
Lemma strd_whole F s :
  reservoir_ok s -> target_ok s -> send s < 2 ^ 64 -> tend s < 2 ^ 64 ->
  substate s = 0 -> bcount s <= 32 ->
  stored_start s + 32 + 8 * stored_len s <= 8 * send s ->
  stored_nlen s = 65535 - stored_len s ->
  target s + stored_len s <= tend s ->
  (3 <= F)%nat ->
  exists tm',
    decodestrd F s
    = Ok INFLT_OK
        (set_substate 0
           (set_aux0 0
              (slow_at tm' (target s + stored_len s)
                 (stored_start s / 8 + 4 + stored_len s) 0 s)))
    /\ length tm' = length (tmem s)
    /\ firstn (Z.to_nat (target s + stored_len s - tbgn s))
         (skipn (Z.to_nat (tbgn s)) tm')
       = output s ++ stored_data s.
Proof.
  intros Hres (Htb & Htt & Htend) Hs64 Ht64 Hsub Hbc Hav Hn Hroom HF.
  pose proof Hres as (Hbytes & Hsrc & Hsend & Hbc' & Hpos & Hbb).
  destruct (stored_start_bounds s) as (Hq & Hq8).
  pose proof (bits_at_range (smem s) (stored_start s) 16 ltac:(lia)) as Hlen.
  fold (stored_len s) in Hlen.
  rewrite (strd_header F s Hres Hsub Hbc ltac:(lia) HF).
  rewrite Hn, Z.eqb_refl. cbv iota. cbn [negb].
  destruct (memcpy_some (tmem s) (target s) (smem s)
              (stored_start s / 8 + 4) (stored_len s))
    as (tm' & Hcp); try lia.
  destruct (memcpy_output _ _ _ _ _ _ (tbgn s) Hcp ltac:(lia)) as (Hl & Hout).
  exists tm'. split; [ | split; [ exact Hl | exact Hout ] ].
  rewrite (strd_state3_whole
             (set_substate 3 (set_aux0 (stored_len s) s))
             (tmem s) (target s) (stored_start s / 8 + 4) tm');
    cbn [aux0 send tend smem set_substate set_aux0]; try lia;
    [ reflexivity | exact Hcp ].
Qed.

(** A stored block that the source span and the target span hold whole
    is copied to the output.  Let the decoder be at the start of the
    block, behind the three bits of its header, with at most 32 bits in
    the bit buffer; let the length field at the next byte boundary
    ([stored_len]) be followed by its complement, and the two spans have
    room for that many bytes.  [decodestrd] then returns [INFLT_OK]: the
    output grows by the bytes that follow the two fields
    ([stored_data]), the source position is behind them with the bit
    buffer empty, and the error code is as before. *)
Theorem decodestrd_copies_block (F : nat) (s : TInflator) :
  reservoir_ok s -> target_ok s -> send s < 2 ^ 64 -> tend s < 2 ^ 64 ->
  substate s = 0 -> bcount s <= 32 ->
  stored_start s + 32 + 8 * stored_len s <= 8 * send s ->
  stored_nlen s = 65535 - stored_len s ->
  target s + stored_len s <= tend s ->
  (3 <= F)%nat ->
  exists s',
    decodestrd F s = Ok INFLT_OK s'
    /\ output s' = output s ++ stored_data s
    /\ target s' = target s + stored_len s
    /\ source s' = stored_start s / 8 + 4 + stored_len s
    /\ bcount s' = 0 /\ bbuffer s' = 0
    /\ substate s' = 0
    /\ error s' = error s.
Proof.
  intros Hres Htgt Hs64 Ht64 Hsub Hbc Hav Hn Hroom HF.
  destruct (strd_whole F s Hres Htgt Hs64 Ht64 Hsub Hbc Hav Hn Hroom HF)
    as (tm' & Hrun & Hl & Hout).
  eexists. split; [ exact Hrun | ].
  unfold output at 1. fields.
  split; [ exact Hout | ].
  rewrite bits_at_zero. repeat split; reflexivity.
Qed.

Lemma decodestrd_copies_block_witness :
  exists s',
    decodestrd 3 (start [5; 0; 250; 255; 1; 2; 3; 4; 5] 8) = Ok INFLT_OK s'
    /\ output s'
       = output (start [5; 0; 250; 255; 1; 2; 3; 4; 5] 8)
         ++ stored_data (start [5; 0; 250; 255; 1; 2; 3; 4; 5] 8)
    /\ target s'
       = target (start [5; 0; 250; 255; 1; 2; 3; 4; 5] 8)
         + stored_len (start [5; 0; 250; 255; 1; 2; 3; 4; 5] 8)
    /\ source s'
       = stored_start (start [5; 0; 250; 255; 1; 2; 3; 4; 5] 8) / 8 + 4
         + stored_len (start [5; 0; 250; 255; 1; 2; 3; 4; 5] 8)
    /\ bcount s' = 0 /\ bbuffer s' = 0
    /\ substate s' = 0
    /\ error s' = error (start [5; 0; 250; 255; 1; 2; 3; 4; 5] 8).
Proof.
  apply (decodestrd_copies_block 3 (start [5; 0; 250; 255; 1; 2; 3; 4; 5] 8)).
  - unfold reservoir_ok.
    split; [ apply is_byteb_all; vm_compute; reflexivity | ].
    vm_compute. repeat split; discriminate.
  - vm_compute. repeat split; discriminate.
  - vm_compute. reflexivity.
  - vm_compute. reflexivity.
  - reflexivity.
  - vm_compute. discriminate.
  - vm_compute. discriminate.
  - vm_compute. reflexivity.
  - vm_compute. discriminate.
  - lia.
Defined.

(** A stored block whose length field is not followed by its complement
    is rejected.  With the decoder at the start of the block as above and
    the four bytes of the two fields in the source span, [decodestrd]
    returns [INFLT_ERROR] with the error code [INFLT_EBADBLOCK]; the
    target span is untouched. *)
Theorem decodestrd_rejects_bad_length (F : nat) (s : TInflator) :
  reservoir_ok s -> substate s = 0 -> bcount s <= 32 ->
  stored_start s + 32 <= 8 * send s ->
  stored_nlen s <> 65535 - stored_len s ->
  (3 <= F)%nat ->
  exists s',
    decodestrd F s = Ok INFLT_ERROR s'
    /\ error s' = INFLT_EBADBLOCK
    /\ tmem s' = tmem s /\ target s' = target s.
Proof.
  intros Hres Hsub Hbc Hav Hn HF.
  rewrite (strd_header F s Hres Hsub Hbc Hav HF).
  replace (65535 - stored_len s =? stored_nlen s) with false
    by (symmetry; apply Z.eqb_neq; lia).
  cbn [negb]. eexists. split; [ reflexivity | ].
  repeat split; reflexivity.
Qed.

Lemma decodestrd_rejects_bad_length_witness :
  exists s',
    decodestrd 3 (start [5; 0; 0; 0; 1; 2; 3; 4; 5] 8) = Ok INFLT_ERROR s'
    /\ error s' = INFLT_EBADBLOCK
    /\ tmem s' = tmem (start [5; 0; 0; 0; 1; 2; 3; 4; 5] 8)
    /\ target s' = target (start [5; 0; 0; 0; 1; 2; 3; 4; 5] 8).
Proof.
  apply (decodestrd_rejects_bad_length 3 (start [5; 0; 0; 0; 1; 2; 3; 4; 5] 8)).
  - unfold reservoir_ok.
    split; [ apply is_byteb_all; vm_compute; reflexivity | ].
    vm_compute. repeat split; discriminate.
  - reflexivity.
  - vm_compute. discriminate.
  - vm_compute. discriminate.
  - vm_compute. discriminate.
  - lia.
Defined.

(** * Block headers *)

(** The header of a block: the final flag, and the type, which selects
    the state of the decoder. *)
Lemma inflate_loop_header f s :
  reservoir_ok s -> state s = 0 -> final s = 0 ->
  bitpos s + 3 <= 8 * send s -> (4 <= f)%nat ->
  exists src bc,
    inflate_loop (S f) s
    = inflate_loop f
        (slow_at (tmem s) (target s) src bc
           (set_state (bits_at (smem s) (bitpos s + 1) 2 + 1)
              (set_final (bits_at (smem s) (bitpos s) 1) s)))
    /\ 8 * src - bc = bitpos s + 3
    /\ source s <= src <= send s
    /\ 0 <= bc <= 63
    /\ (bc = bcount s - 3 \/ bc < 8).
Proof.
  intros (Hbytes & Hsrc & Hsend & Hbc & Hpos & Hbb) Hst Hfin Hav Hf.
  set (p := bitpos s) in *.
  assert (Hp : p = 8 * source s - bcount s) by reflexivity.
  set (tm := tmem s). set (tgt := target s).
  destruct (tryreadbits_exact s Hbytes Hsend tm tgt 3 ltac:(lia) (S f)
              (source s) (bcount s))
    as (src1 & bc1 & Hrun1 & Hp1 & Hs1 & Hn1 & Hb1 & Hx1); try lia.
  unfold tm, tgt in Hrun1. rewrite (slow_at_self s Hbb) in Hrun1.
  exists src1, (bc1 - 3).
  split; [ | repeat split; lia ].
  cbn [inflate_loop]. rewrite bind_gets, Hst.
  change (0 =? 0) with true. cbv iota.
  rewrite bind_gets, Hfin. change (negb (0 =? 0)) with false. cbv iota.
  run Hrun1. cbv iota.
  run (getbits_slow s tm tgt src1 bc1 1 ltac:(lia) ltac:(lia) ltac:(lia)).
  rewrite Z.min_l by lia. rewrite Hp1, <- Hp.
  rewrite bind_modify.
  at_state (slow_at tm tgt src1 bc1 (set_final (bits_at (smem s) p 1) s)).
  run (dropbits_slow (set_final (bits_at (smem s) p 1) s) tm tgt src1 bc1 1
         ltac:(lia) ltac:(lia) ltac:(lia)).
  run (getbits_slow (set_final (bits_at (smem s) p 1) s) tm tgt src1
         (bc1 - 1) 2 ltac:(lia) ltac:(lia) ltac:(lia)).
  rewrite Z.min_l by lia. cbn [smem set_final].
  replace (8 * src1 - (bc1 - 1)) with (p + 1) by lia.
  rewrite bind_modify.
  at_state (slow_at tm tgt src1 (bc1 - 1)
              (set_state (bits_at (smem s) (p + 1) 2)
                 (set_final (bits_at (smem s) p 1) s))).
  run (dropbits_slow
         (set_state (bits_at (smem s) (p + 1) 2)
            (set_final (bits_at (smem s) p 1) s))
         tm tgt src1 (bc1 - 1) 2 ltac:(lia) ltac:(lia) ltac:(lia)).
  rewrite bind_modify.
  pose proof (bits_at_range (smem s) (p + 1) 2 ltac:(lia)) as Ht.
  change (2 ^ 2) with 4 in Ht.
  f_equal. unfold slow_at, with_reservoir. fields.
  rewrite uxx_small by (change (2 ^ 64) with 18446744073709551616; lia).
  replace (bc1 - 1 - 2) with (bc1 - 3) by lia.
  reflexivity.
Qed.

(** The state [inflator_inflate] enters its loop with. *)
Lemma inflate_enters fuel fin s :
  state s = 0 ->
  exists fi,
    inflator_inflate fuel fin s
    = inflate_loop fuel (set_used 1 (set_finalinput fi s)).
Proof.
  intros Hst. unfold inflator_inflate. rewrite bind_gets.
  destruct ((finalinput s =? 0) && negb (fin =? 0)).
  - exists 1. rewrite bind_modify, bind_modify.
    unfold inflate_dispatch. rewrite bind_gets.
    cbn [state set_used set_finalinput]. rewrite Hst. reflexivity.
  - exists (finalinput s). rewrite bind_ret, bind_modify.
    unfold inflate_dispatch. rewrite bind_gets.
    cbn [state set_used]. rewrite Hst.
    change (0 =? 5) with false. cbv iota.
    f_equal; destruct s; reflexivity.
Qed.

(** The reserved block type is rejected.  With the decoder between two
    blocks and the three bits of a header in the source span, the type
    bits being 3, [inflator_inflate] returns [INFLT_ERROR] with the error
    code [INFLT_EBADBLOCK] and leaves the target span untouched. *)
Theorem reserved_block_type_is_rejected (fuel : nat) (fin : Z)
    (s : TInflator) :
  reservoir_ok s -> state s = 0 -> final s = 0 ->
  bitpos s + 3 <= 8 * send s ->
  bits_at (smem s) (bitpos s + 1) 2 = 3 ->
  (5 <= fuel)%nat ->
  exists s',
    inflator_inflate fuel fin s = Ok INFLT_ERROR s'
    /\ error s' = INFLT_EBADBLOCK
    /\ tmem s' = tmem s /\ target s' = target s.
Proof.
  intros Hres Hst Hfin Hav Hty Hfuel.
  destruct (inflate_enters fuel fin s Hst) as (fi & ->).
  destruct fuel as [ | f ]; [ lia | ].
  destruct (inflate_loop_header f (set_used 1 (set_finalinput fi s))
              Hres Hst Hfin Hav ltac:(lia))
    as (src & bc & Hrun & _).
  rewrite Hrun. cbn [smem set_used set_finalinput].
  change (bitpos (set_used 1 (set_finalinput fi s))) with (bitpos s).
  rewrite Hty.
  destruct f as [ | f ]; [ lia | ].
  cbn [inflate_loop]. rewrite bind_gets. fields.
  change (3 + 1) with 4.
  change (4 =? 0) with false. change (4 =? 1) with false.
  change (4 =? 2) with false. change (4 =? 3) with false.
  change (4 =? 4) with true. cbv iota.
  unfold SETERROR, l_error. rewrite bind_modify, bind_gets. fields.
  change (INFLT_EBADBLOCK =? 0) with false. cbv iota.
  rewrite bind_ret. unfold ret.
  eexists. split; [ reflexivity | ].
  repeat split; reflexivity.
Qed.

Lemma reserved_block_type_is_rejected_witness :
  exists s',
    inflator_inflate 5 0 (start [7; 0] 8) = Ok INFLT_ERROR s'
    /\ error s' = INFLT_EBADBLOCK
    /\ tmem s' = tmem (start [7; 0] 8) /\ target s' = target (start [7; 0] 8).
Proof.
  apply (reserved_block_type_is_rejected 5 0 (start [7; 0] 8)).
  - unfold reservoir_ok.
    split; [ apply is_byteb_all; vm_compute; reflexivity | ].
    vm_compute. repeat split; discriminate.
  - reflexivity.
  - reflexivity.
  - vm_compute. discriminate.
  - vm_compute. reflexivity.
  - lia.
Defined.

(** * A stream of one stored block *)

(** A stored block that is the last of its stream, from behind its
    header on. *)
Lemma stored_block_ends_stream f s :
  reservoir_ok s -> target_ok s -> send s < 2 ^ 64 -> tend s < 2 ^ 64 ->
  state s = 1 -> final s = 1 -> substate s = 0 -> bcount s <= 32 ->
  stored_start s + 32 + 8 * stored_len s <= 8 * send s ->
  stored_nlen s = 65535 - stored_len s ->
  target s + stored_len s <= tend s ->
  (3 <= f)%nat ->
  exists s',
    inflate_loop f s = Ok INFLT_OK s'
    /\ output s' = output s ++ stored_data s
    /\ source s' = stored_start s / 8 + 4 + stored_len s
    /\ send s' = send s
    /\ error s' = error s.
Proof.
  intros Hres Htgt Hs64 Ht64 Hst Hfin Hsub Hbc Hav Hn Hroom Hf.
  destruct f as [ | f ]; [ lia | ].
  destruct (strd_whole (S f) s Hres Htgt Hs64 Ht64 Hsub Hbc Hav Hn Hroom
              ltac:(lia))
    as (tm' & Hrun & Hl & Hout).
  eexists. split; [ | split; [ | split; [ | split ] ] ].
  - cbn [inflate_loop]. rewrite bind_gets, Hst.
    change (1 =? 0) with false. change (1 =? 1) with true. cbv iota.
    run Hrun. change (negb (INFLT_OK =? 0)) with false. cbv iota.
    rewrite bind_modify.
    destruct f as [ | f ]; [ lia | ].
    cbn [inflate_loop]. rewrite bind_gets. fields.
    change (0 =? 0) with true. cbv iota.
    rewrite bind_gets. fields. rewrite Hfin.
    change (negb (1 =? 0)) with true. cbv iota.
    rewrite bind_modify. unfold ret. reflexivity.
  - unfold output at 1. fields. exact Hout.
  - fields. reflexivity.
  - fields. reflexivity.
  - fields. reflexivity.
Qed.

(** A final stored block from its header on. *)
Lemma inflate_loop_stored_final f s q len :
  reservoir_ok s -> target_ok s -> send s < 2 ^ 64 -> tend s < 2 ^ 64 ->
  state s = 0 -> final s = 0 -> substate s = 0 -> bcount s <= 32 ->
  q = 8 * ((bitpos s + 3 + 7) / 8) ->
  bits_at (smem s) (bitpos s) 1 = 1 ->
  bits_at (smem s) (bitpos s + 1) 2 = 0 ->
  len = bits_at (smem s) q 16 ->
  bits_at (smem s) (q + 16) 16 = 65535 - len ->
  q + 32 + 8 * len <= 8 * send s ->
  target s + len <= tend s ->
  (4 <= f)%nat ->
  exists s',
    inflate_loop (S f) s = Ok INFLT_OK s'
    /\ output s'
       = output s
         ++ firstn (Z.to_nat len) (skipn (Z.to_nat (q / 8 + 4)) (smem s))
    /\ source s' = q / 8 + 4 + len
    /\ send s' = send s
    /\ error s' = error s.
Proof.
  intros Hres Htgt Hs64 Ht64 Hst Hfin Hsub Hbc Hq Hb0 Hb1 Hlen Hnlen Hav
    Hroom Hfuel.
  pose proof Hres as (Hbytes & Hsrc & Hsend & Hbc' & Hpos & Hbb).
  assert (Hq' : bitpos s + 3 <= q <= bitpos s + 10 /\ q = 8 * (q / 8)).
  { rewrite Hq.
    rewrite (Z.mul_comm 8 ((bitpos s + 3 + 7) / 8)), Z.div_mul by lia.
    pose proof (Z.div_mod (bitpos s + 3 + 7) 8 ltac:(lia)).
    pose proof (Z.mod_pos_bound (bitpos s + 3 + 7) 8 ltac:(lia)).
    lia. }
  pose proof (bits_at_range (smem s) q 16 ltac:(lia)) as Hlr.
  rewrite <- Hlen in Hlr.
  assert (Hav0 : bitpos s + 3 <= 8 * send s) by lia.
  destruct (inflate_loop_header f s Hres Hst Hfin Hav0 ltac:(lia))
    as (src & bc & Hrun & Hp2 & Hs2 & Hb2 & Hx2).
  rewrite Hrun. clear Hrun.
  rewrite Hb0, Hb1. change (0 + 1) with 1.
  set (s2 := slow_at (tmem s) (target s) src bc
               (set_state 1 (set_final 1 s))).
  assert (Hres2 : reservoir_ok s2).
  { apply reservoir_ok_slow_at; try assumption; cbn [send set_state set_final];
      lia. }
  assert (Hq2 : stored_start s2 = q).
  { unfold stored_start, bitpos, s2. fields. rewrite Hp2, Hq. reflexivity. }
  assert (Hsm2 : smem s2 = smem s) by reflexivity.
  assert (Hl2 : stored_len s2 = len).
  { unfold stored_len. rewrite Hq2, Hsm2. symmetry. exact Hlen. }
  assert (Hse2 : send s2 = send s) by reflexivity.
  assert (Hte2 : tend s2 = tend s) by reflexivity.
  assert (Hta2 : target s2 = target s) by reflexivity.
  assert (Hbc2 : bcount s2 = bc) by reflexivity.
  assert (Ho2 : output s2 = output s) by reflexivity.
  assert (He2 : error s2 = error s) by reflexivity.
  assert (Hst2 : state s2 = 1) by reflexivity.
  assert (Hfi2 : final s2 = 1) by reflexivity.
  assert (Hsu2 : substate s2 = 0) by exact Hsub.
  assert (Htg2 : target_ok s2) by exact Htgt.
  clearbody s2.
  assert (Hs642 : send s2 < 2 ^ 64) by (rewrite Hse2; exact Hs64).
  assert (Ht642 : tend s2 < 2 ^ 64) by (rewrite Hte2; exact Ht64).
  assert (Hb32 : bcount s2 <= 32) by (rewrite Hbc2; lia).
  assert (Hav2 : stored_start s2 + 32 + 8 * stored_len s2 <= 8 * send s2)
    by (rewrite Hl2, Hq2, Hse2; lia).
  assert (Hn2 : stored_nlen s2 = 65535 - stored_len s2)
    by (unfold stored_nlen; rewrite Hl2, Hq2, Hsm2; exact Hnlen).
  assert (Hroom2 : target s2 + stored_len s2 <= tend s2)
    by (rewrite Hl2, Hta2, Hte2; lia).
  destruct (stored_block_ends_stream f s2 Hres2 Htg2 Hs642 Ht642 Hst2 Hfi2
              Hsu2 Hb32 Hav2 Hn2 Hroom2 ltac:(lia))
    as (s' & Hrun & Ho & Hsr & Hsd & He).
  exists s'. split; [ exact Hrun | ].
  rewrite Ho, Hsr, Hsd, He, Ho2, He2, Hse2.
  unfold stored_data. rewrite Hl2, Hq2, Hsm2.
  repeat split; reflexivity.
Qed.

(** The same from the call of [inflator_inflate]. *)
Lemma inflate_stored_final fuel fin s q len :
  reservoir_ok s -> target_ok s -> send s < 2 ^ 64 -> tend s < 2 ^ 64 ->
  state s = 0 -> final s = 0 -> substate s = 0 -> bcount s <= 32 ->
  q = 8 * ((bitpos s + 3 + 7) / 8) ->
  bits_at (smem s) (bitpos s) 1 = 1 ->
  bits_at (smem s) (bitpos s + 1) 2 = 0 ->
  len = bits_at (smem s) q 16 ->
  bits_at (smem s) (q + 16) 16 = 65535 - len ->
  q + 32 + 8 * len <= 8 * send s ->
  target s + len <= tend s ->
  (5 <= fuel)%nat ->
  exists s',
    inflator_inflate fuel fin s = Ok INFLT_OK s'
    /\ output s'
       = output s
         ++ firstn (Z.to_nat len) (skipn (Z.to_nat (q / 8 + 4)) (smem s))
    /\ source s' = q / 8 + 4 + len
    /\ send s' = send s
    /\ error s' = error s.
Proof.
  intros Hres Htgt Hs64 Ht64 Hst Hfin Hsub Hbc Hq Hb0 Hb1 Hlen Hnlen Hav
    Hroom Hfuel.
  destruct (inflate_enters fuel fin s Hst) as (fi & ->).
  destruct fuel as [ | f ]; [ lia | ].
  exact (inflate_loop_stored_final f (set_used 1 (set_finalinput fi s)) q len
           Hres Htgt Hs64 Ht64 Hst Hfin Hsub Hbc Hq Hb0 Hb1 Hlen Hnlen Hav
           Hroom ltac:(lia)).
Qed.

Lemma stored_stream_bytes data :
  Forall is_byte data -> Z.of_nat (length data) < 65536 ->
  Forall is_byte (stored_stream data).
Proof.
  intros Hd Hn. unfold stored_stream.
  set (n := Z.of_nat (length data)) in *.
  assert (Hn0 : 0 <= n) by (unfold n; lia).
  pose proof (Z.mod_pos_bound n 256 ltac:(lia)).
  assert (0 <= n / 256 < 256)
    by (split; [ apply Z.div_pos; lia | apply Z.div_lt_upper_bound; lia ]).
  apply Forall_app; split; [ | exact Hd ].
  repeat constructor; unfold is_byte; lia.
Qed.

(** The fields of the stream of a stored block. *)
Lemma stored_stream_fields data :
  Forall is_byte data -> Z.of_nat (length data) < 65536 ->
  bits_at (stored_stream data) 0 1 = 1
  /\ bits_at (stored_stream data) 1 2 = 0
  /\ bits_at (stored_stream data) 8 16 = Z.of_nat (length data)
  /\ bits_at (stored_stream data) 24 16 = 65535 - Z.of_nat (length data).
Proof.
  intros Hd Hn.
  pose proof (stored_stream_bytes data Hd Hn) as Hb.
  set (l := stored_stream data) in *.
  set (n := Z.of_nat (length data)) in *.
  assert (Hn0 : 0 <= n) by (unfold n; lia).
  assert (B0 : bits_at l (8 * 0) 8 = 1)
    by (apply bits_at_byte; [ exact Hb | reflexivity ]).
  assert (B1 : bits_at l (8 * 1) 8 = n mod 256)
    by (apply bits_at_byte; [ exact Hb | reflexivity ]).
  assert (B2 : bits_at l (8 * 2) 8 = n / 256)
    by (apply bits_at_byte; [ exact Hb | reflexivity ]).
  assert (B3 : bits_at l (8 * 3) 8 = 255 - n mod 256)
    by (apply bits_at_byte; [ exact Hb | reflexivity ]).
  assert (B4 : bits_at l (8 * 4) 8 = 255 - n / 256)
    by (apply bits_at_byte; [ exact Hb | reflexivity ]).
  change (8 * 0) with 0 in B0. change (8 * 1) with 8 in B1.
  change (8 * 2) with 16 in B2. change (8 * 3) with 24 in B3.
  change (8 * 4) with 32 in B4.
  pose proof (Z.div_mod n 256 ltac:(lia)) as Hdm.
  repeat split.
  - rewrite <- (bits_at_low l 0 8 1) by lia. rewrite B0. reflexivity.
  - rewrite <- (bits_at_low l 1 7 2) by lia.
    change 7 with (8 - 1). change 1 with (0 + 1) at 1.
    rewrite <- (bits_at_drop l 0 8 1) by lia. rewrite B0. reflexivity.
  - change 16 with (8 + 8). rewrite bits_at_split by lia.
    change (8 + 8) with 16. rewrite B1, B2. change (2 ^ 8) with 256. lia.
  - change 16 with (8 + 8). rewrite bits_at_split by lia.
    change (24 + 8) with 32. rewrite B3, B4. change (2 ^ 8) with 256. lia.
Qed.

(** A stream of one stored block decodes to its bytes.  For [data] of
    fewer than 65536 bytes, a fresh decoder given the stream that holds
    [data] in one final stored block ([stored_stream]) and a target span
    with room for it returns [INFLT_OK] from one call, with [data] as its
    output, the source span read to its end and no error code. *)
Theorem inflate_stored_stream (data : list Z) (outsz fuel : nat) (fin : Z) :
  Forall is_byte data ->
  Z.of_nat (length data) < 65536 ->
  (length data <= outsz)%nat -> Z.of_nat outsz < 2 ^ 64 ->
  (5 <= fuel)%nat ->
  exists s',
    inflator_inflate fuel fin (start (stored_stream data) outsz)
    = Ok INFLT_OK s'
    /\ output s' = data
    /\ source s' = send s'
    /\ error s' = 0.
Proof.
  intros Hd Hn Hroom Hout Hfuel.
  pose proof (stored_stream_bytes data Hd Hn) as Hb.
  destruct (stored_stream_fields data Hd Hn) as (F0 & F1 & F2 & F3).
  set (s := start (stored_stream data) outsz).
  assert (Hsm : smem s = stored_stream data) by reflexivity.
  assert (Hse : send s = Z.of_nat (length (stored_stream data)))
    by reflexivity.
  assert (Hlen : length (stored_stream data) = (5 + length data)%nat)
    by reflexivity.
  assert (Hte : tend s = Z.of_nat (length (repeat 0 outsz))) by reflexivity.
  rewrite List.repeat_length in Hte.
  destruct (inflate_stored_final fuel fin s 8 (Z.of_nat (length data)))
    as (s' & Hrun & Ho & Hsrc & Hsend & Herr).
  - unfold reservoir_ok. rewrite Hsm, Hse.
    split; [ exact Hb | ].
    change (source s) with 0. change (bcount s) with 0.
    change (bitpos s) with 0. change (bbuffer s) with 0.
    rewrite bits_at_zero. repeat split; lia.
  - unfold target_ok. rewrite Hte.
    change (tbgn s) with 0. change (target s) with 0.
    change (tmem s) with (repeat 0 outsz). rewrite List.repeat_length. lia.
  - rewrite Hse, Hlen. change (2 ^ 64) with 18446744073709551616. lia.
  - rewrite Hte. exact Hout.
  - reflexivity.
  - reflexivity.
  - reflexivity.
  - change (bcount s) with 0. lia.
  - reflexivity.
  - rewrite Hsm. exact F0.
  - rewrite Hsm. exact F1.
  - rewrite Hsm. symmetry. exact F2.
  - rewrite Hsm. exact F3.
  - rewrite Hse, Hlen. lia.
  - rewrite Hte. change (target s) with 0. lia.
  - exact Hfuel.
  - exists s'. split; [ exact Hrun | ].
    rewrite Ho, Hsrc, Hsend, Herr, Hsm, Hse, Hlen.
    change (output s) with (@nil Z). change (error s) with 0.
    change (Z.to_nat (8 / 8 + 4)) with 5%nat.
    split; [ | split; [ | reflexivity ] ].
    + cbn [app]. unfold stored_stream. cbn [app skipn].
      rewrite Nat2Z.id. apply firstn_all.
    + change (8 / 8 + 4) with 5. lia.
Qed.

Lemma inflate_stored_stream_witness :
  exists s',
    inflator_inflate 5 0 (start (stored_stream [72; 105]) 4) = Ok INFLT_OK s'
    /\ output s' = [72; 105]
    /\ source s' = send s'
    /\ error s' = 0.
Proof.
  apply (inflate_stored_stream [72; 105] 4 5 0).
  - apply is_byteb_all. reflexivity.
  - reflexivity.
  - cbn [length]. lia.
  - reflexivity.
  - lia.
Defined.

(** * The bytes of a match *)

Lemma nthZ_neg {A} (l : list A) i : i < 0 -> nthZ l i = None.
Proof.
  intros H; unfold nthZ.
  replace (i <? 0) with true by (symmetry; apply Z.ltb_lt; lia). reflexivity.
Qed.

Lemma nthZ_nonneg {A} (l : list A) i :
  0 <= i -> nthZ l i = nth_error l (Z.to_nat i).
Proof.
  intros H; unfold nthZ.
  replace (i <? 0) with false by (symmetry; apply Z.ltb_ge; lia). reflexivity.
Qed.

(** An array after the write of one element. *)
Lemma nthZ_updZ {A} (l l' : list A) i x j :
  updZ l i x = Some l' ->
  nthZ l' j = if j =? i then Some x else nthZ l j.
Proof.
  intros H. apply updZ_inv in H. destruct H as (Hi & ->).
  destruct (Z_lt_le_dec j 0) as [Hj | Hj].
  - rewrite !nthZ_neg by lia.
    replace (j =? i) with false by (symmetry; apply Z.eqb_neq; lia).
    reflexivity.
  - rewrite !nthZ_nonneg by lia.
    assert (Hl : length (firstn (Z.to_nat i) l) = Z.to_nat i)
      by (rewrite length_firstn; lia).
    destruct (Z.eqb_spec j i) as [ -> | Hne ].
    + rewrite nth_error_app2 by lia. rewrite Hl, Nat.sub_diag. reflexivity.
    + destruct (Z_lt_le_dec j i) as [Hlt | Hge].
      * rewrite nth_error_app1 by lia.
        rewrite nth_error_firstn.
        replace (Z.to_nat j <? Z.to_nat i)%nat with true
          by (symmetry; apply Nat.ltb_lt; lia).
        reflexivity.
      * rewrite nth_error_app2 by lia. rewrite Hl.
        destruct (Z.to_nat j - Z.to_nat i)%nat as [ | m ] eqn:E; [ lia | ].
        cbn [nth_error]. rewrite nth_error_skipn. f_equal. lia.
Qed.

(** A run inside the target array is defined. *)
Lemma copy_run_some win k : forall buf tm tgt,
  0 <= buf < tgt -> tgt + Z.of_nat k <= Z.of_nat (length tm) ->
  exists tm', copy_run k win false buf tm tgt = Some tm'.
Proof.
  induction k as [ | k IH ]; intros buf tm tgt Hb Hl; cbn [copy_run].
  - eexists; reflexivity.
  - destruct (nthZ_some tm buf ltac:(lia)) as (b & ->). cbn [obind].
    rewrite (updZ_some tm tgt b) by lia. cbn [obind].
    apply IH; [ lia | ].
    rewrite upd_length by lia. lia.
Qed.

(** The array after a run inside it: each byte of the run is the byte
    [tgt - buf] places before it, and the rest is as before. *)
Lemma copy_run_content win k : forall buf tm tgt tm',
  copy_run k win false buf tm tgt = Some tm' -> buf < tgt ->
  (forall i, tgt <= i < tgt + Z.of_nat k ->
     nthZ tm' i = nthZ tm' (i - (tgt - buf)))
  /\ (forall i, i < tgt \/ tgt + Z.of_nat k <= i -> nthZ tm' i = nthZ tm i).
Proof.
  induction k as [ | k IH ]; intros buf tm tgt tm' H Hb; cbn [copy_run] in H.
  - injection H as <-. split; [ intros i Hi; lia | reflexivity ].
  - destruct (nthZ tm buf) as [ b | ] eqn:Eb; [ | discriminate ].
    cbn [obind] in H.
    destruct (updZ tm tgt b) as [ tm1 | ] eqn:Hu; [ | discriminate ].
    cbn [obind] in H.
    destruct (IH (buf + 1) tm1 (tgt + 1) tm' H ltac:(lia)) as (Hin & Hout).
    assert (Hrest : forall i, i < tgt \/ tgt + Z.of_nat (S k) <= i ->
                      nthZ tm' i = nthZ tm i).
    { intros i Hi. rewrite Hout by lia.
      rewrite (nthZ_updZ _ _ _ _ i Hu).
      replace (i =? tgt) with false by (symmetry; apply Z.eqb_neq; lia).
      reflexivity. }
    split; [ | exact Hrest ].
    intros i Hi.
    destruct (Z.eq_dec i tgt) as [ -> | Hne ].
    + rewrite Hout by lia.
      rewrite (nthZ_updZ _ _ _ _ tgt Hu), Z.eqb_refl.
      replace (tgt - (tgt - buf)) with buf by lia.
      rewrite Hrest by lia. symmetry; exact Eb.
    + replace (tgt - buf) with (tgt + 1 - (buf + 1)) by lia.
      apply Hin. lia.
Qed.



(** A match that reaches back further than the output and the window
    contents is rejected.  With room left in the target span and a
    distance [d] beyond the bytes written to the span plus the [count]
    bytes of the window, [copybytes] returns [INFLT_ERROR] and changes
    nothing but the error code, which is [INFLT_EFAROFFSET]. *)
Theorem copybytes_rejects_far_distance (F : nat) (d len : Z)
    (s : TInflator) :
  target_ok s -> tend s < 2 ^ 64 -> target s < tend s ->
  0 <= count s ->
  target s - tbgn s + count s < d -> d < 2 ^ 64 ->
  (1 <= F)%nat ->
  copybytes F d len s = Ok INFLT_ERROR (set_error INFLT_EFAROFFSET s).
Proof.
  intros (Htb & Htt & Htend) Ht64 Hroom Hc Hd Hd64 HF.
  unfold copybytes. rewrite bind_gets.
  destruct F as [ | F ]; [ lia | ]. cbn [copybytes_loop].
  rewrite (uxx_small (tend s - target s)) by lia.
  replace (tend s - target s =? 0) with false
    by (symmetry; apply Z.eqb_neq; lia).
  rewrite bind_gets. unfold match_source.
  rewrite (uxx_small (target s - tbgn s)) by lia.
  replace (target s - tbgn s <? d) with true
    by (symmetry; apply Z.ltb_lt; lia).
  rewrite (uxx_small (d - (target s - tbgn s))) by lia.
  replace (count s <? d - (target s - tbgn s)) with true
    by (symmetry; apply Z.ltb_lt; lia).
  reflexivity.
Qed.

Lemma copybytes_rejects_far_distance_witness :
  copybytes 1 3 5 (set_target 2 (start [] 8))
  = Ok INFLT_ERROR (set_error INFLT_EFAROFFSET (set_target 2 (start [] 8))).
Proof.
  apply (copybytes_rejects_far_distance 1 3 5 (set_target 2 (start [] 8))).
  - vm_compute. repeat split; discriminate.
  - vm_compute. reflexivity.
  - vm_compute. reflexivity.
  - vm_compute. discriminate.
  - vm_compute. reflexivity.
  - reflexivity.
  - lia.
Defined.

(** * The code lengths of a dynamic block *)

Lemma set_aux3_tables a b x y s :
  set_aux3 a (set_tables x (set_aux3 b (set_tables y s)))
  = set_aux3 a (set_tables x s).
Proof. destruct s; reflexivity. Qed.

Lemma set_aux3_tables_self s t :
  tables s = Some t -> set_aux3 (aux3 s) (set_tables (Some t) s) = s.
Proof. destruct s; cbn; intros ->; reflexivity. Qed.

(** The loop that writes a repeated length: [k] entries of the array from
    the position [aux3] on become the length, the rest of the array is
    as before, and [aux3] moves on by [k]. *)
Lemma repeat_length_stores prev : forall k s t,
  tables s = Some t -> 0 <= aux3 s ->
  aux3 s + Z.of_nat k <= Z.of_nat (length (lengths t)) ->
  Z.of_nat (length (lengths t)) < 2 ^ 64 ->
  exists t',
    repeat_length k prev s
    = Ok tt (set_aux3 (aux3 s + Z.of_nat k) (set_tables (Some t') s))
    /\ symbols t' = symbols t
    /\ length (lengths t') = length (lengths t)
    /\ forall j,
         nthZ (lengths t') j
         = if (aux3 s <=? j) && (j <? aux3 s + Z.of_nat k)
           then Some (u16 prev) else nthZ (lengths t) j.
Proof.
  induction k as [ | k IH ]; intros s t Ht H0 Hk H64.
  - exists t. cbn [repeat_length]. rewrite Z.add_0_r.
    rewrite (set_aux3_tables_self s t Ht).
    repeat split. intros j.
    replace ((aux3 s <=? j) && (j <? aux3 s)) with false; [ reflexivity | ].
    symmetry. apply andb_false_iff.
    destruct (Z.leb_spec (aux3 s) j); [ right; apply Z.ltb_ge; lia | left; reflexivity ].
  - cbn [repeat_length]. rewrite bind_gets.
    unfold store_length, get_lengths, put_lengths.
    rewrite !bind_assoc.
    rewrite (bind_geto _ (lengths t)) by (rewrite Ht; reflexivity).
    rewrite bind_assoc.
    assert (Hu : updZ (lengths t) (aux3 s) (u16 prev)
                 = Some (firstn (Z.to_nat (aux3 s)) (lengths t)
                           ++ u16 prev :: skipn (S (Z.to_nat (aux3 s))) (lengths t)))
      by (apply updZ_some; lia).
    rewrite (bind_lift _ _ _ _ Hu).
    rewrite bind_assoc.
    rewrite (bind_geto _ t) by exact Ht.
    rewrite !bind_modify.
    rewrite (uxx_small (aux3 s + 1)) by lia.
    set (l1 := firstn (Z.to_nat (aux3 s)) (lengths t)
                 ++ u16 prev :: skipn (S (Z.to_nat (aux3 s))) (lengths t)) in *.
    set (t1 := mkTables (symbols t) l1).
    assert (Hl1 : length l1 = length (lengths t))
      by (unfold l1; apply upd_length; lia).
    destruct (IH (set_aux3 (aux3 s + 1) (set_tables (Some t1) s)) t1)
      as (t' & Hrun & Hsym & Hlen & Hnth).
    + reflexivity.
    + cbn [aux3 set_aux3]. lia.
    + cbn [aux3 set_aux3]. change (lengths t1) with l1. lia.
    + change (lengths t1) with l1. lia.
    + exists t'. cbn [aux3 set_aux3] in Hrun, Hnth.
      rewrite set_aux3_tables in Hrun.
      replace (aux3 s + Z.of_nat (S k)) with (aux3 s + 1 + Z.of_nat k) by lia.
      split; [ exact Hrun | ].
      split; [ rewrite Hsym; reflexivity | ].
      split; [ rewrite Hlen; exact Hl1 | ].
      intros j. rewrite (Hnth j). change (lengths t1) with l1.
      rewrite (nthZ_updZ (lengths t) l1 (aux3 s) (u16 prev) j Hu).
      destruct (Z.leb_spec (aux3 s + 1) j); destruct (Z.leb_spec (aux3 s) j);
        destruct (Z.ltb_spec j (aux3 s + 1 + Z.of_nat k));
        destruct (Z.eqb_spec j (aux3 s)); cbn [andb]; try reflexivity; lia.
Qed.

(** The bit reader leaves the array of lengths and its index alone. *)
Lemma fetch_entry_keeps fuel tbl base bits shift s oe s1 :
  fetch_entry fuel tbl base bits shift s = Ok oe s1 ->
  aux3 s1 = aux3 s /\ tables s1 = tables s.
Proof.
  intros H.
  pose proof (preserves_fetch_entry
                (fun x => aux3 x = aux3 s /\ tables x = tables s)
                ltac:(intros ? ? ?; assumption)
                ltac:(intros ? ? ?; assumption)
                ltac:(intros ? ? ?; assumption)
                fuel tbl base bits shift s (conj eq_refl eq_refl)) as P.
  rewrite H in P. exact P.
Qed.

Lemma read_repeat_keeps fuel e s o s1 :
  read_repeat fuel e s = Ok o s1 ->
  aux3 s1 = aux3 s /\ tables s1 = tables s.
Proof.
  intros H.
  pose proof (preserves_read_repeat
                (fun x => aux3 x = aux3 s /\ tables x = tables s)
                ltac:(intros ? ? ?; assumption)
                ltac:(intros ? ? ?; assumption)
                ltac:(intros ? ? ?; assumption)
                fuel e s (conj eq_refl eq_refl)) as P.
  rewrite H in P. exact P.
Qed.

(** The count of a repeat code is 3 to 138. *)
Lemma read_repeat_count fuel e s len replen s1 :
  read_repeat fuel e s = Ok (Some (len, replen)) s1 ->
  3 <= replen <= 138.
Proof.
  unfold read_repeat. intros H.
  apply bind_inv in H. destruct H as (si & sa & Hsi & H).
  unfold lift in Hsi.
  destruct (nthZ replen_sinfo (TEntry.info e - 16)) as [ si' | ] eqn:Esi;
    [ | discriminate ].
  injection Hsi as -> ->.
  cbv zeta in H.
  apply bind_inv in H. destruct H as (b & sb & _ & H).
  destruct b; [ | discriminate ].
  apply bind_inv in H. destruct H as (u & sc & _ & H).
  apply bind_inv in H. destruct H as (g & sd & Hg & H).
  apply bind_inv in H. destruct H as (u' & se & _ & H).
  injection H as _ <- _.
  unfold getbits in Hg. rewrite bind_gets in Hg.
  apply bind_inv in Hg. destruct Hg as (m & sf & Hm & Hg).
  injection Hg as <- _.
  assert (Hcase : si = (0x02, 0x03) \/ si = (0x03, 0x03) \/ si = (0x07, 0x0b)).
  { unfold nthZ in Esi. destruct (TEntry.info e - 16 <? 0); [ discriminate | ].
    destruct (Z.to_nat (TEntry.info e - 16)) as [ | [ | [ | n ] ] ];
      cbn in Esi; try (injection Esi as <-; auto).
    destruct n; discriminate. }
  assert (Hmask : forall n, 0 <= n < 8 ->
            lift (shl64 1 n) sc = Ok m sf ->
            0 <= Z.land (bbuffer sc) (m - 1) < 2 ^ n).
  { intros n Hn Hl. unfold lift in Hl.
    assert (Hpow : 1 * 2 ^ n < 2 ^ 64)
      by (rewrite Z.mul_1_l; apply Z.pow_lt_mono_r; lia).
    rewrite (shl64_some 1 n ltac:(lia) ltac:(lia) Hpow) in Hl.
    injection Hl as <- _.
    rewrite Z.shiftl_1_l.
    rewrite land_mask by lia. apply Z.mod_pos_bound.
    apply Z.pow_pos_nonneg; lia. }
  destruct Hcase as [ -> | [ -> | -> ] ]; cbn [fst snd] in *.
  - pose proof (Hmask 2 ltac:(lia) Hm) as Hb. change (2 ^ 2) with 4 in Hb.
    rewrite uxx_small; change (2 ^ 64) with 18446744073709551616; lia.
  - pose proof (Hmask 3 ltac:(lia) Hm) as Hb. change (2 ^ 3) with 8 in Hb.
    rewrite uxx_small; change (2 ^ 64) with 18446744073709551616; lia.
  - pose proof (Hmask 7 ltac:(lia) Hm) as Hb. change (2 ^ 7) with 128 in Hb.
    rewrite uxx_small; change (2 ^ 64) with 18446744073709551616; lia.
Qed.

(** C3 (corrected): in [readlengths], a repeat code (16, 17 or 18) whose
    count would take the number of code lengths past 320, the size of the
    array of lengths ([DEFLT_LMAXSYMBOL + DEFLT_DMAXSYMBOL]), is rejected
    with [INFLT_EBADTREE].  A repeat that stays within 320 (a code 16 with
    no previous length apart) is stored, whether or not it runs past
    [n = HLIT + HDIST]: the [replen] entries of the array from the position
    [aux3] on become the repeated length, the other entries stay, [aux3]
    moves on by [replen] and [readlengths] goes on from that state; when
    the count has reached [n] the loop ends there and [readlengths]
    returns 0. *)
Theorem C3_repeat_past_array_rejected :
  forall fuel n s e s1 len replen s2 t,
    0 <= aux3 s < n ->
    n <= DEFLT_DMAXSYMBOL + DEFLT_LMAXSYMBOL ->
    fetch_entry (S fuel) ltable 0 CROOTBITS 0 s = Ok (Some e) s1 ->
    16 <= TEntry.info e ->
    read_repeat (S fuel) e s1 = Ok (Some (len, replen)) s2 ->
    tables s2 = Some t ->
    Z.of_nat (length (lengths t)) = DEFLT_DMAXSYMBOL + DEFLT_LMAXSYMBOL ->
    (DEFLT_DMAXSYMBOL + DEFLT_LMAXSYMBOL < uxx (aux3 s + replen) ->
     exists s',
       readlengths (S fuel) n s = Ok INFLT_ERROR s'
       /\ error s' = INFLT_EBADTREE)
    /\ (uxx (aux3 s + replen) <= DEFLT_DMAXSYMBOL + DEFLT_LMAXSYMBOL ->
        ~ (len = 2 /\ aux3 s = 0) ->
        exists prev t3,
          (if len =? 2 then nthZ (lengths t) (aux3 s - 1) else Some 0) = Some prev
          /\ symbols t3 = symbols t
          /\ (forall j,
                nthZ (lengths t3) j
                = if (aux3 s <=? j) && (j <? aux3 s + replen)
                  then Some (u16 prev) else nthZ (lengths t) j)
          /\ readlengths (S fuel) n s
             = readlengths fuel n
                 (set_aux3 (aux3 s + replen) (set_tables (Some t3) s2))
          /\ (n <= aux3 s + replen -> (1 <= fuel)%nat ->
              readlengths (S fuel) n s
              = Ok 0 (set_aux3 (aux3 s + replen) (set_tables (Some t3) s2)))).
Proof.
  intros fuel n s e s1 len replen s2 t Hi Hn He Hinfo Hr Ht Hlen.
  assert (Hprev : aux3 s <> 0 ->
                  exists prev, nthZ (lengths t) (aux3 s - 1) = Some prev).
  { intros H0. apply nthZ_some. lia. }
  assert (Hstart :
            readlengths (S fuel) n s
            = (match Some (len, replen) with
               | None => after_window (ret INFLT_SRCEXHSTD)
               | Some (length, replen) =>
                   if (length =? 2) && (aux3 s =? 0) then
                     SETERROR INFLT_EBADTREE ;; ret INFLT_ERROR
                   else
                     length <- (if length =? 2 then
                                  l <- get_lengths ;; lift (nthZ l (aux3 s - 1))
                                else ret 0) ;;
                     if DEFLT_DMAXSYMBOL + DEFLT_LMAXSYMBOL <? uxx (aux3 s + replen)
                     then SETERROR INFLT_EBADTREE ;; ret INFLT_ERROR
                     else repeat_length (Z.to_nat replen) length ;;
                          readlengths fuel n
               end) s2).
  { cbn [readlengths].
    unfold bind at 1, gets at 1.
    replace (aux3 s <? n) with true by (symmetry; apply Z.ltb_lt; lia).
    rewrite (bind_ok _ _ _ _ _ He).
    replace (TEntry.info e <? 16) with false by (symmetry; apply Z.ltb_ge; lia).
    rewrite (bind_ok _ _ _ _ _ Hr). reflexivity. }
  rewrite Hstart; clear Hstart. cbv iota beta.
  assert (Hget : get_lengths s2 = Ok (lengths t) s2).
  { unfold get_lengths, geto; rewrite Ht; reflexivity. }
  split.
  - intros Hbig.
    destruct ((len =? 2) && (aux3 s =? 0)) eqn:E0.
    + eexists; split; [ reflexivity | reflexivity ].
    + assert (Hp : exists prev,
                 (if len =? 2 then l <- get_lengths ;; lift (nthZ l (aux3 s - 1))
                  else ret 0) s2 = Ok prev s2).
      { destruct (len =? 2) eqn:E2; [ | eexists; reflexivity ].
        cbn [andb] in E0. apply Z.eqb_neq in E0.
        destruct (Hprev E0) as [p Hp]; exists p.
        rewrite (bind_ok _ _ _ _ _ Hget); unfold lift; rewrite Hp; reflexivity. }
      destruct Hp as [prev Hp]. rewrite (bind_ok _ _ _ _ _ Hp).
      replace (DEFLT_DMAXSYMBOL + DEFLT_LMAXSYMBOL <? uxx (aux3 s + replen))
        with true by (symmetry; apply Z.ltb_lt; lia).
      eexists; split; reflexivity.
  - intros Hsmall Hnot.
    pose proof (read_repeat_count _ _ _ _ _ _ Hr) as Hcount.
    destruct (fetch_entry_keeps _ _ _ _ _ _ _ _ He) as [Ha1 _].
    destruct (read_repeat_keeps _ _ _ _ _ Hr) as [Ha2 _].
    assert (Ha : aux3 s2 = aux3 s) by congruence.
    assert (H320 : DEFLT_DMAXSYMBOL + DEFLT_LMAXSYMBOL = 320) by reflexivity.
    rewrite uxx_small in Hsmall by lia.
    assert (E0 : (len =? 2) && (aux3 s =? 0) = false).
    { apply andb_false_iff.
      destruct (Z.eq_dec len 2) as [-> | Hl2];
        [ right; apply Z.eqb_neq; intros H0; apply Hnot; auto
        | left; apply Z.eqb_neq; exact Hl2 ]. }
    rewrite E0.
    assert (Hp : exists prev,
               (if len =? 2 then nthZ (lengths t) (aux3 s - 1) else Some 0)
               = Some prev
               /\ (if len =? 2 then l <- get_lengths ;; lift (nthZ l (aux3 s - 1))
                   else ret 0) s2 = Ok prev s2).
    { destruct (len =? 2) eqn:E2; [ | exists 0; split; reflexivity ].
      cbn [andb] in E0. apply Z.eqb_neq in E0.
      destruct (Hprev E0) as [p Hp]; exists p. split; [ exact Hp | ].
      rewrite (bind_ok _ _ _ _ _ Hget); unfold lift; rewrite Hp; reflexivity. }
    destruct Hp as (prev & Hprev' & Hp).
    destruct (repeat_length_stores prev (Z.to_nat replen) s2 t Ht
                ltac:(lia) ltac:(lia) ltac:(lia))
      as (t3 & Hrep & Hsym & _ & Hnth).
    rewrite Z2Nat.id in Hrep, Hnth by lia. rewrite Ha in Hrep, Hnth.
    exists prev, t3.
    split; [ exact Hprev' | ].
    split; [ exact Hsym | ].
    split; [ exact Hnth | ].
    rewrite (bind_ok _ _ _ _ _ Hp).
    replace (DEFLT_DMAXSYMBOL + DEFLT_LMAXSYMBOL <? uxx (aux3 s + replen))
      with false by (symmetry; apply Z.ltb_ge; rewrite uxx_small; lia).
    rewrite (bind_ok _ _ _ _ _ Hrep).
    split; [ reflexivity | ].
    intros Hend Hfuel.
    destruct fuel as [ | fuel' ]; [ lia | ].
    cbn [readlengths]. rewrite bind_gets. cbn [aux3 set_aux3].
    replace (aux3 s + replen <? n) with false
      by (symmetry; apply Z.ltb_ge; lia).
    reflexivity.
Qed.

Lemma tables_some s :
  is_some (tables s) = true ->
  tables s = Some (match tables s with Some t => t | None => mkTables [] [] end).
Proof. destruct (tables s); cbn; congruence. Qed.

Lemma C3_repeat_past_array_rejected_witness :
  (exists s',
     readlengths 10 316 at_third_repeat = Ok INFLT_ERROR s'
     /\ error s' = INFLT_EBADTREE)
  /\ (exists s',
        readlengths 10 258 at_last_repeat = Ok 0 s'
        /\ aux3 s' = 260
        /\ exists t3, tables s' = Some t3
             /\ nthZ (lengths t3) 257 = Some 0
             /\ nthZ (lengths t3) 259 = Some 0).
Proof.
  split.
  - set (s := at_third_repeat).
    set (e := entry_read 10 s).
    set (s1 := after_entry 10 s).
    set (s2 := state_of (read_repeat 10 e s1) zeroed).
    refine (proj1 (C3_repeat_past_array_rejected 9 316 s e s1 7 138 s2 _
                     _ _ _ _ _ _ _) _).
    + vm_compute; split; [ discriminate | reflexivity ].
    + vm_compute; discriminate.
    + apply run_ok; vm_compute; reflexivity.
    + vm_compute; discriminate.
    + apply run_ok; vm_compute; reflexivity.
    + apply tables_some; vm_compute; reflexivity.
    + vm_compute; reflexivity.
    + vm_compute; reflexivity.
  - set (s := at_last_repeat).
    set (e := entry_read 10 s).
    set (s1 := after_entry 10 s).
    set (s2 := state_of (read_repeat 10 e s1) zeroed).
    assert (Ha : aux3 s = 257) by (vm_compute; reflexivity).
    destruct (proj2 (C3_repeat_past_array_rejected 9 258 s e s1 3 3 s2
                       (match tables s2 with
                        | Some t => t
                        | None => mkTables [] []
                        end)
                       ltac:(vm_compute; split; [ discriminate | reflexivity ])
                       ltac:(vm_compute; discriminate)
                       ltac:(apply run_ok; vm_compute; reflexivity)
                       ltac:(vm_compute; discriminate)
                       ltac:(apply run_ok; vm_compute; reflexivity)
                       ltac:(apply tables_some; vm_compute; reflexivity)
                       ltac:(vm_compute; reflexivity))
                ltac:(vm_compute; discriminate)
                ltac:(intros [H _]; discriminate H))
      as (prev & t3 & Hprev & _ & Hnth & _ & Hend).
    cbn [Z.eqb] in Hprev. injection Hprev as <-.
    rewrite Ha in Hnth, Hend.
    eexists. split; [ apply Hend; lia | ].
    split; [ reflexivity | ].
    exists t3. split; [ reflexivity | ].
    split; [ rewrite (Hnth 257) | rewrite (Hnth 259) ]; reflexivity.
Defined.

(** C3, as claimed, fails: in [repeat_overrun], HLIT + HDIST is 258 and the
    last repeat code writes the positions 257 to 259; the block is
    accepted, and the call returns [INFLT_OK] with the three bytes of
    output. *)
Lemma C3_counterexample :
  let s' := state_of (inflator_inflate 100 1 (start repeat_overrun 8)) zeroed in
  value_of (inflator_inflate 100 1 (start repeat_overrun 8)) = Some INFLT_OK
  /\ error s' = 0
  /\ output s' = [97; 97; 97]
  /\ aux0 s' + aux1 s' = 258
  /\ aux3 s' = 260
  /\ INFLT_OK <> INFLT_ERROR.
Proof. vm_compute; repeat split; discriminate. Qed.

(** * The history in the window *)

(** An array after a copy into it. *)
Lemma nthZ_memcpy dst doff src soff n dst' i :
  memcpy dst doff src soff n = Some dst' ->
  nthZ dst' i
  = if (doff <=? i) && (i <? doff + n) then nthZ src (soff + (i - doff))
    else nthZ dst i.
Proof.
  unfold memcpy. intros H.
  destruct ((0 <=? doff) && (0 <=? soff) && (0 <=? n)
            && (doff + n <=? Z.of_nat (length dst))
            && (soff + n <=? Z.of_nat (length src))) eqn:E; [ | discriminate ].
  injection H as <-.
  apply andb_true_iff in E; destruct E as [E H5].
  apply andb_true_iff in E; destruct E as [E H4].
  apply andb_true_iff in E; destruct E as [E H3].
  apply andb_true_iff in E; destruct E as [H1 H2].
  apply Z.leb_le in H1, H2, H3, H4, H5.
  assert (L1 : length (firstn (Z.to_nat doff) dst) = Z.to_nat doff)
    by (rewrite length_firstn; lia).
  assert (L2 : length (firstn (Z.to_nat n) (skipn (Z.to_nat soff) src))
               = Z.to_nat n)
    by (rewrite length_firstn, length_skipn; lia).
  destruct (Z_lt_le_dec i 0) as [Hi | Hi].
  - rewrite !nthZ_neg by lia.
    replace (doff <=? i) with false by (symmetry; apply Z.leb_gt; lia).
    cbn [andb]. rewrite nthZ_neg by lia. reflexivity.
  - rewrite (nthZ_nonneg _ i), (nthZ_nonneg dst i) by lia.
    destruct (Z.leb_spec doff i) as [Hd | Hd]; cbn [andb].
    + rewrite nth_error_app2 by lia. rewrite L1.
      destruct (Z.ltb_spec i (doff + n)) as [Hn | Hn].
      * rewrite nth_error_app1 by lia.
        rewrite nth_error_firstn.
        replace (Z.to_nat i - Z.to_nat doff <? Z.to_nat n)%nat with true
          by (symmetry; apply Nat.ltb_lt; lia).
        rewrite nth_error_skipn, nthZ_nonneg by lia. f_equal. lia.
      * rewrite nth_error_app2 by lia. rewrite L2.
        rewrite nth_error_skipn. f_equal. lia.
    + rewrite nth_error_app1 by lia.
      rewrite nth_error_firstn.
      replace (Z.to_nat i <? Z.to_nat doff)%nat with true
        by (symmetry; apply Nat.ltb_lt; lia).
      reflexivity.
Qed.

Lemma memcpy_length dst doff src soff n dst' :
  memcpy dst doff src soff n = Some dst' -> length dst' = length dst.
Proof.
  intros H.
  unfold memcpy in H.
  destruct ((0 <=? doff) && (0 <=? soff) && (0 <=? n)
            && (doff + n <=? Z.of_nat (length dst))
            && (soff + n <=? Z.of_nat (length src))) eqn:E; [ | discriminate ].
  injection H as <-.
  apply andb_true_iff in E; destruct E as [E H5].
  apply andb_true_iff in E; destruct E as [E H4].
  apply andb_true_iff in E; destruct E as [E H3].
  apply andb_true_iff in E; destruct E as [H1 H2].
  apply Z.leb_le in H1, H2, H3, H4, H5.
  rewrite !length_app, !length_firstn, !length_skipn. lia.
Qed.

Lemma mod_window x :
  - WNDWSIZE <= x < WNDWSIZE ->
  x mod WNDWSIZE = if x <? 0 then x + WNDWSIZE else x.
Proof.
  unfold WNDWSIZE, DEFLT_WINDOWSZ. intros H.
  destruct (Z.ltb_spec x 0).
  - symmetry. apply (Z.mod_unique x 32768 (-1)); lia.
  - apply Z.mod_small; lia.
Qed.

Lemma set_count_self s : set_count (count s) s = s.
Proof. destruct s; reflexivity. Qed.

(** The two copies of [updatewindow]. *)
Lemma updatewindow_run s w :
  window s = Some w -> Z.of_nat (length w) = WNDWSIZE ->
  target_ok s -> window_bounds s ->
  tbgn s < target s -> target s < 2 ^ 64 ->
  let total := Z.min (target s - tbgn s) WNDWSIZE in
  let maxrun := Z.min total (WNDWSIZE - end_ s) in
  exists w1 w2,
    memcpy w (end_ s) (tmem s) (target s - total) maxrun = Some w1
    /\ (if total - maxrun =? 0 then w2 = w1
        else memcpy w1 0 (tmem s) (target s - total + maxrun)
               (total - maxrun) = Some w2)
    /\ updatewindow s
       = Ok 0
           (set_end_
              (if total - maxrun =? 0 then end_ s + maxrun
               else total - maxrun)
              (set_window (Some w2)
                 (set_count (Z.min WNDWSIZE (count s + total)) s))).
Proof.
  intros Hw Hlw (Htb & Htt & Htend) (Hc & He) Hout H64 total maxrun.
  assert (HW : WNDWSIZE = 32768) by reflexivity.
  assert (H2 : 2 ^ 64 = 18446744073709551616) by reflexivity.
  assert (Htot : 0 < total <= WNDWSIZE /\ total <= target s - tbgn s)
    by (unfold total; lia).
  assert (Hmax : 0 <= maxrun <= total /\ maxrun <= WNDWSIZE - end_ s)
    by (unfold maxrun; lia).
  destruct (memcpy_some w (end_ s) (tmem s) (target s - total) maxrun)
    as (w1 & Hw1); try lia.
  pose proof (memcpy_length _ _ _ _ _ _ Hw1) as Hl1.
  assert (Hw2 : exists w2,
            if total - maxrun =? 0 then w2 = w1
            else memcpy w1 0 (tmem s) (target s - total + maxrun)
                   (total - maxrun) = Some w2).
  { destruct (total - maxrun =? 0); [ exists w1; reflexivity | ].
    apply memcpy_some; lia. }
  destruct Hw2 as (w2 & Hw2).
  exists w1, w2. split; [ exact Hw1 | split; [ exact Hw2 | ] ].
  unfold updatewindow. rewrite bind_gets.
  rewrite (uxx_small (target s - tbgn s)) by lia.
  replace (target s - tbgn s =? 0) with false
    by (symmetry; apply Z.eqb_neq; lia).
  cbv iota zeta.
  replace (if WNDWSIZE <? target s - tbgn s then WNDWSIZE
           else target s - tbgn s) with total
    by (unfold total; destruct (Z.ltb_spec WNDWSIZE (target s - tbgn s)); lia).
  rewrite bind_gets, bind_gets.
  assert (Hcount :
            forall (k : unit -> M Z),
              bind (if count s <? WNDWSIZE
                    then modify
                           (set_count
                              (if WNDWSIZE <? uxx (count s + total)
                               then WNDWSIZE else uxx (count s + total)))
                    else ret tt) k s
              = k tt (set_count (Z.min WNDWSIZE (count s + total)) s)).
  { intros k. rewrite (uxx_small (count s + total)) by lia.
    destruct (Z.ltb_spec (count s) WNDWSIZE).
    - rewrite bind_modify. f_equal. f_equal.
      destruct (Z.ltb_spec WNDWSIZE (count s + total)); lia.
    - rewrite bind_ret. f_equal.
      replace (Z.min WNDWSIZE (count s + total)) with (count s) by lia.
      symmetry; apply set_count_self. }
  rewrite Hcount. clear Hcount.
  rewrite bind_gets. cbn [end_ set_count].
  rewrite (uxx_small (WNDWSIZE - end_ s)) by lia.
  replace (if total <? WNDWSIZE - end_ s then total else WNDWSIZE - end_ s)
    with maxrun
    by (unfold maxrun; destruct (Z.ltb_spec total (WNDWSIZE - end_ s)); lia).
  rewrite (bind_geto _ w) by exact Hw.
  rewrite bind_gets. cbn [tmem target set_count].
  rewrite (bind_lift _ w1) by exact Hw1.
  rewrite bind_modify.
  rewrite (uxx_small (total - maxrun)) by lia.
  destruct (total - maxrun =? 0) eqn:E; cbn [negb]; cbv iota.
  - subst w2. rewrite bind_modify.
    rewrite (uxx_small (end_ s + maxrun)) by lia.
    unfold ret. f_equal; destruct s; reflexivity.
  - rewrite (bind_lift _ w2) by exact Hw2.
    rewrite !bind_modify. unfold ret. f_equal; destruct s; reflexivity.
Qed.

(** The test of a copied range, decided by arithmetic. *)
Ltac in_range :=
  match goal with
  | |- context [if (?a <=? ?b) && (?c <? ?d) then _ else _] =>
      replace ((a <=? b) && (c <? d)) with true
        by (symmetry; apply andb_true_iff; split;
            [ apply Z.leb_le | apply Z.ltb_lt ]; lia)
  end.

Ltac out_of_range :=
  match goal with
  | |- context [if (?a <=? ?b) && (?c <? ?d) then _ else _] =>
      replace ((a <=? b) && (c <? d)) with false
        by (symmetry; apply andb_false_iff;
            first [ left; apply Z.leb_gt; lia | right; apply Z.ltb_ge; lia ])
  end.

(** [updatewindow] appends the output of the call to the history.  Let
    the window be allocated, its counters within its size, and the call
    have written output.  Afterwards the byte [k] places before the end
    of the window is the output byte [k] places before the target
    position, for every [k] up to the number of bytes written and the
    size of the window; the bytes that were in the window are behind
    those, each as many places further back as bytes were written; the
    count of the window has grown by the bytes written, up to its size;
    and nothing but the window, its count and its end has changed. *)
Theorem updatewindow_appends_output (s : TInflator) (w : list Z) :
  window s = Some w -> Z.of_nat (length w) = WNDWSIZE ->
  target_ok s -> window_bounds s ->
  tbgn s < target s -> target s < 2 ^ 64 ->
  exists s',
    updatewindow s = Ok 0 s'
    /\ (forall k, 1 <= k <= Z.min (target s - tbgn s) WNDWSIZE ->
          window_back s' k = nthZ (tmem s) (target s - k))
    /\ (forall k, target s - tbgn s < k <= WNDWSIZE ->
          window_back s' k = window_back s (k - (target s - tbgn s)))
    /\ count s' = Z.min WNDWSIZE (count s + (target s - tbgn s))
    /\ window_bounds s'
    /\ exists w' c e, s' = set_end_ e (set_count c (set_window (Some w') s)).
Proof.
  intros Hw Hlw Htgt Hwb Hout H64.
  destruct (updatewindow_run s w Hw Hlw Htgt Hwb Hout H64)
    as (w1 & w2 & Hw1 & Hw2 & Hrun).
  destruct Htgt as (Htb & Htt & Htend). destruct Hwb as (Hc & He).
  assert (HW : WNDWSIZE = 32768) by reflexivity.
  set (total := Z.min (target s - tbgn s) WNDWSIZE) in *.
  set (maxrun := Z.min total (WNDWSIZE - end_ s)) in *.
  assert (Htot : 0 < total <= WNDWSIZE /\ total <= target s - tbgn s)
    by (unfold total; lia).
  assert (Hmax : 0 <= maxrun <= total /\ maxrun <= WNDWSIZE - end_ s)
    by (unfold maxrun; lia).
  eexists. split; [ exact Hrun | ].
  unfold window_back, window_bounds. fields. rewrite Hw.
  destruct (Z.eqb_spec (total - maxrun) 0) as [E | E].
  - (* the output fits before the physical end of the window *)
    subst w2.
    split; [ | split; [ | split; [ | split ] ] ].
    + intros k Hk. fold total in Hk.
      rewrite mod_window by lia.
      replace (end_ s + maxrun - k <? 0) with false
        by (symmetry; apply Z.ltb_ge; lia).
      rewrite (nthZ_memcpy _ _ _ _ _ _ _ Hw1). in_range.
      f_equal. lia.
    + intros k Hk.
      assert (total = target s - tbgn s) by (unfold total; lia).
      replace (end_ s - (k - (target s - tbgn s)))
        with (end_ s + maxrun - k) by lia.
      rewrite (nthZ_memcpy _ _ _ _ _ _ _ Hw1).
      rewrite mod_window by lia.
      destruct (Z.ltb_spec (end_ s + maxrun - k) 0); out_of_range;
        reflexivity.
    + unfold total. lia.
    + lia.
    + do 3 eexists. reflexivity.
  - (* the output wraps around *)
    assert (Hrem : maxrun = WNDWSIZE - end_ s) by (unfold maxrun; lia).
    split; [ | split; [ | split; [ | split ] ] ].
    + intros k Hk. fold total in Hk.
      rewrite mod_window by lia.
      rewrite (nthZ_memcpy _ _ _ _ _ _ _ Hw2).
      destruct (Z.ltb_spec (total - maxrun - k) 0).
      * out_of_range.
        rewrite (nthZ_memcpy _ _ _ _ _ _ _ Hw1). in_range.
        f_equal. lia.
      * in_range. f_equal. lia.
    + intros k Hk.
      assert (total = target s - tbgn s) by (unfold total; lia).
      rewrite (mod_window (total - maxrun - k)) by lia.
      replace (total - maxrun - k <? 0) with true
        by (symmetry; apply Z.ltb_lt; lia).
      rewrite (nthZ_memcpy _ _ _ _ _ _ _ Hw2). out_of_range.
      rewrite (nthZ_memcpy _ _ _ _ _ _ _ Hw1). out_of_range.
      rewrite (mod_window (end_ s - (k - (target s - tbgn s)))) by lia.
      replace (end_ s - (k - (target s - tbgn s)) <? 0) with false
        by (symmetry; apply Z.ltb_ge; lia).
      f_equal. lia.
    + unfold total. lia.
    + lia.
    + do 3 eexists. reflexivity.
Qed.

Lemma updatewindow_appends_output_witness :
  exists s',
    updatewindow (with_output [10; 20; 30]) = Ok 0 s'
    /\ (forall k,
          1 <= k <= Z.min (target (with_output [10; 20; 30])
                           - tbgn (with_output [10; 20; 30])) WNDWSIZE ->
          window_back s' k
          = nthZ (tmem (with_output [10; 20; 30]))
              (target (with_output [10; 20; 30]) - k))
    /\ (forall k,
          target (with_output [10; 20; 30])
          - tbgn (with_output [10; 20; 30]) < k <= WNDWSIZE ->
          window_back s' k
          = window_back (with_output [10; 20; 30])
              (k - (target (with_output [10; 20; 30])
                    - tbgn (with_output [10; 20; 30]))))
    /\ count s'
       = Z.min WNDWSIZE
           (count (with_output [10; 20; 30])
            + (target (with_output [10; 20; 30])
               - tbgn (with_output [10; 20; 30])))
    /\ window_bounds s'
    /\ exists w' c e,
         s' = set_end_ e (set_count c
                (set_window (Some w') (with_output [10; 20; 30]))).
Proof.
  apply (updatewindow_appends_output (with_output [10; 20; 30])
           (repeat 0 (Z.to_nat WNDWSIZE))).
  - reflexivity.
  - rewrite List.repeat_length. reflexivity.
  - vm_compute. repeat split; discriminate.
  - vm_compute. repeat split; discriminate.
  - vm_compute. reflexivity.
  - vm_compute. reflexivity.
Defined.

(** * Reset and allocation *)

Lemma reset_alloc_cases c :
  (reset_fails c
   /\ state (reset_alloc c) = INFLT_BADSTATE
   /\ error (reset_alloc c) = INFLT_EOOM)
  \/ (~ reset_fails c
      /\ state (reset_alloc c) = state c
      /\ error (reset_alloc c) = error c
      /\ window (reset_alloc c) <> None
      /\ tables (reset_alloc c) <> None).
Proof.
  unfold reset_alloc, reset_fails, reserve_bytes, reserve_tables.
  destruct (window c) as [ w | ] eqn:Ew.
  - destruct (tables c) as [ t | ] eqn:Et.
    + right. rewrite Ew, Et.
      repeat split; try discriminate.
      intros [ [H _] | [H _] ]; discriminate.
    + destruct (allocator c TABLESSIZE) eqn:Ea.
      * right. repeat split; try (cbn; rewrite ?Ew; discriminate).
        intros [ [H _] | [_ H] ]; discriminate.
      * left. repeat split. right; split; reflexivity.
  - destruct (allocator c WNDWSIZE) eqn:Ea.
    + cbv zeta. cbn [tables set_window allocator].
      destruct (tables c) as [ t | ] eqn:Et.
      * right. repeat split; try (cbn; rewrite ?Et; discriminate).
        intros [ [_ H] | [H _] ]; discriminate.
      * destruct (allocator c TABLESSIZE) eqn:Eb.
        -- right. repeat split; try (cbn; discriminate).
           intros [ [_ H] | [_ H] ]; discriminate.
        -- left. repeat split. right; split; reflexivity.
    + left. repeat split. left; split; reflexivity.
Qed.

Lemma reset_fields_keeps s :
  window (reset_fields s) = window s
  /\ tables (reset_fields s) = tables s
  /\ allocator (reset_fields s) = allocator s
  /\ state (reset_fields s) = 0
  /\ error (reset_fields s) = 0.
Proof. repeat split; reflexivity. Qed.

(** [inflator_reset] reports a failed allocation and nothing else.  If
    the window or the tables are missing and the allocator refuses their
    size, the decoder is left in the bad state with the error code
    [INFLT_EOOM], and a call of [inflator_inflate] on it, whatever the
    source and the target span, returns [INFLT_ERROR] with that error
    code and writes nothing.  Otherwise the decoder is in state 0 with no
    error, and has its window and its tables. *)
Theorem reset_reports_failed_allocation (s : TInflator) :
  (reset_fails s ->
   state (inflator_reset s) = INFLT_BADSTATE
   /\ error (inflator_reset s) = INFLT_EOOM
   /\ forall input out fuel final,
        exists s',
          inflator_inflate (S fuel) final
            (inflator_settgt out (inflator_setsrc input (inflator_reset s)))
          = Ok INFLT_ERROR s'
          /\ error s' = INFLT_EOOM
          /\ tmem s' = out /\ target s' = 0 /\ source s' = 0)
  /\ (~ reset_fails s ->
      state (inflator_reset s) = 0
      /\ error (inflator_reset s) = 0
      /\ window (inflator_reset s) <> None
      /\ tables (inflator_reset s) <> None).
Proof.
  unfold inflator_reset.
  destruct (reset_fields_keeps s) as (Kw & Kt & Ka & Ks & Ke).
  assert (Hiff : reset_fails (reset_fields s) <-> reset_fails s).
  { unfold reset_fails. rewrite Kw, Kt, Ka. reflexivity. }
  destruct (reset_alloc_cases (reset_fields s))
    as [ (Hf & Hst & Her) | (Hf & Hst & Her & Hw & Ht) ].
  - split; [ | intros Hn; exfalso; apply Hn; apply Hiff; exact Hf ].
    intros _. split; [ exact Hst | split; [ exact Her | ] ].
    intros input out fuel final.
    generalize dependent (reset_alloc (reset_fields s)). intros c Hst Her.
    assert (Hst' : state (inflator_settgt out (inflator_setsrc input c))
                   = INFLT_BADSTATE) by exact Hst.
    destruct (inflate_badstate fuel final _ Hst')
      as (s' & Hrun & _ & He' & Htm & Htg & _ & _ & Hsr & _).
    exists s'. split; [ exact Hrun | ].
    rewrite He', Htm, Htg, Hsr.
    change (error (inflator_settgt out (inflator_setsrc input c)))
      with (error c).
    rewrite Her. repeat split; reflexivity.
  - split; [ intros H; exfalso; apply Hf; apply Hiff; exact H | ].
    intros _. rewrite Hst, Her, Ks, Ke. repeat split; assumption.
Qed.

Lemma reset_reports_failed_allocation_witness :
  (state (inflator_reset no_memory) = INFLT_BADSTATE
   /\ error (inflator_reset no_memory) = INFLT_EOOM
   /\ forall input out fuel final,
        exists s',
          inflator_inflate (S fuel) final
            (inflator_settgt out
               (inflator_setsrc input (inflator_reset no_memory)))
          = Ok INFLT_ERROR s'
          /\ error s' = INFLT_EOOM
          /\ tmem s' = out /\ target s' = 0 /\ source s' = 0)
  /\ (state (inflator_reset zeroed) = 0
      /\ error (inflator_reset zeroed) = 0
      /\ window (inflator_reset zeroed) <> None
      /\ tables (inflator_reset zeroed) <> None).
Proof.
  split.
  - apply (proj1 (reset_reports_failed_allocation no_memory)).
    left. split; reflexivity.
  - apply (proj2 (reset_reports_failed_allocation zeroed)).
    intros [ [_ H] | [_ H] ]; discriminate H.
Defined.

(** * The header of a dynamic block *)

(** The three counts of the header: five bits for the literal/length
    codes, five for the distance codes, four for the code-length codes. *)
Lemma dnmc_counts F s :
  reservoir_ok s -> substate s = 0 ->
  bitpos s + 14 <= 8 * send s -> (5 <= F)%nat ->
  exists src bc,
    let hlit := bits_at (smem s) (bitpos s) 5 + 257 in
    let hdist := bits_at (smem s) (bitpos s + 5) 5 + 1 in
    let hclen := bits_at (smem s) (bitpos s + 10) 4 + 4 in
    let s1 := slow_at (tmem s) (target s) src bc
                (set_aux2 hclen (set_aux1 hdist (set_aux0 hlit
                   (set_dtable (PtrSymbols ENOUGHL)
                      (set_ltable (PtrSymbols 0) s))))) in
    decodednmc F s
    = (if (286 <? hlit) || (30 <? hdist)
       then Ok INFLT_ERROR (set_error INFLT_EBADTREE s1)
       else dnmc_state1 F (set_aux3 0 (set_substate 1 s1)))
    /\ 8 * src - bc = bitpos s + 14.
Proof.
  intros (Hbytes & Hsrc & Hsend & Hbc & Hpos & Hbb) Hsub Hav HF.
  set (p := bitpos s) in *.
  assert (Hp : p = 8 * source s - bcount s) by reflexivity.
  set (tm := tmem s). set (tgt := target s).
  set (sa := set_dtable (PtrSymbols ENOUGHL) (set_ltable (PtrSymbols 0) s)).
  destruct (tryreadbits_exact sa Hbytes Hsend tm tgt 14 ltac:(lia) F
              (source s) (bcount s))
    as (src1 & bc1 & Hrun1 & Hp1 & Hs1 & Hn1 & Hb1 & _);
    try (cbn [send sa set_dtable set_ltable]; lia).
  cbn [send sa set_dtable set_ltable] in Hs1.
  exists src1, (bc1 - 14). cbv zeta.
  split; [ | lia ].
  replace (decodednmc F s)
    with (decodednmc F (slow_at tm tgt (source s) (bcount s) s))
    by (unfold tm, tgt; rewrite (slow_at_self s Hbb); reflexivity).
  unfold decodednmc. rewrite bind_gets.
  change (substate (slow_at tm tgt (source s) (bcount s) s))
    with (substate s).
  rewrite Hsub.
  change (0 =? 1) with false. change (0 =? 2) with false. cbv iota.
  unfold dnmc_state0. rewrite !bind_modify.
  at_state (slow_at tm tgt (source s) (bcount s) sa).
  run Hrun1. cbv iota.
  (* the count of literal/length codes *)
  run (getbits_slow sa tm tgt src1 bc1 5 ltac:(lia) ltac:(lia) ltac:(lia)).
  rewrite Z.min_l by lia. change (smem sa) with (smem s). rewrite Hp1, <- Hp.
  pose proof (bits_at_range (smem s) p 5 ltac:(lia)) as R1.
  pose proof (bits_at_range (smem s) (p + 5) 5 ltac:(lia)) as R2.
  pose proof (bits_at_range (smem s) (p + 10) 4 ltac:(lia)) as R3.
  change (2 ^ 5) with 32 in R1, R2. change (2 ^ 4) with 16 in R3.
  assert (H64 : 2 ^ 64 = 18446744073709551616) by reflexivity.
  rewrite bind_modify, uxx_small by lia.
  set (hlit := bits_at (smem s) p 5 + 257).
  at_state (slow_at tm tgt src1 bc1 (set_aux0 hlit sa)).
  run (dropbits_slow (set_aux0 hlit sa) tm tgt src1 bc1 5
         ltac:(lia) ltac:(lia) ltac:(lia)).
  (* the count of distance codes *)
  run (getbits_slow (set_aux0 hlit sa) tm tgt src1 (bc1 - 5) 5
         ltac:(lia) ltac:(lia) ltac:(lia)).
  rewrite Z.min_l by lia. change (smem (set_aux0 hlit sa)) with (smem s).
  replace (8 * src1 - (bc1 - 5)) with (p + 5) by lia.
  rewrite bind_modify, uxx_small by lia.
  set (hdist := bits_at (smem s) (p + 5) 5 + 1).
  at_state (slow_at tm tgt src1 (bc1 - 5) (set_aux1 hdist (set_aux0 hlit sa))).
  run (dropbits_slow (set_aux1 hdist (set_aux0 hlit sa)) tm tgt src1
         (bc1 - 5) 5 ltac:(lia) ltac:(lia) ltac:(lia)).
  (* the count of code-length codes *)
  run (getbits_slow (set_aux1 hdist (set_aux0 hlit sa)) tm tgt src1
         (bc1 - 5 - 5) 4 ltac:(lia) ltac:(lia) ltac:(lia)).
  rewrite Z.min_l by lia.
  change (smem (set_aux1 hdist (set_aux0 hlit sa))) with (smem s).
  replace (8 * src1 - (bc1 - 5 - 5)) with (p + 10) by lia.
  rewrite bind_modify, uxx_small by lia.
  set (hclen := bits_at (smem s) (p + 10) 4 + 4).
  at_state (slow_at tm tgt src1 (bc1 - 5 - 5)
              (set_aux2 hclen (set_aux1 hdist (set_aux0 hlit sa)))).
  run (dropbits_slow (set_aux2 hclen (set_aux1 hdist (set_aux0 hlit sa)))
         tm tgt src1 (bc1 - 5 - 5) 4 ltac:(lia) ltac:(lia) ltac:(lia)).
  rewrite !bind_gets.
  replace (bc1 - 5 - 5 - 4) with (bc1 - 14) by lia.
  change (aux0 (slow_at tm tgt src1 (bc1 - 14)
                  (set_aux2 hclen (set_aux1 hdist (set_aux0 hlit sa)))))
    with hlit.
  change (aux1 (slow_at tm tgt src1 (bc1 - 14)
                  (set_aux2 hclen (set_aux1 hdist (set_aux0 hlit sa)))))
    with hdist.
  destruct ((286 <? hlit) || (30 <? hdist)).
  - unfold SETERROR. rewrite bind_modify. reflexivity.
  - rewrite !bind_modify.
    change (substate (slow_at tm tgt src1 (bc1 - 14)
                        (set_aux2 hclen (set_aux1 hdist (set_aux0 hlit sa)))))
      with (substate s).
    rewrite Hsub. reflexivity.
Qed.

(** A dynamic block that announces more than 286 literal/length codes or
    more than 30 distance codes is rejected.  With the 14 bits of the
    three counts in the source span, [decodednmc] returns [INFLT_ERROR]
    with the error code [INFLT_EBADTREE] and leaves the target span
    untouched. *)
Theorem decodednmc_rejects_large_counts (F : nat) (s : TInflator) :
  reservoir_ok s -> substate s = 0 ->
  bitpos s + 14 <= 8 * send s ->
  286 < bits_at (smem s) (bitpos s) 5 + 257
  \/ 30 < bits_at (smem s) (bitpos s + 5) 5 + 1 ->
  (5 <= F)%nat ->
  exists s',
    decodednmc F s = Ok INFLT_ERROR s'
    /\ error s' = INFLT_EBADTREE
    /\ tmem s' = tmem s /\ target s' = target s.
Proof.
  intros Hres Hsub Hav Hbig HF.
  destruct (dnmc_counts F s Hres Hsub Hav HF) as (src & bc & Hrun & _).
  cbv zeta in Hrun. rewrite Hrun.
  replace ((286 <? bits_at (smem s) (bitpos s) 5 + 257)
           || (30 <? bits_at (smem s) (bitpos s + 5) 5 + 1)) with true.
  - eexists. split; [ reflexivity | ]. repeat split; reflexivity.
  - symmetry. apply orb_true_iff.
    destruct Hbig as [H | H]; [ left | right ]; apply Z.ltb_lt; exact H.
Qed.

Lemma decodednmc_rejects_large_counts_witness :
  exists s',
    decodednmc 5 (start [31; 0] 8) = Ok INFLT_ERROR s'
    /\ error s' = INFLT_EBADTREE
    /\ tmem s' = tmem (start [31; 0] 8)
    /\ target s' = target (start [31; 0] 8).
Proof.
  apply (decodednmc_rejects_large_counts 5 (start [31; 0] 8)).
  - unfold reservoir_ok.
    split; [ apply is_byteb_all; vm_compute; reflexivity | ].
    vm_compute. repeat split; discriminate.
  - reflexivity.
  - vm_compute. discriminate.
  - left. vm_compute. reflexivity.
  - lia.
Defined.

(** * Matches that reach into the window *)

(** A run out of the window is defined. *)
Lemma copy_run_window_some w k : forall off tm tgt,
  0 <= off -> off + Z.of_nat k <= Z.of_nat (length w) ->
  0 <= tgt -> tgt + Z.of_nat k <= Z.of_nat (length tm) ->
  exists tm', copy_run k (Some w) true off tm tgt = Some tm'.
Proof.
  induction k as [ | k IH ]; intros off tm tgt Ho Hw Ht Hl; cbn [copy_run].
  - eexists; reflexivity.
  - cbn [obind].
    destruct (nthZ_some w off ltac:(lia)) as (b & ->). cbn [obind].
    rewrite (updZ_some tm tgt b) by lia. cbn [obind].
    apply IH; try lia.
    rewrite upd_length by lia. lia.
Qed.

(** The array after a run out of the window. *)
Lemma copy_run_window_content w k : forall off tm tgt tm',
  copy_run k (Some w) true off tm tgt = Some tm' ->
  (forall j, 0 <= j < Z.of_nat k -> nthZ tm' (tgt + j) = nthZ w (off + j))
  /\ (forall i, i < tgt \/ tgt + Z.of_nat k <= i -> nthZ tm' i = nthZ tm i).
Proof.
  induction k as [ | k IH ]; intros off tm tgt tm' H; cbn [copy_run] in H.
  - injection H as <-. split; [ intros j Hj; lia | reflexivity ].
  - cbn [obind] in H.
    destruct (nthZ w off) as [ b | ] eqn:Eb; [ | discriminate ].
    cbn [obind] in H.
    destruct (updZ tm tgt b) as [ tm1 | ] eqn:Hu; [ | discriminate ].
    cbn [obind] in H.
    destruct (IH (off + 1) tm1 (tgt + 1) tm' H) as (Hin & Hout).
    split.
    + intros j Hj. destruct (Z.eq_dec j 0) as [ -> | Hne ].
      * rewrite !Z.add_0_r. rewrite Hout by lia.
        rewrite (nthZ_updZ _ _ _ _ tgt Hu), Z.eqb_refl. symmetry; exact Eb.
      * replace (tgt + j) with (tgt + 1 + (j - 1)) by lia.
        replace (off + j) with (off + 1 + (j - 1)) by lia.
        apply Hin. lia.
    + intros i Hi. rewrite Hout by lia.
      rewrite (nthZ_updZ _ _ _ _ i Hu).
      replace (i =? tgt) with false by (symmetry; apply Z.eqb_neq; lia).
      reflexivity.
Qed.

Lemma set_target_tmem_self s : set_target (target s) (set_tmem (tmem s) s) = s.
Proof. destruct s; reflexivity. Qed.

Section History.

Variable s : TInflator.
Variable w : list Z.
Variable d : Z.
Hypothesis Hw : window s = Some w.
Hypothesis Hlw : Z.of_nat (length w) = WNDWSIZE.
Hypothesis Hwb : window_bounds s.
Hypothesis Htb : 0 <= tbgn s.
Hypothesis Htend : tend s <= Z.of_nat (length (tmem s)).
Hypothesis Ht64 : tend s < 2 ^ 64.
Hypothesis Hd : 1 <= d.

(** The rounds the loop of [copybytes] still has to make at the target
    position [tgt]: one in the target span, one more for the window, and
    one more where the window wraps around. *)
Let rounds (tgt : Z) : nat :=
  let k := d - (tgt - tbgn s) in
  if k <=? 0 then 1%nat else if k <=? end_ s then 2%nat else 3%nat.

Lemma copybytes_loop_history : forall F tgt tm len,
  (rounds tgt <= F)%nat ->
  tbgn s <= tgt -> tgt + len <= tend s -> 0 < len ->
  length tm = length (tmem s) ->
  d - (tgt - tbgn s) <= count s ->
  exists tm',
    copybytes_loop F d len (tend s - tgt) (set_target tgt (set_tmem tm s))
    = Ok 0 (set_target (tgt + len) (set_tmem tm' s))
    /\ length tm' = length tm
    /\ (forall i, tgt <= i < tgt + len ->
          nthZ tm' i = history_at s tm' (i - d))
    /\ (forall i, i < tgt \/ tgt + len <= i -> nthZ tm' i = nthZ tm i).
Proof.
  destruct Hwb as (Hc & He).
  assert (HW : WNDWSIZE = 32768) by reflexivity.
  assert (H2 : 2 ^ 64 = 18446744073709551616) by reflexivity.
  induction F as [ | F IH ]; intros tgt tm len HF Htgt Hroom Hlen Hltm Hk.
  { unfold rounds in HF. cbv zeta in HF.
    destruct (d - (tgt - tbgn s) <=? 0); [ lia | ].
    destruct (d - (tgt - tbgn s) <=? end_ s); lia. }
  cbn [copybytes_loop].
  replace (tend s - tgt =? 0) with false by (symmetry; apply Z.eqb_neq; lia).
  rewrite bind_gets. fields. unfold match_source. fields.
  rewrite (uxx_small (tgt - tbgn s)) by lia.
  destruct (Z.ltb_spec (tgt - tbgn s) d) as [Hfar | Hnear].
  - (* the match starts in the window *)
    set (k := d - (tgt - tbgn s)) in *.
    rewrite (uxx_small k) by lia.
    replace (count s <? k) with false by (symmetry; apply Z.ltb_ge; lia).
    set (mr := if end_ s <? k then k - end_ s else k).
    set (off := if end_ s <? k then WNDWSIZE - (k - end_ s) else end_ s - k).
    assert (Hmr : 0 < mr <= k /\ 0 <= off /\ off + mr <= WNDWSIZE
                  /\ (end_ s < k -> mr = k - end_ s /\ off = end_ s - k + WNDWSIZE)
                  /\ (k <= end_ s -> mr = k /\ off = end_ s - k)).
    { unfold mr, off. destruct (Z.ltb_spec (end_ s) k); lia. }
    replace (let '(maxrun, offset) :=
               if end_ s <? k
               then (uxx (k - end_ s), uxx (WNDWSIZE - uxx (k - end_ s)))
               else (k, uxx (end_ s - k)) in
             Some (true, offset, if len <? maxrun then len else maxrun))
      with (Some (true, off, Z.min len mr)).
    2: { unfold mr, off. destruct (Z.ltb_spec (end_ s) k).
         - rewrite (uxx_small (k - end_ s)) by lia.
           rewrite (uxx_small (WNDWSIZE - (k - end_ s))) by lia.
           f_equal. f_equal. destruct (Z.ltb_spec len (k - end_ s)); lia.
         - rewrite (uxx_small (end_ s - k)) by lia.
           f_equal. f_equal. destruct (Z.ltb_spec len k); lia. }
    set (run := Z.min len mr).
    assert (Hrun : 0 < run <= len /\ run <= mr) by (unfold run; lia).
    replace (if tend s - tgt <? run then tend s - tgt else run) with run
      by (destruct (Z.ltb_spec (tend s - tgt) run); lia).
    rewrite (uxx_small (len - run)), (uxx_small (tend s - tgt - run)) by lia.
    rewrite bind_gets. fields.
    destruct (copy_run_window_some w (Z.to_nat run) off tm tgt)
      as (tm1 & Hc1); try lia.
    pose proof (copy_run_length _ _ _ _ _ _ _ Hc1) as Hl1.
    destruct (copy_run_window_content _ _ _ _ _ _ Hc1) as (Hin1 & Hout1).
    rewrite Z2Nat.id in Hin1, Hout1 by lia.
    unfold copy_maxrun.
    replace (run =? 0) with false by (symmetry; apply Z.eqb_neq; lia).
    rewrite bind_assoc, (bind_geto _ tm1) by (fields; rewrite Hw; exact Hc1).
    rewrite bind_modify, bind_modify. fields.
    assert (Hwin : forall j, 0 <= j < run ->
              nthZ tm1 (tgt + j) = window_back s (tbgn s - (tgt + j - d))).
    { intros j Hj. rewrite (Hin1 j Hj). unfold window_back. rewrite Hw.
      f_equal. replace (end_ s - (tbgn s - (tgt + j - d)))
        with (end_ s - k + j) by (unfold k; lia).
      rewrite mod_window by lia.
      destruct (Z.ltb_spec (end_ s - k + j) 0); lia. }
    destruct (Z.eqb_spec (len - run) 0) as [Edone | Emore]; cbn [negb];
      cbv iota.
    + (* the whole match was in the window *)
      exists tm1. assert (run = len) as Hrl by lia.
      split; [ unfold ret; rewrite Hrl; reflexivity | ].
      split; [ lia | ]. split.
      * intros i Hi. unfold history_at.
        replace (tbgn s <=? i - d) with false
          by (symmetry; apply Z.leb_gt; unfold k in *; lia).
        replace i with (tgt + (i - tgt)) by lia.
        apply Hwin. lia.
      * intros i Hi. apply Hout1. lia.
    + (* the rest of the match *)
      assert (Hrm : run = mr) by lia.
      destruct (IH (tgt + run) tm1 (len - run)) as (tm' & Hgo & Hl' & Hin' & Hout');
        try lia.
      { unfold rounds in HF |- *. cbv zeta in HF |- *. fold k in HF.
        replace (d - (tgt + run - tbgn s)) with (k - run) by (unfold k; lia).
        destruct (Z.leb_spec k 0); [ lia | ].
        destruct (Z.leb_spec k (end_ s)).
        - replace (k - run <=? 0) with true
            by (symmetry; apply Z.leb_le; lia).
          lia.
        - destruct (Z.leb_spec (k - run) 0); [ lia | ].
          replace (k - run <=? end_ s) with true
            by (symmetry; apply Z.leb_le; lia).
          lia. }
      exists tm'.
      replace (tend s - (tgt + run)) with (tend s - tgt - run) in Hgo by lia.
      replace (tgt + run + (len - run)) with (tgt + len) in * by lia.
      split; [ exact Hgo | ]. split; [ lia | ]. split.
      * intros i Hi.
        destruct (Z_lt_le_dec i (tgt + run)) as [Hlow | Hhigh].
        -- rewrite Hout' by lia. unfold history_at.
           replace (tbgn s <=? i - d) with false
             by (symmetry; apply Z.leb_gt; unfold k in *; lia).
           replace i with (tgt + (i - tgt)) by lia.
           apply Hwin. lia.
        -- apply Hin'. lia.
      * intros i Hi. rewrite Hout' by lia. apply Hout1. lia.
  - (* the match starts in the target span *)
    replace (tend s - tgt <? len) with false
      by (symmetry; apply Z.ltb_ge; lia).
    rewrite bind_gets. fields.
    destruct (copy_run_some (Some w) (Z.to_nat len) (tgt - d) tm tgt)
      as (tm' & Hc'); try lia.
    destruct (copy_run_content _ _ _ _ _ _ Hc' ltac:(lia)) as (Hin & Hout).
    rewrite Z2Nat.id in Hin, Hout by lia.
    replace (tgt - (tgt - d)) with d in Hin by lia.
    unfold copy_maxrun.
    replace (len =? 0) with false by (symmetry; apply Z.eqb_neq; lia).
    rewrite bind_assoc, (bind_geto _ tm') by (fields; rewrite Hw; exact Hc').
    rewrite bind_modify, bind_modify. fields.
    rewrite Z.sub_diag. change (uxx 0) with 0.
    change (negb (0 =? 0)) with false. cbv iota.
    exists tm'. split; [ reflexivity | ].
    split; [ eapply copy_run_length; exact Hc' | ]. split.
    + intros i Hi. rewrite Hin by lia. unfold history_at.
      replace (tbgn s <=? i - d) with true
        by (symmetry; apply Z.leb_le; lia).
      reflexivity.
    + exact Hout.
Qed.

End History.

(** [copybytes] on a distance within the history: the shared form of the
    statement below. *)
Lemma copybytes_history (F : nat) (d len : Z) (s : TInflator)
    (w : list Z) :
  window s = Some w -> Z.of_nat (length w) = WNDWSIZE ->
  window_bounds s -> target_ok s -> tend s < 2 ^ 64 ->
  0 < len -> target s + len <= tend s ->
  1 <= d <= target s - tbgn s + count s ->
  (3 <= F)%nat ->
  exists tm',
    copybytes F d len s
    = Ok 0 (set_target (target s + len) (set_tmem tm' s))
    /\ length tm' = length (tmem s)
    /\ (forall i, target s <= i < target s + len ->
          nthZ tm' i = history_at s tm' (i - d))
    /\ (forall i, i < target s \/ target s + len <= i ->
          nthZ tm' i = nthZ (tmem s) i).
Proof.
  intros Hw Hlw Hwb (Htb & Htt & Htend) Ht64 Hlen Hroom Hd HF.
  unfold copybytes. rewrite bind_gets.
  rewrite (uxx_small (tend s - target s)) by lia.
  replace (copybytes_loop F d len (tend s - target s) s)
    with (copybytes_loop F d len (tend s - target s)
            (set_target (target s) (set_tmem (tmem s) s)))
    by (rewrite set_target_tmem_self; reflexivity).
  apply (copybytes_loop_history s w d Hw Hlw Hwb ltac:(lia) Htend Ht64
           ltac:(lia) F (target s) (tmem s) len);
    try lia.
  cbv zeta.
  destruct (d - (target s - tbgn s) <=? 0); [ lia | ].
  destruct (d - (target s - tbgn s) <=? end_ s); lia.
Qed.

(** A match copies the history.  Let the window be allocated with its
    counters within its size, the target span lie in the target array and
    have room for [len] bytes, and the distance [d] reach no further back
    than the bytes written to the span and the [count] bytes of the
    window.  [copybytes] then returns 0 with the target position [len]
    bytes on, and each byte it wrote is the byte [d] places before it in
    the history ([history_at]): a byte of the target span, which may be
    one of the same match, or, before the start of the span, a byte of
    the circular window.  The rest of the target array and of the decoder
    is as before. *)
Theorem copybytes_copies_history (F : nat) (d len : Z) (s : TInflator)
    (w : list Z) :
  window s = Some w -> Z.of_nat (length w) = WNDWSIZE ->
  window_bounds s -> target_ok s -> tend s < 2 ^ 64 ->
  0 < len -> target s + len <= tend s ->
  1 <= d <= target s - tbgn s + count s ->
  (3 <= F)%nat ->
  exists tm',
    copybytes F d len s
    = Ok 0 (set_target (target s + len) (set_tmem tm' s))
    /\ length tm' = length (tmem s)
    /\ (forall i, target s <= i < target s + len ->
          nthZ tm' i = history_at s tm' (i - d))
    /\ (forall i, i < target s \/ target s + len <= i ->
          nthZ tm' i = nthZ (tmem s) i).
Proof.
  intros Hw Hlw Hwb Htgt Ht64 Hlen Hroom Hd HF.
  exact (copybytes_history F d len s w Hw Hlw Hwb Htgt Ht64 Hlen Hroom Hd HF).
Qed.

Lemma copybytes_copies_history_witness :
  exists tm',
    copybytes 3 2 4 (with_dict_and_target 8)
    = Ok 0 (set_target (target (with_dict_and_target 8) + 4)
              (set_tmem tm' (with_dict_and_target 8)))
    /\ length tm' = length (tmem (with_dict_and_target 8))
    /\ (forall i, target (with_dict_and_target 8) <= i
                  < target (with_dict_and_target 8) + 4 ->
          nthZ tm' i = history_at (with_dict_and_target 8) tm' (i - 2))
    /\ (forall i, i < target (with_dict_and_target 8)
                  \/ target (with_dict_and_target 8) + 4 <= i ->
          nthZ tm' i = nthZ (tmem (with_dict_and_target 8)) i).
Proof.
  apply (copybytes_copies_history 3 2 4 (with_dict_and_target 8)
           (window_bytes (with_dict_and_target 8))).
  - apply window_some. vm_compute. reflexivity.
  - vm_compute. reflexivity.
  - vm_compute. repeat split; discriminate.
  - vm_compute. repeat split; discriminate.
  - vm_compute. reflexivity.
  - lia.
  - vm_compute. discriminate.
  - vm_compute. split; discriminate.
  - lia.
Defined.

(** * Matches that reach into the preset dictionary *)

Lemma nthZ_app_low (a b : list Z) i :
  i < Z.of_nat (length a) -> nthZ (a ++ b) i = nthZ a i.
Proof.
  intros Hi. destruct (Z_lt_le_dec i 0).
  - rewrite !nthZ_neg by lia. reflexivity.
  - rewrite !nthZ_nonneg by lia. apply nth_error_app1. lia.
Qed.

Lemma nthZ_firstn (a : list Z) n i :
  i < Z.of_nat n -> nthZ (firstn n a) i = nthZ a i.
Proof.
  intros Hi. destruct (Z_lt_le_dec i 0).
  - rewrite !nthZ_neg by lia. reflexivity.
  - rewrite !nthZ_nonneg by lia. rewrite nth_error_firstn.
    replace (Z.to_nat i <? n)%nat with true
      by (symmetry; apply Nat.ltb_lt; lia).
    reflexivity.
Qed.



(** * The symbols of the slow path *)

(** The literal/length entry of the code at the bit position of the
    decoder, as the two loops of [decodeblck] find it. *)
Lemma symbol_entry F s :
  reservoir_ok s -> table_ok s ltable LTABLEMODE LROOTBITS ->
  bitpos s + 15 <= 8 * send s -> (3 <= F)%nat ->
  exists e src bc,
    entry_at s ltable LROOTBITS (bitpos s) = Some e
    /\ leaf_ok LTABLEMODE e = true
    /\ (forall k l b d,
          blck_symbol F k l b d s
          = blck_entry F k l b d e (slow_at (tmem s) (target s) src bc s))
    /\ 8 * src - bc = bitpos s
    /\ source s <= src <= send s
    /\ TEntry.length e <= bc <= 63.
Proof.
  intros (Hbytes & Hsrc & Hsend & Hbc & Hpos & Hbb) Hlt Hav HF.
  unfold bitpos in Hpos, Hav.
  destruct (slow_entry_at s Hbytes Hsend ltable (ltable_slow s)
              LTABLEMODE LROOTBITS ltac:(left; reflexivity)
              ltac:(vm_compute; split; discriminate) Hlt
              (tmem s) (target s) F (source s) (bcount s))
    as (e1 & e & src1 & bc1 & src' & bc' & Hs1 & Hs2 & Hent & Hleaf
        & Hp2 & Hss2 & Hl2 & Hb2); try lia.
  rewrite (slow_at_self s Hbb) in Hs1.
  exists e, src', bc'.
  split; [ exact Hent | split; [ exact Hleaf | ] ].
  split; [ | split; [ exact Hp2 | split; lia ] ].
  intros k l b d. unfold blck_symbol.
  run Hs1. cbv iota beta. run Hs2. reflexivity.
Qed.

(** The output after one byte has been written at its end. *)
Lemma updZ_output (tm : list Z) tgt (x : Z) tm' tb :
  updZ tm tgt x = Some tm' -> 0 <= tb <= tgt ->
  firstn (Z.to_nat (tgt + 1 - tb)) (skipn (Z.to_nat tb) tm')
  = firstn (Z.to_nat (tgt - tb)) (skipn (Z.to_nat tb) tm) ++ [x].
Proof.
  intros Hu Htb. apply updZ_inv in Hu. destruct Hu as (Hi & ->).
  assert (Hcp : memcpy tm tgt [x] 0 1
                = Some (firstn (Z.to_nat tgt) tm
                        ++ x :: skipn (S (Z.to_nat tgt)) tm)).
  { unfold memcpy.
    replace ((0 <=? tgt) && (0 <=? 0) && (0 <=? 1)
             && (tgt + 1 <=? Z.of_nat (length tm))
             && (0 + 1 <=? Z.of_nat (length [x]))) with true
      by (symmetry; repeat (apply andb_true_iff; split); apply Z.leb_le;
          cbn [length]; lia).
    change (Z.to_nat 1) with 1%nat. change (Z.to_nat 0) with 0%nat.
    cbn [skipn firstn].
    replace (Z.to_nat (tgt + 1)) with (S (Z.to_nat tgt)) by lia.
    reflexivity. }
  destruct (memcpy_output _ _ _ _ _ _ tb Hcp Htb) as (_ & H).
  exact H.
Qed.

(** The conditions of the statements below, from their checks by
    computation. *)
Lemma reservoir_okb_ok s : reservoir_okb s = true -> reservoir_ok s.
Proof.
  unfold reservoir_okb, reservoir_ok. intros H.
  repeat (apply andb_true_iff in H; destruct H as [H ?]).
  repeat match goal with
         | H : (_ <=? _) = true |- _ => apply Z.leb_le in H
         | H : (_ =? _) = true |- _ => apply Z.eqb_eq in H
         end.
  split; [ apply is_byteb_all; exact H | ].
  repeat split; assumption.
Qed.

Lemma target_okb_ok s : target_okb s = true -> target_ok s /\ tend s < 2 ^ 64.
Proof.
  unfold target_okb, target_ok. intros H.
  repeat (apply andb_true_iff in H; destruct H as [H ?]).
  repeat match goal with
         | H : (_ <=? _) = true |- _ => apply Z.leb_le in H
         | H : (_ <? _) = true |- _ => apply Z.ltb_lt in H
         end.
  repeat split; assumption.
Qed.

Lemma entry_isb_ok s tbl root p e :
  entry_isb s tbl root p e = true -> entry_at s tbl root p = Some e.
Proof.
  unfold entry_isb. destruct (entry_at s tbl root p) as [ e' | ];
    [ | discriminate ].
  intros H. f_equal. apply entry_eqb_eq. exact H.
Qed.

Lemma window_okb_ok s :
  window_okb s = true ->
  window s = Some (window_bytes s)
  /\ Z.of_nat (length (window_bytes s)) = WNDWSIZE
  /\ window_bounds s.
Proof.
  unfold window_okb, window_bounds. intros H.
  repeat (apply andb_true_iff in H; destruct H as [H ?]).
  repeat match goal with
         | H : (_ <=? _) = true |- _ => apply Z.leb_le in H
         | H : (_ =? _) = true |- _ => apply Z.eqb_eq in H
         end.
  split; [ apply window_some; exact H | ].
  repeat split; assumption.
Qed.

Lemma symbol_readyb_ok s n e :
  symbol_readyb s n e = true ->
  reservoir_ok s /\ target_ok s /\ tend s < 2 ^ 64
  /\ table_ok s ltable LTABLEMODE LROOTBITS
  /\ bitpos s + n <= 8 * send s
  /\ entry_at s ltable LROOTBITS (bitpos s) = Some e.
Proof.
  unfold symbol_readyb. intros H.
  apply andb_true_iff in H. destruct H as [H Hent].
  apply andb_true_iff in H. destruct H as [H Hav].
  apply andb_true_iff in H. destruct H as [H Htab].
  apply andb_true_iff in H. destruct H as [Hres Htgt].
  destruct (target_okb_ok s Htgt) as [Ht H64].
  split; [ apply reservoir_okb_ok; exact Hres | ].
  split; [ exact Ht | split; [ exact H64 | ] ].
  split; [ exact Htab | ].
  split; [ apply Z.leb_le; exact Hav | apply entry_isb_ok; exact Hent ].
Qed.

Lemma match_readyb_ok s e e2 :
  match_readyb s e e2 = true ->
  symbol_readyb s 48 e = true
  /\ (window s = Some (window_bytes s)
      /\ Z.of_nat (length (window_bytes s)) = WNDWSIZE
      /\ window_bounds s)
  /\ table_ok s dtable DTABLEMODE DROOTBITS
  /\ length_entry_ok e = true
  /\ entry_at s dtable DROOTBITS (match_dist_pos s e) = Some e2
  /\ distance_entry_ok e2 = true
  /\ match_dist s e e2 <= target s - tbgn s + count s
  /\ target s + match_len s e <= tend s.
Proof.
  unfold match_readyb. intros H.
  apply andb_true_iff in H. destruct H as [H Hroom].
  apply andb_true_iff in H. destruct H as [H Hreach].
  apply andb_true_iff in H. destruct H as [H Hde].
  apply andb_true_iff in H. destruct H as [H Hent2].
  apply andb_true_iff in H. destruct H as [H Hle].
  apply andb_true_iff in H. destruct H as [H Hdt].
  apply andb_true_iff in H. destruct H as [Hsym Hwin].
  split; [ exact Hsym | ].
  split; [ apply window_okb_ok; exact Hwin | ].
  split; [ exact Hdt | ].
  split; [ exact Hle | ].
  split; [ apply entry_isb_ok; exact Hent2 | ].
  split; [ exact Hde | ].
  split; apply Z.leb_le; assumption.
Qed.

(** [decodeblck] does what the table entry of the next code says.  Let
    the bit buffer hold bits of the source span, the literal/length table
    be well formed ([table_ok], which holds of tables built for a dynamic
    block such as that of [at_fast_check], and not of the static table,
    whose entries for the codes 286 and 287 give the length 0), the span
    have 15 more bits, and [e] be the entry of the code at the bit
    position of the decoder ([entry_at]).  One round
    of the symbol loop then takes the bits of the code and: for a literal
    entry, with room in the target span, appends the literal to the
    output and goes on; for the end-of-block entry, returns 0 with the
    sub-state 0 and the target array and position as they were.  In both
    cases the bit position has moved on by the length of the code and the
    bit buffer holds bits of the source span. *)
Theorem slow_path_follows_entry (F : nat) (l b d : Z) (s : TInflator)
    (e : TINFLTTEntry) :
  reservoir_ok s -> target_ok s ->
  table_ok s ltable LTABLEMODE LROOTBITS ->
  bitpos s + 15 <= 8 * send s ->
  entry_at s ltable LROOTBITS (bitpos s) = Some e ->
  (3 <= F)%nat ->
  (TEntry.etag e = LITERALSYMBOL -> target s < tend s ->
   exists s',
     slow_symbols F 1 l b d s = Ok SYMBOLS_DONE s'
     /\ output s' = output s ++ [u8 (TEntry.info e)]
     /\ target s' = target s + 1
     /\ bitpos s' = bitpos s + TEntry.length e
     /\ reservoir_ok s')
  /\ (TEntry.etag e = ENDOFBLOCK ->
      exists s',
        slow_symbols F 1 l b d s = Ok 0 s'
        /\ tmem s' = tmem s /\ target s' = target s
        /\ bitpos s' = bitpos s + TEntry.length e
        /\ substate s' = 0
        /\ reservoir_ok s').
Proof.
  intros Hres (Htb & Htt & Htend) Hlt Hav Hent HF.
  pose proof Hres as (Hbytes & Hsrc & Hsend & Hbc & Hpos & Hbb).
  destruct (symbol_entry F s Hres Hlt Hav HF)
    as (e' & src & bc & Hent' & Hleaf & Hrun & Hp & Hs & Hb).
  rewrite Hent in Hent'. injection Hent' as <-.
  pose proof (leaf_length _ _ Hleaf) as Hel.
  cbn [slow_symbols]. rewrite Hrun.
  split.
  - (* a literal *)
    intros Htag Hroom.
    destruct (updZ (tmem s) (target s) (u8 (TEntry.info e))) as [ tm' | ] eqn:Hu;
      [ | rewrite updZ_some in Hu by lia; discriminate ].
    assert (Hgo : blck_entry F (fun _ _ _ => ret SYMBOLS_DONE) l b d e
                    (slow_at (tmem s) (target s) src bc s)
                  = Ok SYMBOLS_DONE
                      (slow_at tm' (target s + 1) src
                         (bc - TEntry.length e) s)).
    { unfold blck_entry. rewrite Htag, Z.eqb_refl.
      rewrite !bind_gets. fields.
      replace (target s <? tend s) with true
        by (symmetry; apply Z.ltb_lt; lia).
      rewrite (bind_geto _ tm') by (fields; exact Hu).
      rewrite !bind_modify.
      at_state (slow_at tm' (target s + 1) src bc s).
      run (dropbits_slow s tm' (target s + 1) src bc (TEntry.length e)
             ltac:(lia) ltac:(lia) ltac:(lia)).
      reflexivity. }
    eexists. split; [ exact Hgo | ].
    split; [ | split; [ reflexivity | split ] ].
    + unfold output at 1. fields.
      apply updZ_output; [ exact Hu | lia ].
    + unfold bitpos in *. fields. lia.
    + apply reservoir_ok_slow_at; try assumption; lia.
  - (* the end of the block *)
    intros Htag.
    assert (Hgo : blck_entry F (fun _ _ _ => ret SYMBOLS_DONE) l b d e
                    (slow_at (tmem s) (target s) src bc s)
                  = Ok 0
                      (slow_at (tmem s) (target s) src
                         (bc - TEntry.length e) (set_substate 0 s))).
    { unfold blck_entry. rewrite Htag.
      change (ENDOFBLOCK =? LITERALSYMBOL) with false.
      change (ENDOFBLOCK =? ENDOFBLOCK) with true. cbv iota.
      run (dropbits_slow s (tmem s) (target s) src bc (TEntry.length e)
             ltac:(lia) ltac:(lia) ltac:(lia)).
      rewrite bind_modify. reflexivity. }
    eexists. split; [ exact Hgo | ].
    split; [ reflexivity | split; [ reflexivity | split; [ | split ] ] ].
    + unfold bitpos in *. fields. lia.
    + reflexivity.
    + apply reservoir_ok_slow_at; try assumption;
        cbn [send set_substate]; lia.
Qed.

Lemma slow_path_follows_entry_witness :
  (exists s',
     slow_symbols 3 1 0 0 0 at_fast_check = Ok SYMBOLS_DONE s'
     /\ output s' = output at_fast_check ++ [u8 (TEntry.info (E 116 16 6))]
     /\ target s' = target at_fast_check + 1
     /\ bitpos s' = bitpos at_fast_check + TEntry.length (E 116 16 6)
     /\ reservoir_ok s')
  /\ (exists s',
        slow_symbols 3 1 0 0 0 at_block_end = Ok 0 s'
        /\ tmem s' = tmem at_block_end /\ target s' = target at_block_end
        /\ bitpos s' = bitpos at_block_end + TEntry.length (E 256 17 7)
        /\ substate s' = 0
        /\ reservoir_ok s').
Proof.
  split.
  - assert (H : symbol_readyb at_fast_check 15 (E 116 16 6) = true)
      by (vm_compute; reflexivity).
    destruct (symbol_readyb_ok _ _ _ H) as (Hres & Htgt & _ & Htab & Hav & Hent).
    apply (proj1 (slow_path_follows_entry 3 0 0 0 at_fast_check (E 116 16 6)
                    Hres Htgt Htab Hav Hent ltac:(lia))).
    + reflexivity.
    + vm_compute. reflexivity.
  - assert (H : symbol_readyb at_block_end 15 (E 256 17 7) = true)
      by (vm_compute; reflexivity).
    destruct (symbol_readyb_ok _ _ _ H) as (Hres & Htgt & _ & Htab & Hav & Hent).
    apply (proj2 (slow_path_follows_entry 3 0 0 0 at_block_end (E 256 17 7)
                    Hres Htgt Htab Hav Hent ltac:(lia))).
    reflexivity.
Defined.

(** A match of the slow path.  Let the decoder be as above with both
    tables well formed ([tables_ok], which the static tables are not),
    the window allocated, and 48 more bits in the
    source span; let the entry [e] of the code at the bit position be a
    length entry and [e2], the entry of the code behind its extra bits, a
    distance entry; let the distance reach no further back than the
    output and the window contents, and the target span have room for the
    match.  One round of the symbol loop then takes the two codes and
    their extra bits and writes the match: the target position moves on
    by the length [match_len], each byte written is the byte
    [match_dist] places before it in the history of the output and the
    window, and the output before the match is as it was. *)
Theorem slow_path_decodes_match (F : nat) (l b d : Z) (s : TInflator)
    (w : list Z) (e e2 : TINFLTTEntry) :
  reservoir_ok s -> target_ok s -> tend s < 2 ^ 64 -> tables_ok s ->
  window s = Some w -> Z.of_nat (length w) = WNDWSIZE -> window_bounds s ->
  bitpos s + 48 <= 8 * send s ->
  entry_at s ltable LROOTBITS (bitpos s) = Some e ->
  length_entry_ok e = true ->
  entry_at s dtable DROOTBITS (match_dist_pos s e) = Some e2 ->
  distance_entry_ok e2 = true ->
  match_dist s e e2 <= target s - tbgn s + count s ->
  target s + match_len s e <= tend s ->
  (3 <= F)%nat ->
  exists s',
    slow_symbols F 1 l b d s = Ok SYMBOLS_DONE s'
    /\ target s' = target s + match_len s e
    /\ bitpos s' = match_end s e e2
    /\ (forall i, target s <= i < target s + match_len s e ->
          nthZ (tmem s') i = history_at s (tmem s') (i - match_dist s e e2))
    /\ (forall i, i < target s -> nthZ (tmem s') i = nthZ (tmem s) i)
    /\ reservoir_ok s'.
Proof.
  intros Hres Htgt Ht64 (Hlt & Hdt) Hw Hlw Hwb Hav Hent Hle Hent2 Hde Hreach
    Hroom HF.
  pose proof Hres as (Hbytes & Hsrc & Hsend & Hbc & Hpos & Hbb).
  pose proof Htgt as (Htb & Htt & Htend).
  destruct (symbol_entry F s Hres Hlt ltac:(lia) HF)
    as (e' & src & bc & Hent' & Hleaf & Hrun & Hp & Hs & Hb).
  rewrite Hent in Hent'. injection Hent' as <-.
  pose proof (leaf_length _ _ Hleaf) as Hel.
  destruct (length_entry_inv s e Hle) as (Hx & Hinfo & Hmax).
  assert (H2x : 1 <= 2 ^ TEntry.etag e)
    by (change 1 with (2 ^ 0); apply pow2_le_mono; lia).
  assert (H64 : 2 ^ 64 = 18446744073709551616) by reflexivity.
  unfold match_len, match_dist, match_end, match_dist_pos in *.
  set (p := bitpos s) in *.
  set (tm := tmem s) in *. set (tgt := target s) in *.
  (* the extra bits of the length *)
  destruct (tryreadbits_slow s Hbytes Hsend tm tgt (TEntry.etag e)
              ltac:(lia) F src (bc - TEntry.length e))
    as (src1 & bc1 & Hs1 & Hp1 & Hss1 & Hn1 & Hb1); try lia.
  pose proof (bits_at_range (smem s) (p + TEntry.length e) (TEntry.etag e)
                ltac:(lia)) as Hg.
  set (len := TEntry.info e
              + bits_at (smem s) (p + TEntry.length e) (TEntry.etag e)) in *.
  (* the distance code *)
  destruct (slow_entry_at s Hbytes Hsend dtable (dtable_slow s)
              DTABLEMODE DROOTBITS ltac:(right; reflexivity)
              ltac:(vm_compute; split; discriminate) Hdt tm tgt F src1
              (bc1 - TEntry.etag e))
    as (e1 & e2' & src2 & bc2 & src3 & bc3 & Hd1 & Hd2 & Hent2' & Hleaf2
        & Hp3 & Hss3 & Hl3 & Hb3); try lia.
  replace (8 * src1 - (bc1 - TEntry.etag e))
    with (p + TEntry.length e + TEntry.etag e) in Hent2' by lia.
  rewrite Hent2 in Hent2'. injection Hent2' as <-.
  pose proof (leaf_length _ _ Hleaf2) as Hel2.
  destruct (distance_entry_inv s e2 Hde) as (Hx2 & Hinfo2).
  assert (H2x2 : 2 ^ TEntry.etag e2 <= 2 ^ 13) by (apply pow2_le_mono; lia).
  change (2 ^ 13) with 8192 in H2x2. change (2 ^ 16) with 65536 in Hinfo2.
  (* the extra bits of the distance *)
  destruct (tryreadbits_slow s Hbytes Hsend tm tgt (TEntry.etag e2)
              ltac:(lia) F src3 (bc3 - TEntry.length e2))
    as (src4 & bc4 & Hs4 & Hp4 & Hss4 & Hn4 & Hb4); try lia.
  pose proof (bits_at_range (smem s)
                (p + TEntry.length e + TEntry.etag e + TEntry.length e2)
                (TEntry.etag e2) ltac:(lia)) as Hg2.
  set (dist := TEntry.info e2
               + bits_at (smem s)
                   (p + TEntry.length e + TEntry.etag e + TEntry.length e2)
                   (TEntry.etag e2)) in *.
  (* the copy *)
  set (X := slow_at tm tgt src4 (bc4 - TEntry.etag e2) s).
  assert (HwX : window X = Some w) by exact Hw.
  assert (HbX : window_bounds X) by exact Hwb.
  assert (HtX : target_ok X) by exact Htgt.
  assert (H6X : tend X < 2 ^ 64) by exact Ht64.
  assert (HlX : 0 < len) by lia.
  assert (HrX : target X + len <= tend X)
    by (change (target X) with tgt; change (tend X) with (tend s); lia).
  assert (HdX : 1 <= dist <= target X - tbgn X + count X)
    by (change (target X) with tgt; change (tbgn X) with (tbgn s);
        change (count X) with (count s); lia).
  destruct (copybytes_history F dist len X w HwX Hlw HbX HtX H6X HlX
              HrX HdX HF)
    as (tm' & Hcp & Hl' & Hin & Hout).
  change (target X) with tgt in Hcp, Hin, Hout.
  assert (Hgo : blck_entry F (fun _ _ _ => ret SYMBOLS_DONE) l b d e
                  (slow_at tm tgt src bc s)
                = Ok SYMBOLS_DONE (set_target (tgt + len) (set_tmem tm' X))).
  { unfold blck_entry.
    replace (TEntry.etag e =? LITERALSYMBOL) with false
      by (symmetry; apply Z.eqb_neq; unfold LITERALSYMBOL; lia).
    replace (TEntry.etag e =? ENDOFBLOCK) with false
      by (symmetry; apply Z.eqb_neq; unfold ENDOFBLOCK; lia).
    replace (TEntry.etag e =? INVALIDCODE) with false
      by (symmetry; apply Z.eqb_neq; unfold INVALIDCODE; lia).
    run (dropbits_slow s tm tgt src bc (TEntry.length e)
           ltac:(lia) ltac:(lia) ltac:(lia)).
    unfold blck_state1. run Hs1. cbv iota.
    run (getbits_slow s tm tgt src1 bc1 (TEntry.etag e)
           ltac:(lia) ltac:(lia) ltac:(lia)).
    run (dropbits_slow s tm tgt src1 bc1 (TEntry.etag e)
           ltac:(lia) ltac:(lia) ltac:(lia)).
    rewrite Z.min_l by lia.
    replace (8 * src1 - bc1) with (p + TEntry.length e) by lia.
    rewrite (uxx_small (TEntry.info e + _)) by lia. fold len.
    unfold blck_state2.
    run Hd1. cbv iota beta. run Hd2. cbv iota beta.
    replace (TEntry.etag e2 =? INVALIDCODE) with false
      by (symmetry; apply Z.eqb_neq; unfold INVALIDCODE; lia).
    run (dropbits_slow s tm tgt src3 bc3 (TEntry.length e2)
           ltac:(lia) ltac:(lia) ltac:(lia)).
    unfold blck_state3. run Hs4. cbv iota.
    run (getbits_slow s tm tgt src4 bc4 (TEntry.etag e2)
           ltac:(lia) ltac:(lia) ltac:(lia)).
    run (dropbits_slow s tm tgt src4 bc4 (TEntry.etag e2)
           ltac:(lia) ltac:(lia) ltac:(lia)).
    rewrite Z.min_l by lia.
    replace (8 * src4 - bc4)
      with (p + TEntry.length e + TEntry.etag e + TEntry.length e2) by lia.
    rewrite (uxx_small (TEntry.info e2 + _)) by lia. fold dist.
    unfold blck_state4. fold X. run Hcp.
    change (negb (0 =? 0)) with false. cbv iota. reflexivity. }
  cbn [slow_symbols]. rewrite Hrun.
  eexists. split; [ exact Hgo | ].
  split; [ reflexivity | ].
  split; [ unfold bitpos, X; fields; lia | ].
  split; [ | split ].
  - intros i Hi. exact (Hin i Hi).
  - intros i Hi. apply Hout. left. exact Hi.
  - change (reservoir_ok (slow_at tm' (tgt + len) src4
                            (bc4 - TEntry.etag e2) s)).
    apply reservoir_ok_slow_at; try assumption; lia.
Qed.

Lemma slow_path_decodes_match_witness :
  exists s',
    slow_symbols 3 1 0 0 0 at_first_match = Ok SYMBOLS_DONE s'
    /\ target s' = target at_first_match + match_len at_first_match (E 3 0 4)
    /\ bitpos s' = match_end at_first_match (E 3 0 4) (E 25 3 4)
    /\ (forall i,
          target at_first_match <= i
          < target at_first_match + match_len at_first_match (E 3 0 4) ->
          nthZ (tmem s') i
          = history_at at_first_match (tmem s')
              (i - match_dist at_first_match (E 3 0 4) (E 25 3 4)))
    /\ (forall i, i < target at_first_match ->
          nthZ (tmem s') i = nthZ (tmem at_first_match) i)
    /\ reservoir_ok s'.
Proof.
  assert (H : match_readyb at_first_match (E 3 0 4) (E 25 3 4) = true)
    by (vm_compute; reflexivity).
  destruct (match_readyb_ok _ _ _ H)
    as (Hsym & (Hw & Hlw & Hwb) & Hdt & Hle & Hent2 & Hde & Hreach & Hroom).
  destruct (symbol_readyb_ok _ _ _ Hsym)
    as (Hres & Htgt & H64 & Hlt & Hav & Hent).
  exact (slow_path_decodes_match 3 0 0 0 at_first_match
           (window_bytes at_first_match) (E 3 0 4) (E 25 3 4)
           Hres Htgt H64 (conj Hlt Hdt) Hw Hlw Hwb Hav Hent Hle Hent2 Hde
           Hreach Hroom ltac:(lia)).
Defined.

(** * Suspension on a full target span *)

Lemma set_window_self s :
  set_end_ (end_ s) (set_count (count s) (set_window (window s) s)) = s.
Proof. destruct s; reflexivity. Qed.

(** [updatewindow] is defined on a decoder with its window, and changes
    the window fields only. *)
Lemma updatewindow_total s w :
  window s = Some w -> Z.of_nat (length w) = WNDWSIZE ->
  target_ok s -> window_bounds s -> target s < 2 ^ 64 ->
  exists w' c e,
    updatewindow s = Ok 0 (set_end_ e (set_count c (set_window w' s))).
Proof.
  intros Hw Hlw Htgt Hwb H64.
  destruct (Z.eq_dec (target s) (tbgn s)) as [Heq | Hne].
  - exists (window s), (count s), (end_ s). rewrite set_window_self.
    unfold updatewindow. rewrite bind_gets, Heq, Z.sub_diag.
    reflexivity.
  - destruct Htgt as (Htb & Htt & Htend).
    destruct (updatewindow_run s w Hw Hlw ltac:(repeat split; lia) Hwb
                ltac:(lia) H64)
      as (w1 & w2 & _ & _ & Hrun).
    do 3 eexists. exact Hrun.
Qed.

Lemma reservoir_ok_window s w c e sub :
  reservoir_ok s ->
  reservoir_ok (set_substate sub (set_end_ e (set_count c (set_window w s)))).
Proof. intros H; exact H. Qed.

(** A literal that the target span has no room for stays in the stream.
    With the decoder as for [slow_path_follows_entry] (the literal/length
    table well formed, which the static table is not), its window
    allocated, the next code a literal and the target span full, the
    round of the symbol loop returns [INFLT_TGTEXHSTD] with the sub-state
    0: the target array and the target position are as they were, the bit
    position of the decoder is the same (the bits of the code are still
    to be read), and the bit buffer holds bits of the source span. *)
Theorem slow_path_keeps_literal_on_full_target (F : nat) (l b d : Z)
    (s : TInflator) (w : list Z) (e : TINFLTTEntry) :
  reservoir_ok s -> target_ok s -> tend s < 2 ^ 64 ->
  table_ok s ltable LTABLEMODE LROOTBITS ->
  window s = Some w -> Z.of_nat (length w) = WNDWSIZE -> window_bounds s ->
  bitpos s + 15 <= 8 * send s ->
  entry_at s ltable LROOTBITS (bitpos s) = Some e ->
  TEntry.etag e = LITERALSYMBOL ->
  target s = tend s ->
  (3 <= F)%nat ->
  exists s',
    slow_symbols F 1 l b d s = Ok INFLT_TGTEXHSTD s'
    /\ tmem s' = tmem s /\ target s' = target s
    /\ bitpos s' = bitpos s
    /\ substate s' = 0
    /\ reservoir_ok s'.
Proof.
  intros Hres Htgt Ht64 Hlt Hw Hlw Hwb Hav Hent Htag Hfull HF.
  pose proof Hres as (Hbytes & Hsrc & Hsend & Hbc & Hpos & Hbb).
  destruct (symbol_entry F s Hres Hlt Hav HF)
    as (e' & src & bc & Hent' & Hleaf & Hrun & Hp & Hs & Hb).
  rewrite Hent in Hent'. injection Hent' as <-.
  pose proof (leaf_length _ _ Hleaf) as Hel.
  set (X := slow_at (tmem s) (target s) src bc s) in *.
  assert (HresX : reservoir_ok X).
  { unfold bitpos in Hpos, Hp.
    apply reservoir_ok_slow_at; try assumption; lia. }
  assert (HwX : window X = Some w) by exact Hw.
  assert (HbX : window_bounds X) by exact Hwb.
  assert (HtX : target_ok X) by exact Htgt.
  assert (H6X : target X < 2 ^ 64)
    by (change (target X) with (target s); destruct Htgt as (_ & ? & _); lia).
  assert (HfX : target X = tend X) by exact Hfull.
  assert (HpX : bitpos X = bitpos s) by (unfold bitpos, X; fields; exact Hp).
  assert (HmX : tmem X = tmem s) by reflexivity.
  assert (HaX : target X = target s) by reflexivity.
  clearbody X.
  destruct (updatewindow_total X w HwX Hlw HtX HbX H6X)
    as (w' & c & e0 & Hup).
  cbn [slow_symbols]. rewrite Hrun.
  exists (set_substate 0 (set_end_ e0 (set_count c (set_window w' X)))).
  split; [ | split; [ exact HmX | split; [ exact HaX | split;
             [ exact HpX | split; [ reflexivity | ] ] ] ] ].
  - unfold blck_entry. rewrite Htag, Z.eqb_refl.
    rewrite !bind_gets, HfX.
    rewrite Z.ltb_irrefl.
    unfold after_window. run Hup.
    change (negb (0 =? 0)) with false. cbv iota.
    rewrite bind_modify. reflexivity.
  - apply reservoir_ok_window. exact HresX.
Qed.

Lemma slow_path_keeps_literal_on_full_target_witness :
  exists s',
    slow_symbols 3 1 0 0 0 at_full_target = Ok INFLT_TGTEXHSTD s'
    /\ tmem s' = tmem at_full_target /\ target s' = target at_full_target
    /\ bitpos s' = bitpos at_full_target
    /\ substate s' = 0
    /\ reservoir_ok s'.
Proof.
  assert (H : symbol_readyb at_full_target 15 (E 116 16 6) = true)
    by (vm_compute; reflexivity).
  destruct (symbol_readyb_ok _ _ _ H) as (Hres & Htgt & H64 & Htab & Hav & Hent).
  assert (Hwin : window_okb at_full_target = true)
    by (vm_compute; reflexivity).
  destruct (window_okb_ok _ Hwin) as (Hw & Hlw & Hwb).
  apply (slow_path_keeps_literal_on_full_target 3 0 0 0 at_full_target
           (window_bytes at_full_target) (E 116 16 6)
           Hres Htgt H64 Htab Hw Hlw Hwb Hav Hent).
  - reflexivity.
  - vm_compute. reflexivity.
  - lia.
Defined.

(** * The results of a call *)

(** Closes a goal on a result that is in the context or has just been
    set. *)
Ltac reported :=
  cbv beta; unfold reports, fast_reports in *; fields;
  zbool;
  repeat match goal with
    | H : _ /\ _ |- _ => destruct H
    | H : _ \/ _ |- _ => destruct H
    end;
  subst;
  try discriminate; try congruence;
  first
    [ left; reflexivity
    | right; left; reflexivity
    | right; right; left; reflexivity
    | right; right; right; split; [ reflexivity | first [ assumption | discriminate ] ]
    | right; right; split; [ reflexivity | first [ assumption | discriminate ] ]
    | idtac ].

Lemma updatewindow_returns_zero s : wp updatewindow (fun r _ => r = 0) s.
Proof. unfold updatewindow. repeat wp_step; reflexivity. Qed.

(** A call of [updatewindow] and what follows it. *)
Lemma wp_after_window (k : M Z) Q s :
  (forall s', wp k Q s') -> wp (after_window k) Q s.
Proof.
  intros Hk. unfold after_window. apply wp_bind.
  eapply wp_conseq; [ apply updatewindow_returns_zero | ].
  cbv beta. intros r s' ->. change (negb (0 =? 0)) with false. apply Hk.
Qed.

(** Steps that stop at the calls with a result of their own. *)
Ltac wp_walk :=
  repeat first
    [ lazymatch goal with
      | |- wp (after_window _) _ _ => apply wp_after_window; intros ?
      | |- wp updatewindow _ _ =>
          eapply wp_conseq; [ apply updatewindow_returns_zero | cbv beta; intros ? ? ? ]
      end
    | wp_step
    | lazymatch goal with
      | |- wp (tryreadbits _ _) _ _ => wp_opaque
      | |- wp (getbits _) _ _ => wp_opaque
      | |- wp (dropbits _) _ _ => wp_opaque
      | |- wp getpair _ _ => wp_opaque
      | |- wp (fetch_entry _ _ _ _ _) _ _ => wp_opaque
      | |- wp fetchbyte _ _ => wp_opaque
      | |- wp (store_length _ _) _ _ => wp_opaque
      | |- wp (repeat_length _ _) _ _ => wp_opaque
      | |- wp get_lengths _ _ => wp_opaque
      | |- wp (read_repeat _ _) _ _ => wp_opaque
      | |- wp (zero_clengths _) _ _ => wp_opaque
      | |- wp (copy_maxrun _ _ _ _) _ _ => wp_opaque
      | |- wp (fillbb _) _ _ => wp_opaque
      | |- wp (GETBITS _ _) _ _ => wp_opaque
      | |- wp (DROPBITS _ _) _ _ => wp_opaque
      | |- wp (fast_entry _ _ _) _ _ => wp_opaque
      | |- wp (copy_until _ _ _ _ _) _ _ => wp_opaque
      | |- wp (fast_far_copy _ _ _ _) _ _ => wp_opaque
      end ].

Lemma decodestrd_reports fuel s : wp (decodestrd fuel) reports s.
Proof.
  unfold decodestrd, strd_state0, strd_state1, strd_state2, strd_state3.
  wp_walk; reported.
Qed.

Lemma readlengths_reports fuel n : forall s, wp (readlengths fuel n) reports s.
Proof.
  induction fuel as [ | fuel IH ]; intros s; cbn [readlengths];
    [ exact I | ].
  wp_walk; try apply IH; reported.
Qed.

Lemma read_clengths_reports fuel :
  forall s, wp (read_clengths fuel)
              (fun o s' => forall r, o = Some r -> reports r s') s.
Proof.
  induction fuel as [ | fuel IH ]; intros s; cbn [read_clengths];
    [ exact I | ].
  wp_walk; try apply IH; intros r0 Hr0; try discriminate;
    injection Hr0 as <-; reported.
Qed.

(** [buildtable] returns 0 or [INFLT_ERROR]. *)
Lemma buildtable_result lens n table mode r table' :
  buildtable lens n table mode = Some (r, table') ->
  r = 0 \/ r = INFLT_ERROR.
Proof.
  unfold buildtable. intros H.
  repeat match type of H with
    | obind ?o _ = _ => destruct o; cbn [obind] in H; [ | discriminate ]
    | (if ?b then _ else _) = _ => destruct b
    | match ?x with _ => _ end = _ => destruct x
    | (let '(_, _) := ?p in _) = _ => destruct p
    end;
    try discriminate;
    injection H as <- _; auto.
Qed.

Lemma build_at_result p lens n mode s :
  wp (build_at p lens n mode) (fun r _ => r = 0 \/ r = INFLT_ERROR) s.
Proof.
  unfold build_at. repeat wp_step.
  destruct a0 as [r t]. eapply buildtable_result. eassumption.
Qed.

Ltac wp_call lemma :=
  eapply wp_conseq; [ apply lemma | cbv beta; intros ? ? ? ].

Ltac wp_header :=
  repeat first
    [ lazymatch goal with
      | |- wp (readlengths _ _) _ _ => wp_call readlengths_reports
      | |- wp (read_clengths _) _ _ => wp_call read_clengths_reports
      | |- wp (build_at _ _ _ _) _ _ => wp_call build_at_result
      end
    | progress wp_walk ].

Lemma dnmc_state2_reports fuel s : wp (dnmc_state2 fuel) reports s.
Proof. unfold dnmc_state2. wp_header; reported. Qed.

Lemma dnmc_state1_reports fuel s : wp (dnmc_state1 fuel) reports s.
Proof.
  unfold dnmc_state1. wp_header; try apply dnmc_state2_reports;
    try (match goal with H : forall r, Some _ = Some r -> _ |- _ =>
                           specialize (H _ eq_refl) end);
    reported.
Qed.

Lemma decodednmc_reports fuel s : wp (decodednmc fuel) reports s.
Proof.
  unfold decodednmc, dnmc_state0.
  wp_header;
    try apply dnmc_state1_reports; try apply dnmc_state2_reports; reported.
Qed.

Lemma copybytes_loop_reports fuel d :
  forall len avail s, wp (copybytes_loop fuel d len avail) reports s.
Proof.
  induction fuel as [ | fuel IH ]; intros len avail s; cbn [copybytes_loop];
    [ exact I | ].
  wp_walk; try apply IH; reported.
Qed.

Lemma copybytes_reports fuel d len s : wp (copybytes fuel d len) reports s.
Proof. unfold copybytes. wp_walk. apply copybytes_loop_reports. Qed.

(** The fast path. *)
Lemma fast_done_reports v r s :
  r = 0 \/ r = ENDOFBLOCK -> wp (fast_done v r) fast_reports s.
Proof. intros Hr. unfold fast_done. wp_walk. reported. Qed.

Lemma fast_loop_reports fuel : forall v s, wp (fast_loop fuel v) fast_reports s.
Proof.
  induction fuel as [ | fuel IH ]; intros v s; cbn [fast_loop];
    [ exact I | ]; unfold fast_match.
  repeat first
    [ lazymatch goal with
      | |- wp (fast_loop _ _) _ _ => apply IH
      | |- wp (fast_done _ 0) _ _ => apply fast_done_reports; left; reflexivity
      | |- wp (fast_done _ ENDOFBLOCK) _ _ =>
          apply fast_done_reports; right; reflexivity
      end
    | progress wp_walk ];
    reported.
Qed.

Lemma decodefast_reports fuel s : wp (decodefast fuel) fast_reports s.
Proof. unfold decodefast. wp_walk. apply fast_loop_reports. Qed.

(** The block decoder, [k] being the jump back to [L_LOOP]. *)
Section Block.

Variable k : Z -> Z -> Z -> M Z.
Hypothesis Hk : forall l b d s, wp (k l b d) reports s.

Ltac wp_block :=
  repeat first
    [ lazymatch goal with
      | |- wp (k _ _ _) _ _ => apply Hk
      | |- wp (copybytes _ _ _) _ _ => wp_call copybytes_reports
      | |- wp (suspend_src _ _ _ _) _ _ => unfold suspend_src
      end
    | progress wp_walk ].

Lemma blck_state4_reports fuel l b d s :
  wp (blck_state4 fuel k l b d) reports s.
Proof. unfold blck_state4. wp_block; reported. Qed.

Lemma blck_state3_reports fuel l b d s :
  wp (blck_state3 fuel k l b d) reports s.
Proof.
  unfold blck_state3. wp_block; try apply blck_state4_reports; reported.
Qed.

Lemma blck_state2_reports fuel l b d s :
  wp (blck_state2 fuel k l b d) reports s.
Proof.
  unfold blck_state2. wp_block; try apply blck_state3_reports; reported.
Qed.

Lemma blck_state1_reports fuel l b d s :
  wp (blck_state1 fuel k l b d) reports s.
Proof.
  unfold blck_state1. wp_block; try apply blck_state2_reports; reported.
Qed.

Lemma blck_symbol_reports fuel l b d s :
  wp (blck_symbol fuel k l b d) reports s.
Proof.
  unfold blck_symbol, blck_entry.
  wp_block; try apply blck_state1_reports; reported.
Qed.

End Block.

Lemma blck_fastcheck_reports fuel s :
  wp (blck_fastcheck fuel) (fun o s' => forall r, o = Some r -> reports r s') s.
Proof.
  unfold blck_fastcheck.
  repeat first
    [ lazymatch goal with
      | |- wp (decodefast _) _ _ => wp_call decodefast_reports
      end
    | progress wp_walk ];
    intros r0 Hr0; try discriminate; injection Hr0 as <-; reported.
Qed.

Lemma blck_loop_reports fuel :
  forall fc l b d s, wp (blck_loop fuel fc l b d) reports s.
Proof.
  induction fuel as [ | fuel IH ]; intros fc l b d s; cbn [blck_loop];
    [ exact I | ].
  apply wp_bind.
  assert (Hfast : wp (if fc then blck_fastcheck fuel else ret None)
                    (fun o s' => forall r, o = Some r -> reports r s') s).
  { destruct fc; [ apply blck_fastcheck_reports | ].
    apply wp_ret. intros r Hr; discriminate. }
  eapply wp_conseq; [ exact Hfast | ].
  cbv beta. intros [ r | ] s' Hr.
  - apply wp_ret. apply Hr. reflexivity.
  - apply blck_symbol_reports. intros l' b' d' s''. apply IH.
Qed.

Lemma decodeblck_reports fuel s : wp (decodeblck fuel) reports s.
Proof.
  assert (Hk : forall l b d s, wp (blck_loop fuel true l b d) reports s)
    by (intros; apply blck_loop_reports).
  unfold decodeblck.
  wp_walk;
    first [ apply blck_state1_reports | apply blck_state2_reports
          | apply blck_state3_reports | apply blck_state4_reports
          | apply Hk ];
    exact Hk.
Qed.

(** The stream driver. *)
Lemma return_result_reports r s :
  reports r s -> wp (return_result r) reports s.
Proof. intros Hr. unfold return_result. wp_walk; reported. Qed.

Lemma l_error_reports s : wp l_error reports s.
Proof. unfold l_error. wp_walk; reported. Qed.

Lemma inflate_loop_reports fuel : forall s, wp (inflate_loop fuel) reports s.
Proof.
  induction fuel as [ | fuel IH ]; intros s; cbn [inflate_loop];
    [ exact I | ]; unfold l_decode.
  repeat first
    [ lazymatch goal with
      | |- wp (inflate_loop _) _ _ => apply IH
      | |- wp l_error _ _ => apply l_error_reports
      | |- wp (return_result _) _ _ => apply return_result_reports; assumption
      | |- wp (decodestrd _) _ _ => wp_call decodestrd_reports
      | |- wp (decodednmc _) _ _ => wp_call decodednmc_reports
      | |- wp (decodeblck _) _ _ => wp_call decodeblck_reports
      end
    | progress wp_walk ];
    reported.
Qed.

Lemma inflate_dispatch_reports fuel s : wp (inflate_dispatch fuel) reports s.
Proof.
  unfold inflate_dispatch, l_decode.
  repeat first
    [ lazymatch goal with
      | |- wp (inflate_loop _) _ _ => apply inflate_loop_reports
      | |- wp (return_result _) _ _ => apply return_result_reports; assumption
      | |- wp (decodeblck _) _ _ => wp_call decodeblck_reports
      end
    | progress wp_walk ].
Qed.

(** [inflator_inflate] returns a result of its enumeration, and an error
    only with an error code.  Whatever the decoder and the spans, a call
    that returns gives [INFLT_OK], [INFLT_SRCEXHSTD], [INFLT_TGTEXHSTD]
    or [INFLT_ERROR], and with [INFLT_ERROR] the field [error] of the
    decoder is not zero. *)
Theorem inflate_reports_result_and_error (fuel : nat) (final : Z)
    (s s' : TInflator) (r : Z) :
  inflator_inflate fuel final s = Ok r s' ->
  r = INFLT_OK \/ r = INFLT_SRCEXHSTD \/ r = INFLT_TGTEXHSTD
  \/ (r = INFLT_ERROR /\ error s' <> 0).
Proof.
  intros H.
  assert (W : wp (inflator_inflate fuel final) reports s).
  { unfold inflator_inflate. wp_walk; apply inflate_dispatch_reports. }
  exact (wp_elim _ _ _ _ _ W H).
Qed.

Lemma inflate_reports_result_and_error_witness :
  INFLT_ERROR = INFLT_OK \/ INFLT_ERROR = INFLT_SRCEXHSTD
  \/ INFLT_ERROR = INFLT_TGTEXHSTD
  \/ (INFLT_ERROR = INFLT_ERROR /\ error after_bad_block <> 0).
Proof.
  apply (inflate_reports_result_and_error 10 0 (start bad_stored 4)).
  apply run_ok. vm_compute. reflexivity.
Defined.

(** * The spans of a call *)

(** [inflator_inflate] works inside the spans it was given.  A call that
    returns has changed neither the bytes of the source span nor the
    bounds of the source span or of the target span: it moves the two
    positions [source] and [target] and writes to the target array, and
    nothing else of what the caller set up. *)
Theorem inflate_keeps_spans (fuel : nat) (final : Z) (s s' : TInflator)
    (r : Z) :
  inflator_inflate fuel final s = Ok r s' -> same_spans s s'.
Proof.
  intros H.
  assert (W : wp (inflator_inflate fuel final) (fun _ s' => same_spans s s') s).
  { unfold inflator_inflate.
    repeat wp_step;
      (eapply wp_preserves with (I := fun x => same_spans s x);
       [ frame_unwritten
       | repeat split; reflexivity
       | intros ? ? H0; exact H0 ]). }
  exact (wp_elim _ _ _ _ _ W H).
Qed.

Lemma inflate_keeps_spans_witness :
  same_spans (start fixed_hello 8)
    (state_of (inflator_inflate 10 0 (start fixed_hello 8)) zeroed).
Proof.
  apply (inflate_keeps_spans 10 0 (start fixed_hello 8) _ INFLT_OK).
  apply run_ok. vm_compute. reflexivity.
Defined.

(** * A stored block over two target spans *)

Lemma inflate_enters_block fuel fin s :
  state s = 1 ->
  exists fi,
    inflator_inflate fuel fin s
    = inflate_loop fuel (set_used 1 (set_finalinput fi s)).
Proof.
  intros Hst. unfold inflator_inflate. rewrite bind_gets.
  destruct ((finalinput s =? 0) && negb (fin =? 0)).
  - exists 1. rewrite bind_modify, bind_modify.
    unfold inflate_dispatch. rewrite bind_gets.
    cbn [state set_used set_finalinput]. rewrite Hst. reflexivity.
  - exists (finalinput s). rewrite bind_ret, bind_modify.
    unfold inflate_dispatch. rewrite bind_gets.
    cbn [state set_used]. rewrite Hst.
    change (1 =? 5) with false. cbv iota.
    f_equal; destruct s; reflexivity.
Qed.

(** The copy of a block that the target span has no room for, in a
    final block. *)
Lemma strd_state3_target_full s0 tm tgt src tm' :
  0 <= src -> 0 <= tgt <= tend s0 ->
  send s0 < 2 ^ 64 -> tend s0 < 2 ^ 64 ->
  tend s0 - tgt < aux0 s0 -> aux0 s0 < 2 ^ 64 ->
  src + aux0 s0 <= send s0 ->
  final s0 = 1 ->
  memcpy tm tgt (smem s0) src (tend s0 - tgt) = Some tm' ->
  strd_state3 (slow_at tm tgt src 0 s0)
  = Ok INFLT_TGTEXHSTD
      (set_aux0 (aux0 s0 - (tend s0 - tgt))
         (slow_at tm' (tend s0) (src + (tend s0 - tgt)) 0 s0)).
Proof.
  intros Hsrc Htgt Hs64 Ht64 Hroom Hl64 Hsl Hfin Hcp. unfold strd_state3.
  rewrite !bind_gets. fields.
  rewrite (uxx_small (send s0 - src)), (uxx_small (tend s0 - tgt)) by lia.
  replace (tend s0 - tgt <? aux0 s0) with true
    by (symmetry; apply Z.ltb_lt; lia).
  replace (send s0 - src <? tend s0 - tgt) with false
    by (symmetry; apply Z.ltb_ge; lia).
  rewrite (bind_geto _ tm') by (fields; exact Hcp).
  rewrite !bind_modify, bind_gets. fields.
  rewrite (uxx_small (aux0 s0 - (tend s0 - tgt))) by lia.
  replace (aux0 s0 - (tend s0 - tgt) =? 0) with false
    by (symmetry; apply Z.eqb_neq; lia).
  cbn [negb]. cbv iota.
  rewrite bind_gets. fields. rewrite Hfin.
  change (1 =? 0) with false. cbv iota.
  rewrite bind_ret. change (negb (0 =? 0)) with false. cbv iota.
  rewrite Z.sub_diag. change (uxx 0) with 0. change (0 =? 0) with true.
  cbv iota. unfold ret. f_equal.
  unfold slow_at, with_reservoir. fields.
  rewrite !bits_at_zero.
  replace (tgt + (tend s0 - tgt)) with (tend s0) by lia.
  reflexivity.
Qed.

(** The first call on a final stored block whose bytes the target span
    has no room for. *)
Lemma stored_block_fills_span f s :
  reservoir_ok s -> target_ok s -> send s < 2 ^ 64 -> tend s < 2 ^ 64 ->
  state s = 1 -> final s = 1 -> substate s = 0 -> bcount s <= 32 ->
  stored_start s + 32 + 8 * stored_len s <= 8 * send s ->
  stored_nlen s = 65535 - stored_len s ->
  tend s < target s + stored_len s ->
  (3 <= f)%nat ->
  exists tm',
    inflate_loop f s
    = Ok INFLT_TGTEXHSTD
        (set_aux0 (stored_len s - (tend s - target s))
           (slow_at tm' (tend s)
              (stored_start s / 8 + 4 + (tend s - target s)) 0
              (set_substate 3 (set_aux0 (stored_len s) s))))
    /\ length tm' = length (tmem s)
    /\ firstn (Z.to_nat (tend s - tbgn s)) (skipn (Z.to_nat (tbgn s)) tm')
       = output s
         ++ firstn (Z.to_nat (tend s - target s))
              (skipn (Z.to_nat (stored_start s / 8 + 4)) (smem s)).
Proof.
  intros Hres (Htb & Htt & Htend) Hs64 Ht64 Hst Hfin Hsub Hbc Hav Hn Hroom Hf.
  pose proof Hres as (Hbytes & Hsrc & Hsend & Hbc' & Hpos & Hbb).
  destruct (stored_start_bounds s) as (Hq & Hq8).
  pose proof (bits_at_range (smem s) (stored_start s) 16 ltac:(lia)) as Hlen.
  fold (stored_len s) in Hlen. change (2 ^ 16) with 65536 in Hlen.
  assert (H64 : 2 ^ 64 = 18446744073709551616) by reflexivity.
  destruct (memcpy_some (tmem s) (target s) (smem s)
              (stored_start s / 8 + 4) (tend s - target s))
    as (tm' & Hcp); try lia.
  destruct (memcpy_output _ _ _ _ _ _ (tbgn s) Hcp ltac:(lia)) as (Hl & Hout).
  replace (target s + (tend s - target s) - tbgn s) with (tend s - tbgn s)
    in Hout by lia.
  exists tm'. split; [ | split; [ exact Hl | exact Hout ] ].
  destruct f as [ | f ]; [ lia | ].
  cbn [inflate_loop]. rewrite bind_gets, Hst.
  change (1 =? 0) with false. change (1 =? 1) with true. cbv iota.
  assert (Hrun : decodestrd (S f) s
                 = Ok INFLT_TGTEXHSTD
                     (set_aux0 (stored_len s - (tend s - target s))
                        (slow_at tm' (tend s)
                           (stored_start s / 8 + 4 + (tend s - target s)) 0
                           (set_substate 3 (set_aux0 (stored_len s) s))))).
  { rewrite (strd_header (S f) s Hres Hsub Hbc ltac:(lia) ltac:(lia)).
    rewrite Hn, Z.eqb_refl. cbn [negb]. cbv iota.
    set (s3 := set_substate 3 (set_aux0 (stored_len s) s)).
    assert (A1 : 0 <= stored_start s / 8 + 4) by lia.
    assert (A2 : 0 <= target s <= tend s3) by (unfold s3; cbn [aux0 send tend set_substate set_aux0]; lia).
    assert (A3 : send s3 < 2 ^ 64) by exact Hs64.
    assert (A4 : tend s3 < 2 ^ 64) by exact Ht64.
    assert (A5 : tend s3 - target s < aux0 s3) by (unfold s3; cbn [aux0 send tend set_substate set_aux0]; lia).
    assert (A6 : aux0 s3 < 2 ^ 64) by (unfold s3; cbn [aux0 send tend set_substate set_aux0]; lia).
    assert (A7 : stored_start s / 8 + 4 + aux0 s3 <= send s3) by (unfold s3; cbn [aux0 send tend set_substate set_aux0]; lia).
    assert (A8 : final s3 = 1) by exact Hfin.
    exact (strd_state3_target_full s3 (tmem s) (target s)
             (stored_start s / 8 + 4) tm' A1 A2 A3 A4 A5 A6 A7 A8 Hcp). }
  run Hrun. change (negb (INFLT_TGTEXHSTD =? 0)) with true. cbv iota.
  unfold return_result. rewrite bind_gets.
  change (INFLT_TGTEXHSTD =? INFLT_SRCEXHSTD) with false.
  rewrite andb_false_r. reflexivity.
Qed.

(** The call that resumes the copy of a final stored block. *)
Lemma stored_block_resumes f s :
  Forall is_byte (smem s) ->
  0 <= source s -> send s <= Z.of_nat (length (smem s)) ->
  target_ok s -> send s < 2 ^ 64 -> tend s < 2 ^ 64 ->
  state s = 1 -> final s = 1 -> substate s = 3 ->
  bcount s = 0 -> bbuffer s = 0 ->
  0 <= aux0 s -> source s + aux0 s <= send s ->
  target s + aux0 s <= tend s ->
  (2 <= f)%nat ->
  exists s',
    inflate_loop f s = Ok INFLT_OK s'
    /\ output s'
       = output s
         ++ firstn (Z.to_nat (aux0 s)) (skipn (Z.to_nat (source s)) (smem s))
    /\ source s' = source s + aux0 s
    /\ send s' = send s
    /\ error s' = error s.
Proof.
  intros Hbytes Hsrc Hsend (Htb & Htt & Htend) Hs64 Ht64 Hst Hfin Hsub Hbc Hbb
    Hlen Hsl Hroom Hf.
  assert (Hself : slow_at (tmem s) (target s) (source s) 0 s = s).
  { rewrite <- Hbc. apply slow_at_self.
    rewrite Hbb, Hbc, bits_at_zero. reflexivity. }
  destruct (memcpy_some (tmem s) (target s) (smem s) (source s) (aux0 s))
    as (tm' & Hcp); try lia.
  destruct (memcpy_output _ _ _ _ _ _ (tbgn s) Hcp ltac:(lia)) as (Hl & Hout).
  pose proof (strd_state3_whole s (tmem s) (target s) (source s) tm'
                ltac:(lia) ltac:(lia) Hs64 Ht64 Hlen Hsl Hroom Hcp) as Hrun.
  rewrite Hself in Hrun.
  eexists. split; [ | split; [ | split; [ | split ] ] ].
  - destruct f as [ | f ]; [ lia | ].
    cbn [inflate_loop]. rewrite bind_gets, Hst.
    change (1 =? 0) with false. change (1 =? 1) with true. cbv iota.
    unfold decodestrd. rewrite bind_assoc, bind_gets, Hsub.
    change (3 =? 1) with false. change (3 =? 2) with false.
    change (3 =? 3) with true. cbv iota.
    run Hrun. change (negb (INFLT_OK =? 0)) with false. cbv iota.
    rewrite bind_modify.
    destruct f as [ | f ]; [ lia | ].
    cbn [inflate_loop]. rewrite bind_gets. fields.
    change (0 =? 0) with true. cbv iota.
    rewrite bind_gets. fields. rewrite Hfin.
    change (negb (1 =? 0)) with true. cbv iota.
    rewrite bind_modify. unfold ret. reflexivity.
  - unfold output at 1. fields. exact Hout.
  - fields. reflexivity.
  - fields. reflexivity.
  - fields. reflexivity.
Qed.

(** What the call that fills the target span leaves for the next one. *)
Lemma inflate_loop_stored_first_span f s q len :
  reservoir_ok s -> target_ok s -> send s < 2 ^ 64 -> tend s < 2 ^ 64 ->
  state s = 0 -> final s = 0 -> substate s = 0 -> bcount s <= 32 ->
  q = 8 * ((bitpos s + 3 + 7) / 8) ->
  bits_at (smem s) (bitpos s) 1 = 1 ->
  bits_at (smem s) (bitpos s + 1) 2 = 0 ->
  len = bits_at (smem s) q 16 ->
  bits_at (smem s) (q + 16) 16 = 65535 - len ->
  q + 32 + 8 * len <= 8 * send s ->
  tend s < target s + len ->
  (4 <= f)%nat ->
  exists s',
    inflate_loop (S f) s = Ok INFLT_TGTEXHSTD s'
    /\ output s'
       = output s
         ++ firstn (Z.to_nat (tend s - target s))
              (skipn (Z.to_nat (q / 8 + 4)) (smem s))
    /\ smem s' = smem s /\ send s' = send s
    /\ source s' = q / 8 + 4 + (tend s - target s)
    /\ state s' = 1 /\ final s' = 1 /\ substate s' = 3
    /\ bcount s' = 0 /\ bbuffer s' = 0
    /\ aux0 s' = len - (tend s - target s)
    /\ error s' = error s.
Proof.
  intros Hres1 Htgt1 Hs64 Ht64 Hst Hfin Hsub Hbc Hq Hb0 Hb1 Hlen Hnlen Hav
    Hroom Hfuel.
  pose proof Hres1 as (Hbytes & Hsrc & Hsend & Hbc' & Hpos & Hbb).
  assert (Hq' : bitpos s + 3 <= q <= bitpos s + 10 /\ q = 8 * (q / 8)).
  { rewrite Hq.
    rewrite (Z.mul_comm 8 ((bitpos s + 3 + 7) / 8)), Z.div_mul by lia.
    pose proof (Z.div_mod (bitpos s + 3 + 7) 8 ltac:(lia)).
    pose proof (Z.mod_pos_bound (bitpos s + 3 + 7) 8 ltac:(lia)).
    lia. }
  pose proof (bits_at_range (smem s) q 16 ltac:(lia)) as Hlr.
  rewrite <- Hlen in Hlr.
  assert (Hav0 : bitpos s + 3 <= 8 * send s) by lia.
  destruct (inflate_loop_header f s Hres1 Hst Hfin Hav0 ltac:(lia))
    as (src & bc & Hrun & Hp2 & Hs2 & Hb2 & Hx2).
  rewrite Hrun. clear Hrun.
  rewrite Hb0, Hb1. change (0 + 1) with 1.
  set (s2 := slow_at (tmem s) (target s) src bc
               (set_state 1 (set_final 1 s))).
  assert (Hres2 : reservoir_ok s2).
  { apply reservoir_ok_slow_at; try assumption; cbn [send set_state set_final];
      lia. }
  assert (Hq2 : stored_start s2 = q).
  { unfold stored_start, bitpos, s2. fields. rewrite Hp2, Hq. reflexivity. }
  assert (Hsm2 : smem s2 = smem s) by reflexivity.
  assert (Hl2 : stored_len s2 = len).
  { unfold stored_len. rewrite Hq2, Hsm2. symmetry. exact Hlen. }
  assert (Hse2 : send s2 = send s) by reflexivity.
  assert (Hte2 : tend s2 = tend s) by reflexivity.
  assert (Hta2 : target s2 = target s) by reflexivity.
  assert (Hbc2 : bcount s2 = bc) by reflexivity.
  assert (Ho2 : output s2 = output s) by reflexivity.
  assert (He2 : error s2 = error s) by reflexivity.
  assert (Hst2 : state s2 = 1) by reflexivity.
  assert (Hfi2 : final s2 = 1) by reflexivity.
  assert (Hsu2 : substate s2 = 0) by exact Hsub.
  assert (Htg2 : target_ok s2) by exact Htgt1.
  assert (Htb2 : tbgn s2 = tbgn s) by reflexivity.
  clearbody s2.
  assert (Hs642 : send s2 < 2 ^ 64) by (rewrite Hse2; exact Hs64).
  assert (Ht642 : tend s2 < 2 ^ 64) by (rewrite Hte2; exact Ht64).
  assert (Hb32 : bcount s2 <= 32) by (rewrite Hbc2; lia).
  assert (Hav2 : stored_start s2 + 32 + 8 * stored_len s2 <= 8 * send s2)
    by (rewrite Hl2, Hq2, Hse2; lia).
  assert (Hn2 : stored_nlen s2 = 65535 - stored_len s2)
    by (unfold stored_nlen; rewrite Hl2, Hq2, Hsm2; exact Hnlen).
  assert (Hroom2 : tend s2 < target s2 + stored_len s2)
    by (rewrite Hl2, Hta2, Hte2; lia).
  destruct (stored_block_fills_span f s2 Hres2 Htg2 Hs642 Ht642 Hst2 Hfi2
              Hsu2 Hb32 Hav2 Hn2 Hroom2 ltac:(lia))
    as (tm' & Hrun & Hl & Hout).
  eexists. split; [ exact Hrun | ].
  unfold output at 1. fields.
  rewrite Hout, Ho2, Hl2, Hq2, Hsm2, Hse2, Hte2, Hta2, He2, Hst2, Hfi2.
  rewrite bits_at_zero.
  repeat split; reflexivity.
Qed.

Lemma inflate_stored_first_span fuel fin s q len :
  reservoir_ok s -> target_ok s -> send s < 2 ^ 64 -> tend s < 2 ^ 64 ->
  state s = 0 -> final s = 0 -> substate s = 0 -> bcount s <= 32 ->
  q = 8 * ((bitpos s + 3 + 7) / 8) ->
  bits_at (smem s) (bitpos s) 1 = 1 ->
  bits_at (smem s) (bitpos s + 1) 2 = 0 ->
  len = bits_at (smem s) q 16 ->
  bits_at (smem s) (q + 16) 16 = 65535 - len ->
  q + 32 + 8 * len <= 8 * send s ->
  tend s < target s + len ->
  (5 <= fuel)%nat ->
  exists s',
    inflator_inflate fuel fin s = Ok INFLT_TGTEXHSTD s'
    /\ output s'
       = output s
         ++ firstn (Z.to_nat (tend s - target s))
              (skipn (Z.to_nat (q / 8 + 4)) (smem s))
    /\ smem s' = smem s /\ send s' = send s
    /\ source s' = q / 8 + 4 + (tend s - target s)
    /\ state s' = 1 /\ final s' = 1 /\ substate s' = 3
    /\ bcount s' = 0 /\ bbuffer s' = 0
    /\ aux0 s' = len - (tend s - target s)
    /\ error s' = error s.
Proof.
  intros Hres Htgt Hs64 Ht64 Hst Hfin Hsub Hbc Hq Hb0 Hb1 Hlen Hnlen Hav
    Hroom Hfuel.
  destruct (inflate_enters fuel fin s Hst) as (fi & ->).
  destruct fuel as [ | f ]; [ lia | ].
  exact (inflate_loop_stored_first_span f (set_used 1 (set_finalinput fi s))
           q len Hres Htgt Hs64 Ht64 Hst Hfin Hsub Hbc Hq Hb0 Hb1 Hlen Hnlen
           Hav Hroom ltac:(lia)).
Qed.

(** The call that resumes the copy, from [inflator_inflate]. *)
Lemma inflate_stored_resume fuel fin s :
  Forall is_byte (smem s) ->
  0 <= source s -> send s <= Z.of_nat (length (smem s)) ->
  target_ok s -> send s < 2 ^ 64 -> tend s < 2 ^ 64 ->
  state s = 1 -> final s = 1 -> substate s = 3 ->
  bcount s = 0 -> bbuffer s = 0 ->
  0 <= aux0 s -> source s + aux0 s <= send s ->
  target s + aux0 s <= tend s ->
  (2 <= fuel)%nat ->
  exists s',
    inflator_inflate fuel fin s = Ok INFLT_OK s'
    /\ output s'
       = output s
         ++ firstn (Z.to_nat (aux0 s)) (skipn (Z.to_nat (source s)) (smem s))
    /\ source s' = source s + aux0 s
    /\ send s' = send s
    /\ error s' = error s.
Proof.
  intros Hbytes Hsrc Hsend Htgt Hs64 Ht64 Hst Hfin Hsub Hbc Hbb Hlen Hsl
    Hroom Hf.
  destruct (inflate_enters_block fuel fin s Hst) as (fi & ->).
  exact (stored_block_resumes fuel (set_used 1 (set_finalinput fi s))
           Hbytes Hsrc Hsend Htgt Hs64 Ht64 Hst Hfin Hsub Hbc Hbb Hlen Hsl
           Hroom Hf).
Qed.

(** A stream of one stored block decodes over two target spans.  For
    [data] of fewer than 65536 bytes, a fresh decoder given the stream
    that holds [data] in one final stored block and a target span of [n1]
    bytes, fewer than [data] has, returns [INFLT_TGTEXHSTD] with the first
    [n1] bytes of [data] as its output; given a second target span with
    room for the rest, the next call returns [INFLT_OK] with the rest of
    [data] as its output, the source span read to its end and no error
    code. *)
Theorem inflate_stored_stream_in_two_spans (data : list Z)
    (n1 n2 fuel : nat) (fin1 fin2 : Z) :
  Forall is_byte data ->
  Z.of_nat (length data) < 65536 ->
  (n1 < length data)%nat -> (length data - n1 <= n2)%nat ->
  Z.of_nat n2 < 2 ^ 64 ->
  (5 <= fuel)%nat ->
  exists s1 s2,
    inflator_inflate fuel fin1 (start (stored_stream data) n1)
    = Ok INFLT_TGTEXHSTD s1
    /\ output s1 = firstn n1 data
    /\ inflator_inflate fuel fin2 (inflator_settgt (repeat 0 n2) s1)
       = Ok INFLT_OK s2
    /\ output s2 = skipn n1 data
    /\ source s2 = send s2
    /\ error s2 = 0.
Proof.
  intros Hd Hn Hn1 Hn2 Hn264 Hfuel.
  pose proof (stored_stream_bytes data Hd Hn) as Hb.
  destruct (stored_stream_fields data Hd Hn) as (F0 & F1 & F2 & F3).
  assert (H64 : 2 ^ 64 = 18446744073709551616) by reflexivity.
  set (s := start (stored_stream data) n1).
  assert (Hsm : smem s = stored_stream data) by reflexivity.
  assert (Hse : send s = Z.of_nat (length (stored_stream data)))
    by reflexivity.
  assert (Hlen : length (stored_stream data) = (5 + length data)%nat)
    by reflexivity.
  assert (Hte : tend s = Z.of_nat (length (repeat 0 n1))) by reflexivity.
  rewrite List.repeat_length in Hte.
  destruct (inflate_stored_first_span fuel fin1 s 8 (Z.of_nat (length data)))
    as (s1 & Hrun1 & Ho1 & Hsm1 & Hse1 & Hsr1 & Hst1 & Hfi1 & Hsu1 & Hbc1
        & Hbb1 & Hau1 & Her1).
  - unfold reservoir_ok. rewrite Hsm, Hse.
    split; [ exact Hb | ].
    change (source s) with 0. change (bcount s) with 0.
    change (bitpos s) with 0. change (bbuffer s) with 0.
    rewrite bits_at_zero. repeat split; lia.
  - unfold target_ok. rewrite Hte.
    change (tbgn s) with 0. change (target s) with 0.
    change (tmem s) with (repeat 0 n1). rewrite List.repeat_length. lia.
  - rewrite Hse, Hlen. lia.
  - rewrite Hte. lia.
  - reflexivity.
  - reflexivity.
  - reflexivity.
  - change (bcount s) with 0. lia.
  - reflexivity.
  - rewrite Hsm. exact F0.
  - rewrite Hsm. exact F1.
  - rewrite Hsm. symmetry. exact F2.
  - rewrite Hsm. exact F3.
  - rewrite Hse, Hlen. lia.
  - rewrite Hte. change (target s) with 0. lia.
  - exact Hfuel.
  - change (output s) with (@nil Z) in Ho1.
    change (target s) with 0 in Ho1, Hsr1, Hau1.
    change (error s) with 0 in Her1.
    rewrite Hte, Hsm in Ho1. rewrite Hte in Hsr1, Hau1.
    rewrite Z.sub_0_r in Ho1, Hsr1, Hau1.
    change (Z.to_nat (8 / 8 + 4)) with 5%nat in Ho1.
    change (8 / 8 + 4) with 5 in Hsr1.
    cbn [app] in Ho1. unfold stored_stream in Ho1. cbn [app skipn] in Ho1.
    rewrite Nat2Z.id in Ho1.
    set (t := inflator_settgt (repeat 0 n2) s1).
    assert (T1 : smem t = smem s1 /\ send t = send s1 /\ source t = source s1
                 /\ state t = state s1 /\ final t = final s1
                 /\ substate t = substate s1 /\ bcount t = bcount s1
                 /\ bbuffer t = bbuffer s1 /\ aux0 t = aux0 s1
                 /\ error t = error s1)
      by (repeat split; reflexivity).
    destruct T1 as (Tsm & Tse & Tsr & Tst & Tfi & Tsu & Tbc & Tbb & Tau & Ter).
    assert (T2 : tbgn t = 0 /\ target t = 0 /\ tend t = Z.of_nat n2
                 /\ length (tmem t) = n2 /\ output t = [])
      by (unfold t, inflator_settgt, output; fields;
          rewrite List.repeat_length; repeat split; reflexivity).
    destruct T2 as (Ttb & Tta & Tte & Ttm & Tou).
    destruct (inflate_stored_resume fuel fin2 t)
      as (s2 & Hrun2 & Ho2 & Hsr2 & Hse2 & Her2).
    + rewrite Tsm, Hsm1, Hsm. exact Hb.
    + rewrite Tsr, Hsr1. lia.
    + rewrite Tse, Tsm, Hse1, Hsm1, Hse, Hsm. lia.
    + unfold target_ok. rewrite Ttb, Tta, Tte, Ttm. lia.
    + rewrite Tse, Hse1, Hse, Hlen. lia.
    + rewrite Tte. lia.
    + rewrite Tst. exact Hst1.
    + rewrite Tfi. exact Hfi1.
    + rewrite Tsu. exact Hsu1.
    + rewrite Tbc. exact Hbc1.
    + rewrite Tbb. exact Hbb1.
    + rewrite Tau, Hau1. lia.
    + rewrite Tsr, Tau, Tse, Hsr1, Hau1, Hse1, Hse, Hlen. lia.
    + rewrite Tta, Tau, Tte, Hau1. lia.
    + lia.
    + exists s1, s2.
      split; [ exact Hrun1 | ]. split; [ exact Ho1 | ].
      split; [ exact Hrun2 | ].
      rewrite Ho2, Hsr2, Hse2, Her2, Tou, Tau, Tsr, Tsm, Tse, Ter.
      rewrite Hau1, Hsr1, Hsm1, Hse1, Her1, Hsm, Hse, Hlen.
      split; [ | split; [ lia | reflexivity ] ].
      cbn [app]. unfold stored_stream.
      replace (Z.to_nat (5 + Z.of_nat n1)) with (n1 + 5)%nat by lia.
      rewrite <- skipn_skipn. cbn [app]. cbn [skipn].
      replace (Z.to_nat (Z.of_nat (length data) - Z.of_nat n1))
        with (length (skipn n1 data)) by (rewrite length_skipn; lia).
      apply firstn_all.
Qed.

Lemma inflate_stored_stream_in_two_spans_witness :
  exists s1 s2,
    inflator_inflate 5 0 (start (stored_stream [72; 105; 33]) 1)
    = Ok INFLT_TGTEXHSTD s1
    /\ output s1 = firstn 1 [72; 105; 33]
    /\ inflator_inflate 5 0 (inflator_settgt (repeat 0 4) s1)
       = Ok INFLT_OK s2
    /\ output s2 = skipn 1 [72; 105; 33]
    /\ source s2 = send s2
    /\ error s2 = 0.
Proof.
  apply (inflate_stored_stream_in_two_spans [72; 105; 33] 1 4 5 0 0).
  - apply is_byteb_all. reflexivity.
  - reflexivity.
  - cbn [length]. lia.
  - cbn [length]. lia.
  - reflexivity.
  - lia.
Defined.
